(** * SPT-AdditionalSettings: the configuration subsystem and its consumers

    A shallow embedding of [src/module_configuration.ts] (sanitizer, generic
    loader/merger, the two validators), of the legacy loader
    [src/configCreation.ts], and of the consumers' data mutations
    ([module_core.ts], [module_ammo.ts], [module_lostondeath.ts],
    [module_ptime.ts]), followed by the properties of the specification.

    Conventions.
    - A JavaScript string is a [string]: a sequence of code units below 256
      (the Latin-1 part of UTF-16).  The bundled templates are pure ASCII.
    - A JavaScript number is [NaN], an infinity, or a finite value kept as an
      exact rational ([Q]).  Every finite double is a rational, and the
      operations the validators use ([Number.isInteger], [<], [>], [===],
      [Math.floor], [Math.round]) are exact on doubles, so they are their
      rational counterparts here; the product, the sum and the value of a
      literal are rounded to the nearest double ([Js.toDouble]).  Negative
      zero is not distinguished from zero (JavaScript's [===], [<] and
      [Number.isInteger] do not either).
    - An object is an association list in property order. *)

From Stdlib Require Import ZArith QArith Qround List String Ascii Bool Lia.
From Stdlib Require Import DecimalString.
Import ListNotations.

Local Open Scope string_scope.
Local Open Scope Z_scope.

(* ================================================================== *)
(** ** Text: character classes and the regular-expression passes *)
(* ================================================================== *)

Module Text.

Definition code (c : ascii) : N := N_of_ascii c.

(** The double-quote character. *)
Definition dquote : ascii := ascii_of_N 34.

(** [\s] of a JavaScript regular expression, which is also what
    [String.prototype.trim] strips: TAB, LF, VT, FF, CR, SPACE and NBSP
    (the members of that class below 256). *)
Definition isSpace (c : ascii) : bool :=
  let n := code c in
  (n =? 9)%N || (n =? 10)%N || (n =? 11)%N || (n =? 12)%N || (n =? 13)%N
  || (n =? 32)%N || (n =? 160)%N.

(** Line terminators: what [.] refuses and what [$] stops at under the
    [m] flag (LF and CR below 256). *)
Definition isLineTerminator (c : ascii) : bool :=
  let n := code c in (n =? 10)%N || (n =? 13)%N.

Definition isSlash (c : ascii) : bool := (code c =? 47)%N.
Definition isStar (c : ascii) : bool := (code c =? 42)%N.
Definition isComma (c : ascii) : bool := (code c =? 44)%N.

(** [[}\]]] *)
Definition isCloser (c : ascii) : bool :=
  let n := code c in (n =? 125)%N || (n =? 93)%N.

(** The lookbehind class of the line-comment pattern: colon, double
    quote, single quote and backslash. *)
Definition isGuard (c : ascii) : bool :=
  let n := code c in (n =? 58)%N || (n =? 34)%N || (n =? 39)%N || (n =? 92)%N.

(** [String.prototype.trim]. *)
Fixpoint trimStart (s : string) : string :=
  match s with
  | EmptyString => EmptyString
  | String c r => if isSpace c then trimStart r else s
  end.

Fixpoint trimEnd (s : string) : string :=
  match s with
  | EmptyString => EmptyString
  | String c r =>
      match trimEnd r with
      | EmptyString => if isSpace c then EmptyString else String c EmptyString
      | r' => String c r'
      end
  end.

Definition trim (s : string) : string := trimEnd (trimStart s).

(** Does the text hold a [*/]? *)
Fixpoint hasBlockEnd (s : string) : bool :=
  match s with
  | EmptyString => false
  | String c r =>
      match r with
      | String d _ => (isStar c && isSlash d) || hasBlockEnd r
      | EmptyString => false
      end
  end.

(** [s.replace(/\/\*[\s\S]*?\*\//g, '')].

    The scan is either outside a comment or inside one ([inC]).  Outside,
    a [/*] opens a match only when a [*/] lies ahead of it (the lazy body
    then ends at the first one); when none lies ahead no later opener can
    match either and the rest is kept as it is.  Inside, text is dropped up
    to and including the first [*/]. *)
Fixpoint removeBlockComments' (inC : bool) (s : string) {struct s} : string :=
  match s with
  | EmptyString => EmptyString
  | String c r =>
      if inC then
        match r with
        | String d r' =>
            if isStar c && isSlash d then removeBlockComments' false r'
            else removeBlockComments' true r
        | EmptyString => EmptyString
        end
      else
        match r with
        | String d r' =>
            if isSlash c && isStar d then
              if hasBlockEnd r' then removeBlockComments' true r' else s
            else String c (removeBlockComments' false r)
        | EmptyString => s
        end
  end.

Definition removeBlockComments : string -> string :=
  removeBlockComments' false.

(** The second [replace] of [stripJsonComments]: under the flags [g] and
    [m], two slashes not preceded by a guard character (negative
    lookbehind), then every code unit up to the end of the line, are
    replaced by nothing.

    [prev] is the code unit before the current position ([None] at the
    start of the text, where the negative lookbehind holds); [skipping] is
    set while the scan is inside a match, which runs to the end of the line
    and leaves the line terminator in place. *)
Fixpoint removeLineComments' (prev : option ascii) (skipping : bool)
         (s : string) {struct s} : string :=
  match s with
  | EmptyString => EmptyString
  | String c r =>
      if skipping then
        if isLineTerminator c
        then String c (removeLineComments' (Some c) false r)
        else removeLineComments' (Some c) true r
      else
        match r with
        | String d r' =>
            if isSlash c && isSlash d
               && negb (match prev with Some p => isGuard p | None => false end)
            then removeLineComments' (Some d) true r'
            else String c (removeLineComments' (Some c) false r)
        | EmptyString => s
        end
  end.

Definition removeLineComments : string -> string :=
  removeLineComments' None false.

(** The fallback pass of the [catch] branch, [s.replace(/\/\/.*$/gm, '')]:
    the same scan without the lookbehind. *)
Fixpoint removeLineCommentsSimple' (skipping : bool) (s : string)
         {struct s} : string :=
  match s with
  | EmptyString => EmptyString
  | String c r =>
      if skipping then
        if isLineTerminator c
        then String c (removeLineCommentsSimple' false r)
        else removeLineCommentsSimple' true r
      else
        match r with
        | String d r' =>
            if isSlash c && isSlash d
            then removeLineCommentsSimple' true r'
            else String c (removeLineCommentsSimple' false r)
        | EmptyString => s
        end
  end.

(** After optional white space, does a closer come next?  This is the
    rest of [/,\s*([}\]])/] once the comma has been read. *)
Fixpoint closerAfterSpace (s : string) : bool :=
  match s with
  | EmptyString => false
  | String c r => if isSpace c then closerAfterSpace r else isCloser c
  end.

(** The [replace] of [fixTrailingCommas]: a comma, any white space and a
    closer are replaced by the closer alone (the first capture group).

    [dropping] is set after a matched comma while its white space is being
    discarded; the closer that ends the match is copied. *)
Fixpoint dropTrailingCommas (dropping : bool) (s : string) {struct s} : string :=
  match s with
  | EmptyString => EmptyString
  | String c r =>
      if dropping && isSpace c then dropTrailingCommas true r
      else if negb dropping && isComma c && closerAfterSpace r
           then dropTrailingCommas true r
           else String c (dropTrailingCommas false r)
  end.

End Text.

(* ================================================================== *)
(** ** JavaScript values *)
(* ================================================================== *)

Module Js.

(** A [number]: IEEE's NaN and infinities, or a finite value. *)
Inductive number : Type :=
| NaN
| Infinity (negative : bool)
| Finite (q : Q).

#[local] Unset Elimination Schemes.
Inductive value : Type :=
| Undefined
| Null
| Bool (b : bool)
| Num (n : number)
| Str (s : string)
| Arr (elements : list value)
| Obj (properties : list (string * value)).
#[local] Set Elimination Schemes.

(** An object as the loader and the validators see it: own enumerable
    properties in order. *)
Definition object : Type := list (string * value).

Definition int (z : Z) : value := Num (Finite (inject_Z z)).

(** *** Numbers *)

Definition isNaN (n : number) : bool :=
  match n with NaN => true | _ => false end.

Definition isFiniteNumber (n : number) : bool :=
  match n with Finite _ => true | _ => false end.

Definition isIntegerQ (q : Q) : bool := (Qnum q mod Zpos (Qden q) =? 0).

Definition isIntegerNumber (n : number) : bool :=
  match n with Finite q => isIntegerQ q | _ => false end.

(** [a < b] on numbers; any comparison with NaN is false. *)
Definition ltb (a b : number) : bool :=
  match a, b with
  | NaN, _ | _, NaN => false
  | Infinity true, Infinity true => false
  | Infinity true, _ => true
  | _, Infinity true => false
  | Infinity false, _ => false
  | _, Infinity false => true
  | Finite x, Finite y => negb (Qle_bool y x)
  end.

Definition gtb (a b : number) : bool := ltb b a.

(** [a === b] on numbers. *)
Definition eqb (a b : number) : bool :=
  match a, b with
  | Finite x, Finite y => Qeq_bool x y
  | Infinity s, Infinity t => Bool.eqb s t
  | _, _ => false
  end.

(** [a >= b] on numbers. *)
Definition geb (a b : number) : bool := gtb a b || eqb a b.

Definition ofZ (z : Z) : number := Finite (inject_Z z).

(** [Math.floor]. *)
Definition floor (n : number) : number :=
  match n with Finite q => ofZ (Qfloor q) | _ => n end.

(** [Math.round]: the nearest integer, halves towards plus infinity. *)
Definition round (n : number) : number :=
  match n with Finite q => ofZ (Qfloor (q + (1 # 2))) | _ => n end.

(** [Math.max] of two numbers. *)
Definition max (a b : number) : number :=
  if isNaN a || isNaN b then NaN else if ltb a b then b else a.

(** *** Doubles

    A finite number is a double (IEEE 754 binary64), held as the
    rational it denotes; minus zero is not told from zero.  The product
    and the sum of two doubles are the exact result rounded to the
    nearest double, the one with an even significand of two that are
    equally near, and an infinity past the largest double. *)

(** The integer nearest to [n / d], the even one of two that are equally
    near. *)
Definition nearestEven (n : Z) (d : positive) : Z :=
  let below := n / Zpos d in
  let twice := 2 * (n mod Zpos d) in
  if twice <? Zpos d then below
  else if Zpos d <? twice then below + 1
  else if Z.even below then below else below + 1.

(** [n / d] divided by [2 ^ e], as a fraction. *)
Definition scaledBy (n d : positive) (e : Z) : Z * positive :=
  if 0 <=? e then (Zpos n, (d * Z.to_pos (2 ^ e))%positive)
  else (Zpos n * 2 ^ (- e), d).

(** The binary exponent of [n / d]: the [e] with
    [2 ^ e <= n / d < 2 ^ (e + 1)]. *)
Definition binaryExponent (n d : positive) : Z :=
  let e := Z.log2 (Zpos n) - Z.log2 (Zpos d) in
  let '(n', d') := scaledBy n d e in
  if n' <? Zpos d' then e - 1 else e.

(** The double nearest to [n / d], with its sign.  The significand has
    53 bits; the exponent of its last bit is at least -1074 (below that
    the number is rounded on the grid of the subnormal doubles); a result
    that reaches [2 ^ 1024] is an infinity. *)
Definition nearestDouble (negative : bool) (n d : positive) : number :=
  let e := binaryExponent n d in
  if 1024 <=? e then Infinity negative
  else
    let quantum := Z.max (e - 52) (-1074) in
    let '(n', d') := scaledBy n d quantum in
    let significand := nearestEven n' d' in
    if (quantum =? 971) && (significand =? 2 ^ 53) then Infinity negative
    else
      let signed := if negative then - significand else significand in
      Finite (Qred (if 0 <=? quantum then inject_Z (signed * 2 ^ quantum)
                    else Qmake signed (Z.to_pos (2 ^ (- quantum))))).

(** The Number value for a rational. *)
Definition toDouble (q : Q) : number :=
  let q := Qred q in
  match Qnum q with
  | Z0 => Finite 0
  | Zpos n => nearestDouble false n (Qden q)
  | Zneg n => nearestDouble true n (Qden q)
  end.

(** [a * b]. *)
Definition mul (a b : number) : number :=
  match a, b with
  | Finite x, Finite y => toDouble (x * y)
  | NaN, _ | _, NaN => NaN
  | Infinity s, Infinity t => Infinity (xorb s t)
  | Infinity s, Finite y | Finite y, Infinity s =>
      if Qeq_bool y 0 then NaN
      else Infinity (xorb s (negb (Qle_bool 0 y)))
  end.

(** [a + b]. *)
Definition add (a b : number) : number :=
  match a, b with
  | Finite x, Finite y => toDouble (x + y)
  | NaN, _ | _, NaN => NaN
  | Infinity s, Infinity t => if Bool.eqb s t then Infinity s else NaN
  | Infinity s, Finite _ | Finite _, Infinity s => Infinity s
  end.

(** [a <= b] on numbers. *)
Definition leb (a b : number) : bool := ltb a b || eqb a b.

(** *** [typeof] and friends *)

Definition isBoolean (v : value) : bool :=
  match v with Bool _ => true | _ => false end.

Definition isNumber (v : value) : bool :=
  match v with Num _ => true | _ => false end.

Definition isString (v : value) : bool :=
  match v with Str _ => true | _ => false end.

(** [Array.isArray]. *)
Definition isArray (v : value) : bool :=
  match v with Arr _ => true | _ => false end.

(** [Number.isInteger], which is false on anything but a number. *)
Definition Number_isInteger (v : value) : bool :=
  match v with Num n => isIntegerNumber n | _ => false end.

(** [Number.isFinite], which is false on anything but a number. *)
Definition Number_isFinite (v : value) : bool :=
  match v with Num n => isFiniteNumber n | _ => false end.

(** The number a value holds; the callers test [typeof] or
    [Number.isInteger] first, so no coercion is ever needed. *)
Definition toNum (v : value) : number :=
  match v with Num n => n | _ => NaN end.

Definition truthy (v : value) : bool :=
  match v with
  | Undefined | Null => false
  | Bool b => b
  | Num NaN => false
  | Num (Finite q) => negb (Qeq_bool q 0)
  | Num (Infinity _) => true
  | Str s => negb (String.eqb s "")
  | Arr _ | Obj _ => true
  end.

(** [v === w] where [w] is a primitive; arrays and objects are equal to
    nothing but themselves, and never to a primitive. *)
Definition strictEq (v w : value) : bool :=
  match v, w with
  | Undefined, Undefined | Null, Null => true
  | Bool a, Bool b => Bool.eqb a b
  | Num a, Num b => eqb a b
  | Str a, Str b => String.eqb a b
  | _, _ => false
  end.

(** *** Objects *)

(** [o[key]]: [undefined] when the property is absent. *)
Fixpoint get (o : object) (key : string) : value :=
  match o with
  | [] => Undefined
  | (k, v) :: rest => if String.eqb k key then v else get rest key
  end.

(** [Object.prototype.hasOwnProperty.call(o, key)]. *)
Fixpoint hasOwn (o : object) (key : string) : bool :=
  match o with
  | [] => false
  | (k, _) :: rest => String.eqb k key || hasOwn rest key
  end.

(** [o[key] = v]: in place when the property exists, appended otherwise. *)
Fixpoint set (o : object) (key : string) (v : value) : object :=
  match o with
  | [] => [(key, v)]
  | (k, w) :: rest =>
      if String.eqb k key then (k, v) :: rest else (k, w) :: set rest key v
  end.

(** [Object.keys]. *)
Definition keys (o : object) : list string := map fst o.

(** [array.includes(key)] on an array of strings. *)
Definition includes (l : list string) (key : string) : bool :=
  existsb (String.eqb key) l.

End Js.

(* ================================================================== *)
(** ** Exceptions *)
(* ================================================================== *)

(** What a [throw] carries: whether it is a [SyntaxError] (the loader asks)
    and its message. *)
Record Error : Type := mkError { isSyntaxError : bool; message : string }.

(** A computation that returns or throws. *)
Inductive Exc (A : Type) : Type :=
| Return (a : A)
| Throw (e : Error).
Arguments Return {A} a.
Arguments Throw {A} e.

Definition bind {A B : Type} (m : Exc A) (k : A -> Exc B) : Exc B :=
  match m with
  | Return a => k a
  | Throw e => Throw e
  end.

(** [try { body } catch (e) { handler e }]. *)
Definition tryCatch {A : Type} (body : Exc A) (handler : Error -> Exc A) : Exc A :=
  match body with
  | Return a => Return a
  | Throw e => handler e
  end.

Notation "x <- m ;; k" := (bind m (fun x => k))
  (at level 61, m at next level, right associativity).

Definition TypeError (msg : string) : Error := mkError false msg.

(* ================================================================== *)
(** ** The comment and syntax sanitizer ([module_configuration.ts]) *)
(* ================================================================== *)

Module Sanitizer.
Import Text.

(** [jsonString.replace(pattern, ...)]: a method call on a value that is
    not a string throws a [TypeError]; on a string the regular-expression
    passes of [Text] apply. *)
Definition replaceWith (pass : string -> string) (jsonString : Js.value)
  : Exc string :=
  match jsonString with
  | Js.Str s => Return (pass s)
  | _ => Throw (TypeError "jsonString.replace is not a function")
  end.

(** [stripJsonComments]: block comments first, then line comments, then
    [trim]; the [catch] branch repeats the work with the simpler line
    pattern. *)
Definition stripJsonComments (jsonString : Js.value) : Exc string :=
  if negb (Js.isString jsonString) then Return ""
  else
    tryCatch
      (uncommented <- replaceWith removeBlockComments jsonString ;;
       uncommented <- replaceWith removeLineComments (Js.Str uncommented) ;;
       Return (trim uncommented))
      (fun _ =>
         uncommented <- replaceWith removeBlockComments jsonString ;;
         uncommented <- replaceWith (removeLineCommentsSimple' false)
                                    (Js.Str uncommented) ;;
         Return (trim uncommented)).

(** [fixTrailingCommas]: the input itself when it is not a string or when
    the replacement throws. *)
Definition fixTrailingCommas (jsonString : Js.value) : Exc Js.value :=
  if negb (Js.isString jsonString) then Return jsonString
  else
    tryCatch
      (fixed <- replaceWith (dropTrailingCommas false) jsonString ;;
       Return (Js.Str fixed))
      (fun _ => Return jsonString).

(** The two functions on text, which is what the loader gives them; on a
    string the wrappers above reduce to these ([stripJsonComments_text] and
    [fixTrailingCommas_text] below). *)
Definition stripText (s : string) : string :=
  trim (removeLineComments (removeBlockComments s)).

Definition fixText (s : string) : string := dropTrailingCommas false s.

(** [fixTrailingCommas(stripJsonComments(rawContent))]. *)
Definition processText (s : string) : string := fixText (stripText s).

End Sanitizer.

(* ================================================================== *)
(** ** Strict JSON parsing (the host's [JsonUtil]) *)
(* ================================================================== *)

(** Modelled from the spec: [jsonUtil.deserialize] and [jsonUtil.clone]
    belong to the host and are not among the sources.  The specification has
    the loader parse the sanitized text as strict JSON and fall back to the
    defaults on a parse failure, which the loader's [catch] handles as a
    thrown [SyntaxError]; so [deserialize] is [JSON.parse], throwing on
    text that is not JSON.  A decimal literal is read as the double
    nearest to it, magnitudes beyond the double range become infinities,
    and a [\u] escape must denote a code unit below 256.  Properties are kept in the order of the text, a
    repeated key keeping its first place and its last value; JavaScript
    moves keys that are array indices to the front, which only the order
    of the loader's debug lines could show. *)
Module Json.
Import Text.

Definition isCode (n : N) (c : ascii) : bool := (code c =? n)%N.

(** JSON white space: space, TAB, LF, CR. *)
Definition isJsonSpace (c : ascii) : bool :=
  isCode 32 c || isCode 9 c || isCode 10 c || isCode 13 c.

Fixpoint skipSpace (s : string) : string :=
  match s with
  | String c r => if isJsonSpace c then skipSpace r else s
  | EmptyString => EmptyString
  end.

Definition digitOf (c : ascii) : option Z :=
  let n := code c in
  if ((48 <=? n) && (n <=? 57))%N then Some (Z.of_N n - 48) else None.

Definition hexOf (c : ascii) : option N :=
  let n := code c in
  if ((48 <=? n) && (n <=? 57))%N then Some (n - 48)%N
  else if ((65 <=? n) && (n <=? 70))%N then Some (n - 55)%N
  else if ((97 <=? n) && (n <=? 102))%N then Some (n - 87)%N
  else None.

(** A run of digits: its value on top of [acc], its length, the rest. *)
Fixpoint digits (s : string) (acc : Z) (len : nat) : Z * nat * string :=
  match s with
  | String c r =>
      match digitOf c with
      | Some d => digits r (10 * acc + d) (S len)
      | None => (acc, len, s)
      end
  | EmptyString => (acc, len, s)
  end.

(** The Number value of a literal: the double nearest to the decimal
    it writes, an infinity from half an ulp beyond the largest double. *)
Definition makeNumber (negative : bool) (mantissa : Z) (exp10 : Z) : Js.number :=
  let q := if 0 <=? exp10 then inject_Z (mantissa * 10 ^ exp10)
           else Qmake mantissa (Z.to_pos (10 ^ (- exp10))) in
  Js.toDouble (if negative then - q else q).

Definition parseNumber (s : string) : option (Js.number * string) :=
  let '(negative, s) :=
    match s with
    | String c r => if isCode 45 c then (true, r) else (false, s)
    | EmptyString => (false, s)
    end in
  (* integer part: a lone zero, or a run of digits not starting with zero *)
  let intPart :=
    match s with
    | String c r =>
        if isCode 48 c then Some (0, r)
        else match digits s 0 0 with
             | (_, O, _) => None
             | (v, _, r') => Some (v, r')
             end
    | EmptyString => None
    end in
  match intPart with
  | None => None
  | Some (i, s) =>
      (* fraction *)
      let fracPart :=
        match s with
        | String c r =>
            if isCode 46 c then
              match digits r i 0 with
              | (_, O, _) => None
              | (v, len, r') => Some (v, Z.of_nat len, r')
              end
            else Some (i, 0, s)
        | EmptyString => Some (i, 0, s)
        end in
      match fracPart with
      | None => None
      | Some (m, fracLen, s) =>
          (* exponent *)
          match s with
          | String c r =>
              if isCode 101 c || isCode 69 c then
                let '(expNeg, r) :=
                  match r with
                  | String d r' =>
                      if isCode 45 d then (true, r')
                      else if isCode 43 d then (false, r') else (false, r)
                  | EmptyString => (false, r)
                  end in
                match digits r 0 0 with
                | (_, O, _) => None
                | (e, _, r') =>
                    Some (makeNumber negative m
                            ((if expNeg then - e else e) - fracLen), r')
                end
              else Some (makeNumber negative m (- fracLen), s)
          | EmptyString => Some (makeNumber negative m (- fracLen), s)
          end
      end
  end.

Definition simpleEscape (c : ascii) : option ascii :=
  if isCode 34 c || isCode 92 c || isCode 47 c then Some c
  else if isCode 98 c then Some (ascii_of_N 8)
  else if isCode 102 c then Some (ascii_of_N 12)
  else if isCode 110 c then Some (ascii_of_N 10)
  else if isCode 114 c then Some (ascii_of_N 13)
  else if isCode 116 c then Some (ascii_of_N 9)
  else None.

Definition hex4 (a b c d : ascii) : option N :=
  match hexOf a, hexOf b, hexOf c, hexOf d with
  | Some x, Some y, Some z, Some w => Some (((x * 16 + y) * 16 + z) * 16 + w)%N
  | _, _, _, _ => None
  end.

Definition consTo (c : ascii) (p : option (string * string))
  : option (string * string) :=
  match p with
  | Some (str, rest) => Some (String c str, rest)
  | None => None
  end.

(** The characters of a string literal, after its opening quote. *)
Fixpoint parseChars (s : string) : option (string * string) :=
  match s with
  | EmptyString => None
  | String c r =>
      if isCode 34 c then Some (EmptyString, r)
      else if isCode 92 c then
        match r with
        | String e r1 =>
            match simpleEscape e with
            | Some ch => consTo ch (parseChars r1)
            | None =>
                if isCode 117 e then
                  match r1 with
                  | String h1 (String h2 (String h3 (String h4 r2))) =>
                      match hex4 h1 h2 h3 h4 with
                      | Some n =>
                          if (n <? 256)%N
                          then consTo (ascii_of_N n) (parseChars r2)
                          else None
                      | None => None
                      end
                  | _ => None
                  end
                else None
            end
        | EmptyString => None
        end
      else if (code c <? 32)%N then None
      else consTo c (parseChars r)
  end.

Fixpoint dropPrefix (p s : string) : option string :=
  match p, s with
  | EmptyString, _ => Some s
  | String a p', String b s' => if Ascii.eqb a b then dropPrefix p' s' else None
  | String _ _, EmptyString => None
  end.

Fixpoint parseValue (fuel : nat) (s : string) {struct fuel}
  : option (Js.value * string) :=
  match fuel with
  | O => None
  | S fuel' =>
      match skipSpace s with
      | EmptyString => None
      | String c r as s0 =>
          if isCode 123 c then
            match skipSpace r with
            | String d r' =>
                if isCode 125 d then Some (Js.Obj [], r')
                else parseMembers fuel' r []
            | EmptyString => None
            end
          else if isCode 91 c then
            match skipSpace r with
            | String d r' =>
                if isCode 93 d then Some (Js.Arr [], r')
                else parseElements fuel' r []
            | EmptyString => None
            end
          else if isCode 34 c then
            match parseChars r with
            | Some (str, r') => Some (Js.Str str, r')
            | None => None
            end
          else
            match dropPrefix "true" s0, dropPrefix "false" s0,
                  dropPrefix "null" s0 with
            | Some r', _, _ => Some (Js.Bool true, r')
            | _, Some r', _ => Some (Js.Bool false, r')
            | _, _, Some r' => Some (Js.Null, r')
            | None, None, None =>
                match parseNumber s0 with
                | Some (n, r') => Some (Js.Num n, r')
                | None => None
                end
            end
      end
  end
with parseElements (fuel : nat) (s : string) (acc : list Js.value)
     {struct fuel} : option (Js.value * string) :=
  match fuel with
  | O => None
  | S fuel' =>
      match parseValue fuel' s with
      | Some (v, r) =>
          match skipSpace r with
          | String c r' =>
              if isCode 44 c then parseElements fuel' r' (acc ++ [v])
              else if isCode 93 c then Some (Js.Arr (acc ++ [v]), r')
              else None
          | EmptyString => None
          end
      | None => None
      end
  end
with parseMembers (fuel : nat) (s : string) (acc : Js.object)
     {struct fuel} : option (Js.value * string) :=
  match fuel with
  | O => None
  | S fuel' =>
      match skipSpace s with
      | String q r =>
          if isCode 34 q then
            match parseChars r with
            | Some (key, r1) =>
                match skipSpace r1 with
                | String c r2 =>
                    if isCode 58 c then
                      match parseValue fuel' r2 with
                      | Some (v, r3) =>
                          match skipSpace r3 with
                          | String d r4 =>
                              if isCode 44 d
                              then parseMembers fuel' r4 (Js.set acc key v)
                              else if isCode 125 d
                                   then Some (Js.Obj (Js.set acc key v), r4)
                                   else None
                          | EmptyString => None
                          end
                      | None => None
                      end
                    else None
                | EmptyString => None
                end
            | None => None
            end
          else None
      | EmptyString => None
      end
  end.

(** Modelled from the spec: [JSON.parse], which the host's
    [jsonUtil.deserialize] wraps: one value, then nothing but white
    space. *)
Definition parse (text : string) : option Js.value :=
  match parseValue (S (String.length text)) text with
  | Some (v, r) =>
      match skipSpace r with
      | EmptyString => Some v
      | String _ _ => None
      end
  | None => None
  end.

(** Modelled from the spec: [jsonUtil.deserialize(content, filename)] of
    the host, absent from the sources: strict JSON, a [SyntaxError] thrown
    on anything else. *)
Definition deserialize (content filename : string) : Exc Js.value :=
  match parse content with
  | Some v => Return v
  | None => Throw (mkError true ("Unexpected token in JSON: " ++ filename))
  end.

(** Modelled from the spec: [jsonUtil.clone] of the host, absent from the
    sources: a deep copy.  Values here are immutable terms, so a copy is
    the term itself. *)
Definition clone (o : Js.object) : Js.object := o.

End Json.

(* ================================================================== *)
(** ** The bundled templates ([module_headers.ts]) *)
(* ================================================================== *)

Module Headers.

(** The templates are written below with a backquote wherever the source
    has a double quote; [text] puts the double quotes back.  (The source
    delimits them with backquotes, so they hold none.) *)
Fixpoint text (s : string) : string :=
  match s with
  | EmptyString => EmptyString
  | String c r =>
      String (if (Text.code c =? 96)%N then Text.dquote else c) (text r)
  end.

Definition DEFAULT_MAIN_CONFIG_JSONC : string := text
"// Default Configuration for AdditionalSettings Mod
// File Format: JSON with Comments (JSONC). Comments are ignored by the loader.
// Edit values below and restart the server for changes to take effect.
{
    // --- Module Activation ---
    // Toggle the integrated sub-modules on or off. Requires server restart.

    // Enable the weather randomization module (uses config_weather.jsonc).
    // Default: false
    `use_weather_module`: false,

    // Enable modification of quest plant/placement times using multipliers below.
    // Default: false
    `use_plant_time_module`: false,

    // Enable ammo/grenade weight modification (settings below).
    // Default: false
    `use_ammo_module`: false,

    // Enable weapon modification module (settings below).
    // Default: false
    `use_weapon_module`: false,


    // --- Core Gameplay Tweaks ---

    // Allow looting armbands (Parent ID: 5b3f15d486f77432d0509248) from bodies.
    // Note: Some specific items might be internally blacklisted.
    // Default: true
    `LootArmbands`: true,

    // Prevent losing your equipped armband (ArmBand slot) upon death.
    // Default: false
    `SaveArmbandOnDeath`: false,

    // Allow looting melee weapons (Parent ID: 5447e1d04bdc2dff2f8b4567) from bodies.
    // Note: Some specific items (e.g., Kukri) might be internally blacklisted.
    // Default: true
    `LootMelee`: true,

    // Prevent losing your equipped melee weapon (Scabbard slot) upon death.
    // Default: false
    `SaveMeleeOnDeath`: false,

    // Control PMC voice line chance after kill/death.
    // true: Disable entirely (0% chance).
    // false: Use SPT default behavior.
    // number (1-100): Set specific percentage chance.
    // Default: false
    `disablePMC_ChatResponse`: false,

    // Allow 'Lega Medals' (ID: 6656560053eaaa7a23349c86) in Money Cases (ID: 59fb016586f7746d0d4b423a).
    // Default: false
    `allow_LegaMoneyCase`: false,

    // Max stack size for 'Lega Medals'. Clamped between 1 and 999.
    // Default: 50
    `stacksize_lega`: 50,

    // Remove `Found in Raid` requirement for items used in Hideout construction/upgrades.
    // Default: false
    `removeFirForHideout`: false,

    // Disable SPT's seasonal events (e.g., Christmas trees, Halloween pumpkins).
    // Modifies server config to prevent activation based on system date.
    // Default: false
    `disableSeasonEvents`: false,


    // --- Plant Time Module Settings (Only used if use_plant_time_module is true) ---
    // Adjust time multipliers. 1.0 = no change, < 1.0 = faster, > 1.0 = slower. Minimum effective time is 1s.
    // Values must be non-negative numbers. Invalid values reset to 1.0.

    // Multiplier for 'LeaveItemAtLocation' quest conditions (e.g., placing Markers, USBs).
    // Default: 1.00
    `leaveItemAtLocationModifier`: 1.00,

    // Multiplier for 'PlaceBeacon' quest conditions (e.g., placing WI-FI Camera, MS2000).
    // Default: 1.00
    `placeBeaconModifier`: 1.00,


    // --- Ammo Module Settings (Only used if use_ammo_module is true) ---

    // Set weight of individual ammo rounds (Parent ID: 5485a8684bdc2da71d8b4567) to 0.
    // Default: false
    `weightless_ammo`: false,

    // Set weight of ammo boxes (Parent ID: 543be5cb4bdc2deb348b4568) to 0.
    // Default: false
    `weightless_ammoboxes`: false,

    // Set weight of grenades (Parent ID: 543be6564bdc2df4348b4568) to 0.
    // Default: false
    `weightless_grenades`: false,


    // --- Weapon Module Settings (Only used if use_weapon_module is true) ---

    // Adjust specific item 'ExtraSize' properties to potentially shrink their thumbnail view.
    // IMPORTANT: This is a visual tweak ONLY and does not change the item's actual grid size.
    // For the visual change to apply, Cache-/Temp-Files need to be deleted in SPT-Launcher!
    // Default: false
    `weapon_inv_shrink`: false,


    // --- Debugging & Maintenance ---

    // Allow the mod to automatically overwrite config files on startup if settings
    // are missing or invalid. Useful for adding new default settings automatically.
    // WARNING: This will REMOVE all comments and custom formatting from the file!
    // Default: false
    `allow_autoupdate_configs`: false,

    // Enable detailed debug messages in the server console for troubleshooting.
    // Can be very verbose. Keep false unless diagnosing issues.
    // Default: false
    `enableDebugLogs`: false
}
".

Definition DEFAULT_WEATHER_CONFIG_JSONC : string := text
"// Default Configuration for AdditionalSettings Weather Module
// Controls in-game season selection. Only ONE mode is active at a time.
// Used only if `use_weather_module` is true in the main config.jsonc file.
// Mode Precedence: Fixed Season > Weighted System > Random System.
{
    // --- Mode 1: Fixed Season ---
    // If true, forces the season specified by 'fixed_season_index'. Overrides all other modes.
    // Default: false
    `use_fixed_season`: false,

    // Season index to use if 'use_fixed_season' is true. (1-7)
    // 1=Summer, 2=Autumn, 3=Winter, 4=Spring, 5=LateAutumn, 6=EarlySpring, 7=Storm
    // Invalid numbers default to 1 (Summer).
    // Default: 1
    `fixed_season_index`: 1,


    // --- Mode 2: Weighted Random System ---
    // If 'use_fixed_season' is false AND this is true, seasons are chosen randomly based on weights below.
    // Excludes seasons listed in 'exclude_seasons'. Overrides Mode 3.
    // Default: false
    `use_weight_system`: false,

    // Season weights (used only if Mode 2 is active). Higher number = higher chance.
    // Must be non-negative numbers. 0 weight effectively disables the season for this mode.
    // Invalid values reset to defaults.
    // Default: 10 (Summer, Autumn, Winter, Spring, LateAutumn, EarlySpring), 5 (Storm)
    `Summer`: 10,
    `Autumn`: 10,
    `Winter`: 10,
    `Spring`: 10,
    `LateAutumn`: 10,
    `EarlySpring`: 10,
    `Storm`: 5,


    // --- Mode 3: Auto Random System ---
    // If fixed and weighted modes are false AND this is true, randomizes based on 'random_system_mode'.
    // Acts as fallback (with mode 0) if all mode flags are false.
    // Default: true
    `use_random_system`: true,

    // Pool for Auto Random system (used only if Mode 3 is active). (0 or 1)
    // 0 = Auto All: Randomize equally among ALL seasons (ignores 'exclude_seasons').
    // 1 = Auto Available: Randomize equally among seasons NOT in 'exclude_seasons'.
    // Invalid numbers default to 0.
    // Default: 0
    `random_system_mode`: 0,


    // --- Season Exclusion ---
    // List of season indices (0-6) to exclude from Weighted mode and Random Mode 1.
    // Use internal index: 0=Summer, 1=Autumn, 2=Winter, 3=Spring, 4=LateAutumn, 5=EarlySpring, 6=Storm.
    // Invalid numbers (outside 0-6) are ignored. Does NOT affect Fixed Season or Random Mode 0.
    // Safety: If all valid seasons (0-6) are excluded, Storm (6) is automatically kept available.
    // Example: [2, 6] // Exclude Winter and Storm
    // Default: [] (no exclusions)
    `exclude_seasons`: []

    // --- FIKA Integration --- Note: No config setting required anymore.
    // If FIKA is detected, weather determination is automatically hooked into raid creation.
}
".

End Headers.

(* ================================================================== *)
(** ** The host's logger *)
(* ================================================================== *)

Inductive Level : Type := LDebug | LInfo | LWarning | LError | LSuccess.

Definition LogEntry : Type := (Level * string)%type.
Definition Log : Type := list LogEntry.

(** [array.join(", ")]. *)
Fixpoint join (sep : string) (l : list string) : string :=
  match l with
  | [] => ""
  | [x] => x
  | x :: rest => x ++ sep ++ join sep rest
  end.

(* ================================================================== *)
(** ** Defaults and validators ([module_configuration.ts]) *)
(* ================================================================== *)

Module Validation.

(** [defaultMainConfigValues]. *)
Definition defaultMainConfigValues : Js.object :=
  [ ("use_weather_module", Js.Bool false);
    ("use_plant_time_module", Js.Bool false);
    ("use_ammo_module", Js.Bool false);
    ("use_weapon_module", Js.Bool false);

    ("LootArmbands", Js.Bool true);
    ("SaveArmbandOnDeath", Js.Bool false);
    ("LootMelee", Js.Bool true);
    ("SaveMeleeOnDeath", Js.Bool false);
    ("disablePMC_ChatResponse", Js.Bool false);
    ("allow_LegaMoneyCase", Js.Bool false);
    ("stacksize_lega", Js.int 50);
    ("removeFirForHideout", Js.Bool false);
    ("disableSeasonEvents", Js.Bool false);

    ("leaveItemAtLocationModifier", Js.int 1);
    ("placeBeaconModifier", Js.int 1);

    ("weightless_ammo", Js.Bool false);
    ("weightless_ammoboxes", Js.Bool false);
    ("weightless_grenades", Js.Bool false);

    ("weapon_inv_shrink", Js.Bool false);

    ("allow_autoupdate_configs", Js.Bool false);
    ("enableDebugLogs", Js.Bool false) ].

(** [defaultWeatherConfigValues]. *)
Definition defaultWeatherConfigValues : Js.object :=
  [ ("use_fixed_season", Js.Bool false);
    ("fixed_season_index", Js.int 1);
    ("use_weight_system", Js.Bool false);
    ("use_random_system", Js.Bool true);
    ("random_system_mode", Js.int 0);
    ("exclude_seasons", Js.Arr []);
    ("Summer", Js.int 10); ("Autumn", Js.int 10); ("Winter", Js.int 10);
    ("Spring", Js.int 10); ("LateAutumn", Js.int 10);
    ("EarlySpring", Js.int 10); ("Storm", Js.int 5) ].

(** What a validator works on: the object it mutates, the [resetKeys]
    array it fills, and what it logged. *)
Record VState : Type := mkVState {
  config : Js.object;
  resetKeys : list string;
  logged : Log
}.

Definition start (config : Js.object) : VState := mkVState config [] [].

(** [if (!resetKeys.includes(key)) resetKeys.push(key);
     config[key] = defaults[key];] *)
Definition pushKey (key : string) (st : VState) : VState :=
  mkVState (config st)
           (if Js.includes (resetKeys st) key then resetKeys st
            else (resetKeys st ++ [key])%list)
           (logged st).

Definition assign (key : string) (v : Js.value) (st : VState) : VState :=
  mkVState (Js.set (config st) key v) (resetKeys st) (logged st).

Definition warn (msg : string) (st : VState) : VState :=
  mkVState (config st) (resetKeys st) (logged st ++ [(LWarning, msg)])%list.

Definition resetToDefault (defaults : Js.object) (key : string) (st : VState)
  : VState :=
  assign key (Js.get defaults key) (pushKey key st).

Section Helpers.
Variable defaults : Js.object.

(** The closure [checkBoolean] of both validators. *)
Definition checkBoolean (key : string) (st : VState) : VState :=
  if negb (Js.isBoolean (Js.get (config st) key))
  then resetToDefault defaults key st
  else st.

(** The closure [checkNonNegativeFinite] of both validators. *)
Definition checkNonNegativeFinite (key : string) (st : VState) : VState :=
  let v := Js.get (config st) key in
  if negb (Js.isNumber v) || negb (Js.Number_isFinite v)
     || Js.ltb (Js.toNum v) (Js.ofZ 0)
  then resetToDefault defaults key st
  else st.

(** The inline test of the integer fields:
    not a number, not an integer, below [lo] or above [hi]. *)
Definition checkIntegerRange (key : string) (lo hi : Z) (st : VState)
  : VState :=
  let v := Js.get (config st) key in
  if negb (Js.isNumber v) || negb (Js.Number_isInteger v)
     || Js.ltb (Js.toNum v) (Js.ofZ lo) || Js.gtb (Js.toNum v) (Js.ofZ hi)
  then resetToDefault defaults key st
  else st.
End Helpers.

Notation "st |> f" := (f st) (at level 62, left associativity, only parsing).

(** The test on [disablePMC_ChatResponse]: a boolean, or an integer from
    1 to 100. *)
Definition checkPmcChat (defaults : Js.object) (st : VState) : VState :=
  let pmcChatValue := Js.get (config st) "disablePMC_ChatResponse" in
  if Js.isNumber pmcChatValue then
    if negb (Js.Number_isInteger pmcChatValue)
       || Js.ltb (Js.toNum pmcChatValue) (Js.ofZ 1)
       || Js.gtb (Js.toNum pmcChatValue) (Js.ofZ 100)
    then resetToDefault defaults "disablePMC_ChatResponse" st
    else st
  else if negb (Js.isBoolean pmcChatValue)
       then resetToDefault defaults "disablePMC_ChatResponse" st
       else st.

(** [validateMainConfig]. *)
Definition validateMainConfig (config : Js.object) (logPrefix : string)
  : VState :=
  let defaults := defaultMainConfigValues in
  start config
  (* Booleans *)
  |> checkBoolean defaults "use_weather_module"
  |> checkBoolean defaults "use_plant_time_module"
  |> checkBoolean defaults "use_ammo_module"
  |> checkBoolean defaults "use_weapon_module"
  |> checkBoolean defaults "LootArmbands"
  |> checkBoolean defaults "SaveArmbandOnDeath"
  |> checkBoolean defaults "LootMelee"
  |> checkBoolean defaults "SaveMeleeOnDeath"
  |> checkBoolean defaults "allow_LegaMoneyCase"
  |> checkBoolean defaults "removeFirForHideout"
  |> checkBoolean defaults "disableSeasonEvents"
  |> checkBoolean defaults "weightless_ammo"
  |> checkBoolean defaults "weightless_ammoboxes"
  |> checkBoolean defaults "weightless_grenades"
  |> checkBoolean defaults "weapon_inv_shrink"
  |> checkBoolean defaults "allow_autoupdate_configs"
  |> checkBoolean defaults "enableDebugLogs"
  (* disablePMC_ChatResponse (boolean or integer 1-100) *)
  |> checkPmcChat defaults
  (* stacksize_lega (integer 1-999) *)
  |> checkIntegerRange defaults "stacksize_lega" 1 999
  (* Plant Time Modifiers (non-negative finite numbers) *)
  |> checkNonNegativeFinite defaults "leaveItemAtLocationModifier"
  |> checkNonNegativeFinite defaults "placeBeaconModifier".

Definition seasonsArrayLength : Z := 7.

(** The predicate of the first [filter]:
    [Number.isInteger(idx) && idx >= 0 && idx < seasonsArrayLength]. *)
Definition validSeasonIndex (idx : Js.value) : bool :=
  Js.Number_isInteger idx
  && Js.geb (Js.toNum idx) (Js.ofZ 0)
  && Js.ltb (Js.toNum idx) (Js.ofZ seasonsArrayLength).

(** The predicate of the second [filter]: [idx !== 6]. *)
Definition notStorm (idx : Js.value) : bool :=
  negb (Js.strictEq idx (Js.int 6)).

(** The block on [exclude_seasons]. *)
Definition checkExcludeSeasons (defaults : Js.object) (logPrefix : string)
           (st : VState) : VState :=
  match Js.get (config st) "exclude_seasons" with
  | Js.Arr original =>
      (* Filter out invalid entries *)
      let originalLength := List.length original in
      let filtered := filter validSeasonIndex original in
      let st := assign "exclude_seasons" (Js.Arr filtered) st in
      (* Mark as reset if filtering changed the array *)
      let st := if negb (List.length filtered =? originalLength)%nat
                then pushKey "exclude_seasons" st else st in
      (* Safety check: Prevent excluding ALL seasons *)
      if (seasonsArrayLength <=? Z.of_nat (List.length filtered))
      then
        st
        |> warn (logPrefix ++ " 'exclude_seasons' included all possible seasons (0-6). Keeping Storm (6) available.")
        |> assign "exclude_seasons" (Js.Arr (filter notStorm filtered))
        |> pushKey "exclude_seasons"
      else st
  | _ =>
      (* Reset to default empty array; the spread copies the default. *)
      resetToDefault defaults "exclude_seasons" st
  end.

Definition weightKeys : list string :=
  ["Summer"; "Autumn"; "Winter"; "Spring"; "LateAutumn"; "EarlySpring"; "Storm"].

(** The loop over [weightKeys]: each weight is checked, then added to the
    running total. *)
Definition checkWeights (defaults : Js.object) (st : VState)
  : VState * Js.number :=
  fold_left
    (fun (acc : VState * Js.number) key =>
       let st := checkNonNegativeFinite defaults key (fst acc) in
       let v := Js.get (config st) key in
       (st, if Js.isNumber v then Js.add (snd acc) (Js.toNum v) else snd acc))
    weightKeys (st, Js.ofZ 0).

(** [validateWeatherConfig]. *)
Definition validateWeatherConfig (config : Js.object) (logPrefix : string)
  : VState :=
  let defaults := defaultWeatherConfigValues in
  let st :=
    start config
    |> checkBoolean defaults "use_fixed_season"
    |> checkBoolean defaults "use_weight_system"
    |> checkBoolean defaults "use_random_system"
    (* Fixed Season Index (integer 1-7) *)
    |> checkIntegerRange defaults "fixed_season_index" 1 7
    (* Random System Mode (integer 0-1) *)
    |> checkIntegerRange defaults "random_system_mode" 0 1
    (* Exclude Seasons Array (array of integers 0-6) *)
    |> checkExcludeSeasons defaults logPrefix in
  let '(st, totalWeight) := checkWeights defaults st in
  if Js.truthy (Js.get (Validation.config st) "use_weight_system")
     && Js.leb totalWeight (Js.ofZ 0)
  then warn (logPrefix ++ " Total weight for seasons is zero or negative. Weighted mode may not function correctly.") st
  else st.

End Validation.

(* ================================================================== *)
(** ** The generic loader and merger ([module_configuration.ts]) *)
(* ================================================================== *)

Module Loader.
Import Validation.

Infix "+++" := (@app LogEntry) (at level 60, right associativity).

(** The file on disk, as far as the loader goes: absent, or its text. *)
Definition File : Type := option string.

(** [ensureFileExists]: the file after the call, and the boolean returned.
    [writeThrows] stands for a failing [mkdirSync] or [writeFileSync]. *)
Definition ensureFileExists (file : File) (defaultConfigJsonc : string)
           (writeThrows : bool) : File * bool :=
  match file with
  | None => if writeThrows then (None, false)
            else (Some defaultConfigJsonc, true)
  | Some _ => (file, true)
  end.

Definition indexKey (i : nat) : string :=
  NilEmpty.string_of_uint (Nat.to_uint i).

Fixpoint indexedFrom (i : nat) (l : list Js.value) : Js.object :=
  match l with
  | [] => []
  | v :: rest => (indexKey i, v) :: indexedFrom (S i) rest
  end.

Fixpoint charsOf (s : string) : list Js.value :=
  match s with
  | EmptyString => []
  | String c r => Js.Str (String c EmptyString) :: charsOf r
  end.

(** The own enumerable properties [for (const key in v)] visits: the
    properties of an object, the indices of an array or of a string,
    nothing for the other values. *)
Definition ownProps (v : Js.value) : Js.object :=
  match v with
  | Js.Obj o => o
  | Js.Arr l => indexedFrom 0 l
  | Js.Str s => indexedFrom 0 (charsOf s)
  | _ => []
  end.

(** [Object.prototype.hasOwnProperty.call(v, key)]; arrays and strings
    also own their [length]. *)
Definition hasOwnProperty (v : Js.value) (key : string) : bool :=
  Js.hasOwn (ownProps v) key
  || ((Js.isArray v || Js.isString v) && String.eqb key "length").

(** The loop [for (const key in loadedConfig)] of step 3: a known key
    overwrites the default, an unknown one is logged at debug level when
    debug logging is on. *)
Definition mergeKnownKeys (defaultKeys : list string) (loadedConfig : Js.value)
           (debugMsg : string -> Log) (mergedConfig : Js.object)
  : Js.object * Log :=
  fold_left
    (fun (acc : Js.object * Log) key =>
       if Js.includes defaultKeys key && hasOwnProperty loadedConfig key
       then (Js.set (fst acc) key (Js.get (ownProps loadedConfig) key), snd acc)
       else (fst acc, snd acc +++ debugMsg key))
    (Js.keys (ownProps loadedConfig)) (mergedConfig, []).

(** The loop [for (const defaultKey of defaultKeys)] of step 3: the keys
    the file lacks. *)
Definition missingKeys (defaultKeys : list string) (loadedConfig : Js.value)
  : list string :=
  filter (fun defaultKey => negb (hasOwnProperty loadedConfig defaultKey))
         defaultKeys.

(** What a call leaves behind: the object returned, and the local state
    and effects the specification speaks of. *)
Record LoadResult : Type := mkLoadResult {
  returned : Js.object;
  validatorRan : bool;
  resetKeys : list string;
  fileNeedsUpdate : bool;
  written : option string;
  log : Log
}.

(** The outcome of step 1 and 2: an early return of the defaults, or the
    parsed value. *)
Inductive Parsed : Type :=
| EarlyDefaults (l : Log)
| Loaded (loadedConfig : Js.value) (l : Log).

Section Generic.

(** [jsonUtil.deserialize] of the host. *)
Variable deserialize : string -> string -> Exc Js.value.

(** [rebuildConfigStringWithComments], the template rewriter: what it
    logs and the text or [null] it returns.  No property below depends
    on what it computes. *)
Variable rebuildConfigStringWithComments :
  string -> Js.object -> string -> Log * option string.

(** [fs.writeFileSync(configPath, text)]. *)
Variable writeFileSync : string -> Exc unit.

Variable configFilename : string.
Variable logPrefix : string.
Variable debugEnabled : bool.

(** [logger.warning], [logger.error], ...: one entry, behind the prefix. *)
Definition say (level : Level) (msg : string) : Log :=
  [(level, logPrefix ++ msg)].

(** [if (debugEnabled) logger.debug(...)]. *)
Definition debug (msg : string) : Log :=
  if debugEnabled then say LDebug msg else [].

(** [!processedContent || processedContent.trim() === ""] *)
Definition isBlank (processedContent : Js.value) : Exc bool :=
  if negb (Js.truthy processedContent) then Return true
  else match processedContent with
       | Js.Str s => Return (String.eqb (Text.trim s) "")
       | _ => Throw (TypeError "processedContent.trim is not a function")
       end.

(** Steps 1 and 2, the [try] block and its [catch]. *)
Definition readAndParse (readFileSync : Exc string) : Parsed :=
  let l0 := debug (" Loading config file '" ++ configFilename ++ "'...") in
  match
    (rawContent <- readFileSync ;;
     stripped <- Sanitizer.stripJsonComments (Js.Str rawContent) ;;
     processedContent <- Sanitizer.fixTrailingCommas (Js.Str stripped) ;;
     blank <- isBlank processedContent ;;
     if (blank : bool) then Return None
     else
       loadedConfig <-
         match processedContent with
         | Js.Str s => deserialize s configFilename
         | _ => Throw (TypeError "not a string")
         end ;;
       Return (Some loadedConfig))
  with
  | Return None =>
      EarlyDefaults
        (l0 +++ say LWarning (" Config file '" ++ configFilename
                              ++ "' is empty or invalid. Using defaults."))
  | Return (Some loadedConfig) =>
      Loaded loadedConfig
        (l0 +++ debug (" Config file '" ++ configFilename ++ "' parsed."))
  | Throw error =>
      EarlyDefaults
        (l0
         +++ say LError (" Failed to load/parse config '"
                         ++ configFilename ++ "'. Error: " ++ message error)
         +++ (if isSyntaxError error
              then say LError (" Check '" ++ configFilename
                               ++ "' for JSON syntax errors.")
              else [])
         +++ say LError (" Using default settings for '"
                         ++ configFilename ++ "'."))
  end.

(** Step 3: the merged object, [fileNeedsUpdate], and the log. *)
Definition mergeWithDefaults (defaultConfigValues : Js.object)
           (loadedConfig : Js.value) : Js.object * bool * Log :=
  let mergedConfig := Json.clone defaultConfigValues in
  if Js.truthy loadedConfig then
    let defaultKeys := Js.keys defaultConfigValues in
    let known :=
      mergeKnownKeys defaultKeys loadedConfig
        (fun key => debug (" Ignored unknown key '" ++ key ++ "' in '"
                           ++ configFilename ++ "'."))
        mergedConfig in
    let mergedConfig := fst known in
    let l1 := snd known in
    let missing := missingKeys defaultKeys loadedConfig in
    let l2 :=
      flat_map (fun defaultKey =>
                  debug (" Added missing default key '" ++ defaultKey
                         ++ "' for '" ++ configFilename ++ "'."))
               missing in
    (mergedConfig, negb (Nat.eqb (List.length missing) 0), l1 +++ l2)
  else
    (mergedConfig, true, []).

(** Step 5: the optional write-back. *)
Definition writeBack (allowWriteBack fileNeedsUpdate : bool)
           (defaultConfigJsonc : string) (mergedConfig : Js.object)
  : option string * Log :=
  if allowWriteBack && fileNeedsUpdate then
    let l0 := say LInfo (" Auto-updating config file '" ++ configFilename
                         ++ "' (Comments/formatting may be lost)...") in
    let '(lr, updatedJsoncString) :=
      rebuildConfigStringWithComments defaultConfigJsonc mergedConfig
                                      logPrefix in
    match updatedJsoncString with
    | Some updated =>
        if String.eqb updated "" then
          (None, l0 +++ lr +++ say LError
                    (" Failed to rebuild config string for '"
                     ++ configFilename ++ "'. File not updated."))
        else
          match writeFileSync updated with
          | Return _ =>
              (Some updated,
               l0 +++ lr +++ debug (" Successfully updated config file '"
                                    ++ configFilename ++ "'."))
          | Throw writeError =>
              (None, l0 +++ lr +++ say LError
                        (" Failed to write updated config to '"
                         ++ configFilename ++ "'. Error: "
                         ++ message writeError))
          end
    | None =>
        (None, l0 +++ lr +++ say LError
                  (" Failed to rebuild config string for '"
                   ++ configFilename ++ "'. File not updated."))
    end
  else if allowWriteBack && negb fileNeedsUpdate && debugEnabled then
    (None, say LDebug (" Auto-update enabled, but '" ++ configFilename
                       ++ "' is valid and up-to-date. No write needed."))
  else (None, []).

(** [loadAndValidateConfigFile]. *)
Definition loadAndValidateConfigFile
           (readFileSync : Exc string)
           (defaultConfigJsonc : string)
           (defaultConfigValues : Js.object)
           (validationFunction : Js.object -> string -> VState)
           (allowWriteBack : bool) : LoadResult :=
  match readAndParse readFileSync with
  | EarlyDefaults l =>
      (* return jsonUtil.clone(defaultConfigValues) *)
      mkLoadResult (Json.clone defaultConfigValues) false [] false None l
  | Loaded loadedConfig l1 =>
      (* 3. Merge with Defaults *)
      let merge := mergeWithDefaults defaultConfigValues loadedConfig in
      let mergedConfig := fst (fst merge) in
      let fileNeedsUpdate := snd (fst merge) in
      let l2 := snd merge in
      let l3 := debug (" Merged loaded config with defaults for '"
                       ++ configFilename ++ "'.") in
      (* 4. Validate *)
      let st := validationFunction mergedConfig logPrefix in
      let mergedConfig := Validation.config st in
      let resetKeys := Validation.resetKeys st in
      let reset := negb (Nat.eqb (List.length resetKeys) 0) in
      let fileNeedsUpdate := fileNeedsUpdate || reset in
      let l4 :=
        if reset then
          say LWarning (" Reset invalid entries in " ++ configFilename
                        ++ " to default: [" ++ join ", " resetKeys ++ "]")
        else debug (" Config validation passed for '"
                    ++ configFilename ++ "'.") in
      (* 5. Optional write-back *)
      let wrote :=
        writeBack allowWriteBack fileNeedsUpdate defaultConfigJsonc
                  mergedConfig in
      (* 6. Return *)
      mkLoadResult mergedConfig true resetKeys fileNeedsUpdate (fst wrote)
                   (l1 +++ l2 +++ l3 +++ logged st +++ l4 +++ snd wrote)
  end.

End Generic.

End Loader.

(* ================================================================== *)
(** ** The legacy loader ([configCreation.ts], version 1.0.1) *)
(* ================================================================== *)

Module Legacy.
Import Text.

(** Where the scan of the legacy pattern is: outside a match, inside a
    block comment, or inside a line comment. *)
Inductive Mode : Type := Outside | InBlock | InLine.

(** The legacy [stripJsonComments]: one [replace] whose pattern is the
    block comment or, failing that, two slashes not preceded by a
    backslash and the rest of the line (flags [g] and [m]); no [trim]. *)
Fixpoint strip (mode : Mode) (prev : option ascii) (s : string) {struct s}
  : string :=
  match s with
  | EmptyString => EmptyString
  | String c r =>
      match mode with
      | InBlock =>
          match r with
          | String d r' =>
              if isStar c && isSlash d then strip Outside (Some d) r'
              else strip InBlock (Some c) r
          | EmptyString => EmptyString
          end
      | InLine =>
          if isLineTerminator c then String c (strip Outside (Some c) r)
          else strip InLine (Some c) r
      | Outside =>
          match r with
          | String d r' =>
              if isSlash c && isStar d && hasBlockEnd r'
              then strip InBlock (Some d) r'
              else if isSlash c && isSlash d
                      && negb (match prev with
                               | Some p => (code p =? 92)%N
                               | None => false
                               end)
                   then strip InLine (Some d) r'
                   else String c (strip Outside (Some c) r)
          | EmptyString => s
          end
      end
  end.

Definition stripJsonComments (jsonString : string) : string :=
  strip Outside None jsonString.

(** [defaultConfigValues]. *)
Definition defaultConfigValues : Js.object :=
  [ ("LootArmbands", Js.Bool true);
    ("SaveArmbandOnDeath", Js.Bool false);
    ("LootMelee", Js.Bool true);
    ("SaveMeleeOnDeath", Js.Bool false);
    ("disablePMC_ChatResponse", Js.Bool false);
    ("allow_LegaMoneyCase", Js.Bool false);
    ("stacksize_lega", Js.int 50) ].

(** The validation of [disablePMC_ChatResponse] in [loadOrCreateConfig]:
    the object after it, and whether a warning was logged.  There is no
    list of reset keys in this loader. *)
Definition validatePmcChat (mergedConfig : Js.object) : Js.object * bool :=
  let pmcChatValue := Js.get mergedConfig "disablePMC_ChatResponse" in
  match pmcChatValue with
  | Js.Num n =>
      if Js.isNaN n || Js.ltb n (Js.ofZ 1) || Js.gtb n (Js.ofZ 100)
      then (Js.set mergedConfig "disablePMC_ChatResponse"
                   (Js.get defaultConfigValues "disablePMC_ChatResponse"), true)
      else (Js.set mergedConfig "disablePMC_ChatResponse"
                   (Js.Num (Js.floor n)), false)
  | Js.Bool _ => (mergedConfig, false)
  | _ => (Js.set mergedConfig "disablePMC_ChatResponse"
                 (Js.get defaultConfigValues "disablePMC_ChatResponse"), true)
  end.

End Legacy.

(* ================================================================== *)
(** ** Host data and the settings consumers *)
(* ================================================================== *)

(** The validated settings, as [IAdditionalSettingsConfig] types them. *)
Inductive BooleanOrNumber : Type :=
| IsBoolean (b : bool)
| IsNumber (n : Js.number).

Record IAdditionalSettingsConfig : Type := mkSettings {
  use_weather_module : bool;
  use_plant_time_module : bool;
  use_ammo_module : bool;
  use_weapon_module : bool;
  LootArmbands : bool;
  SaveArmbandOnDeath : bool;
  LootMelee : bool;
  SaveMeleeOnDeath : bool;
  disablePMC_ChatResponse : BooleanOrNumber;
  allow_LegaMoneyCase : bool;
  stacksize_lega : Js.number;
  removeFirForHideout : bool;
  disableSeasonEvents : bool;
  leaveItemAtLocationModifier : Js.number;
  placeBeaconModifier : Js.number;
  weightless_ammo : bool;
  weightless_ammoboxes : bool;
  weightless_grenades : bool;
  weapon_inv_shrink : bool;
  allow_autoupdate_configs : bool;
  enableDebugLogs : bool
}.

(** The host's tables, as far as the consumers touch them.  An optional
    property of the host's types is an [option]; the logger calls of the
    consumers are left out, the counters they report are kept. *)
Module Host.

Record Props : Type := mkProps {
  Unlootable : option bool;
  UnlootableFromSide : option (list string);
  Weight : option Js.number
}.

Record TemplateItem : Type := mkItem {
  _name : string;
  _parent : string;
  _props : option Props
}.

Definition ItemTable : Type := list (string * TemplateItem).

Record QuestCondition : Type := mkCondition {
  conditionType : string;
  plantTime : option Js.number
}.

Record QuestConditions : Type := mkConditions {
  AvailableForFinish : option (list QuestCondition)
}.

Record Quest : Type := mkQuest {
  QuestName : string;
  conditions : option QuestConditions
}.

Definition QuestTable : Type := list (string * Quest).

Record Templates : Type := mkTemplates {
  items : option ItemTable;
  quests : option QuestTable
}.

(** [databaseServer.getTables()], which may lack [templates]. *)
Record Tables : Type := mkTables { templates : option Templates }.

(** [equipment] of the host's lost-on-death configuration. *)
Record Equipment : Type := mkEquipment {
  ArmBand : bool;
  Scabbard : bool
}.

Record LostOnDeathConfig : Type := mkLostOnDeath {
  equipment : option Equipment
}.

End Host.

Module CoreModule.
Import Host.

Definition ARMBAND_PARENT_ID : string := "5b3f15d486f77432d0509248".
Definition MELEE_PARENT_ID : string := "5447e1d04bdc2dff2f8b4567".
Definition LOOTABILITY_BLACKLIST : list string := ["65ca457b4aafb5d7fc0dcb5d"].

Definition isTrue (o : option bool) : bool :=
  match o with Some b => b | None => false end.

(** One half of the loop body: the block on armbands, or on melee
    weapons.  The boolean tells whether the counter went up. *)
Definition makeLootable (parentId : string) (enabled isBlacklisted : bool)
           (item : TemplateItem) (props : Props) : Props * bool :=
  if String.eqb (_parent item) parentId && isTrue (Unlootable props) then
    if enabled && negb isBlacklisted
    then (mkProps (Some false) (Some []) (Weight props), true)
    else (props, false)
  else (props, false).

(** The loop body of [applyLootabilitySettings]. *)
Definition lootabilityStep (config : IAdditionalSettingsConfig)
           (entry : string * TemplateItem) : (string * TemplateItem) * (nat * nat) :=
  let '(itemId, item) := entry in
  match _props item with
  | None => (entry, (0, 0)%nat)
  | Some props =>
      if String.eqb (_parent item) "" then (entry, (0, 0)%nat)
      else
        let isBlacklisted := Js.includes LOOTABILITY_BLACKLIST itemId in
        let '(props, a) :=
          makeLootable ARMBAND_PARENT_ID (LootArmbands config) isBlacklisted
                       item props in
        let '(props, m) :=
          makeLootable MELEE_PARENT_ID (LootMelee config) isBlacklisted
                       item props in
        ((itemId, mkItem (_name item) (_parent item) (Some props)),
         (Nat.b2n a, Nat.b2n m))
  end.

(** [applyLootabilitySettings]: the table after the call, and the counters
    [armbandsMadeLootable] and [meleeMadeLootable]. *)
Definition applyLootabilitySettings (config : IAdditionalSettingsConfig)
           (items : ItemTable) : ItemTable * (nat * nat) :=
  let stepped := map (lootabilityStep config) items in
  (map fst stepped,
   (list_sum (map (fun r => fst (snd r)) stepped),
    list_sum (map (fun r => snd (snd r)) stepped))).

End CoreModule.

Module AmmoModule.
Import Host.

Definition AMMO_PARENT_ID : string := "5485a8684bdc2da71d8b4567".
Definition GRENADE_PARENT_ID : string := "543be6564bdc2df4348b4568".
Definition AMMOBOX_PARENT_ID : string := "543be5cb4bdc2deb348b4568".

Definition weightless (props : Props) : Props :=
  mkProps (Unlootable props) (UnlootableFromSide props) (Some (Js.ofZ 0)).

(** Which counter a loop iteration raised. *)
Inductive Modified : Type :=
| NotModified | AmmoModified | BoxModified | GrenadeModified.

Definition modified (m : Modified) : bool :=
  match m with NotModified => false | _ => true end.

(** The loop body of [applyAmmoWeightChanges]. *)
Definition weightStep (config : IAdditionalSettingsConfig)
           (entry : string * TemplateItem) : (string * TemplateItem) * Modified :=
  let '(itemId, item) := entry in
  match _props item with
  | None => (entry, NotModified)
  | Some props =>
      match Weight props with
      | None => (entry, NotModified)
      | Some w =>
          if String.eqb (_parent item) "" || Js.eqb w (Js.ofZ 0)
          then (entry, NotModified)
          else
            let zeroed :=
              (itemId, mkItem (_name item) (_parent item)
                              (Some (weightless props))) in
            if weightless_ammo config
               && String.eqb (_parent item) AMMO_PARENT_ID
            then (zeroed, AmmoModified)
            else if weightless_ammoboxes config
                    && String.eqb (_parent item) AMMOBOX_PARENT_ID
                 then (zeroed, BoxModified)
                 else if weightless_grenades config
                         && String.eqb (_parent item) GRENADE_PARENT_ID
                      then (zeroed, GrenadeModified)
                      else (entry, NotModified)
      end
  end.

(** [applyAmmoWeightChanges]: the tables after the call and the number of
    items modified. *)
Definition applyAmmoWeightChanges (config : IAdditionalSettingsConfig)
           (databaseServer : Tables) : Tables * nat :=
  match templates databaseServer with
  | Some (mkTemplates (Some items) quests) =>
      let stepped := map (weightStep config) items in
      (mkTables (Some (mkTemplates (Some (map fst stepped)) quests)),
       List.length (filter (fun r => modified (snd r)) stepped))
  | _ => (databaseServer, O)
  end.

(** [applyAllChanges], the module's run method. *)
Definition applyAllChanges (config : IAdditionalSettingsConfig)
           (databaseServer : Tables) : Tables :=
  if weightless_ammo config || weightless_ammoboxes config
     || weightless_grenades config
  then fst (applyAmmoWeightChanges config databaseServer)
  else databaseServer.

End AmmoModule.

Module LostOnDeathModule.
Import Host.

(** [applyLostOnDeathChanges]: the host configuration after the call, and
    the flags [changedArmband] and [changedMelee]. *)
Definition applyLostOnDeathChanges (config : IAdditionalSettingsConfig)
           (lostOnDeathConfig : LostOnDeathConfig)
  : LostOnDeathConfig * (bool * bool) :=
  match equipment lostOnDeathConfig with
  | None => (lostOnDeathConfig, (false, false))
  | Some eq =>
      if negb (SaveArmbandOnDeath config) && negb (SaveMeleeOnDeath config)
      then (lostOnDeathConfig, (false, false))
      else
        let changedArmband := SaveArmbandOnDeath config && ArmBand eq in
        let changedMelee := SaveMeleeOnDeath config && Scabbard eq in
        (mkLostOnDeath
           (Some (mkEquipment
                    (if changedArmband then false else ArmBand eq)
                    (if changedMelee then false else Scabbard eq))),
         (changedArmband, changedMelee))
  end.

End LostOnDeathModule.

Module PlantTimeModule.
Import Host.

Definition one : Js.number := Js.ofZ 1.

(** [Math.max(1, Math.round(originalTime * modifier))]. *)
Definition scaled (originalTime modifier : Js.number) : Js.number :=
  Js.max one (Js.round (Js.mul originalTime modifier)).

(** The callback of [forEach]; the boolean tells whether [modifiedCount]
    went up. *)
Definition conditionStep (leaveModifier beaconModifier : Js.number)
           (condition : QuestCondition) : QuestCondition * bool :=
  match plantTime condition with
  | None => (condition, false)
  | Some originalTime =>
      if negb (Js.isFiniteNumber originalTime) then (condition, false)
      else
        let '(newTime, modified) :=
          if String.eqb (conditionType condition) "LeaveItemAtLocation" then
            if negb (Js.eqb leaveModifier one)
            then (scaled originalTime leaveModifier, true)
            else (originalTime, false)
          else if String.eqb (conditionType condition) "PlaceBeacon" then
            if negb (Js.eqb beaconModifier one)
            then (scaled originalTime beaconModifier, true)
            else (originalTime, false)
          else (originalTime, false) in
        if modified && negb (Js.eqb newTime originalTime)
        then (mkCondition (conditionType condition) (Some newTime), true)
        else (condition, false)
  end.

Definition questStep (leaveModifier beaconModifier : Js.number)
           (entry : string * Quest) : string * Quest :=
  let '(questId, currentQuest) := entry in
  (* currentQuest?.conditions?.AvailableForFinish, an array *)
  match conditions currentQuest with
  | Some (mkConditions (Some availableForFinish)) =>
      (questId,
       mkQuest (QuestName currentQuest)
               (Some (mkConditions
                        (Some (map (fun c => fst (conditionStep leaveModifier
                                                    beaconModifier c))
                                   availableForFinish)))))
  | _ => entry
  end.

(** [applyPlantTimeChanges], the module's run method. *)
Definition applyPlantTimeChanges (config : IAdditionalSettingsConfig)
           (databaseServer : Tables) : Tables :=
  let leaveModifier := leaveItemAtLocationModifier config in
  let beaconModifier := placeBeaconModifier config in
  if Js.eqb leaveModifier one && Js.eqb beaconModifier one
  then databaseServer
  else
    match templates databaseServer with
    | Some (mkTemplates items (Some quests)) =>
        mkTables (Some (mkTemplates items
                          (Some (map (questStep leaveModifier beaconModifier)
                                     quests))))
    | _ => databaseServer
    end.

End PlantTimeModule.

(* ================================================================== *)
(** ** The descriptor: the validators read as a table *)
(* ================================================================== *)

(** The constraint kinds of the descriptor, and what it is for a value to
    meet one. *)
Module Descriptor.
Import Js Validation.

Inductive Constraint : Type :=
| CBoolean
| CBooleanOrPercent
| CInteger (lo hi : Z)
| CNonNegative
| CSeasonList.

Definition inRange (lo hi : Z) (n : number) : bool :=
  negb (ltb n (ofZ lo)) && negb (gtb n (ofZ hi)).

Definition satisfies (c : Constraint) (v : value) : bool :=
  match c with
  | CBoolean => isBoolean v
  | CBooleanOrPercent =>
      isBoolean v || (Number_isInteger v && inRange 1 100 (toNum v))
  | CInteger lo hi => Number_isInteger v && inRange lo hi (toNum v)
  | CNonNegative => Number_isFinite v && negb (ltb (toNum v) (ofZ 0))
  | CSeasonList =>
      match v with
      | Arr l => forallb validSeasonIndex l
                 && (Z.of_nat (List.length l) <? seasonsArrayLength)
      | _ => false
      end
  end.

(** The fields of the main configuration in the order
    [validateMainConfig] checks them. *)
Definition mainChecks : list (string * Constraint) :=
  [ ("use_weather_module", CBoolean);
    ("use_plant_time_module", CBoolean);
    ("use_ammo_module", CBoolean);
    ("use_weapon_module", CBoolean);
    ("LootArmbands", CBoolean);
    ("SaveArmbandOnDeath", CBoolean);
    ("LootMelee", CBoolean);
    ("SaveMeleeOnDeath", CBoolean);
    ("allow_LegaMoneyCase", CBoolean);
    ("removeFirForHideout", CBoolean);
    ("disableSeasonEvents", CBoolean);
    ("weightless_ammo", CBoolean);
    ("weightless_ammoboxes", CBoolean);
    ("weightless_grenades", CBoolean);
    ("weapon_inv_shrink", CBoolean);
    ("allow_autoupdate_configs", CBoolean);
    ("enableDebugLogs", CBoolean);
    ("disablePMC_ChatResponse", CBooleanOrPercent);
    ("stacksize_lega", CInteger 1 999);
    ("leaveItemAtLocationModifier", CNonNegative);
    ("placeBeaconModifier", CNonNegative) ].

(** The fields of the weather configuration in the order
    [validateWeatherConfig] checks them. *)
Definition weatherChecks : list (string * Constraint) :=
  [ ("use_fixed_season", CBoolean);
    ("use_weight_system", CBoolean);
    ("use_random_system", CBoolean);
    ("fixed_season_index", CInteger 1 7);
    ("random_system_mode", CInteger 0 1);
    ("exclude_seasons", CSeasonList);
    ("Summer", CNonNegative); ("Autumn", CNonNegative);
    ("Winter", CNonNegative); ("Spring", CNonNegative);
    ("LateAutumn", CNonNegative); ("EarlySpring", CNonNegative);
    ("Storm", CNonNegative) ].

(** The fields in the order the interfaces [IAdditionalSettingsConfig]
    and [IWeatherModuleConfig] declare them (which is also the order of
    the default objects). *)
Definition mainDeclared : list string := keys defaultMainConfigValues.

Definition weatherDeclared : list string := keys defaultWeatherConfigValues.

(** The value a field is left with: itself when it meets its constraint,
    the default otherwise; an exclusion list is left filtered instead,
    without Storm when seven or more entries remain. *)
Definition settled (defaults : object) (key : string) (c : Constraint)
           (v : value) : value :=
  match c, v with
  | CSeasonList, Arr l =>
      let filtered := filter validSeasonIndex l in
      if seasonsArrayLength <=? Z.of_nat (List.length filtered)
      then Arr (filter notStorm filtered)
      else Arr filtered
  | _, _ => if satisfies c v then v else get defaults key
  end.

(** [l] lists its keys in the order of [order]. *)
Definition inOrderOf (order l : list string) : Prop :=
  l = filter (includes l) order.

End Descriptor.

(** The normal form of one check of a validator: a key, and what to do
    with the value found there. *)
Module Checks.
Import Js Validation Descriptor.

(** What one check does with the value it reads. *)
Record Verdict : Type := mkVerdict {
  newValue : option value;
  reported : bool;
  said : Log
}.

Definition keyStep (key : string) (judge : value -> Verdict) (st : VState)
  : VState :=
  let d := judge (get (config st) key) in
  mkVState
    (match newValue d with
     | Some v => set (config st) key v
     | None => config st
     end)
    (if reported d then Validation.resetKeys (pushKey key st)
     else Validation.resetKeys st)
    (logged st ++ said d)%list.

Definition judge (defaults : object) (logPrefix key : string)
           (c : Constraint) (v : value) : Verdict :=
  match c, v with
  | CSeasonList, Arr l =>
      let filtered := filter validSeasonIndex l in
      if seasonsArrayLength <=? Z.of_nat (List.length filtered)
      then mkVerdict (Some (settled defaults key c v)) true
             [(LWarning, logPrefix ++ " 'exclude_seasons' included all possible seasons (0-6). Keeping Storm (6) available.")]
      else mkVerdict (Some (settled defaults key c v))
             (negb (List.length filtered =? List.length l)%nat) []
  | _, _ =>
      if satisfies c v then mkVerdict None false []
      else mkVerdict (Some (get defaults key)) true []
  end.

Definition run (defaults : object) (logPrefix : string)
           (checks : list (string * Constraint)) (st : VState) : VState :=
  fold_left (fun st kc => keyStep (fst kc) (judge defaults logPrefix (fst kc) (snd kc)) st)
            checks st.

Definition violated (cfg : object) (kc : string * Constraint) : bool :=
  negb (satisfies (snd kc) (get cfg (fst kc))).

End Checks.

(* ================================================================== *)
(** ** Vocabulary of the statements, and sample data *)
(* ================================================================== *)

Section Vocabulary.
Import Js Text Validation Loader Host.

(** No key occurs twice. *)
Fixpoint nodupb (l : list string) : bool :=
  match l with
  | [] => true
  | k :: rest => negb (includes rest k) && nodupb rest
  end.

(** The position of an entry that is one of the indices 0..6. *)
Definition indexOf (v : value) : Z :=
  match v with
  | Num (Finite q) => Qfloor q
  | _ => -1
  end.

(** The list holds every index from 0 to 6. *)
Definition coversAllSeasons (l : list value) : Prop :=
  forall i, 0 <= i <= 6 -> exists v, In v l /\ strictEq v (int i) = true.

(** An integer from 0 to 6, in the words of the specification: a value
    equal to one of the seven indices. *)
Definition isSeasonIndex (v : value) : Prop :=
  exists i : Z, 0 <= i <= 6 /\ strictEq v (int i) = true.

(** The reserved index 6, Storm. *)
Definition isStorm (v : value) : Prop := strictEq v (int 6) = true.

(** [kept] is [l] with exactly the entries that are not [wanted] taken
    out: every wanted entry stays, in its place among the others, and
    nothing else does. *)
Inductive KeepsExactly (wanted : value -> Prop)
  : list value -> list value -> Prop :=
| keeps_none : KeepsExactly wanted [] []
| keeps_entry (v : value) (l kept : list value) :
    wanted v -> KeepsExactly wanted l kept ->
    KeepsExactly wanted (v :: l) (v :: kept)
| drops_entry (v : value) (l kept : list value) :
    ~ wanted v -> KeepsExactly wanted l kept ->
    KeepsExactly wanted (v :: l) kept.

(** The main settings with a string for [disablePMC_ChatResponse] and a
    number for [enableDebugLogs]. *)
Definition twoInvalidFields : object :=
  set (set defaultMainConfigValues "disablePMC_ChatResponse" (Str "yes"))
      "enableDebugLogs" (int 1).

(** The key of the percentage-or-boolean field. *)
Definition pmcKey : string := "disablePMC_ChatResponse".

(** The main defaults with [v] for [disablePMC_ChatResponse]. *)
Definition withPmcChat (v : value) : object :=
  set defaultMainConfigValues pmcKey v.

(** 55.5 *)
Definition fiftyFiveAndAHalf : value := Num (Finite (111 # 2)).

(** The record the early returns of the loader leave: the defaults, no
    validation, no reset key, no rewrite. *)
Definition fellBackTo (defaults : object) (r : LoadResult) : Prop :=
  returned r = defaults /\ validatorRan r = false /\ Loader.resetKeys r = []
  /\ fileNeedsUpdate r = false /\ written r = None.

(** A rewriter that gives up, to run the loader on concrete files. *)
Definition noRebuild (template : string) (data : Js.object) (logPrefix : string)
  : Log * option string := ([], None).

(** A file system that accepts every write. *)
Definition writeSucceeds (text : string) : Exc unit := Return tt.

(** A main configuration file with the unknown key [foo] and without
    [stacksize_lega]. *)
Definition fileWithFooWithoutStackSize : string := Headers.text
"// edited by hand
{
    `foo`: 1,
    `use_weather_module`: false,
    `use_plant_time_module`: false,
    `use_ammo_module`: false,
    `use_weapon_module`: false,
    `LootArmbands`: true,
    `SaveArmbandOnDeath`: false,
    `LootMelee`: true,
    `SaveMeleeOnDeath`: false,
    `disablePMC_ChatResponse`: false,
    `allow_LegaMoneyCase`: false,
    `removeFirForHideout`: false,
    `disableSeasonEvents`: false,
    `leaveItemAtLocationModifier`: 1.00,
    `placeBeaconModifier`: 1.00,
    `weightless_ammo`: false,
    `weightless_ammoboxes`: false,
    `weightless_grenades`: false,
    `weapon_inv_shrink`: false,
    `allow_autoupdate_configs`: false,
    `enableDebugLogs`: false
}
".

(** Two adjacent code units, the first in class [p], the second in [q]. *)
Fixpoint hasPair (p q : ascii -> bool) (s : string) : bool :=
  match s with
  | EmptyString => false
  | String c r =>
      match r with
      | String d _ => (p c && q d) || hasPair p q r
      | EmptyString => false
      end
  end.

(** Two slashes, a block comment, then two stars and a slash. *)
Definition splicedComment : string := "//**/**/".

(** The typed defaults of the main configuration. *)
Definition defaultSettings : IAdditionalSettingsConfig :=
  mkSettings false false false false true false true false
             (IsBoolean false) false (Js.ofZ 50) false false
             (Js.ofZ 1) (Js.ofZ 1) false false false false false false.

(** The defaults with the plant-time multiplier of
    [LeaveItemAtLocation] set to 2. *)
Definition doubledPlantTime : IAdditionalSettingsConfig :=
  mkSettings false true false false true false true false
             (IsBoolean false) false (Js.ofZ 50) false false
             (Js.ofZ 2) (Js.ofZ 1) false false false false false false.

(** A quest table with one condition, whose [plantTime] is [seconds]. *)
Definition oneQuest (seconds : Z) : Tables :=
  mkTables (Some (mkTemplates None
    (Some [("quest", mkQuest "Plant it"
              (Some (mkConditions
                       (Some [mkCondition "LeaveItemAtLocation"
                                          (Some (Js.ofZ seconds))]))))]))).

End Vocabulary.

(* ================================================================== *)
(** ** More vocabulary: what validation leaves behind *)
(* ================================================================== *)

Section ValidatedVocabulary.
Import Js Validation.

(** What an exclusion list is left as: valid indices only, and without
    Storm when seven or more are left. *)
Definition keptSeasons (l : list value) : list value :=
  let filtered := filter validSeasonIndex l in
  if seasonsArrayLength <=? Z.of_nat (List.length filtered)
  then filter notStorm filtered else filtered.

(** Index [i] is not in the exclusion list. *)
Definition notExcluded (l : list value) (i : Z) : bool :=
  forallb (fun v => negb (strictEq v (int i))) l.

(** The indices from 0 to 6 an exclusion list leaves available. *)
Definition seasonsLeft (l : list value) : list Z :=
  filter (notExcluded l) [0; 1; 2; 3; 4; 5; 6].

(** A field meets its constraint; the exclusion list, which has its
    own invariant, is passed over. *)
Definition scalarOnly (cfg : object) (kc : string * Descriptor.Constraint)
  : bool :=
  match snd kc with
  | Descriptor.CSeasonList => true
  | c => Descriptor.satisfies c (get cfg (fst kc))
  end.

End ValidatedVocabulary.

(* ================================================================== *)
(** ** The settings object read through its interface type *)
(* ================================================================== *)

(** The loader returns its object as [IAdditionalSettingsConfig], and the
    consumers read it through that type.  The annotation checks nothing
    at run time; here the typed record is read off the object, and there
    is none when a property does not hold a value of the declared type. *)
Module Typed.
Import Js.

Definition boolean (v : value) : option bool :=
  match v with Bool b => Some b | _ => None end.

Definition number (v : value) : option Js.number :=
  match v with Num n => Some n | _ => None end.

Definition booleanOrNumber (v : value) : option BooleanOrNumber :=
  match v with
  | Bool b => Some (IsBoolean b)
  | Num n => Some (IsNumber n)
  | _ => None
  end.

Definition andThen {A B : Type} (o : option A) (k : A -> option B) : option B :=
  match o with Some a => k a | None => None end.

Notation "x <-- m ;; k" := (andThen m (fun x => k))
  (at level 61, m at next level, right associativity).

Definition mainSettings (o : object) : option IAdditionalSettingsConfig :=
  a1 <-- boolean (get o "use_weather_module") ;;
  a2 <-- boolean (get o "use_plant_time_module") ;;
  a3 <-- boolean (get o "use_ammo_module") ;;
  a4 <-- boolean (get o "use_weapon_module") ;;
  a5 <-- boolean (get o "LootArmbands") ;;
  a6 <-- boolean (get o "SaveArmbandOnDeath") ;;
  a7 <-- boolean (get o "LootMelee") ;;
  a8 <-- boolean (get o "SaveMeleeOnDeath") ;;
  a9 <-- booleanOrNumber (get o "disablePMC_ChatResponse") ;;
  a10 <-- boolean (get o "allow_LegaMoneyCase") ;;
  a11 <-- number (get o "stacksize_lega") ;;
  a12 <-- boolean (get o "removeFirForHideout") ;;
  a13 <-- boolean (get o "disableSeasonEvents") ;;
  a14 <-- number (get o "leaveItemAtLocationModifier") ;;
  a15 <-- number (get o "placeBeaconModifier") ;;
  a16 <-- boolean (get o "weightless_ammo") ;;
  a17 <-- boolean (get o "weightless_ammoboxes") ;;
  a18 <-- boolean (get o "weightless_grenades") ;;
  a19 <-- boolean (get o "weapon_inv_shrink") ;;
  a20 <-- boolean (get o "allow_autoupdate_configs") ;;
  a21 <-- boolean (get o "enableDebugLogs") ;;
  Some (mkSettings a1 a2 a3 a4 a5 a6 a7 a8 a9 a10 a11 a12 a13 a14 a15
                   a16 a17 a18 a19 a20 a21).

(** The ranges the interface's comments promise for the numeric
    settings. *)
Definition percentOrSwitch (v : BooleanOrNumber) : bool :=
  match v with
  | IsBoolean _ => true
  | IsNumber n => isIntegerNumber n && Descriptor.inRange 1 100 n
  end.

Definition nonNegative (n : Js.number) : bool :=
  isFiniteNumber n && negb (ltb n (ofZ 0)).

Definition inRanges (s : IAdditionalSettingsConfig) : bool :=
  percentOrSwitch (disablePMC_ChatResponse s)
  && (isIntegerNumber (stacksize_lega s)
      && Descriptor.inRange 1 999 (stacksize_lega s))
  && nonNegative (leaveItemAtLocationModifier s)
  && nonNegative (placeBeaconModifier s).

End Typed.

(* ================================================================== *)
(** ** The exported loaders ([module_configuration.ts]) *)
(* ================================================================== *)

Module MainLoader.
Import Loader.

(** The two configuration files on disk. *)
Record Disk : Type := mkDisk { mainFile : File; weatherFile : File }.

(** [fs.readFileSync(path, "utf8")] of a file that is there or not. *)
Definition readFileSync (file : File) : Exc string :=
  match file with
  | Some text => Return text
  | None => Throw (mkError false "ENOENT: no such file or directory")
  end.

(** [preliminaryParsed.allow_autoupdate_configs] and
    [preliminaryParsed.enableDebugLogs] on whatever was parsed: reading a
    property of [null] throws a [TypeError]; a primitive and an array
    have neither property. *)
Definition flagOf (parsed : Js.value) (key : string) : Exc Js.value :=
  match parsed with
  | Js.Undefined | Js.Null =>
      Throw (TypeError ("Cannot read properties of null (reading '"
                        ++ key ++ "')"))
  | Js.Obj o => Return (Js.get o key)
  | _ => Return Js.Undefined
  end.

(** [if (typeof v === 'boolean') flag = v;] *)
Definition orKeep (flag : bool) (v : Js.value) : bool :=
  match v with Js.Bool b => b | _ => flag end.

(** [defaultMainConfigValues.allow_autoupdate_configs] and
    [defaultMainConfigValues.enableDebugLogs]. *)
Definition defaultFlag (key : string) : bool :=
  Js.truthy (Js.get Validation.defaultMainConfigValues key).

Record Flags : Type := mkFlags { allowWriteBack : bool; debugEnabled : bool }.

(** What [loadMainConfig] leaves: what the generic loader did, the flags
    it was run with, whether the preliminary read logged its warning, and
    the files.  The debug lines of [ensureFileExists] and the last debug
    line, which prints the object, are left out. *)
Record Outcome : Type := mkOutcome {
  settings : LoadResult;
  flags : Flags;
  preliminaryWarning : bool;
  disk : Disk
}.

Section Exported.

Variable deserialize : string -> string -> Exc Js.value.
Variable rebuildConfigStringWithComments :
  string -> Js.object -> string -> Log * option string.

(** [fs.writeFileSync] of the write-back. *)
Variable writeFileSync : string -> Exc unit.

(** A failing [mkdirSync] or [writeFileSync] when a missing file is
    created, for each of the two files. *)
Variables (createMainThrows createWeatherThrows : bool).

Variables (configFilename modName : string).

(** Step 2 of [loadMainConfig]: the flags read ahead of the load, and
    whether the [catch] logged its warning. *)
Definition preliminaryRead (file : File) : Flags * bool :=
  let defaults := mkFlags (defaultFlag "allow_autoupdate_configs")
                          (defaultFlag "enableDebugLogs") in
  match file with
  | None => (defaults, false)   (* fs.existsSync(configPath) is false *)
  | Some _ =>
      match
        (content <- readFileSync file ;;
         stripped <- Sanitizer.stripJsonComments (Js.Str content) ;;
         fixedContent <- Sanitizer.fixTrailingCommas (Js.Str stripped) ;;
         if Js.truthy fixedContent then
           preliminaryParsed <-
             match fixedContent with
             | Js.Str s => deserialize s configFilename
             | _ => Throw (TypeError "not a string")
             end ;;
           allow <- flagOf preliminaryParsed "allow_autoupdate_configs" ;;
           dbg <- flagOf preliminaryParsed "enableDebugLogs" ;;
           Return (mkFlags (orKeep (allowWriteBack defaults) allow)
                           (orKeep (debugEnabled defaults) dbg))
         else Return defaults)
      with
      | Return read => (read, false)
      | Throw _ => (defaults, true)
      end
  end.

(** [loadMainConfig]. *)
Definition loadMainConfig (before : Disk) : Outcome :=
  let logPrefix := "[" ++ modName ++ "]" in
  (* Step 1: ensure all necessary config files exist *)
  let main1 :=
    fst (ensureFileExists (mainFile before)
           Headers.DEFAULT_MAIN_CONFIG_JSONC createMainThrows) in
  let weather1 :=
    fst (ensureFileExists (weatherFile before)
           Headers.DEFAULT_WEATHER_CONFIG_JSONC createWeatherThrows) in
  (* Step 2: preliminary read for the debug and auto-update flags *)
  let pre := preliminaryRead main1 in
  (* Step 3: load, merge, validate *)
  let r :=
    loadAndValidateConfigFile deserialize rebuildConfigStringWithComments
      writeFileSync configFilename logPrefix (debugEnabled (fst pre))
      (readFileSync main1) Headers.DEFAULT_MAIN_CONFIG_JSONC
      Validation.defaultMainConfigValues Validation.validateMainConfig
      (allowWriteBack (fst pre)) in
  mkOutcome r (fst pre) (snd pre)
            (mkDisk (match written r with
                     | Some text => Some text
                     | None => main1
                     end)
                    weather1).

(** [loadWeatherConfig]: the generic loader on the weather file, and the
    file afterwards. *)
Definition loadWeatherConfig (file : File) (logPrefix : string)
           (debugEnabled allowWriteBack : bool) : LoadResult * File :=
  let r :=
    loadAndValidateConfigFile deserialize rebuildConfigStringWithComments
      writeFileSync configFilename logPrefix debugEnabled
      (readFileSync file) Headers.DEFAULT_WEATHER_CONFIG_JSONC
      Validation.defaultWeatherConfigValues Validation.validateWeatherConfig
      allowWriteBack in
  (r, match written r with Some text => Some text | None => file end).

End Exported.

End MainLoader.

(* ================================================================== *)
(** ** The other methods of [CoreModule] ([module_core.ts]) *)
(* ================================================================== *)

(** The item templates, the hideout areas and the two server
    configurations, as far as these methods read and write them.  As
    with the consumers above, the logger calls are left out and what they
    report is returned. *)
Module CoreTweaks.

Definition MONEY_CASE_ID : string := "59fb016586f7746d0d4b423a".
Definition LEGA_MEDAL_ID : string := "6656560053eaaa7a23349c86".

Definition LEGA_DEFAULT_STACK : Js.number := Js.ofZ 50.
Definition LEGA_MIN_STACK : Js.number := Js.ofZ 1.
Definition LEGA_MAX_STACK : Js.number := Js.ofZ 999.

(** *** Item templates *)

(** [filters[i]]: its [Filter], when that is an array. *)
Record FilterEntry : Type := mkFilterEntry { Filter : option (list string) }.

(** [Grids[i]._props]. *)
Record GridProps : Type := mkGridProps { filters : option (list FilterEntry) }.

(** [Grids[i]]; [gridProps] is its [_props]. *)
Record Grid : Type := mkGrid { gridProps : option GridProps }.

Record Props : Type := mkProps {
  StackMaxSize : option Js.number;
  Grids : option (list Grid)
}.

Record TemplateItem : Type := mkItem { _props : option Props }.

Definition ItemTable : Type := list (string * TemplateItem).

(** [items[id]] *)
Fixpoint lookup (items : ItemTable) (id : string) : option TemplateItem :=
  match items with
  | [] => None
  | (k, item) :: rest => if String.eqb k id then Some item else lookup rest id
  end.

(** The table once the template at [id] has been mutated into [item]. *)
Fixpoint update (items : ItemTable) (id : string) (item : TemplateItem)
  : ItemTable :=
  match items with
  | [] => []
  | (k, old) :: rest =>
      if String.eqb k id then (k, item) :: rest
      else (k, old) :: update rest id item
  end.

(** [containerItem._props?.Grids?.[0]?._props?.filters?.[0]?.Filter],
    when it is an array. *)
Definition filterArray (containerItem : TemplateItem) : option (list string) :=
  match _props containerItem with
  | Some props =>
      match Grids props with
      | Some (grid :: _) =>
          match gridProps grid with
          | Some gp =>
              match filters gp with
              | Some (entry :: _) => Filter entry
              | _ => None
              end
          | None => None
          end
      | _ => None
      end
  | None => None
  end.

(** The container once [filterArray.push(id)] has run on that array. *)
Definition pushed (containerItem : TemplateItem) (id : string) : TemplateItem :=
  match _props containerItem with
  | Some props =>
      match Grids props with
      | Some (grid :: grids) =>
          match gridProps grid with
          | Some gp =>
              match filters gp with
              | Some (entry :: entries) =>
                  match Filter entry with
                  | Some array =>
                      mkItem (Some (mkProps (StackMaxSize props)
                        (Some (mkGrid (Some (mkGridProps
                                 (Some (mkFilterEntry (Some (array ++ [id])%list)
                                        :: entries))))
                               :: grids))))
                  | None => containerItem
                  end
              | _ => containerItem
              end
          | None => containerItem
          end
      | _ => containerItem
      end
  | None => containerItem
  end.

(** What [allowItemInContainer] logged. *)
Inductive Allowed : Type :=
| ContainerNotFound | ItemNotFound | FilterNotFound
| NowAllowed | AlreadyAllowed.

(** [allowItemInContainer]. *)
Definition allowItemInContainer (items : ItemTable)
           (containerId itemIdToAdd : string) : ItemTable * Allowed :=
  match lookup items containerId with
  | None => (items, ContainerNotFound)
  | Some containerItem =>
      match lookup items itemIdToAdd with
      | None => (items, ItemNotFound)
      | Some _ =>
          match filterArray containerItem with
          | None => (items, FilterNotFound)
          | Some array =>
              if negb (Js.includes array itemIdToAdd)
              then (update items containerId (pushed containerItem itemIdToAdd),
                    NowAllowed)
              else (items, AlreadyAllowed)
          end
      end
  end.

(** [applyContainerSettings]. *)
Definition applyContainerSettings (config : IAdditionalSettingsConfig)
           (items : ItemTable) : ItemTable :=
  if allow_LegaMoneyCase config
  then fst (allowItemInContainer items MONEY_CASE_ID LEGA_MEDAL_ID)
  else items.

(** The clamping logic of [applyItemStackSize], then [Math.floor]. *)
Definition finalStackSize (configuredStackSize defaultStackSize minStackSize
                           maxStackSize : Js.number) : Js.number :=
  Js.floor (if Js.ltb configuredStackSize minStackSize then defaultStackSize
            else if Js.gtb configuredStackSize maxStackSize then maxStackSize
                 else configuredStackSize).

(** [current !== final], where [current] may be [undefined]. *)
Definition differs (current : option Js.number) (final : Js.number) : bool :=
  match current with
  | Some n => negb (Js.eqb n final)
  | None => true
  end.

(** What [applyItemStackSize] logged after the clamping. *)
Inductive Stacked : Type := PropsMissing | StackSet | StackAlready.

(** [applyItemStackSize]. *)
Definition applyItemStackSize (items : ItemTable) (itemId : string)
           (configuredStackSize defaultStackSize minStackSize
            maxStackSize : Js.number) : ItemTable * Stacked :=
  let finalStackSize :=
    finalStackSize configuredStackSize defaultStackSize minStackSize
                   maxStackSize in
  match lookup items itemId with
  | Some (mkItem (Some props)) =>
      if differs (StackMaxSize props) finalStackSize
      then (update items itemId
                   (mkItem (Some (mkProps (Some finalStackSize) (Grids props)))),
            StackSet)
      else (items, StackAlready)
  | _ => (items, PropsMissing)
  end.

(** [applyItemStackSizeSettings]. *)
Definition applyItemStackSizeSettings (config : IAdditionalSettingsConfig)
           (items : ItemTable) : ItemTable :=
  fst (applyItemStackSize items LEGA_MEDAL_ID (stacksize_lega config)
                          LEGA_DEFAULT_STACK LEGA_MIN_STACK LEGA_MAX_STACK).

(** *** The PMC chat response configuration *)

Record ChatResponse : Type := mkChat {
  responseChancePercent : option Js.number
}.

Record PmcChatResponse : Type := mkPmcChat {
  killer : option ChatResponse;
  victim : option ChatResponse
}.

(** [settingValue === true ? 0 : settingValue], for a setting that is
    not [false]. *)
Definition targetPercent (settingValue : BooleanOrNumber) : Js.number :=
  match settingValue with
  | IsBoolean _ => Js.ofZ 0
  | IsNumber n => n
  end.

(** One of the two assignments guarded by [!==]. *)
Definition setChance (current targetPercent : Js.number) : Js.number * bool :=
  if negb (Js.eqb current targetPercent) then (targetPercent, true)
  else (current, false).

(** [applyPmcChatSettings]: the host configuration after the call, and
    [changeMade]. *)
Definition applyPmcChatSettings (config : IAdditionalSettingsConfig)
           (pmcChatResponseConfig : option PmcChatResponse)
  : option PmcChatResponse * bool :=
  match disablePMC_ChatResponse config with
  | IsBoolean false => (pmcChatResponseConfig, false)
  | settingValue =>
      match pmcChatResponseConfig with
      | Some (mkPmcChat (Some (mkChat (Some k))) (Some (mkChat (Some v)))) =>
          let target := targetPercent settingValue in
          let k' := setChance k target in
          let v' := setChance v target in
          (Some (mkPmcChat (Some (mkChat (Some (fst k'))))
                           (Some (mkChat (Some (fst v'))))),
           snd k' || snd v')
      | _ => (pmcChatResponseConfig, false)
      end
  end.

(** *** Hideout areas *)

Record StageRequirement : Type := mkRequirement {
  type : option string;
  isSpawnedInSession : option bool
}.

Record Stage : Type := mkStage {
  requirements : option (list (option StageRequirement))
}.

Record HideoutArea : Type := mkArea {
  stages : option (list (string * option Stage))
}.

Definition AreaTable : Type := list (string * option HideoutArea).

(** The body of the innermost loop; the boolean tells whether
    [modifiedCount] went up. *)
Definition requirementStep (requirement : option StageRequirement)
  : option StageRequirement * bool :=
  match requirement with
  | Some (mkRequirement t (Some true)) =>
      (Some (mkRequirement t (Some false)), true)
  | _ => (requirement, false)
  end.

Definition stageStep (stage : option Stage) : option Stage * nat :=
  match stage with
  | Some (mkStage (Some reqs)) =>
      let stepped := map requirementStep reqs in
      (Some (mkStage (Some (map fst stepped))),
       List.length (filter snd stepped))
  | _ => (stage, O)
  end.

Definition areaStep (areaData : option HideoutArea)
  : option HideoutArea * nat :=
  match areaData with
  | Some (mkArea (Some stageList)) =>
      let stepped := map (fun s => (fst s, stageStep (snd s))) stageList in
      (Some (mkArea (Some (map (fun s => (fst s, fst (snd s))) stepped))),
       list_sum (map (fun s => snd (snd s)) stepped))
  | _ => (areaData, O)
  end.

(** [applyHideoutSettings]: the areas after the call and
    [modifiedCount]. *)
Definition applyHideoutSettings (config : IAdditionalSettingsConfig)
           (hideoutAreas : AreaTable) : AreaTable * nat :=
  if negb (removeFirForHideout config) then (hideoutAreas, O)
  else
    let stepped := map (fun a => (fst a, areaStep (snd a))) hideoutAreas in
    (map (fun a => (fst a, fst (snd a))) stepped,
     list_sum (map (fun a => snd (snd a)) stepped)).

(** *** The seasonal event configuration *)

Record SeasonalEvent : Type := mkEvent { enabled : option bool }.

Record SeasonalEventConfig : Type := mkSeasonal {
  enableSeasonalEventDetection : option bool;
  events : option (list (option SeasonalEvent))
}.

Definition eventStep (event : option SeasonalEvent)
  : option SeasonalEvent * bool :=
  match event with
  | Some (mkEvent (Some true)) => (Some (mkEvent (Some false)), true)
  | _ => (event, false)
  end.

(** [applySeasonalEventSettings]: the host configuration after the call,
    [detectionChanged] and [eventsChanged]. *)
Definition applySeasonalEventSettings (config : IAdditionalSettingsConfig)
           (seasonalEventConfig : option SeasonalEventConfig)
  : option SeasonalEventConfig * (bool * nat) :=
  if negb (disableSeasonEvents config) then (seasonalEventConfig, (false, O))
  else
    match seasonalEventConfig with
    | None => (None, (false, O))
    | Some cfg =>
        let detectionChanged :=
          match enableSeasonalEventDetection cfg with
          | Some true => true
          | _ => false
          end in
        let detection :=
          if detectionChanged then Some false
          else enableSeasonalEventDetection cfg in
        match events cfg with
        | Some entries =>
            let stepped := map eventStep entries in
            (Some (mkSeasonal detection (Some (map fst stepped))),
             (detectionChanged, List.length (filter snd stepped)))
        | None => (Some (mkSeasonal detection None), (detectionChanged, O))
        end
    end.

End CoreTweaks.

(* ================================================================== *)
(** ** Vocabulary for the host data *)
(* ================================================================== *)

Section HostVocabulary.
Import CoreTweaks.

(** A template's stack size, and what its grids hold besides the filter
    array [allowItemInContainer] pushes to: the grids after the first,
    and the filters of the first grid after the first. *)
Definition stackOf (item : TemplateItem) : option Js.number :=
  match _props item with
  | Some props => StackMaxSize props
  | None => None
  end.

Definition otherGrids (item : TemplateItem) : option (list Grid) :=
  match _props item with
  | Some props => option_map (@tl Grid) (Grids props)
  | None => None
  end.

Definition otherFilters (item : TemplateItem) : option (list FilterEntry) :=
  match _props item with
  | Some props =>
      match Grids props with
      | Some (grid :: _) =>
          match gridProps grid with
          | Some gp => option_map (@tl FilterEntry) (filters gp)
          | None => None
          end
      | _ => None
      end
  | None => None
  end.

(** The chance a setting of [disablePMC_ChatResponse] other than [false]
    asks for: 0 for [true], the number itself for a number. *)
Definition chanceAsked (setting : BooleanOrNumber) (target : Js.number) : Prop :=
  (setting = IsBoolean true /\ target = Js.ofZ 0) \/ setting = IsNumber target.

(** The requirements the loops of [applyHideoutSettings] reach. *)
Definition requirementsOfStage (stage : option Stage) : list StageRequirement :=
  match stage with
  | Some (mkStage (Some reqs)) =>
      flat_map (fun r => match r with Some x => [x] | None => [] end) reqs
  | _ => []
  end.

Definition requirementsOfArea (areaData : option HideoutArea)
  : list StageRequirement :=
  match areaData with
  | Some (mkArea (Some stageList)) =>
      flat_map (fun s => requirementsOfStage (snd s)) stageList
  | _ => []
  end.

Definition requirementsOf (hideoutAreas : AreaTable) : list StageRequirement :=
  flat_map (fun a => requirementsOfArea (snd a)) hideoutAreas.

(** The requirement asks for items found in raid. *)
Definition foundInRaid (r : StageRequirement) : bool :=
  match isSpawnedInSession r with Some true => true | _ => false end.

(** The requirement with its flag, if any, put to [false]. *)
Definition withoutFir (r : StageRequirement) : StageRequirement :=
  mkRequirement (type r)
    (match isSpawnedInSession r with
     | Some _ => Some false
     | None => None
     end).

(** The events of a seasonal configuration that are there. *)
Definition eventsOf (cfg : option SeasonalEventConfig) : list SeasonalEvent :=
  match cfg with
  | Some (mkSeasonal _ (Some entries)) =>
      flat_map (fun e => match e with Some x => [x] | None => [] end) entries
  | _ => []
  end.

Definition isEnabled (e : SeasonalEvent) : bool :=
  match enabled e with Some true => true | _ => false end.

(** The chance the two assignments of [applyPmcChatSettings] leave: the
    target, or a value already equal to it. *)
Definition atTarget (chance target : Js.number) : Prop :=
  chance = target \/ Js.eqb chance target = true.

End HostVocabulary.

(* ================================================================== *)
(** ** Vocabulary for the item and quest consumers *)
(* ================================================================== *)

Section ConsumerVocabulary.
Import Host.

Definition isUnlootable (item : TemplateItem) : bool :=
  match _props item with
  | Some props => CoreModule.isTrue (Unlootable props)
  | None => false
  end.

Definition sidesOf (item : TemplateItem) : option (list string) :=
  match _props item with
  | Some props => UnlootableFromSide props
  | None => None
  end.

Definition weightOf (item : TemplateItem) : option Js.number :=
  match _props item with
  | Some props => Weight props
  | None => None
  end.

(** The templates [applyLootabilitySettings] is meant to change: an
    unlootable armband or melee weapon whose kind is switched on and whose
    id is not on the blacklist. *)
Definition lootTarget (config : IAdditionalSettingsConfig)
           (entry : string * TemplateItem) : bool :=
  isUnlootable (snd entry)
  && negb (Js.includes CoreModule.LOOTABILITY_BLACKLIST (fst entry))
  && ((LootArmbands config
       && String.eqb (_parent (snd entry)) CoreModule.ARMBAND_PARENT_ID)
      || (LootMelee config
          && String.eqb (_parent (snd entry)) CoreModule.MELEE_PARENT_ID)).

(** The templates [applyAmmoWeightChanges] is meant to change: a template
    with a weight other than zero whose kind is switched on. *)
Definition weightTarget (config : IAdditionalSettingsConfig)
           (entry : string * TemplateItem) : bool :=
  match weightOf (snd entry) with
  | Some w =>
      negb (Js.eqb w (Js.ofZ 0))
      && ((weightless_ammo config
           && String.eqb (_parent (snd entry)) AmmoModule.AMMO_PARENT_ID)
          || (weightless_ammoboxes config
              && String.eqb (_parent (snd entry)) AmmoModule.AMMOBOX_PARENT_ID)
          || (weightless_grenades config
              && String.eqb (_parent (snd entry)) AmmoModule.GRENADE_PARENT_ID))
  | None => false
  end.

(** The item table of the host's tables, when it is there. *)
Definition itemsOf (databaseServer : Tables) : ItemTable :=
  match templates databaseServer with
  | Some (mkTemplates (Some items) _) => items
  | _ => []
  end.

(** The conditions [applyPlantTimeChanges] visits. *)
Definition conditionsOfQuest (entry : string * Quest) : list QuestCondition :=
  match conditions (snd entry) with
  | Some (mkConditions (Some availableForFinish)) => availableForFinish
  | _ => []
  end.

Definition conditionsOf (databaseServer : Tables) : list QuestCondition :=
  match templates databaseServer with
  | Some (mkTemplates _ (Some quests)) => flat_map conditionsOfQuest quests
  | _ => []
  end.

(** The multiplier [applyPlantTimeChanges] applies to a condition, when
    it applies one. *)
Definition modifierFor (config : IAdditionalSettingsConfig)
           (condition : QuestCondition) : option Js.number :=
  if String.eqb (conditionType condition) "LeaveItemAtLocation"
  then Some (leaveItemAtLocationModifier config)
  else if String.eqb (conditionType condition) "PlaceBeacon"
       then Some (placeBeaconModifier config)
       else None.

End ConsumerVocabulary.

(* ================================================================== *)
(** ** What a consumer may do to one entry *)
(* ================================================================== *)

Section ConsumerRelations.
Import Host.

(** What [applyLootabilitySettings] does to one template. *)
Definition lootChange (config : IAdditionalSettingsConfig)
           (before after : string * TemplateItem) : Prop :=
  if lootTarget config before
  then fst after = fst before
       /\ _name (snd after) = _name (snd before)
       /\ _parent (snd after) = _parent (snd before)
       /\ weightOf (snd after) = weightOf (snd before)
       /\ isUnlootable (snd after) = false
       /\ sidesOf (snd after) = Some []
  else after = before.

(** What [applyAmmoWeightChanges] does to one template. *)
Definition weightChange (config : IAdditionalSettingsConfig)
           (before after : string * TemplateItem) : Prop :=
  if weightTarget config before
  then fst after = fst before
       /\ _name (snd after) = _name (snd before)
       /\ _parent (snd after) = _parent (snd before)
       /\ isUnlootable (snd after) = isUnlootable (snd before)
       /\ sidesOf (snd after) = sidesOf (snd before)
       /\ weightOf (snd after) = Some (Js.ofZ 0)
  else after = before.

(** [Math.max(1, Math.round(product))] in the words of its description:
    for a finite product the integer nearest to it, the larger of two
    that are equally near, and 1 when that is below 1; plus infinity for
    plus infinity and 1 for minus infinity. *)
Definition nearestAtLeastOne (product written : Js.number) : Prop :=
  match product with
  | Js.Finite p =>
      exists z : Z,
        (inject_Z z - (1 # 2) <= p)%Q /\ (p < inject_Z z + (1 # 2))%Q
        /\ written = Js.ofZ (Z.max 1 z)
  | Js.Infinity false => written = Js.Infinity false
  | Js.Infinity true => written = Js.ofZ 1
  | Js.NaN => written = Js.NaN
  end.

(** What [applyPlantTimeChanges] does to one condition: nothing, unless
    the condition has a finite [plantTime], is of one of the two kinds
    and the multiplier of its kind is not 1; then the time is the
    product of the time and the multiplier, a double, rounded to the
    nearest integer and raised to 1 (or it stays, when it is equal to
    that), and is not below 1. *)
Definition timeChange (config : IAdditionalSettingsConfig)
           (before after : QuestCondition) : Prop :=
  conditionType after = conditionType before
  /\ match plantTime before, modifierFor config before with
     | Some (Js.Finite x), Some m =>
         if Js.eqb m PlantTimeModule.one then after = before
         else
           exists t' rounded,
             plantTime after = Some t'
             /\ nearestAtLeastOne (Js.mul (Js.Finite x) m) rounded
             /\ (t' = rounded
                 \/ (t' = Js.Finite x /\ Js.eqb rounded (Js.Finite x) = true))
             /\ Js.ltb t' PlantTimeModule.one = false
     | _, _ => after = before
     end.

End ConsumerRelations.


(* ================================================================== *)
(** ** The weather module's season selection ([module_weather.ts]) *)
(* ================================================================== *)

(** The selection logic of [WeatherModule]: [getAvailableSeasonIndices],
    [getRandomSeasonIndexFromList], [getWeightedRandomSeasonIndex] and
    [determineAndSetSeason].  [Math.random()] is called at most once on
    every path; its result is the argument [random].  The logger calls are
    left out. *)
Module WeatherModule.

(** [IWeatherModuleConfig], as [module_configuration.ts] declares it. *)
Record IWeatherModuleConfig : Type := mkWeather {
  use_fixed_season : bool;
  fixed_season_index : Js.number;
  use_weight_system : bool;
  use_random_system : bool;
  random_system_mode : Js.number;
  exclude_seasons : list Js.number;
  Summer : Js.number;
  Autumn : Js.number;
  Winter : Js.number;
  Spring : Js.number;
  LateAutumn : Js.number;
  EarlySpring : Js.number;
  Storm : Js.number
}.

(** [this.moduleConfig[name]]: the property of that name, [undefined]
    when the object has none. *)
Definition property (c : IWeatherModuleConfig) (name : string) : Js.value :=
  if String.eqb name "use_fixed_season" then Js.Bool (use_fixed_season c)
  else if String.eqb name "fixed_season_index"
  then Js.Num (fixed_season_index c)
  else if String.eqb name "use_weight_system"
  then Js.Bool (use_weight_system c)
  else if String.eqb name "use_random_system"
  then Js.Bool (use_random_system c)
  else if String.eqb name "random_system_mode"
  then Js.Num (random_system_mode c)
  else if String.eqb name "exclude_seasons"
  then Js.Arr (map Js.Num (exclude_seasons c))
  else if String.eqb name "Summer" then Js.Num (Summer c)
  else if String.eqb name "Autumn" then Js.Num (Autumn c)
  else if String.eqb name "Winter" then Js.Num (Winter c)
  else if String.eqb name "Spring" then Js.Num (Spring c)
  else if String.eqb name "LateAutumn" then Js.Num (LateAutumn c)
  else if String.eqb name "EarlySpring" then Js.Num (EarlySpring c)
  else if String.eqb name "Storm" then Js.Num (Storm c)
  else Js.Undefined.

Definition seasonsArray : list string :=
  ["Summer"; "Autumn"; "Winter"; "Spring"; "Late Autumn"; "Early Spring";
   "Storm"].

(** The season indices are the integers 0 to 6; they are kept as
    integers and injected where they meet a number of the
    configuration. *)
Definition ALL_SEASON_INDICES : list Z := [0; 1; 2; 3; 4; 5; 6].
Definition STORM_INDEX : Z := 6.

(** SameValueZero, the equality of [Set] and of [includes]. *)
Definition sameValueZero (a b : Js.number) : bool :=
  Js.eqb a b || (Js.isNaN a && Js.isNaN b).

(** [excludedIndices.has(i)] *)
Definition has (excludedIndices : list Js.number) (i : Z) : bool :=
  existsb (fun n => sameValueZero n (Js.ofZ i)) excludedIndices.

(** [excludedIndices.size]: the number of distinct values. *)
Fixpoint size (values : list Js.number) : nat :=
  match values with
  | [] => O
  | n :: rest =>
      if existsb (sameValueZero n) rest then size rest else S (size rest)
  end.

Definition isEmpty {A : Type} (l : list A) : bool :=
  match l with [] => true | _ => false end.

(** [getAvailableSeasonIndices]. *)
Definition getAvailableSeasonIndices (moduleConfig : option IWeatherModuleConfig)
  : list Z :=
  match moduleConfig with
  | None => [0]
  | Some config =>
      let excludedIndices := exclude_seasons config in
      let availableIndices :=
        filter (fun i => negb (has excludedIndices i)) ALL_SEASON_INDICES in
      if isEmpty availableIndices then
        (* Fallback: allow all non-storm seasons *)
        let availableIndices :=
          filter (fun i => negb (i =? STORM_INDEX)) ALL_SEASON_INDICES in
        (* Edge case: only Storm was available originally *)
        let availableIndices :=
          if isEmpty availableIndices
             && Nat.eqb (size excludedIndices) (List.length seasonsArray - 1)
             && negb (has excludedIndices STORM_INDEX)
          then (availableIndices ++ [STORM_INDEX])%list
          else availableIndices in
        (* Final failsafe *)
        if isEmpty availableIndices then [0] else availableIndices
      else availableIndices
  end.

(** [array[position]] for a position that is a number: the element when
    the position is one of the array's indices, [undefined] otherwise. *)
Definition at_ (array : list Z) (position : Js.number) : option Z :=
  match position with
  | Js.Finite q =>
      if Js.isIntegerQ q && (0 <=? Qfloor q)
      then nth_error array (Z.to_nat (Qfloor q))
      else None
  | _ => None
  end.

(** [getRandomSeasonIndexFromList]; [None] is [undefined]. *)
Definition getRandomSeasonIndexFromList (indices : list Z) (random : Js.number)
  : option Z :=
  if isEmpty indices then Some 0
  else
    let randomIndexPosition :=
      Js.floor (Js.mul random (Js.ofZ (Z.of_nat (List.length indices)))) in
    at_ indices randomIndexPosition.

(** [this.seasonsArray[index]] *)
Definition seasonName (index : Z) : option string :=
  if index <? 0 then None else nth_error seasonsArray (Z.to_nat index).

(** [this.moduleConfig[seasonName]] for the season at [index]. *)
Definition weightOfSeason (config : IWeatherModuleConfig) (index : Z)
  : Js.value :=
  match seasonName index with
  | Some name => property config name
  | None => Js.Undefined
  end.

(** The first loop of [getWeightedRandomSeasonIndex]: the entries of
    [weights] and [totalWeight]. *)
Fixpoint collectWeights (config : IWeatherModuleConfig)
         (availableIndices : list Z) (weights : list (Z * Js.number))
         (totalWeight : Js.number) : list (Z * Js.number) * Js.number :=
  match availableIndices with
  | [] => (weights, totalWeight)
  | index :: rest =>
      match weightOfSeason config index with
      | Js.Num weight =>
          if Js.isFiniteNumber weight && Js.gtb weight (Js.ofZ 0)
          then collectWeights config rest (weights ++ [(index, weight)])%list
                              (Js.add totalWeight weight)
          else collectWeights config rest weights totalWeight
      | _ => collectWeights config rest weights totalWeight
      end
  end.

(** The second loop: the first entry at which the cumulative weight
    exceeds [random]. *)
Fixpoint pick (weights : list (Z * Js.number)) (random : Js.number)
         (cumulativeWeight : Js.number) : option Z :=
  match weights with
  | [] => None
  | (index, weight) :: rest =>
      let cumulativeWeight := Js.add cumulativeWeight weight in
      if Js.ltb random cumulativeWeight then Some index
      else pick rest random cumulativeWeight
  end.

(** [getWeightedRandomSeasonIndex]; [None] is [undefined]. *)
Definition getWeightedRandomSeasonIndex
           (moduleConfig : option IWeatherModuleConfig)
           (availableIndices : list Z) (random : Js.number) : option Z :=
  match moduleConfig with
  | None => Some (match availableIndices with i :: _ => i | [] => 0 end)
  | Some config =>
      let collected :=
        collectWeights config availableIndices [] (Js.ofZ 0) in
      let weights := fst collected in
      let totalWeight := snd collected in
      if Js.leb totalWeight (Js.ofZ 0)
      then getRandomSeasonIndexFromList availableIndices random
      else
        match pick weights (Js.mul random totalWeight) (Js.ofZ 0) with
        | Some index => Some index
        | None => hd_error availableIndices
        end
  end.

(** [text.includes(part)] on strings. *)
Fixpoint contains (text part : string) : bool :=
  match Json.dropPrefix part text with
  | Some _ => true
  | None =>
      match text with
      | EmptyString => false
      | String _ rest => contains rest part
      end
  end.

(** [finalPool.includes(selectedIndex)] *)
Definition poolIncludes (pool : list Z) (selectedIndex : Js.number) : bool :=
  existsb (fun i => sameValueZero (Js.ofZ i) selectedIndex) pool.

(** SPT's weather configuration, as far as the module writes it. *)
Record WeatherConfig : Type := mkBase { overrideSeason : option Js.number }.

(** What [determineAndSetSeason] returns. *)
Record Selection : Type := mkSelection {
  selectedIndex : option Js.number;
  selectionMethod : string
}.

(** [determineAndSetSeason]: SPT's configuration after the call, and the
    record returned. *)
Definition determineAndSetSeason (baseWeatherConfig : option WeatherConfig)
           (moduleConfig : option IWeatherModuleConfig) (random : Js.number)
  : option WeatherConfig * Selection :=
  match baseWeatherConfig, moduleConfig with
  | Some _, Some config =>
      let availableIndices := getAvailableSeasonIndices moduleConfig in
      if isEmpty availableIndices then
        (Some (mkBase (Some (Js.ofZ 0))),
         mkSelection (Some (Js.ofZ 0)) "Error Fallback (No Available)")
      else
        let chosen :=
          if use_fixed_season config then
            (* Map config value 1-7 to index 0-6 *)
            let targetIndex :=
              Js.add (fixed_season_index config) (Js.ofZ (-1)) in
            if Js.geb targetIndex (Js.ofZ 0)
               && Js.ltb targetIndex
                         (Js.ofZ (Z.of_nat (List.length seasonsArray)))
            then mkSelection (Some targetIndex) "Fixed"
            else mkSelection (Some (Js.ofZ 0)) "Fixed (Invalid Fallback)"
          else if use_weight_system config then
            mkSelection
              (option_map Js.ofZ
                 (getWeightedRandomSeasonIndex moduleConfig availableIndices
                                               random))
              "Weighted Random"
          else
            let randomMode := random_system_mode config in
            if Js.eqb randomMode (Js.ofZ 0) then
              mkSelection
                (option_map Js.ofZ
                   (getRandomSeasonIndexFromList ALL_SEASON_INDICES random))
                "Auto Random (All)"
            else
              mkSelection
                (option_map Js.ofZ
                   (getRandomSeasonIndexFromList availableIndices random))
                "Auto Random (Available)" in
        (* Final validation *)
        let finalPool :=
          if contains (selectionMethod chosen) "All"
             || contains (selectionMethod chosen) "Fixed"
          then ALL_SEASON_INDICES else availableIndices in
        let final :=
          match selectedIndex chosen with
          | Some index =>
              if poolIncludes finalPool index then chosen
              else mkSelection (option_map Js.ofZ (hd_error availableIndices))
                               (selectionMethod chosen ++ " - Final Fallback")
          | None =>
              mkSelection (option_map Js.ofZ (hd_error availableIndices))
                          (selectionMethod chosen ++ " - Final Fallback")
          end in
        (Some (mkBase (selectedIndex final)), final)
  | _, _ =>
      (baseWeatherConfig, mkSelection None "Error - Config Missing")
  end.

End WeatherModule.

(* ================================================================== *)
(** ** The weather settings read through their interface type *)
(* ================================================================== *)

Module TypedWeather.
Import Js WeatherModule.
Import Typed.

(** An array of numbers. *)
Fixpoint numbers (l : list value) : option (list Js.number) :=
  match l with
  | [] => Some []
  | Num n :: rest =>
      match numbers rest with
      | Some ns => Some (n :: ns)
      | None => None
      end
  | _ => None
  end.

Definition numberArray (v : value) : option (list Js.number) :=
  match v with Arr l => numbers l | _ => None end.

(** The object [loadWeatherConfig] returns, read as
    [IWeatherModuleConfig]; there is no such reading when a property does
    not hold a value of its declared type. *)
Definition weatherSettings (o : object) : option IWeatherModuleConfig :=
  a1 <-- boolean (get o "use_fixed_season") ;;
  a2 <-- number (get o "fixed_season_index") ;;
  a3 <-- boolean (get o "use_weight_system") ;;
  a4 <-- boolean (get o "use_random_system") ;;
  a5 <-- number (get o "random_system_mode") ;;
  a6 <-- numberArray (get o "exclude_seasons") ;;
  a7 <-- number (get o "Summer") ;;
  a8 <-- number (get o "Autumn") ;;
  a9 <-- number (get o "Winter") ;;
  a10 <-- number (get o "Spring") ;;
  a11 <-- number (get o "LateAutumn") ;;
  a12 <-- number (get o "EarlySpring") ;;
  a13 <-- number (get o "Storm") ;;
  Some (mkWeather a1 a2 a3 a4 a5 a6 a7 a8 a9 a10 a11 a12 a13).

End TypedWeather.

Section WeatherVocabulary.
Import WeatherModule.

(** The configuration with other weights for Late Autumn and Early
    Spring. *)
Definition withLateWeights (c : IWeatherModuleConfig)
           (lateAutumn earlySpring : Js.number) : IWeatherModuleConfig :=
  mkWeather (use_fixed_season c) (fixed_season_index c) (use_weight_system c)
            (use_random_system c) (random_system_mode c) (exclude_seasons c)
            (Summer c) (Autumn c) (Winter c) (Spring c)
            lateAutumn earlySpring (Storm c).

(** [totalWeight] of [getWeightedRandomSeasonIndex]. *)
Definition totalWeight (c : IWeatherModuleConfig) : Js.number :=
  snd (collectWeights c (getAvailableSeasonIndices (Some c)) [] (Js.ofZ 0)).

(** The weight a season enters the weighted selection with, when it
    enters it. *)
Definition positiveWeight (c : IWeatherModuleConfig) (index : Z)
  : option Js.number :=
  match weightOfSeason c index with
  | Js.Num weight =>
      if Js.isFiniteNumber weight && Js.gtb weight (Js.ofZ 0)
      then Some weight else None
  | _ => None
  end.

Fixpoint positiveWeights (c : IWeatherModuleConfig) (indices : list Z)
  : list (Z * Js.number) :=
  match indices with
  | [] => []
  | index :: rest =>
      match positiveWeight c index with
      | Some weight => (index, weight) :: positiveWeights c rest
      | None => positiveWeights c rest
      end
  end.

(** The weights added up in list order, on top of [start]. *)
Definition sumFrom (start : Js.number) (weights : list (Z * Js.number))
  : Js.number :=
  fold_left (fun total w => Js.add total (snd w)) weights start.

(** The season at [index] is the one selected. *)
Definition selects (s : Selection) (index : Z) : Prop :=
  selectedIndex s = Some (Js.ofZ index).

(** The weighted mode with Summer to Spring excluded and a weight of 1000
    on Late Autumn and on Early Spring. *)
Definition lateSeasonsFavoured : IWeatherModuleConfig :=
  mkWeather false (Js.ofZ 1) true false (Js.ofZ 1)
            (map Js.ofZ [0; 1; 2; 3])
            (Js.ofZ 10) (Js.ofZ 10) (Js.ofZ 10) (Js.ofZ 10)
            (Js.ofZ 1000) (Js.ofZ 1000) (Js.ofZ 5).

(** The weighted mode with Summer to Spring excluded and the smallest
    positive double, [2 ^ -1074], as the weight of Storm. *)
Definition stormBarelyWeighted : IWeatherModuleConfig :=
  mkWeather false (Js.ofZ 1) true false (Js.ofZ 1)
            (map Js.ofZ [0; 1; 2; 3])
            (Js.ofZ 10) (Js.ofZ 10) (Js.ofZ 10) (Js.ofZ 10)
            (Js.ofZ 10) (Js.ofZ 10)
            (Js.Finite (1 # Z.to_pos (2 ^ 1074))).

End WeatherVocabulary.

(* ================================================================== *)
(** ** The weapon module ([module_weapon.ts]) *)
(* ================================================================== *)

Module WeaponModule.

(** What [ExtraSizeDown] and [ExtraSizeUp] may hold after the module ran:
    a number, or a member that the target table inherits from
    [Object.prototype] (the tables are plain objects, so that is what
    looking up an id such as [constructor] in them returns). *)
Inductive SizeValue : Type :=
| Size (n : Js.number)
| Inherited (member : string).

Record Props : Type := mkProps {
  ExtraSizeDown : option SizeValue;
  ExtraSizeUp : option SizeValue
}.

Record TemplateItem : Type := mkItem {
  _name : string;
  _parent : string;
  _props : option Props
}.

Definition ItemTable : Type := list (string * TemplateItem).

Definition MAGAZINE_IDS_TO_SHRINK : list (string * Z) :=
  [ ("6513f0a194c72326990a3868", 0);
    ("646372518610c40fc20204e8", 1) ].

Definition MOUNT_IDS_TO_SHRINK : list (string * Z) :=
  [ ("5a37ca54c4a282000d72296a", 0);
    ("5aa66c72e5b5b00016327c93", 0);
    ("61713cc4d8e3106d9806c109", 0);
    ("6171407e50224f204c1da3c5", 0) ].

(** The property names of [Object.prototype]. *)
Definition objectPrototype : list string :=
  [ "constructor"; "__defineGetter__"; "__defineSetter__"; "hasOwnProperty";
    "__lookupGetter__"; "__lookupSetter__"; "isPrototypeOf";
    "propertyIsEnumerable"; "toString"; "valueOf"; "__proto__";
    "toLocaleString" ].

(** [table[itemId]]; [None] is [undefined]. *)
Definition entryOf (table : list (string * Z)) (itemId : string)
  : option SizeValue :=
  match find (fun e => String.eqb (fst e) itemId) table with
  | Some e => Some (Size (Js.ofZ (snd e)))
  | None => if Js.includes objectPrototype itemId
            then Some (Inherited itemId) else None
  end.

(** [current !== targetValue] *)
Definition differs (current : option SizeValue) (targetValue : SizeValue)
  : bool :=
  match current, targetValue with
  | Some (Size a), Size b => negb (Js.eqb a b)
  | Some (Inherited a), Inherited b => negb (String.eqb a b)
  | _, _ => true
  end.

(** One of the two blocks of the loop body: the new value of the
    property, and whether [modifiedCount] went up. *)
Definition shrink (isKind : bool) (table : list (string * Z)) (itemId : string)
           (current : option SizeValue) : option SizeValue * bool :=
  if isKind then
    match entryOf table itemId with
    | Some targetValue =>
        if differs current targetValue then (Some targetValue, true)
        else (current, false)
    | None => (current, false)
    end
  else (current, false).

Section Shrink.

(** [BaseClasses.MAGAZINE] and [BaseClasses.MOUNT] of the host's
    enumeration, which is not among the sources. *)
Variables (MAGAZINE MOUNT : string).

(** The loop body of [applyInventoryShrink]. *)
Definition shrinkStep (entry : string * TemplateItem)
  : (string * TemplateItem) * nat :=
  let '(itemId, item) := entry in
  match _props item with
  | None => (entry, O)
  | Some itemProps =>
      if String.eqb (_parent item) "" then (entry, O)
      else
        let down :=
          shrink (String.eqb (_parent item) MAGAZINE) MAGAZINE_IDS_TO_SHRINK
                 itemId (ExtraSizeDown itemProps) in
        let up :=
          shrink (String.eqb (_parent item) MOUNT) MOUNT_IDS_TO_SHRINK
                 itemId (ExtraSizeUp itemProps) in
        ((itemId, mkItem (_name item) (_parent item)
                         (Some (mkProps (fst down) (fst up)))),
         (Nat.b2n (snd down) + Nat.b2n (snd up))%nat)
  end.

(** [applyInventoryShrink] on [tables?.templates?.items], which may be
    missing: the table after the call and [modifiedCount]. *)
Definition applyInventoryShrink (items : option ItemTable)
  : option ItemTable * nat :=
  match items with
  | None => (None, O)
  | Some dbItems =>
      let stepped := map shrinkStep dbItems in
      (Some (map fst stepped), list_sum (map snd stepped))
  end.

(** [applyWeaponChanges], the module's run method. *)
Definition applyWeaponChanges (config : IAdditionalSettingsConfig)
           (items : option ItemTable) : option ItemTable :=
  if weapon_inv_shrink config then fst (applyInventoryShrink items)
  else items.

End Shrink.

End WeaponModule.

(* ================================================================== *)
(** ** The legacy loader, whole ([configCreation.ts], version 1.0.1) *)
(* ================================================================== *)

Module LegacyLoader.
Import Loader.

(** [defaultConfigJsonc], written like the templates of [Headers]. *)
Definition defaultConfigJsonc : string := Headers.text
"// Default Configuration for AdditionalSettings Mod v1.0.1+
// This file uses JSONC format (JSON with Comments). Comments are ignored by the loader.
// Edit the values below to customize the mod's behavior. Restart server for changes to apply.
{
    // --- Lootability Settings ---

    // Enable/disable making armbands lootable from bodies.
    // If true, armbands (Parent ID: 5b3f15d486f77432d0509248) found on AI/players can be looted.
    // Note: Specific items might be internally blacklisted by the mod and remain unlootable.
    // Default: true
    `LootArmbands`: true,

    // Enable/disable making melee weapons lootable from bodies.
    // If true, melee weapons (Parent ID: 5447e1d04bdc2dff2f8b4567) found on AI/players can be looted.
    // Note: Does not affect your *own* equipped melee if 'SaveMeleeOnDeath' is true.
    // Note: Specific items (e.g., M48 Kukri) might be internally blacklisted and remain unlootable.
    // Default: true
    `LootMelee`: true,


    // --- Save Gear on Death Settings ---

    // Prevent losing your equipped armband upon death.
    // If true, the armband in your 'ArmBand' slot will remain after dying in a raid.
    // Note: Other mods might override this setting.
    // Default: false
    `SaveArmbandOnDeath`: false,

    // Prevent losing your equipped melee weapon upon death.
    // If true, the weapon in your 'Scabbard' slot will remain after dying in a raid.
    // Note: Other mods might override this setting.
    // Default: false
    `SaveMeleeOnDeath`: false,


    // --- Gameplay Tweak Settings ---

    // Adjust PMC voice lines triggered after getting a kill or being killed.
    // Accepts:
    //   - true:  Disable responses entirely (set chance to 0%).
    //   - false: Use default SPT values (this mod applies no changes).
    //   - number (1-100): Set response chance to this specific percentage for both killer and victim.
    // Values outside the 1-100 range (if a number is used) will be reset to 'false' (default behavior).
    // Default: false
    `disablePMC_ChatResponse`: false,

    // Allow 'Lega Medals' to be placed in Money Cases.
    // If true, modifies the Money Case filter (ID: 59fb016586f7746d0d4b423a)
    // to accept 'MedalMilitaryLega' (ID: 6656560053eaaa7a23349c86).
    // Default: false
    `allow_LegaMoneyCase`: false,

    // Adjust the stack size for 'LegaMedal' (ID: 6656560053eaaa7a23349c86).
    // Sets the maximum number of medals that can stack in a single inventory slot.
    // Range: 1 to 999. Values outside this range will be clamped or reset to the default (50).
    // Default: 50
    `stacksize_lega`: 50

    // --- Add future settings below this line ---
}
".

(** [{ ...defaultConfigValues, ...loadedConfig }]: the own enumerable
    properties of the parsed value laid over the defaults; a key of the
    defaults keeps its place, a new key is appended.  (JavaScript lists
    keys that are array indices first; only the order of the keys could
    show it.) *)
Definition spread (defaults : Js.object) (loadedConfig : Js.value) : Js.object :=
  fold_left (fun merged kv => Js.set merged (fst kv) (snd kv))
            (ownProps loadedConfig) defaults.

(** The validation of [stacksize_lega]: a number other than NaN, or the
    default. *)
Definition validateStackSize (mergedConfig : Js.object) : Js.object :=
  match Js.get mergedConfig "stacksize_lega" with
  | Js.Num n =>
      if Js.isNaN n
      then Js.set mergedConfig "stacksize_lega"
                  (Js.get Legacy.defaultConfigValues "stacksize_lega")
      else mergedConfig
  | _ => Js.set mergedConfig "stacksize_lega"
                (Js.get Legacy.defaultConfigValues "stacksize_lega")
  end.

(** How a call of [loadOrCreateConfig] went. *)
Inductive Path : Type := Created | CreationFailed | LoadedFile | LoadFailed.

Section Load.

(** [jsonUtil.deserialize] of the host. *)
Variable deserialize : string -> string -> Exc Js.value.
Variable configPath : string.

(** [loadOrCreateConfig]: the object returned, the file afterwards, and
    the path taken.  [writeThrows] stands for a failing [mkdirSync] or
    [writeFileSync], [readThrows] for a failing [readFileSync] of the
    existing file. *)
Definition loadOrCreateConfig (file : File) (writeThrows : bool)
           (readThrows : option Error) : Js.object * File * Path :=
  match file with
  | None =>
      if writeThrows then (Legacy.defaultConfigValues, None, CreationFailed)
      else (Legacy.defaultConfigValues, Some defaultConfigJsonc, Created)
  | Some content =>
      match
        (configContentWithComments <-
           match readThrows with
           | Some error => Throw error
           | None => Return content
           end ;;
         let configContentStripped :=
           Legacy.stripJsonComments configContentWithComments in
         loadedConfig <- deserialize configContentStripped configPath ;;
         let mergedConfig := spread Legacy.defaultConfigValues loadedConfig in
         let mergedConfig := fst (Legacy.validatePmcChat mergedConfig) in
         Return (validateStackSize mergedConfig))
      with
      | Return mergedConfig => (mergedConfig, file, LoadedFile)
      | Throw _ => (Legacy.defaultConfigValues, file, LoadFailed)
      end
  end.

End Load.

End LegacyLoader.

Section WeaponRelations.
Import WeaponModule.

(** What [applyInventoryShrink] does to one template, [MAGAZINE] and
    [MOUNT] being the parent ids of the two kinds: the id, the name and
    the parent stay; a template whose id is in neither target table and
    names no member of [Object.prototype] is left as it is; a listed
    magazine or mount with properties ends with the listed size; and a
    magazine or mount whose id names a member of [Object.prototype],
    which the lookup in the target table finds, ends with that member as
    its size. *)
Definition shrinkChange (MAGAZINE MOUNT : string)
           (before after : string * TemplateItem) : Prop :=
  fst after = fst before
  /\ _name (snd after) = _name (snd before)
  /\ _parent (snd after) = _parent (snd before)
  /\ (Js.includes (map fst MAGAZINE_IDS_TO_SHRINK ++ map fst MOUNT_IDS_TO_SHRINK
                   ++ objectPrototype)%list (fst before) = false ->
      after = before)
  /\ (_props (snd before) = None -> after = before)
  /\ (forall size props,
        In (fst before, size) MAGAZINE_IDS_TO_SHRINK ->
        _parent (snd before) = MAGAZINE -> MAGAZINE <> "" ->
        _props (snd before) = Some props ->
        exists props',
          _props (snd after) = Some props'
          /\ differs (ExtraSizeDown props') (Size (Js.ofZ size)) = false)
  /\ (forall size props,
        In (fst before, size) MOUNT_IDS_TO_SHRINK ->
        _parent (snd before) = MOUNT -> MOUNT <> "" ->
        _props (snd before) = Some props ->
        exists props',
          _props (snd after) = Some props'
          /\ differs (ExtraSizeUp props') (Size (Js.ofZ size)) = false)
  /\ (forall props,
        In (fst before) objectPrototype ->
        _parent (snd before) = MAGAZINE -> MAGAZINE <> "" ->
        _props (snd before) = Some props ->
        exists props',
          _props (snd after) = Some props'
          /\ ExtraSizeDown props' = Some (Inherited (fst before)))
  /\ (forall props,
        In (fst before) objectPrototype ->
        _parent (snd before) = MOUNT -> MOUNT <> "" ->
        _props (snd before) = Some props ->
        exists props',
          _props (snd after) = Some props'
          /\ ExtraSizeUp props' = Some (Inherited (fst before))).

End WeaponRelations.

(* ================================================================== *)
(** ** Start-up: the main file, then the weather module ([mod.ts]) *)
(* ================================================================== *)

Module Mod.
Import Loader MainLoader.

Section PreSptLoad.

Variable deserialize : string -> string -> Exc Js.value.
Variable rebuildConfigStringWithComments :
  string -> Js.object -> string -> Log * option string.
Variable writeFileSync : string -> Exc unit.
Variables (createMainThrows createWeatherThrows : bool).

(** The base names of [config.jsonc] and [config_weather.jsonc], and the
    name of the mod. *)
Variables (configFilename weatherFilename modName : string).

(** [runPreSptLogic] of the weather module, as far as its file goes: it
    loads [config_weather.jsonc] with the two flags its constructor was
    given. *)
Definition runPreSptLogic (debugEnabled allowConfigWriteBack : bool)
           (file : File) : LoadResult * File :=
  loadWeatherConfig deserialize rebuildConfigStringWithComments writeFileSync
                    weatherFilename file "[ASM Weather]"
                    debugEnabled allowConfigWriteBack.

(** [initializeWeatherModule]: nothing when [use_weather_module] is off
    or when the constructor of the weather module throws
    ([resolveThrows]: a service the container does not resolve);
    otherwise the module is built with [enableDebugLogs] and
    [allow_autoupdate_configs] of the main settings and runs its
    [runPreSptLogic]. *)
Definition initializeWeatherModule (resolveThrows : bool) (config : Js.object)
           (file : File) : option (LoadResult * File) :=
  if negb (Js.truthy (Js.get config "use_weather_module")) then None
  else if resolveThrows then None
  else Some (runPreSptLogic (Js.truthy (Js.get config "enableDebugLogs"))
                            (Js.truthy (Js.get config "allow_autoupdate_configs"))
                            file).

(** [preSptLoad], as far as the two files go: the main settings are
    loaded, then the weather module is started on them. *)
Definition preSptLoad (resolveThrows : bool) (before : Disk)
  : Outcome * option (LoadResult * File) :=
  let out :=
    loadMainConfig deserialize rebuildConfigStringWithComments writeFileSync
                   createMainThrows createWeatherThrows configFilename modName
                   before in
  (out, initializeWeatherModule resolveThrows (returned (settings out))
                                (weatherFile (disk out))).

End PreSptLoad.

End Mod.

(* ================================================================== *)
(** ** What a sanitizer pass may do to a text *)
(* ================================================================== *)

Section SanitizerVocabulary.
Import Text.

(** [Deletes deletable before after]: [after] is [before] with some code
    units of the class [deletable] taken out, and nothing added, changed
    or moved. *)
Inductive Deletes (deletable : ascii -> bool) : string -> string -> Prop :=
| deletes_end : Deletes deletable EmptyString EmptyString
| deletes_keep (c : ascii) (before after : string) :
    Deletes deletable before after ->
    Deletes deletable (String c before) (String c after)
| deletes_drop (c : ascii) (before after : string) :
    deletable c = true ->
    Deletes deletable before after ->
    Deletes deletable (String c before) after.

Definition anything (c : ascii) : bool := true.

Definition commaOrSpace (c : ascii) : bool := isComma c || isSpace c.

Definition withinLine (c : ascii) : bool := negb (isLineTerminator c).

End SanitizerVocabulary.

(* ================================================================== *)
(** ** The weather routes ([registerRoutes] of [module_weather.ts]) *)
(* ================================================================== *)

Module WeatherRoutes.
Import WeatherModule.

(** The two requests the module hooks: [/client/weather] and
    [/fika/raid/create]. *)
Inductive Request : Type := ClientWeather | FikaRaidCreate.

(** The fields of the module the handlers read and write. *)
Record State : Type := mkState {
  hasInitialSptWeatherBeenSet : bool;
  baseWeatherConfig : option WeatherConfig
}.

(** What a handler passes to [logSelectedSeason], when it determines the
    season: the selection and the [logContext]. *)
Definition Logged : Type := option (Selection * string).

Section Handlers.

(** [isFikaDetected] and [moduleConfig], both set before the routes are
    registered. *)
Variable isFikaDetected : bool.
Variable moduleConfig : option IWeatherModuleConfig.

(** The [action] of the [/client/weather] route; [random] is what
    [Math.random()] gives if the season is drawn. *)
Definition clientWeatherAction (random : Js.number) (st : State)
  : State * Logged :=
  let logContext := "SPT Request" in
  let determineSeason := true in
  let '(determineSeason, logContext) :=
    if isFikaDetected then
      if hasInitialSptWeatherBeenSet st then (false, logContext)
      else (determineSeason, "Initial SPT Request (FIKA Active)")
    else (determineSeason, logContext) in
  if (determineSeason : bool) then
    let result :=
      determineAndSetSeason (baseWeatherConfig st) moduleConfig random in
    (mkState (if isFikaDetected then true
              else hasInitialSptWeatherBeenSet st)
             (fst result),
     Some (snd result, logContext))
  else (st, None).

(** The [action] of the [/fika/raid/create] route. *)
Definition fikaRaidCreateAction (random : Js.number) (st : State)
  : State * Logged :=
  let result :=
    determineAndSetSeason (baseWeatherConfig st) moduleConfig random in
  let logContext := "FIKA Raid Creation" in
  let '(flag, logContext) :=
    if negb (hasInitialSptWeatherBeenSet st)
    then (true, "FIKA Initial Trigger (Pre-SPT)")
    else (hasInitialSptWeatherBeenSet st, logContext) in
  (mkState flag (fst result), Some (snd result, logContext)).

(** One request against the routes [registerRoutes] registered: the
    second route is there only when FIKA was detected. *)
Definition handle (request : Request * Js.number) (st : State)
  : State * Logged :=
  match fst request with
  | ClientWeather => clientWeatherAction (snd request) st
  | FikaRaidCreate =>
      if isFikaDetected then fikaRaidCreateAction (snd request) st
      else (st, None)
  end.

(** A sequence of requests, in order. *)
Fixpoint serve (requests : list (Request * Js.number)) (st : State)
  : State * list Logged :=
  match requests with
  | [] => (st, [])
  | request :: rest =>
      let handled := handle request st in
      let served := serve rest (fst handled) in
      (fst served, snd handled :: snd served)
  end.

End Handlers.

End WeatherRoutes.

Section RouteVocabulary.
Import WeatherModule WeatherRoutes.

(** The selection of the last request that determined the season. *)
Definition lastSelection (logged : list Logged) : option Selection :=
  fold_left (fun last entry =>
               match entry with
               | Some (selection, _) => Some selection
               | None => last
               end)
            logged None.

(** What a request past the first one gives when FIKA is there: a
    [/client/weather] request determines nothing, a raid creation draws
    the season again. *)
Definition laterRequest (moduleConfig : option IWeatherModuleConfig)
           (base : WeatherConfig) (request : Request * Js.number)
           (logged : Logged) : Prop :=
  match fst request with
  | ClientWeather => logged = None
  | FikaRaidCreate =>
      logged = Some (snd (determineAndSetSeason (Some base) moduleConfig
                                                (snd request)),
                     "FIKA Raid Creation")
  end.

(** What a request gives when FIKA is not there. *)
Definition plainRequest (moduleConfig : option IWeatherModuleConfig)
           (base : WeatherConfig) (request : Request * Js.number)
           (logged : Logged) : Prop :=
  match fst request with
  | ClientWeather =>
      logged = Some (snd (determineAndSetSeason (Some base) moduleConfig
                                                (snd request)),
                     "SPT Request")
  | FikaRaidCreate => logged = None
  end.

End RouteVocabulary.

Section RandomVocabulary.
Import WeatherModule.

(** The unweighted mode over all seasons ([random_system_mode] 0), with
    Summer excluded. *)
Definition summerExcluded : IWeatherModuleConfig :=
  mkWeather false (Js.ofZ 1) false true (Js.ofZ 0) [Js.ofZ 0]
            (Js.ofZ 10) (Js.ofZ 10) (Js.ofZ 10) (Js.ofZ 10)
            (Js.ofZ 10) (Js.ofZ 10) (Js.ofZ 5).

End RandomVocabulary.

(* ================================================================== *)
(** * Properties *)
(* ================================================================== *)

(** ** Objects: reading after writing *)

Section ObjectFacts.
Import Js.

Lemma get_set_same (o : object) (k : string) (v : value) :
  get (set o k v) k = v.
Proof.
  induction o as [| [k' w] o IH]; simpl.
  - now rewrite String.eqb_refl.
  - destruct (String.eqb k' k) eqn:E; simpl; rewrite E; auto.
Qed.

Lemma get_set_other (o : object) (k k' : string) (v : value) :
  k <> k' -> get (set o k v) k' = get o k'.
Proof.
  intros Hne. induction o as [| [k0 w] o IH]; simpl.
  - destruct (String.eqb_spec k k'); congruence.
  - destruct (String.eqb_spec k0 k) as [-> | Hk]; simpl.
    + destruct (String.eqb_spec k k'); congruence.
    + now rewrite IH.
Qed.

Lemma get_set (o : object) (k k' : string) (v : value) :
  get (set o k v) k' = if String.eqb k k' then v else get o k'.
Proof.
  destruct (String.eqb_spec k k') as [-> | Hne].
  - apply get_set_same.
  - now apply get_set_other.
Qed.

Lemma set_set (o : object) (k : string) (v w : value) :
  set (set o k v) k w = set o k w.
Proof.
  induction o as [| [k0 u] o IH]; simpl.
  - now rewrite String.eqb_refl.
  - destruct (String.eqb k0 k) eqn:E; simpl; rewrite E; congruence.
Qed.

Lemma keys_set_own (o : object) (k : string) (v : value) :
  hasOwn o k = true -> keys (set o k v) = keys o.
Proof.
  unfold keys. induction o as [| [k0 u] o IH]; simpl; [discriminate |].
  destruct (String.eqb k0 k) eqn:E; simpl; intros H.
  - apply String.eqb_eq in E. now subst.
  - now rewrite IH.
Qed.

Lemma hasOwn_set (o : object) (k k' : string) (v : value) :
  hasOwn (set o k v) k' = String.eqb k k' || hasOwn o k'.
Proof.
  induction o as [| [k0 u] o IH]; simpl.
  - now rewrite orb_false_r.
  - destruct (String.eqb_spec k0 k) as [-> | Hk]; simpl.
    + destruct (String.eqb k k'); reflexivity.
    + rewrite IH. destruct (String.eqb k0 k'), (String.eqb k k'); reflexivity.
Qed.

Lemma hasOwn_In (o : object) (k : string) :
  hasOwn o k = true <-> In k (keys o).
Proof.
  unfold keys. induction o as [| [k0 u] o IH]; simpl.
  - split; [discriminate | tauto].
  - rewrite orb_true_iff, IH, String.eqb_eq. tauto.
Qed.

Lemma includes_In (l : list string) (k : string) :
  includes l k = true <-> In k l.
Proof.
  unfold includes. rewrite existsb_exists. split.
  - intros [x [Hx E]]. apply String.eqb_eq in E. now subst.
  - intros H. exists k. split; [assumption | apply String.eqb_refl].
Qed.

Lemma includes_false (l : list string) (k : string) :
  includes l k = false <-> ~ In k l.
Proof.
  rewrite <- includes_In. destruct (includes l k); split; congruence.
Qed.

End ObjectFacts.

Module CheckFacts.
Import Js Validation Descriptor Checks.

#[local] Arguments ltb : simpl never.
#[local] Arguments gtb : simpl never.
#[local] Arguments isIntegerNumber : simpl never.
#[local] Arguments isFiniteNumber : simpl never.

Lemma VState_eta (st : VState) :
  mkVState (config st) (Validation.resetKeys st) (logged st) = st.
Proof. now destruct st. Qed.

Lemma keep_step (st : VState) :
  mkVState (config st) (Validation.resetKeys st) (logged st ++ [])%list = st.
Proof. rewrite app_nil_r. apply VState_eta. Qed.

Lemma reset_step (d : object) (key : string) (st : VState) :
  resetToDefault d key st =
  mkVState (set (config st) key (get d key))
           (Validation.resetKeys (pushKey key st)) (logged st ++ [])%list.
Proof. unfold resetToDefault, assign. simpl. now rewrite app_nil_r. Qed.

Lemma checkBoolean_step d lp key st :
  checkBoolean d key st = keyStep key (judge d lp key CBoolean) st.
Proof.
  unfold checkBoolean, keyStep, judge. simpl satisfies.
  destruct (isBoolean (get (config st) key)); simpl.
  - symmetry. apply keep_step.
  - apply reset_step.
Qed.

Lemma checkNonNegativeFinite_step d lp key st :
  checkNonNegativeFinite d key st = keyStep key (judge d lp key CNonNegative) st.
Proof.
  unfold checkNonNegativeFinite, keyStep, judge. simpl satisfies.
  destruct (get (config st) key) as [| | b | n | s | l | o]; simpl;
    try apply reset_step.
  destruct (isFiniteNumber n); simpl; [| apply reset_step].
  destruct (ltb n (ofZ 0)); simpl; [apply reset_step |].
  symmetry. apply keep_step.
Qed.

Lemma checkIntegerRange_step d lp key lo hi st :
  checkIntegerRange d key lo hi st
  = keyStep key (judge d lp key (CInteger lo hi)) st.
Proof.
  unfold checkIntegerRange, keyStep, judge. simpl satisfies. unfold inRange.
  destruct (get (config st) key) as [| | b | n | s | l | o]; simpl;
    try apply reset_step.
  destruct (isIntegerNumber n); simpl; [| apply reset_step].
  destruct (ltb n (ofZ lo)); simpl; [apply reset_step |].
  destruct (gtb n (ofZ hi)); simpl; [apply reset_step |].
  symmetry. apply keep_step.
Qed.

Lemma checkPmcChat_step d lp st :
  checkPmcChat d st
  = keyStep "disablePMC_ChatResponse"
            (judge d lp "disablePMC_ChatResponse" CBooleanOrPercent) st.
Proof.
  unfold checkPmcChat, keyStep, judge. simpl satisfies. unfold inRange.
  destruct (get (config st) "disablePMC_ChatResponse")
    as [| | b | n | s | l | o]; simpl; try apply reset_step.
  - symmetry. apply keep_step.
  - destruct (isIntegerNumber n); simpl; [| apply reset_step].
    destruct (ltb n (ofZ 1)); simpl; [apply reset_step |].
    destruct (gtb n (ofZ 100)); simpl; [apply reset_step |].
    symmetry. apply keep_step.
Qed.

Lemma includes_snoc (l : list string) (k : string) :
  includes (l ++ [k]) k = true.
Proof.
  apply includes_In, in_or_app. right. now left.
Qed.

Lemma checkExcludeSeasons_step d lp st :
  checkExcludeSeasons d lp st
  = keyStep "exclude_seasons" (judge d lp "exclude_seasons" CSeasonList) st.
Proof.
  unfold checkExcludeSeasons, keyStep, judge, settled.
  destruct (get (config st) "exclude_seasons")
    as [| | b | n | s | l | o]; simpl satisfies; cbv iota;
    try apply reset_step.
  set (f := filter validSeasonIndex l).
  destruct (seasonsArrayLength <=? Z.of_nat (List.length f)) eqn:E7.
  - destruct (List.length f =? List.length l)%nat;
      unfold pushKey, assign, warn; simpl; rewrite set_set;
      destruct (includes (Validation.resetKeys st) "exclude_seasons") eqn:E;
      rewrite ?E, ?includes_snoc; reflexivity.
  - destruct (List.length f =? List.length l)%nat;
      unfold pushKey, assign; simpl; rewrite ?app_nil_r; reflexivity.
Qed.

Lemma fst_checkWeights d lp st :
  fst (checkWeights d st)
  = run d lp (map (fun k => (k, CNonNegative)) weightKeys) st.
Proof.
  unfold checkWeights, run.
  generalize (ofZ 0). revert st.
  induction weightKeys as [| k ks IH]; intros st total; simpl.
  - reflexivity.
  - rewrite IH. simpl. now rewrite (checkNonNegativeFinite_step d lp).
Qed.

Lemma validateMainConfig_run cfg lp :
  validateMainConfig cfg lp
  = run defaultMainConfigValues lp mainChecks (start cfg).
Proof.
  unfold validateMainConfig.
  rewrite !(checkBoolean_step _ lp), (checkPmcChat_step _ lp),
    (checkIntegerRange_step _ lp), !(checkNonNegativeFinite_step _ lp).
  unfold run, mainChecks. cbn [fold_left fst snd]. reflexivity.
Qed.

(** The weather validator may add a warning about the total weight at the
    end; the object and the reset keys are those of the table. *)
Lemma validateWeatherConfig_run cfg lp :
  let st := validateWeatherConfig cfg lp in
  let st' := run defaultWeatherConfigValues lp weatherChecks (start cfg) in
  config st = config st' /\ Validation.resetKeys st = Validation.resetKeys st'.
Proof.
  unfold validateWeatherConfig.
  rewrite !(checkBoolean_step _ lp), !(checkIntegerRange_step _ lp),
    (checkExcludeSeasons_step _ lp).
  match goal with
  | |- context [checkWeights ?d ?s] =>
      pose proof (fst_checkWeights d lp s) as Hw;
      destruct (checkWeights d s) as [st total]
  end.
  cbn [fst] in Hw. subst st.
  match goal with
  | |- context [run ?d ?p ?w ?s] => set (R := run d p w s)
  end.
  assert (HR : run defaultWeatherConfigValues lp weatherChecks (start cfg) = R).
  { unfold R, run, weatherChecks, weightKeys.
    cbn [fold_left fst snd map]. reflexivity. }
  rewrite HR. clear HR. clearbody R.
  destruct (truthy (get (config R) "use_weight_system") && leb total (ofZ 0));
    split; reflexivity.
Qed.

Lemma forallb_filter_id {A} (p : A -> bool) (l : list A) :
  forallb p l = true -> filter p l = l.
Proof.
  induction l as [| a l IH]; simpl; [reflexivity |].
  destruct (p a); simpl; [| discriminate]. intros H. now rewrite IH.
Qed.

Lemma filter_shorter {A} (p : A -> bool) (l : list A) :
  forallb p l = false -> (List.length (filter p l) < List.length l)%nat.
Proof.
  induction l as [| a l IH]; simpl; [discriminate |].
  destruct (p a); simpl; intros H.
  - apply IH in H. lia.
  - pose proof (filter_length_le p l). lia.
Qed.

Section Run.
Variables (d : object) (lp : string).

Lemma judge_reported key c v :
  reported (judge d lp key c v) = negb (satisfies c v).
Proof.
  unfold judge.
  destruct c; try (destruct (satisfies _ v); reflexivity).
  destruct v as [| | b | n | s | l | o]; try reflexivity.
  simpl satisfies.
  destruct (forallb validSeasonIndex l) eqn:F.
  - rewrite (forallb_filter_id _ _ F), Nat.eqb_refl, Z.ltb_antisym.
    now destruct (seasonsArrayLength <=? Z.of_nat (List.length l)).
  - apply filter_shorter in F.
    destruct (seasonsArrayLength <=? _); simpl; [reflexivity |].
    destruct (Nat.eqb_spec (List.length (filter validSeasonIndex l))
                           (List.length l)); [lia | reflexivity].
Qed.

Lemma judge_newValue key c v :
  match newValue (judge d lp key c v) with
  | Some v' => v'
  | None => v
  end = settled d key c v.
Proof.
  unfold judge, settled.
  destruct c; try (destruct (satisfies _ v); reflexivity).
  destruct v as [| | b | n | s | l | o]; try reflexivity.
  now destruct (seasonsArrayLength <=? _).
Qed.

Lemma config_keyStep key j st k :
  get (config (keyStep key j st)) k
  = if String.eqb key k
    then match newValue (j (get (config st) key)) with
         | Some v => v
         | None => get (config st) key
         end
    else get (config st) k.
Proof.
  unfold keyStep. simpl.
  destruct (newValue (j (get (config st) key))).
  - apply get_set.
  - destruct (String.eqb_spec key k); now subst.
Qed.

Lemma resetKeys_keyStep key j st :
  ~ In key (Validation.resetKeys st) ->
  Validation.resetKeys (keyStep key j st)
  = (Validation.resetKeys st
     ++ if reported (j (get (config st) key)) then [key] else [])%list.
Proof.
  intros H. apply includes_false in H. unfold keyStep. simpl.
  destruct (reported _); [now rewrite H | now rewrite app_nil_r].
Qed.

Lemma find_absent (checks : list (string * Constraint)) (k : string) :
  ~ In k (map fst checks) ->
  find (fun kc => String.eqb (fst kc) k) checks = None.
Proof.
  induction checks as [| [k0 c0] checks IH]; simpl; [reflexivity |].
  intros H. destruct (String.eqb_spec k0 k); [tauto |]. apply IH. tauto.
Qed.

Lemma run_spec (checks : list (string * Constraint)) :
  NoDup (map fst checks) ->
  forall st,
    (forall k, In k (map fst checks) -> ~ In k (Validation.resetKeys st)) ->
    Validation.resetKeys (run d lp checks st)
    = (Validation.resetKeys st
       ++ map fst (filter (violated (config st)) checks))%list
    /\ forall k,
        get (config (run d lp checks st)) k
        = match find (fun kc => String.eqb (fst kc) k) checks with
          | Some kc => settled d k (snd kc) (get (config st) k)
          | None => get (config st) k
          end.
Proof.
  induction checks as [| [k0 c0] checks IH]; intros Hnd st Hfresh.
  - simpl. now rewrite app_nil_r.
  - simpl in Hnd. inversion Hnd as [| ? ? Hk0 Hnd']; subst.
    set (st1 := keyStep k0 (judge d lp k0 c0) st).
    assert (Hother : forall k, k0 <> k ->
               get (config st1) k = get (config st) k).
    { intros k Hk. unfold st1. rewrite config_keyStep.
      destruct (String.eqb_spec k0 k); [contradiction | reflexivity]. }
    assert (Hrk : Validation.resetKeys st1
                  = (Validation.resetKeys st
                     ++ if violated (config st) (k0, c0) then [k0] else [])%list).
    { unfold st1. rewrite resetKeys_keyStep.
      - now rewrite judge_reported.
      - apply Hfresh. now left. }
    destruct (IH Hnd' st1) as [IHr IHc].
    { intros k Hk Hin. rewrite Hrk in Hin. apply in_app_or in Hin.
      destruct Hin as [Hin | Hin].
      - apply (Hfresh k); [now right | assumption].
      - destruct (violated _ _); simpl in Hin; [| tauto].
        destruct Hin as [<- | []]. contradiction. }
    change (run d lp ((k0, c0) :: checks) st) with (run d lp checks st1).
    split.
    + rewrite IHr, Hrk, <- app_assoc. f_equal.
      assert (Hext : filter (violated (config st1)) checks
                     = filter (violated (config st)) checks).
      { apply filter_ext_in. intros [k c] Hin. unfold violated. simpl.
        rewrite Hother; [reflexivity |].
        intros ->. apply Hk0. apply (in_map fst) in Hin. exact Hin. }
      rewrite Hext. simpl filter.
      now destruct (violated (config st) (k0, c0)).
    + intros k. rewrite IHc. simpl find.
      destruct (String.eqb_spec k0 k) as [<- | Hne].
      * rewrite (find_absent _ _ Hk0). unfold st1.
        rewrite config_keyStep, String.eqb_refl. apply judge_newValue.
      * now rewrite (Hother _ Hne).
Qed.

Lemma run_start (checks : list (string * Constraint)) (cfg : object) :
  NoDup (map fst checks) ->
  Validation.resetKeys (run d lp checks (start cfg))
  = map fst (filter (violated cfg) checks)
  /\ forall k,
      get (config (run d lp checks (start cfg))) k
      = match find (fun kc => String.eqb (fst kc) k) checks with
        | Some kc => settled d k (snd kc) (get cfg k)
        | None => get cfg k
        end.
Proof.
  intros Hnd.
  destruct (run_spec checks Hnd (start cfg)) as [Hr Hc].
  - intros k _ [].
  - split; [exact Hr | exact Hc].
Qed.

End Run.

End CheckFacts.

(** ** What the validators return *)

Module ValidatorFacts.
Import Js Validation Descriptor Checks CheckFacts.

Lemma nodupb_NoDup (l : list string) : nodupb l = true -> NoDup l.
Proof.
  induction l as [| k l IH]; simpl; intros H; constructor.
  - apply andb_true_iff in H. destruct H as [H _].
    apply negb_true_iff, includes_false in H. exact H.
  - apply IH. apply andb_true_iff in H. tauto.
Qed.

Lemma mainChecks_NoDup : NoDup (map fst mainChecks).
Proof. apply nodupb_NoDup. reflexivity. Qed.

Lemma weatherChecks_NoDup : NoDup (map fst weatherChecks).
Proof. apply nodupb_NoDup. reflexivity. Qed.

(** The main validator, field by field. *)
Lemma main_spec (cfg : object) (lp : string) :
  let st := validateMainConfig cfg lp in
  Validation.resetKeys st = map fst (filter (violated cfg) mainChecks)
  /\ forall k,
      get (config st) k
      = match find (fun kc => String.eqb (fst kc) k) mainChecks with
        | Some kc => settled defaultMainConfigValues k (snd kc) (get cfg k)
        | None => get cfg k
        end.
Proof.
  cbv zeta. rewrite validateMainConfig_run.
  apply run_start, mainChecks_NoDup.
Qed.

(** The weather validator, field by field. *)
Lemma weather_spec (cfg : object) (lp : string) :
  let st := validateWeatherConfig cfg lp in
  Validation.resetKeys st = map fst (filter (violated cfg) weatherChecks)
  /\ forall k,
      get (config st) k
      = match find (fun kc => String.eqb (fst kc) k) weatherChecks with
        | Some kc => settled defaultWeatherConfigValues k (snd kc) (get cfg k)
        | None => get cfg k
        end.
Proof.
  cbv zeta. destruct (validateWeatherConfig_run cfg lp) as [Ec Er].
  cbv zeta in Ec, Er. rewrite Ec, Er.
  apply run_start, weatherChecks_NoDup.
Qed.

Section Tables.
Variable checks : list (string * Constraint).
Hypothesis Hnd : NoDup (map fst checks).

Lemma find_In k c :
  In (k, c) checks ->
  find (fun kc => String.eqb (fst kc) k) checks = Some (k, c).
Proof.
  revert Hnd. induction checks as [| [k0 c0] l IH]; simpl; [tauto |].
  intros Hn [E | Hin]; inversion Hn as [| ? ? Hk0 Hn']; subst.
  - inversion E; subst. now rewrite String.eqb_refl.
  - destruct (String.eqb_spec k0 k) as [-> | _].
    + exfalso. apply Hk0. apply (in_map fst) in Hin. exact Hin.
    + now apply IH.
Qed.

Lemma find_Some k kc :
  find (fun kc => String.eqb (fst kc) k) checks = Some kc ->
  In kc checks /\ fst kc = k.
Proof.
  intros H. apply find_some in H. destruct H as [Hin E].
  apply String.eqb_eq in E. tauto.
Qed.

Lemma In_reported (P : string * Constraint -> bool) k :
  In k (map fst (filter P checks))
  <-> exists c, In (k, c) checks /\ P (k, c) = true.
Proof.
  rewrite in_map_iff. split.
  - intros [[k' c] [E Hin]]. simpl in E. subst k'.
    apply filter_In in Hin. now exists c.
  - intros [c [Hin HP]]. exists (k, c). split; [reflexivity |].
    now apply filter_In.
Qed.

Lemma reported_NoDup (P : string * Constraint -> bool) :
  NoDup (map fst (filter P checks)).
Proof.
  revert Hnd. induction checks as [| [k c] l IH]; simpl; intros Hn.
  - constructor.
  - inversion Hn as [| ? ? Hk Hn']; subst.
    destruct (P (k, c)); simpl; [| now apply IH].
    constructor; [| now apply IH].
    intros Hin. apply Hk. apply in_map_iff in Hin.
    destruct Hin as [kc [E Hin]]. apply filter_In in Hin.
    apply in_map_iff. exists kc. tauto.
Qed.

Lemma same_constraint k c c' :
  In (k, c) checks -> In (k, c') checks -> c = c'.
Proof.
  intros H H'. apply find_In in H. apply find_In in H'. congruence.
Qed.

Lemma filter_by_membership (l : list string) (P : string * Constraint -> bool)
      (part : list (string * Constraint)) :
  (forall kc, In kc part -> includes l (fst kc) = P kc) ->
  map fst (filter P part) = filter (includes l) (map fst part).
Proof.
  induction part as [| kc part IH]; simpl; intros H; [reflexivity |].
  rewrite (H kc (or_introl eq_refl)).
  destruct (P kc); simpl; rewrite IH; auto.
Qed.

(** The keys a table reports come in the order of the table. *)
Lemma reported_inOrder (P : string * Constraint -> bool) :
  inOrderOf (map fst checks) (map fst (filter P checks)).
Proof.
  unfold inOrderOf. apply filter_by_membership.
  intros [k c] Hin. simpl.
  destruct (P (k, c)) eqn:HP.
  - apply includes_In, In_reported. now exists c.
  - apply includes_false. intros Hin'. apply In_reported in Hin'.
    destruct Hin' as [c' [Hin' HP']].
    rewrite (same_constraint _ _ _ Hin Hin') in HP. congruence.
Qed.

End Tables.

(** The defaults meet their constraints. *)
Lemma main_defaults_valid :
  forallb (fun kc => satisfies (snd kc) (get defaultMainConfigValues (fst kc)))
          mainChecks = true.
Proof. reflexivity. Qed.

Lemma weather_defaults_valid :
  forallb (fun kc => satisfies (snd kc) (get defaultWeatherConfigValues (fst kc)))
          weatherChecks = true.
Proof. reflexivity. Qed.

(** A value that fails a scalar constraint is not the default. *)
Lemma settled_changes d checks k c v :
  forallb (fun kc => satisfies (snd kc) (get d (fst kc))) checks = true ->
  In (k, c) checks ->
  c <> CSeasonList ->
  (settled d k c v <> v <-> satisfies c v = false).
Proof.
  intros Hd Hin Hc.
  rewrite forallb_forall in Hd. specialize (Hd _ Hin). simpl in Hd.
  assert (E : settled d k c v = if satisfies c v then v else get d k).
  { unfold settled. destruct c; try reflexivity. congruence. }
  rewrite E. destruct (satisfies c v) eqn:S.
  - split; [tauto | discriminate].
  - split; [reflexivity |]. intros _ Heq. congruence.
Qed.

Lemma satisfies_percent_int (z : Z) :
  1 <= z <= 100 -> satisfies CBooleanOrPercent (int z) = true.
Proof.
  intros [Hlo Hhi]. unfold satisfies, int, inRange. simpl.
  unfold isIntegerQ, gtb, ltb, ofZ. simpl. rewrite Z.mod_1_r. simpl.
  assert (H1 : Qle_bool (inject_Z 1) (inject_Z z) = true).
  { apply Qle_bool_iff. now rewrite <- Zle_Qle. }
  assert (H2 : Qle_bool (inject_Z z) (inject_Z 100) = true).
  { apply Qle_bool_iff. now rewrite <- Zle_Qle. }
  now rewrite H1, H2.
Qed.

End ValidatorFacts.

Section ValidatorClaims.
Import Js Validation Descriptor Checks CheckFacts ValidatorFacts.

Lemma settled_keeps d k c v :
  satisfies c v = true -> settled d k c v = v.
Proof.
  unfold settled. intros S.
  destruct c; try (now rewrite S).
  destruct v as [| | b | n | s | l | o]; try (now rewrite S).
  simpl in S. apply andb_true_iff in S. destruct S as [F L].
  rewrite (forallb_filter_id _ _ F).
  rewrite Z.ltb_antisym in L. apply negb_true_iff in L. now rewrite L.
Qed.

Lemma main_scalar k c : In (k, c) mainChecks -> c <> CSeasonList.
Proof.
  intros Hin.
  assert (H : forallb (fun kc => match snd kc with
                                 | CSeasonList => false
                                 | _ => true
                                 end) mainChecks = true) by reflexivity.
  rewrite forallb_forall in H. specialize (H _ Hin). simpl in H.
  intros ->. discriminate.
Qed.

Lemma strictEq_int v i : strictEq v (int i) = true -> indexOf v = i.
Proof.
  destruct v as [| | b | [| s | q] | s | l | o]; simpl; try discriminate.
  intros E. apply Qeq_bool_iff in E. rewrite E. apply Qfloor_Z.
Qed.

Lemma covers_length (l : list value) :
  coversAllSeasons l -> 7 <= Z.of_nat (List.length l).
Proof.
  intros H.
  assert (Hincl : incl [0; 1; 2; 3; 4; 5; 6] (map indexOf l)).
  { intros i Hi.
    assert (Hr : 0 <= i <= 6) by (simpl in Hi; lia).
    destruct (H i Hr) as [v [Hin E]].
    apply strictEq_int in E. subst i. now apply in_map. }
  assert (Hnd : NoDup [0; 1; 2; 3; 4; 5; 6]).
  { repeat constructor; simpl; lia. }
  pose proof (NoDup_incl_length Hnd Hincl) as Hlen.
  rewrite length_map in Hlen. simpl in Hlen. lia.
Qed.

(** The callback of the first [filter] accepts the integers from 0 to 6
    and nothing else. *)
Lemma validSeasonIndex_spec (v : value) :
  validSeasonIndex v = true <-> isSeasonIndex v.
Proof.
  unfold validSeasonIndex, isSeasonIndex. split.
  - destruct v as [| | b | [| s | q] | s | l | o]; try discriminate.
    cbn [Number_isInteger isIntegerNumber toNum]. intros H.
    apply andb_true_iff in H. destruct H as [H Hhi].
    apply andb_true_iff in H. destruct H as [Hint Hlo].
    assert (Eq : (inject_Z (Qfloor q) == q)%Q).
    { unfold isIntegerQ in Hint. apply Z.eqb_eq in Hint.
      unfold Qeq, Qfloor. destruct q as [n d]. simpl in *.
      rewrite Z.mul_1_r, Z.mul_comm. symmetry.
      apply Z_div_exact_full_2; [lia | exact Hint]. }
    exists (Qfloor q). split.
    + split.
      * assert (H0 : (0 <= q)%Q).
        { unfold geb, gtb in Hlo. apply orb_true_iff in Hlo.
          destruct Hlo as [Hlo | Hlo].
          - unfold ltb, ofZ in Hlo. apply negb_true_iff in Hlo.
            change (inject_Z 0) with 0%Q in Hlo.
            apply Qlt_le_weak, Qnot_le_lt. intros Hle.
            apply Qle_bool_iff in Hle. congruence.
          - cbn [eqb ofZ] in Hlo. apply Qeq_bool_iff in Hlo.
            rewrite Hlo. apply Qle_refl. }
        apply Qfloor_resp_le in H0. exact H0.
      * assert (H7 : (q < inject_Z 7)%Q).
        { unfold ltb, ofZ, seasonsArrayLength in Hhi.
          apply negb_true_iff in Hhi.
          apply Qnot_le_lt. intros Hle. apply Qle_bool_iff in Hle. congruence. }
        rewrite <- Eq in H7. rewrite <- Zlt_Qlt in H7. lia.
    + unfold int. cbn [strictEq eqb]. apply Qeq_bool_iff. now symmetry.
  - intros [i [Hi E]].
    destruct v as [| | b | [| s | q] | s | l | o]; try discriminate.
    unfold int in E. cbn [strictEq eqb] in E. apply Qeq_bool_iff in E.
    cbn [Number_isInteger isIntegerNumber toNum].
    apply andb_true_iff. split; [apply andb_true_iff; split |].
    + unfold isIntegerQ. apply Z.eqb_eq.
      unfold Qeq in E. simpl in E. rewrite Z.mul_1_r in E. rewrite E.
      apply Z.mod_mul. discriminate.
    + unfold geb, gtb. apply orb_true_iff.
      destruct (Z.eq_dec i 0) as [-> | Hne].
      * right. cbn [eqb ofZ]. now apply Qeq_bool_iff.
      * left. unfold ltb, ofZ. apply negb_true_iff.
        destruct (Qle_bool q (inject_Z 0)) eqn:L; [| reflexivity].
        apply Qle_bool_iff in L. rewrite E in L. rewrite <- Zle_Qle in L. lia.
    + unfold ltb, ofZ, seasonsArrayLength. apply negb_true_iff.
      destruct (Qle_bool (inject_Z 7) q) eqn:L; [| reflexivity].
      apply Qle_bool_iff in L. rewrite E in L. rewrite <- Zle_Qle in L. lia.
Qed.

Lemma notStorm_spec (v : value) : notStorm v = true <-> ~ isStorm v.
Proof.
  unfold notStorm, isStorm. destruct (strictEq v (int 6)); simpl; split;
    congruence.
Qed.

(** [filter] keeps exactly the entries its callback accepts. *)
Lemma filter_keeps_exactly (wanted : value -> Prop) (test : value -> bool)
      (l : list value) :
  (forall v, test v = true <-> wanted v) ->
  KeepsExactly wanted l (filter test l).
Proof.
  intros H. induction l as [| v l IH]; [constructor |].
  cbn [filter]. destruct (test v) eqn:T.
  - apply keeps_entry; [now apply H | exact IH].
  - apply drops_entry; [| exact IH]. intros W. apply H in W. congruence.
Qed.

(** C1.  In the weather validator, when [exclude_seasons] is an array:
    the entries that are not integers from 0 to 6 are dropped, the others
    staying in place ([filtered]); the key is reported when an entry was
    dropped; the list kept is [filtered], or [filtered] without its
    entries equal to 6; and when [filtered] holds every index from 0 to 6
    the list kept is [filtered] without the entries equal to 6 (Storm),
    the others in place, with the key reported.  The list 0..6 comes out
    as 0..5, reported. *)
Theorem exclude_seasons_safety (cfg : object) (lp : string) (l : list value) :
  get cfg "exclude_seasons" = Arr l ->
  let st := validateWeatherConfig cfg lp in
  exists filtered,
    KeepsExactly isSeasonIndex l filtered
    /\ (exists kept,
          get (config st) "exclude_seasons" = Arr kept
          /\ (kept = filtered
              \/ KeepsExactly (fun v => ~ isStorm v) filtered kept)
          /\ forall v, In v kept -> In v l /\ isSeasonIndex v)
    /\ (List.length filtered <> List.length l ->
        In "exclude_seasons" (Validation.resetKeys st))
    /\ (coversAllSeasons filtered ->
        exists kept,
          get (config st) "exclude_seasons" = Arr kept
          /\ KeepsExactly (fun v => ~ isStorm v) filtered kept
          /\ In "exclude_seasons" (Validation.resetKeys st))
    /\ (l = map int [0; 1; 2; 3; 4; 5; 6] ->
        get (config st) "exclude_seasons" = Arr (map int [0; 1; 2; 3; 4; 5])
        /\ In "exclude_seasons" (Validation.resetKeys st)).
Proof.
  intros Hl st. set (filtered := filter validSeasonIndex l).
  exists filtered.
  destruct (weather_spec cfg lp) as [Hr Hc]. fold st in Hr, Hc.
  specialize (Hc "exclude_seasons"). simpl find in Hc. rewrite Hl in Hc.
  cbn [settled snd] in Hc. fold filtered in Hc.
  assert (Hrep : satisfies CSeasonList (Arr l) = false ->
                 In "exclude_seasons" (Validation.resetKeys st)).
  { intros S. rewrite Hr. apply In_reported. exists CSeasonList. split.
    - simpl. tauto.
    - unfold violated. simpl fst. simpl snd. rewrite Hl. now rewrite S. }
  assert (Hcov : coversAllSeasons filtered ->
                 get (config st) "exclude_seasons"
                 = Arr (filter notStorm filtered)
                 /\ In "exclude_seasons" (Validation.resetKeys st)).
  { intros Hall. apply covers_length in Hall.
    assert (E : (seasonsArrayLength <=? Z.of_nat (List.length filtered)) = true)
      by (apply Z.leb_le; exact Hall).
    rewrite E in Hc. split; [exact Hc |].
    apply Hrep. simpl. apply andb_false_iff.
    destruct (forallb validSeasonIndex l) eqn:F; [right | now left].
    apply Z.ltb_ge. unfold filtered in Hall.
    now rewrite (forallb_filter_id _ _ F) in Hall. }
  assert (Hstorm : KeepsExactly (fun v => ~ isStorm v) filtered
                                (filter notStorm filtered))
    by (apply filter_keeps_exactly, notStorm_spec).
  split; [apply filter_keeps_exactly, validSeasonIndex_spec |].
  split; [| split; [| split]].
  - destruct (seasonsArrayLength <=? Z.of_nat (List.length filtered));
      eexists; (split; [exact Hc |]); (split; [tauto |]); intros v Hv.
    + apply filter_In in Hv. destruct Hv as [Hv _].
      apply filter_In in Hv. destruct Hv as [Hv Hp].
      split; [exact Hv | now apply validSeasonIndex_spec].
    + apply filter_In in Hv. destruct Hv as [Hv Hp].
      split; [exact Hv | now apply validSeasonIndex_spec].
  - intros Hlen. apply Hrep. simpl.
    destruct (forallb validSeasonIndex l) eqn:F; [| reflexivity].
    exfalso. apply Hlen. unfold filtered.
    now rewrite (forallb_filter_id _ _ F).
  - intros Hall. destruct (Hcov Hall) as [E R].
    exists (filter notStorm filtered). tauto.
  - intros ->. apply Hcov.
    intros i Hi. exists (int i). split; [| unfold int; simpl; apply Qeq_bool_refl].
    assert (Hcases : i = 0 \/ i = 1 \/ i = 2 \/ i = 3 \/ i = 4 \/ i = 5 \/ i = 6)
      by lia.
    unfold filtered.
    destruct Hcases as [-> | [-> | [-> | [-> | [-> | [-> | ->]]]]]];
      vm_compute; tauto.
Qed.

(** C1, at the settings whose exclusion list is 0..6. *)
Lemma exclude_seasons_safety_witness :
  get (config (validateWeatherConfig
                 (set defaultWeatherConfigValues "exclude_seasons"
                      (Arr (map int [0; 1; 2; 3; 4; 5; 6]))) ""))
      "exclude_seasons"
  = Arr (map int [0; 1; 2; 3; 4; 5]).
Proof.
  set (l := map int [0; 1; 2; 3; 4; 5; 6]).
  set (cfg := set defaultWeatherConfigValues "exclude_seasons" (Arr l)).
  assert (Hl : get cfg "exclude_seasons" = Arr l) by reflexivity.
  pose proof (exclude_seasons_safety cfg "" l Hl) as H.
  cbv zeta in H. destruct H as [filtered [_ [_ [_ [_ H]]]]].
  destruct (H eq_refl) as [E _]. exact E.
Defined.

End ValidatorClaims.

Section ResetKeyClaims.
Import Js Validation Descriptor Checks CheckFacts ValidatorFacts.

(** C7, as stated, fails: with [disablePMC_ChatResponse] and
    [enableDebugLogs] both invalid, the validator returns
    [enableDebugLogs] first, although the interface declares
    [disablePMC_ChatResponse] first. *)
Lemma reset_keys_not_in_declaration_order :
  Validation.resetKeys (validateMainConfig twoInvalidFields "")
  = ["enableDebugLogs"; "disablePMC_ChatResponse"]
  /\ filter (includes ["enableDebugLogs"; "disablePMC_ChatResponse"]) mainDeclared
     = ["disablePMC_ChatResponse"; "enableDebugLogs"]
  /\ ~ inOrderOf mainDeclared
       (Validation.resetKeys (validateMainConfig twoInvalidFields "")).
Proof.
  assert (E : Validation.resetKeys (validateMainConfig twoInvalidFields "")
              = ["enableDebugLogs"; "disablePMC_ChatResponse"])
    by (vm_compute; reflexivity).
  split; [exact E | split; [vm_compute; reflexivity |]].
  rewrite E. unfold inOrderOf. vm_compute. discriminate.
Qed.

(** C7 (amended).  Both validators check every field of their table.  The
    list returned has no duplicates, holds exactly the keys whose value
    failed its constraint, and lists them in the order the validator
    checks the fields, not the order of declaration.  The main validator
    changes exactly the values of the keys it returns; the weather
    validator returns every key whose value it changed. *)
Theorem reset_keys_in_check_order (cfg : object) (lp : string) :
  let m := validateMainConfig cfg lp in
  let w := validateWeatherConfig cfg lp in
  (Validation.resetKeys m = map fst (filter (violated cfg) mainChecks)
   /\ Validation.resetKeys w = map fst (filter (violated cfg) weatherChecks))
  /\ (NoDup (Validation.resetKeys m) /\ NoDup (Validation.resetKeys w))
  /\ (inOrderOf (map fst mainChecks) (Validation.resetKeys m)
      /\ inOrderOf (map fst weatherChecks) (Validation.resetKeys w))
  /\ (forall k, In k (Validation.resetKeys m)
                <-> get (config m) k <> get cfg k)
  /\ (forall k, get (config w) k <> get cfg k
                -> In k (Validation.resetKeys w)).
Proof.
  intros m w.
  destruct (main_spec cfg lp) as [Hmr Hmc]. fold m in Hmr, Hmc.
  destruct (weather_spec cfg lp) as [Hwr Hwc]. fold w in Hwr, Hwc.
  split; [split; assumption |].
  split; [rewrite Hmr, Hwr; split; apply reported_NoDup;
          [apply mainChecks_NoDup | apply weatherChecks_NoDup] |].
  split; [rewrite Hmr, Hwr; split; apply reported_inOrder;
          [apply mainChecks_NoDup | apply weatherChecks_NoDup] |].
  split.
  - intros k. rewrite Hmr, Hmc, In_reported. split.
    + intros [c [Hin V]].
      rewrite (find_In _ mainChecks_NoDup _ _ Hin). simpl snd.
      apply (settled_changes _ _ _ _ _ main_defaults_valid Hin
                             (main_scalar _ _ Hin)).
      unfold violated in V. simpl in V. now apply negb_true_iff.
    + intros Hne.
      destruct (find (fun kc => String.eqb (fst kc) k) mainChecks)
        as [[k' c] |] eqn:F; [| congruence].
      apply find_Some in F. destruct F as [Hin E]. simpl in E. subst k'.
      exists c. split; [exact Hin |].
      unfold violated. simpl. apply negb_true_iff.
      simpl snd in Hne.
      now apply (settled_changes _ _ _ _ _ main_defaults_valid Hin
                                 (main_scalar _ _ Hin)).
  - intros k. rewrite Hwr, Hwc, In_reported. intros Hne.
    destruct (find (fun kc => String.eqb (fst kc) k) weatherChecks)
      as [[k' c] |] eqn:F; [| congruence].
    apply find_Some in F. destruct F as [Hin E]. simpl in E. subst k'.
    exists c. split; [exact Hin |].
    unfold violated. simpl. apply negb_true_iff.
    destruct (satisfies c (get cfg k)) eqn:S; [| reflexivity].
    exfalso. apply Hne. simpl snd. now apply settled_keeps.
Qed.

End ResetKeyClaims.

Section PmcChatClaims.
Import Js Validation Descriptor Checks CheckFacts ValidatorFacts.

(** C3, as stated, fails: [validateMainConfig] does not floor 55.5 to 55;
    it resets the field to [false] and reports the key. *)
Lemma pmc_chat_float_is_reset :
  let st := validateMainConfig (withPmcChat fiftyFiveAndAHalf) "" in
  get (config st) pmcKey = Bool false
  /\ get (config st) pmcKey <> Num (floor (Finite (111 # 2)))
  /\ Validation.resetKeys st = [pmcKey].
Proof.
  cbv zeta.
  assert (E : get (config (validateMainConfig (withPmcChat fiftyFiveAndAHalf) ""))
                  pmcKey = Bool false) by (vm_compute; reflexivity).
  split; [exact E | split; [rewrite E; discriminate | vm_compute; reflexivity]].
Qed.

Lemma main_pmc (cfg : object) (lp : string) :
  let st := validateMainConfig cfg lp in
  get (config st) pmcKey
  = (if satisfies CBooleanOrPercent (get cfg pmcKey)
     then get cfg pmcKey else Bool false)
  /\ (In pmcKey (Validation.resetKeys st)
      <-> satisfies CBooleanOrPercent (get cfg pmcKey) = false).
Proof.
  intros st. destruct (main_spec cfg lp) as [Hr Hc]. fold st in Hr, Hc.
  split.
  - rewrite Hc. reflexivity.
  - rewrite Hr, In_reported. split.
    + intros [c [Hin V]].
      assert (Hp : In (pmcKey, CBooleanOrPercent) mainChecks)
        by (simpl; tauto).
      rewrite (same_constraint _ mainChecks_NoDup _ _ _ Hin Hp) in V.
      unfold violated in V. cbn [fst snd] in V. now apply negb_true_iff.
    + intros S. exists CBooleanOrPercent. split; [simpl; tauto |].
      unfold violated. cbn [fst snd]. now rewrite S.
Qed.

(** C3 (amended).  [validateMainConfig] keeps [disablePMC_ChatResponse]
    when it is a boolean or an integer from 1 to 100, and otherwise, a
    number that is not an integer included, resets it to [false] and
    reports the key.  Only the legacy loader [loadOrCreateConfig], which
    keeps no list of reset keys, floors a number from 1 to 100. *)
Theorem pmc_chat_validation (cfg : object) (lp : string) :
  let v := get cfg pmcKey in
  let st := validateMainConfig cfg lp in
  let kept := get (config st) pmcKey = v
              /\ ~ In pmcKey (Validation.resetKeys st) in
  let reset := get (config st) pmcKey = Bool false
               /\ In pmcKey (Validation.resetKeys st) in
  (isBoolean v = true -> kept)
  /\ (forall z, 1 <= z <= 100 -> v = int z -> kept)
  /\ (isBoolean v = false -> isNumber v = false -> reset)
  /\ (forall n, v = Num n ->
                isIntegerNumber n = false \/ ltb n (ofZ 1) = true
                \/ gtb n (ofZ 100) = true -> reset)
  /\ (forall n, v = Num n -> isNaN n = false -> ltb n (ofZ 1) = false ->
                gtb n (ofZ 100) = false ->
                Legacy.validatePmcChat cfg = (set cfg pmcKey (Num (floor n)), false)).
Proof.
  intros v st kept reset. subst kept reset.
  destruct (main_pmc cfg lp) as [Hv Hr]. fold st v in Hv, Hr.
  assert (Ev : get cfg pmcKey = v) by reflexivity.
  clearbody st v.
  assert (Hkeep : satisfies CBooleanOrPercent v = true ->
                  get (config st) pmcKey = v
                  /\ ~ In pmcKey (Validation.resetKeys st)).
  { intros S. rewrite S in Hv. split; [exact Hv |].
    rewrite Hr. congruence. }
  assert (Hreset : satisfies CBooleanOrPercent v = false ->
                   get (config st) pmcKey = Bool false
                   /\ In pmcKey (Validation.resetKeys st)).
  { intros S. rewrite S in Hv. split; [exact Hv | now apply Hr]. }
  split; [| split; [| split; [| split]]].
  - intros B. apply Hkeep. simpl. now rewrite B.
  - intros z Hz E. apply Hkeep. rewrite E. now apply satisfies_percent_int.
  - intros B N. apply Hreset.
    destruct v; simpl in B, N; try discriminate; reflexivity.
  - intros n E H. apply Hreset. rewrite E. simpl. unfold inRange.
    destruct H as [H | [H | H]]; rewrite H; simpl;
      rewrite ?andb_false_r; reflexivity.
  - intros n E Hnan Hlo Hhi. unfold Legacy.validatePmcChat.
    fold pmcKey. rewrite Ev, E, Hnan, Hlo, Hhi. reflexivity.
Qed.

(** C3 (amended), on the inputs of the specification: [true] and 55 are
    kept, 150 and the string are reset to [false]; the legacy loader
    floors 55.5 to 55. *)
Lemma pmc_chat_validation_witness :
  let out v := get (config (validateMainConfig (withPmcChat v) "")) pmcKey in
  out (Bool true) = Bool true
  /\ out (int 55) = int 55
  /\ out (int 150) = Bool false
  /\ out (Str "yes") = Bool false
  /\ get (fst (Legacy.validatePmcChat (withPmcChat fiftyFiveAndAHalf))) pmcKey
     = int 55.
Proof.
  cbv zeta.
  pose proof (fun v => pmc_chat_validation (withPmcChat v) "") as H.
  cbv zeta in H.
  assert (G : forall v, get (withPmcChat v) pmcKey = v)
    by (intros v; apply get_set_same).
  split; [| split; [| split; [| split]]].
  - destruct (H (Bool true)) as [K _]. rewrite G in K.
    destruct (K eq_refl) as [E _]. exact E.
  - destruct (H (int 55)) as [_ [K _]]. rewrite G in K.
    destruct (K 55) as [E _]; [lia | reflexivity | exact E].
  - destruct (H (int 150)) as [_ [_ [_ [K _]]]]. rewrite G in K.
    destruct (K (ofZ 150) eq_refl) as [E _]; [| exact E].
    right. right. reflexivity.
  - destruct (H (Str "yes")) as [_ [_ [K _]]]. rewrite G in K.
    destruct (K eq_refl eq_refl) as [E _]. exact E.
  - destruct (H fiftyFiveAndAHalf) as [_ [_ [_ [_ K]]]]. rewrite G in K.
    rewrite (K (Finite (111 # 2)) eq_refl eq_refl eq_refl eq_refl).
    cbn [fst]. rewrite get_set_same. reflexivity.
Defined.

End PmcChatClaims.

(** ** The loader *)

Section LoaderFacts.
Import Js Loader.

Lemma stripJsonComments_text (s : string) :
  Sanitizer.stripJsonComments (Str s) = Return (Sanitizer.stripText s).
Proof. reflexivity. Qed.

Lemma fixTrailingCommas_text (s : string) :
  Sanitizer.fixTrailingCommas (Str s) = Return (Str (Sanitizer.fixText s)).
Proof. reflexivity. Qed.

Lemma debug_level (logPrefix : string) (debugEnabled : bool)
      (msg : string) (entry : LogEntry) :
  In entry (debug logPrefix debugEnabled msg) -> fst entry = LDebug.
Proof.
  unfold debug, say. destruct debugEnabled; simpl; [| tauto].
  intros [<- | []]. reflexivity.
Qed.

Variable deserialize : string -> string -> Exc value.
Variables (configFilename logPrefix : string) (debugEnabled : bool).

Lemma isBlank_text (s : string) :
  isBlank (Str s) = Return (String.eqb (Text.trim s) "").
Proof.
  unfold isBlank. simpl. destruct s; reflexivity.
Qed.

(** The [try] block on a file that was read. *)
Lemma readAndParse_read (raw : string) :
  readAndParse deserialize configFilename logPrefix debugEnabled (Return raw)
  = let processed := Sanitizer.processText raw in
    let l0 := debug logPrefix debugEnabled
                (" Loading config file '" ++ configFilename ++ "'...") in
    if String.eqb (Text.trim processed) "" then
      EarlyDefaults
        (l0 +++ say logPrefix LWarning
                  (" Config file '" ++ configFilename
                   ++ "' is empty or invalid. Using defaults."))
    else
      match deserialize processed configFilename with
      | Return loadedConfig =>
          Loaded loadedConfig
            (l0 +++ debug logPrefix debugEnabled
                      (" Config file '" ++ configFilename ++ "' parsed."))
      | Throw error =>
          EarlyDefaults
            (l0
             +++ say logPrefix LError
                   (" Failed to load/parse config '" ++ configFilename
                    ++ "'. Error: " ++ message error)
             +++ (if isSyntaxError error
                  then say logPrefix LError
                         (" Check '" ++ configFilename
                          ++ "' for JSON syntax errors.")
                  else [])
             +++ say logPrefix LError
                   (" Using default settings for '" ++ configFilename
                    ++ "'."))
      end.
Proof.
  unfold readAndParse. cbn [bind].
  rewrite stripJsonComments_text. cbn [bind].
  rewrite fixTrailingCommas_text. cbn [bind].
  rewrite isBlank_text. cbn [bind]. cbv zeta.
  fold (Sanitizer.processText raw).
  destruct (String.eqb (Text.trim (Sanitizer.processText raw)) "");
    [reflexivity |].
  destruct (deserialize (Sanitizer.processText raw) configFilename);
    reflexivity.
Qed.

Section Merge.
Variables (defaultKeys : list string) (o : object).
Variable debugMsg : string -> Log.

Let step (acc : object * Log) (key : string) : object * Log :=
  if includes defaultKeys key && hasOwnProperty (Obj o) key
  then (set (fst acc) key (get (ownProps (Obj o)) key), snd acc)
  else (fst acc, snd acc +++ debugMsg key).

Lemma hasOwnProperty_object key :
  hasOwnProperty (Obj o) key = hasOwn o key.
Proof. unfold hasOwnProperty. simpl. apply orb_false_r. Qed.

Lemma merge_get (ks : list string) :
  (forall x, In x ks -> hasOwn o x = true) ->
  forall acc k,
    get (fst (fold_left step ks acc)) k
    = if includes ks k && includes defaultKeys k then get o k
      else get (fst acc) k.
Proof.
  induction ks as [| x ks IH]; intros Hown acc k.
  - reflexivity.
  - cbn [fold_left]. rewrite IH by (intros y Hy; apply Hown; now right).
    unfold includes at 3. cbn [existsb]. fold (includes ks k).
    destruct (includes ks k && includes defaultKeys k) eqn:E.
    + apply andb_true_iff in E. destruct E as [E1 E2].
      now rewrite E1, E2, orb_true_r.
    + unfold step. rewrite hasOwnProperty_object.
      rewrite (Hown x (or_introl eq_refl)), andb_true_r.
      destruct (String.eqb_spec k x) as [-> | Hne].
      * cbn [orb]. destruct (includes defaultKeys x) eqn:D; cbn [fst andb].
        -- apply get_set_same.
        -- reflexivity.
      * cbn [orb]. rewrite E.
        destruct (includes defaultKeys x); cbn [fst]; [| reflexivity].
        apply get_set_other. congruence.
Qed.

Lemma merge_keys (ks : list string) :
  forall acc,
    (forall x, includes defaultKeys x = true -> hasOwn (fst acc) x = true) ->
    keys (fst (fold_left step ks acc)) = keys (fst acc).
Proof.
  induction ks as [| x ks IH]; intros acc Hacc; [reflexivity |].
  cbn [fold_left].
  assert (Hk : keys (fst (step acc x)) = keys (fst acc)).
  { unfold step.
    destruct (includes defaultKeys x) eqn:D; cbn [andb fst]; [| reflexivity].
    destruct (hasOwnProperty (Obj o) x); cbn [fst]; [| reflexivity].
    apply keys_set_own. now apply Hacc. }
  rewrite IH, Hk; [reflexivity |].
  intros y Hy. apply hasOwn_In. rewrite Hk. apply hasOwn_In. now apply Hacc.
Qed.

Lemma merge_log (ks : list string) :
  (forall key entry, In entry (debugMsg key) -> fst entry = LDebug) ->
  forall acc,
    (forall entry, In entry (snd acc) -> fst entry = LDebug) ->
    forall entry, In entry (snd (fold_left step ks acc)) -> fst entry = LDebug.
Proof.
  intros Hmsg. induction ks as [| x ks IH]; intros acc Hacc; [exact Hacc |].
  cbn [fold_left]. apply IH. intros entry. unfold step.
  destruct (includes defaultKeys x && hasOwnProperty (Obj o) x); cbn [snd].
  - apply Hacc.
  - intros Hin. apply in_app_or in Hin. destruct Hin as [Hin | Hin].
    + now apply Hacc.
    + now apply (Hmsg x).
Qed.

Lemma mergeKnownKeys_fold (mergedConfig : object) :
  mergeKnownKeys defaultKeys (Obj o) debugMsg mergedConfig
  = fold_left step (keys o) (mergedConfig, []).
Proof. reflexivity. Qed.

End Merge.

End LoaderFacts.

Section LoaderClaims.
Import Js Loader Validation.

Variable rebuild : string -> object -> string -> Log * option string.
Variable writeFileSync : string -> Exc unit.
Variables (configFilename logPrefix : string) (debugEnabled : bool).

(** C4.  Whatever the host's parser is, the loader returns, and returns a
    copy of the defaults with no key reset and nothing rewritten, when
    reading the file throws, when the sanitized text is empty or white
    space, and when parsing the sanitized text throws; the failure is
    logged (an error for the read and the parse, a warning for the empty
    text). *)
Theorem load_failures_fall_back_to_defaults
        (deserialize : string -> string -> Exc value)
        (readFileSync : Exc string) (template : string) (defaults : object)
        (validate : object -> string -> VState) (allowWriteBack : bool) :
  let r := loadAndValidateConfigFile deserialize rebuild writeFileSync
             configFilename logPrefix debugEnabled readFileSync template
             defaults validate allowWriteBack in
  (forall e, readFileSync = Throw e ->
             fellBackTo defaults r /\ exists msg, In (LError, msg) (log r))
  /\ (forall raw, readFileSync = Return raw ->
                  Text.trim (Sanitizer.processText raw) = "" ->
                  fellBackTo defaults r
                  /\ exists msg, In (LWarning, msg) (log r))
  /\ (forall raw e, readFileSync = Return raw ->
                    Text.trim (Sanitizer.processText raw) <> "" ->
                    deserialize (Sanitizer.processText raw) configFilename
                    = Throw e ->
                    fellBackTo defaults r
                    /\ exists msg, In (LError, msg) (log r)).
Proof.
  intros r. subst r. unfold loadAndValidateConfigFile.
  split; [| split].
  - intros e ->. unfold readAndParse. cbn [bind].
    split; [repeat split |].
    eexists. cbn [log]. apply in_or_app. right. left. reflexivity.
  - intros raw -> Hblank. rewrite readAndParse_read. cbv zeta.
    rewrite Hblank. cbn [String.eqb].
    split; [repeat split |].
    eexists. cbn [log]. apply in_or_app. right. left. reflexivity.
  - intros raw e -> Hfull Hthrow. rewrite readAndParse_read. cbv zeta.
    destruct (String.eqb_spec (Text.trim (Sanitizer.processText raw)) "")
      as [E | _]; [contradiction |].
    rewrite Hthrow.
    split; [repeat split |].
    eexists. cbn [log]. apply in_or_app. right. left. reflexivity.
Qed.

End LoaderClaims.

(** C4, on a file that cannot be read, a file holding one comment, and a
    file holding an unclosed brace. *)
Lemma load_failures_fall_back_to_defaults_witness :
  let load read :=
    Loader.loadAndValidateConfigFile Json.deserialize noRebuild writeSucceeds
      "config.jsonc" "[ASM]" true read
      Headers.DEFAULT_MAIN_CONFIG_JSONC Validation.defaultMainConfigValues
      Validation.validateMainConfig true in
  fellBackTo Validation.defaultMainConfigValues
             (load (Throw (mkError false "EACCES")))
  /\ fellBackTo Validation.defaultMainConfigValues
                (load (Return "  // nothing here"))
  /\ fellBackTo Validation.defaultMainConfigValues (load (Return "{")).
Proof.
  cbv zeta.
  pose proof (fun read =>
                load_failures_fall_back_to_defaults noRebuild writeSucceeds
                  "config.jsonc" "[ASM]" true Json.deserialize read
                  Headers.DEFAULT_MAIN_CONFIG_JSONC
                  Validation.defaultMainConfigValues
                  Validation.validateMainConfig true) as H.
  cbv zeta in H.
  split; [| split].
  - destruct (H (Throw (mkError false "EACCES"))) as [K _].
    exact (proj1 (K _ eq_refl)).
  - destruct (H (Return "  // nothing here")) as [_ [K _]].
    refine (proj1 (K _ eq_refl _)). vm_compute. reflexivity.
  - destruct (H (Return "{")) as [_ [_ K]].
    refine (proj1 (K _ (mkError true "Unexpected token in JSON: config.jsonc")
                     eq_refl _ _)).
    + vm_compute. discriminate.
    + reflexivity.
Defined.


Section MergeClaims.
Import Js Loader Validation.

Variable rebuild : string -> object -> string -> Log * option string.
Variable writeFileSync : string -> Exc unit.
Variables (configFilename logPrefix : string) (debugEnabled : bool).

(** C5.  The merge of a parsed object into the defaults has the keys of
    the defaults, in their order; a key of the defaults has the value of
    the file, as it is, when the file has the key, and the default
    otherwise; a key the defaults lack is not in the result, and is only
    mentioned at debug level; the rewrite flag is set exactly when the
    file lacks a key of the defaults.  The file with [foo] and without
    [stacksize_lega] loads without [foo], with the default stack size and
    with the flag set. *)
Theorem merge_fills_and_drops (defaults o : object) (allowWriteBack : bool) :
  let m := mergeWithDefaults configFilename logPrefix debugEnabled
                             defaults (Obj o) in
  let merged := fst (fst m) in
  let needsRewrite := snd (fst m) in
  let r := loadAndValidateConfigFile Json.deserialize rebuild writeFileSync
             configFilename logPrefix debugEnabled
             (Return fileWithFooWithoutStackSize)
             Headers.DEFAULT_MAIN_CONFIG_JSONC defaultMainConfigValues
             validateMainConfig allowWriteBack in
  keys merged = keys defaults
  /\ (forall k, In k (keys defaults) ->
                get merged k = if hasOwn o k then get o k else get defaults k)
  /\ (forall k, ~ In k (keys defaults) -> hasOwn merged k = false)
  /\ (needsRewrite = true
      <-> exists k, In k (keys defaults) /\ hasOwn o k = false)
  /\ (forall entry, In entry (snd m) -> fst entry = LDebug)
  /\ (hasOwn (returned r) "foo" = false
      /\ get (returned r) "stacksize_lega" = int 50
      /\ fileNeedsUpdate r = true).
Proof.
  intros m merged needsRewrite r.
  assert (Hkeys : keys merged = keys defaults).
  { unfold merged, m, mergeWithDefaults. cbn [truthy fst snd].
    rewrite mergeKnownKeys_fold, merge_keys; [reflexivity |].
    intros x Hx. cbn [fst]. apply hasOwn_In. now apply includes_In. }
  split; [exact Hkeys |].
  split; [| split; [| split; [| split]]].
  - intros k Hk. unfold merged, m, mergeWithDefaults. cbn [truthy fst snd].
    rewrite mergeKnownKeys_fold, merge_get.
    + apply includes_In in Hk. rewrite Hk, andb_true_r. cbn [fst].
      unfold Json.clone.
      destruct (hasOwn o k) eqn:E.
      * apply hasOwn_In, includes_In in E. now rewrite E.
      * destruct (includes (keys o) k) eqn:I; [| reflexivity].
        apply includes_In, hasOwn_In in I. congruence.
    + intros x Hx. now apply hasOwn_In.
  - intros k Hk. destruct (hasOwn merged k) eqn:E; [| reflexivity].
    apply hasOwn_In in E. rewrite Hkeys in E. contradiction.
  - unfold needsRewrite, m, mergeWithDefaults. cbn [truthy fst snd].
    unfold missingKeys.
    set (missing := filter _ (keys defaults)).
    assert (Hm : forall k, In k missing
                           <-> In k (keys defaults) /\ hasOwn o k = false).
    { intros k. unfold missing. rewrite filter_In, hasOwnProperty_object.
      now rewrite negb_true_iff. }
    split.
    + intros H. destruct missing as [| k rest]; [discriminate |].
      exists k. apply Hm. now left.
    + intros [k Hk]. apply Hm in Hk.
      destruct missing; [destruct Hk | reflexivity].
  - unfold m, mergeWithDefaults. cbn [truthy fst snd].
    intros entry Hin. apply in_app_or in Hin. destruct Hin as [Hin | Hin].
    + rewrite mergeKnownKeys_fold in Hin. revert entry Hin.
      apply merge_log.
      * intros key entry H. eapply debug_level. exact H.
      * intros entry [].
    + apply in_flat_map in Hin. destruct Hin as [key [_ Hin]].
      eapply debug_level. exact Hin.
  - unfold r. destruct allowWriteBack; vm_compute; repeat split.
Qed.

(** C2.  The bundled template of each configuration kind, put through
    the loader, gives the default object of that kind, no reset key, and
    an update flag that stays false, so that nothing is written; and a
    missing file is created with the template as its text. *)
Theorem default_templates_load_as_defaults (allowWriteBack : bool) :
  let load template defaults validate :=
    loadAndValidateConfigFile Json.deserialize rebuild writeFileSync
      configFilename logPrefix debugEnabled (Return template) template
      defaults validate allowWriteBack in
  let unchanged defaults r :=
    returned r = defaults /\ validatorRan r = true
    /\ Loader.resetKeys r = [] /\ fileNeedsUpdate r = false
    /\ written r = None in
  unchanged defaultMainConfigValues
            (load Headers.DEFAULT_MAIN_CONFIG_JSONC defaultMainConfigValues
                  validateMainConfig)
  /\ unchanged defaultWeatherConfigValues
               (load Headers.DEFAULT_WEATHER_CONFIG_JSONC
                     defaultWeatherConfigValues validateWeatherConfig)
  /\ ensureFileExists None Headers.DEFAULT_MAIN_CONFIG_JSONC false
     = (Some Headers.DEFAULT_MAIN_CONFIG_JSONC, true)
  /\ ensureFileExists None Headers.DEFAULT_WEATHER_CONFIG_JSONC false
     = (Some Headers.DEFAULT_WEATHER_CONFIG_JSONC, true).
Proof.
  cbv zeta.
  split; [| split; [| split; reflexivity]];
    destruct allowWriteBack, debugEnabled; vm_compute; repeat split.
Qed.

End MergeClaims.

(** ** The sanitizer *)

Section SanitizerFacts.
Import Text.

Lemma removeBlockComments_clean (s : string) :
  hasPair isSlash isStar s = false -> removeBlockComments s = s.
Proof.
  unfold removeBlockComments.
  induction s as [| c r IH]; [reflexivity |].
  destruct r as [| d r']; [reflexivity |].
  intros H. cbn [hasPair] in H. apply orb_false_iff in H.
  destruct H as [H1 H2].
  change (removeBlockComments' false (String c (String d r')))
    with (if isSlash c && isStar d
          then if hasBlockEnd r' then removeBlockComments' true r'
               else String c (String d r')
          else String c (removeBlockComments' false (String d r'))).
  rewrite H1. f_equal. now apply IH.
Qed.

Lemma removeLineComments_clean (s : string) :
  hasPair isSlash isSlash s = false ->
  forall prev, removeLineComments' prev false s = s.
Proof.
  induction s as [| c r IH]; [reflexivity |].
  destruct r as [| d r']; [reflexivity |].
  intros H prev. cbn [hasPair] in H. apply orb_false_iff in H.
  destruct H as [H1 H2].
  change (removeLineComments' prev false (String c (String d r')))
    with (if isSlash c && isSlash d
             && negb (match prev with
                      | Some p => isGuard p
                      | None => false
                      end)
          then removeLineComments' (Some d) true r'
          else String c (removeLineComments' (Some c) false (String d r'))).
  rewrite H1. cbn [andb]. f_equal. now apply IH.
Qed.

Lemma trimEnd_trimEnd (s : string) : trimEnd (trimEnd s) = trimEnd s.
Proof.
  induction s as [| c r IH]; [reflexivity |].
  cbn [trimEnd]. destruct (trimEnd r) as [| d t] eqn:E.
  - destruct (isSpace c) eqn:S; [reflexivity |].
    cbn [trimEnd]. now rewrite S.
  - cbn [trimEnd]. cbn [trimEnd] in IH. rewrite IH. reflexivity.
Qed.

Lemma trimEnd_head (c : ascii) (r : string) :
  isSpace c = false -> exists t, trimEnd (String c r) = String c t.
Proof.
  intros S. cbn [trimEnd]. destruct (trimEnd r).
  - rewrite S. now exists EmptyString.
  - eexists. reflexivity.
Qed.

Lemma trimStart_head (s : string) :
  trimStart s = EmptyString
  \/ exists c r, trimStart s = String c r /\ isSpace c = false.
Proof.
  induction s as [| c r IH]; [now left |].
  cbn [trimStart]. destruct (isSpace c) eqn:S; [exact IH |].
  right. now exists c, r.
Qed.

Lemma trim_trim (s : string) : trim (trim s) = trim s.
Proof.
  unfold trim. destruct (trimStart_head s) as [-> | [c [r [-> S]]]];
    [reflexivity |].
  destruct (trimEnd_head c r S) as [t E].
  assert (Hs : trimStart (trimEnd (String c r)) = trimEnd (String c r)).
  { rewrite E. cbn [trimStart]. now rewrite S. }
  rewrite Hs. apply trimEnd_trimEnd.
Qed.

End SanitizerFacts.

Section SanitizerClaims.
Import Js Text Sanitizer.

(** C6.  The input is JSON without any comment, and its string holds two
    slashes after a space.  [stripJsonComments] cuts the text from these
    slashes to the end of the line, inside the string, so that what is
    left no longer parses.  A block comment inside a string is removed as
    well, a line comment that follows a colon is kept, and a URL (two
    slashes after a colon) is kept. *)
Theorem stripJsonComments_cuts_inside_strings :
  let input := Headers.text "{`k`: `a // b`}" in
  Json.parse input = Some (Obj [("k", Str "a // b")])
  /\ stripJsonComments (Str input) = Return (Headers.text "{`k`: `a")
  /\ Json.parse (stripText input) = None
  /\ stripText (Headers.text "{`k`: `a /* b */ c`}")
     = Headers.text "{`k`: `a  c`}"
  /\ stripText (Headers.text "{`k`:// one
1}") = Headers.text "{`k`:// one
1}"
  /\ stripText (Headers.text "{`u`: `http://example.com`}")
     = Headers.text "{`u`: `http://example.com`}"
  /\ Legacy.stripJsonComments (Headers.text "{`u`: `http://example.com`}")
     = Headers.text "{`u`: `http:".
Proof. cbv zeta. repeat split; vm_compute; reflexivity. Qed.

(** C10.  There is strict JSON whose string holds a comma, a space and a
    closing bracket, and [fixTrailingCommas] removes that comma and
    space: the text that comes out, also out of the whole sanitizing
    pipeline, parses to a different string. *)
Theorem fixTrailingCommas_rewrites_string_content :
  exists input output : string,
    Json.parse input = Some (Obj [("k", Str "a, ]")])
    /\ fixTrailingCommas (Str input) = Return (Str output)
    /\ processText input = output
    /\ Json.parse output = Some (Obj [("k", Str "a]")])
    /\ output <> input.
Proof.
  exists (Headers.text "{`k`: `a, ]`}"), (Headers.text "{`k`: `a]`}").
  repeat split; try (vm_compute; reflexivity).
  vm_compute. discriminate.
Qed.

(** C8, as stated, fails: removing the block comment in the middle of
    [splicedComment] leaves a new block comment, which a second pass
    removes. *)
Lemma sanitize_not_idempotent :
  stripText splicedComment = "/**/"
  /\ stripText (stripText splicedComment) = ""
  /\ stripText (stripText splicedComment) <> stripText splicedComment.
Proof.
  assert (E1 : stripText splicedComment = "/**/") by (vm_compute; reflexivity).
  assert (E2 : stripText (stripText splicedComment) = "")
    by (vm_compute; reflexivity).
  split; [exact E1 | split; [exact E2 |]].
  rewrite E2, E1. discriminate.
Qed.

(** C8 (amended).  Both sanitizer functions return on every value: on a
    string the result of their passes, on anything else the empty string
    and the value itself.  [stripJsonComments] is idempotent on every
    text whose sanitized form holds no slash followed by a star or by a
    slash. *)
Theorem sanitizer_total_idempotent_on_clean_output :
  (forall v, exists s, stripJsonComments v = Return s
                       /\ (forall x, v = Str x -> s = stripText x)
                       /\ (isString v = false -> s = ""))
  /\ (forall v, exists w, fixTrailingCommas v = Return w
                          /\ (forall x, v = Str x -> w = Str (fixText x))
                          /\ (isString v = false -> w = v))
  /\ (forall x,
         hasPair isSlash isStar (stripText x) = false ->
         hasPair isSlash isSlash (stripText x) = false ->
         stripText (stripText x) = stripText x).
Proof.
  split; [| split].
  - intros v. destruct v; eexists; (split; [reflexivity |]);
      split; intros; try discriminate; try reflexivity.
    match goal with H : Str _ = Str _ |- _ => injection H as <- end.
    reflexivity.
  - intros v. destruct v; eexists; (split; [reflexivity |]);
      split; intros; try discriminate; try reflexivity.
    match goal with H : Str _ = Str _ |- _ => injection H as <- end.
    reflexivity.
  - intros x Hb Hl. unfold stripText at 1.
    rewrite (removeBlockComments_clean _ Hb).
    unfold removeLineComments.
    rewrite (removeLineComments_clean _ Hl).
    unfold stripText. apply trim_trim.
Qed.

(** C8 (amended), on the bundled main template. *)
Lemma sanitizer_total_idempotent_on_clean_output_witness :
  stripText (stripText Headers.DEFAULT_MAIN_CONFIG_JSONC)
  = stripText Headers.DEFAULT_MAIN_CONFIG_JSONC.
Proof.
  apply (proj2 (proj2 sanitizer_total_idempotent_on_clean_output)).
  - vm_compute. reflexivity.
  - vm_compute. reflexivity.
Defined.

End SanitizerClaims.

(** ** The consumers *)

Section ConsumerFacts.
Import Host.

(** Stepping every entry again changes nothing when one step is
    idempotent. *)
Lemma map_step_twice {A B : Type} (step : A -> A * B) (l : list A) :
  (forall a, fst (step (fst (step a))) = fst (step a)) ->
  map fst (map step (map fst (map step l))) = map fst (map step l).
Proof.
  intros H. induction l as [| a l IH]; simpl; [reflexivity |].
  now rewrite H, IH.
Qed.

Lemma lootabilityStep_twice (config : IAdditionalSettingsConfig)
      (entry : string * TemplateItem) :
  fst (CoreModule.lootabilityStep config
         (fst (CoreModule.lootabilityStep config entry)))
  = fst (CoreModule.lootabilityStep config entry).
Proof.
  destruct entry as [itemId [name parent [[unl side w] |]]];
    [| reflexivity].
  unfold CoreModule.lootabilityStep, CoreModule.makeLootable.
  cbn [_props _parent _name Unlootable UnlootableFromSide Weight].
  destruct (String.eqb parent "") eqn:Ep;
    [cbn -[String.eqb]; now rewrite Ep |].
  destruct (String.eqb parent CoreModule.ARMBAND_PARENT_ID) eqn:Ea,
           (String.eqb parent CoreModule.MELEE_PARENT_ID) eqn:Em,
           (Js.includes CoreModule.LOOTABILITY_BLACKLIST itemId) eqn:Eb,
           unl as [[|] |], (LootArmbands config), (LootMelee config);
    cbn -[String.eqb Js.includes CoreModule.ARMBAND_PARENT_ID
          CoreModule.MELEE_PARENT_ID CoreModule.LOOTABILITY_BLACKLIST];
    rewrite ?Ep, ?Ea, ?Em, ?Eb;
    cbn -[String.eqb Js.includes CoreModule.ARMBAND_PARENT_ID
          CoreModule.MELEE_PARENT_ID CoreModule.LOOTABILITY_BLACKLIST];
    rewrite ?Ep, ?Ea, ?Em, ?Eb; reflexivity.
Qed.

Lemma weightStep_twice (config : IAdditionalSettingsConfig)
      (entry : string * TemplateItem) :
  fst (AmmoModule.weightStep config (fst (AmmoModule.weightStep config entry)))
  = fst (AmmoModule.weightStep config entry).
Proof.
  destruct entry as [itemId [name parent [[unl side [w |]] |]]];
    try reflexivity.
  unfold AmmoModule.weightStep, AmmoModule.weightless.
  cbn [_props _parent _name Unlootable UnlootableFromSide Weight].
  destruct (String.eqb parent "") eqn:Ep;
    [cbn -[String.eqb]; now rewrite Ep |].
  destruct (Js.eqb w (Js.ofZ 0)) eqn:Ew;
    [cbn -[String.eqb Js.eqb]; now rewrite Ep, Ew |].
  cbn [orb].
  assert (Hz : Js.eqb (Js.ofZ 0) (Js.ofZ 0) = true) by reflexivity.
  destruct (weightless_ammo config
            && String.eqb parent AmmoModule.AMMO_PARENT_ID) eqn:E1;
    [cbn -[String.eqb Js.eqb Js.ofZ]; now rewrite Ep, Hz |].
  destruct (weightless_ammoboxes config
            && String.eqb parent AmmoModule.AMMOBOX_PARENT_ID) eqn:E2;
    [cbn -[String.eqb Js.eqb Js.ofZ]; now rewrite Ep, Hz |].
  destruct (weightless_grenades config
            && String.eqb parent AmmoModule.GRENADE_PARENT_ID) eqn:E3;
    [cbn -[String.eqb Js.eqb Js.ofZ]; now rewrite Ep, Hz |].
  cbn -[String.eqb Js.eqb Js.ofZ AmmoModule.AMMO_PARENT_ID
        AmmoModule.AMMOBOX_PARENT_ID AmmoModule.GRENADE_PARENT_ID].
  now rewrite Ep, Ew, E1, E2, E3.
Qed.

End ConsumerFacts.

Section ConsumerClaims.
Import Host.

(** C9, as stated, fails for the plant-time module: with the multiplier 2
    the first call turns ten seconds into twenty and the second call
    turns the twenty into forty. *)
Lemma plant_time_not_idempotent :
  PlantTimeModule.applyPlantTimeChanges doubledPlantTime (oneQuest 10)
  = oneQuest 20
  /\ PlantTimeModule.applyPlantTimeChanges doubledPlantTime
       (PlantTimeModule.applyPlantTimeChanges doubledPlantTime (oneQuest 10))
     = oneQuest 40
  /\ PlantTimeModule.applyPlantTimeChanges doubledPlantTime
       (PlantTimeModule.applyPlantTimeChanges doubledPlantTime (oneQuest 10))
     <> PlantTimeModule.applyPlantTimeChanges doubledPlantTime (oneQuest 10).
Proof.
  assert (E1 : PlantTimeModule.applyPlantTimeChanges doubledPlantTime
                 (oneQuest 10) = oneQuest 20) by (vm_compute; reflexivity).
  assert (E2 : PlantTimeModule.applyPlantTimeChanges doubledPlantTime
                 (oneQuest 20) = oneQuest 40) by (vm_compute; reflexivity).
  rewrite E1, E2. split; [reflexivity | split; [reflexivity |]].
  vm_compute. discriminate.
Qed.

(** C9 (amended).  For every settings object and every state of the host
    data, a second call of the lootability tweak, of the ammo weight
    module and of the lost-on-death module changes nothing; a call of the
    plant-time module changes nothing when both multipliers are 1. *)
Theorem consumers_idempotent_but_plant_time
        (config : IAdditionalSettingsConfig) :
  (forall items,
      fst (CoreModule.applyLootabilitySettings config
             (fst (CoreModule.applyLootabilitySettings config items)))
      = fst (CoreModule.applyLootabilitySettings config items))
  /\ (forall db,
         fst (AmmoModule.applyAmmoWeightChanges config
                (fst (AmmoModule.applyAmmoWeightChanges config db)))
         = fst (AmmoModule.applyAmmoWeightChanges config db))
  /\ (forall db,
         AmmoModule.applyAllChanges config
           (AmmoModule.applyAllChanges config db)
         = AmmoModule.applyAllChanges config db)
  /\ (forall lod,
         fst (LostOnDeathModule.applyLostOnDeathChanges config
                (fst (LostOnDeathModule.applyLostOnDeathChanges config lod)))
         = fst (LostOnDeathModule.applyLostOnDeathChanges config lod))
  /\ (forall db,
         Js.eqb (leaveItemAtLocationModifier config) PlantTimeModule.one = true ->
         Js.eqb (placeBeaconModifier config) PlantTimeModule.one = true ->
         PlantTimeModule.applyPlantTimeChanges config db = db
         /\ PlantTimeModule.applyPlantTimeChanges config
              (PlantTimeModule.applyPlantTimeChanges config db)
            = PlantTimeModule.applyPlantTimeChanges config db).
Proof.
  assert (Hammo : forall db,
             fst (AmmoModule.applyAmmoWeightChanges config
                    (fst (AmmoModule.applyAmmoWeightChanges config db)))
             = fst (AmmoModule.applyAmmoWeightChanges config db)).
  { intros [[[[items |] quests] |]]; try reflexivity.
    unfold AmmoModule.applyAmmoWeightChanges. cbn [templates fst].
    now rewrite (map_step_twice _ _ (weightStep_twice config)). }
  split; [| split; [| split; [| split]]].
  - intros items. unfold CoreModule.applyLootabilitySettings. cbn [fst].
    apply map_step_twice, lootabilityStep_twice.
  - exact Hammo.
  - intros db. unfold AmmoModule.applyAllChanges.
    destruct (weightless_ammo config || weightless_ammoboxes config
              || weightless_grenades config); [apply Hammo | reflexivity].
  - intros [[[arm scab] |]]; [| reflexivity].
    unfold LostOnDeathModule.applyLostOnDeathChanges.
    cbn [equipment ArmBand Scabbard].
    destruct (SaveArmbandOnDeath config), (SaveMeleeOnDeath config),
             arm, scab; reflexivity.
  - intros db H1 H2. unfold PlantTimeModule.applyPlantTimeChanges.
    rewrite H1, H2. split; reflexivity.
Qed.

(** C9 (amended), on the default settings, whose multipliers are 1. *)
Lemma consumers_idempotent_but_plant_time_witness :
  PlantTimeModule.applyPlantTimeChanges defaultSettings (oneQuest 10)
  = oneQuest 10.
Proof.
  apply (proj2 (proj2 (proj2 (proj2
           (consumers_idempotent_but_plant_time defaultSettings)))));
    reflexivity.
Defined.

End ConsumerClaims.

(* ================================================================== *)
(** * Further properties of the code *)
(* ================================================================== *)

(** ** What validation establishes *)

Section ValidatorInvariants.
Import Js Validation Descriptor Checks CheckFacts ValidatorFacts.

Lemma satisfies_defined c v : satisfies c v = true -> v <> Undefined.
Proof. intros S ->. destruct c; discriminate. Qed.

Lemma get_hasOwn (o : object) (k : string) :
  get o k <> Undefined -> hasOwn o k = true.
Proof.
  induction o as [| [k0 w] o IH]; simpl; [congruence |].
  destruct (String.eqb k0 k); auto.
Qed.

Lemma set_get_id (o : object) (k : string) (v : value) :
  get o k = v -> hasOwn o k = true -> set o k v = o.
Proof.
  induction o as [| [k0 w] o IH]; simpl; [discriminate |].
  destruct (String.eqb k0 k) eqn:E; simpl.
  - intros -> _. apply String.eqb_eq in E. now subst.
  - intros Hg Hh. now rewrite IH.
Qed.

Lemma settled_satisfies d checks k c v :
  forallb (fun kc => satisfies (snd kc) (get d (fst kc))) checks = true ->
  In (k, c) checks -> c <> CSeasonList ->
  satisfies c (settled d k c v) = true.
Proof.
  intros Hd Hin Hc. rewrite forallb_forall in Hd.
  specialize (Hd _ Hin). simpl in Hd.
  assert (E : settled d k c v = if satisfies c v then v else get d k).
  { unfold settled. destruct c; try reflexivity. congruence. }
  rewrite E. now destruct (satisfies c v) eqn:S.
Qed.

Lemma filter_notStorm_valid (l : list value) :
  forallb validSeasonIndex l = true ->
  forallb validSeasonIndex (filter notStorm l) = true.
Proof.
  rewrite !forallb_forall. intros H v Hv. apply filter_In in Hv. now apply H.
Qed.

Lemma filter_forallb {A} (p : A -> bool) (l : list A) :
  forallb p (filter p l) = true.
Proof.
  apply forallb_forall. intros x Hx. apply filter_In in Hx. tauto.
Qed.

Lemma filter_filter_id {A} (p : A -> bool) (l : list A) :
  filter p (filter p l) = filter p l.
Proof. apply forallb_filter_id, filter_forallb. Qed.

Lemma settled_seasons d k l :
  settled d k CSeasonList (Arr l) = Arr (keptSeasons l).
Proof.
  unfold settled, keptSeasons. now destruct (seasonsArrayLength <=? _).
Qed.

Lemma keptSeasons_valid l : forallb validSeasonIndex (keptSeasons l) = true.
Proof.
  unfold keptSeasons. destruct (seasonsArrayLength <=? _).
  - apply filter_notStorm_valid, filter_forallb.
  - apply filter_forallb.
Qed.

Lemma keptSeasons_idem l : keptSeasons (keptSeasons l) = keptSeasons l.
Proof.
  unfold keptSeasons at 1.
  rewrite (forallb_filter_id _ _ (keptSeasons_valid l)).
  destruct (seasonsArrayLength <=? Z.of_nat (List.length (keptSeasons l))) eqn:E;
    [| reflexivity].
  unfold keptSeasons in *.
  destruct (seasonsArrayLength <=? Z.of_nat (List.length (filter validSeasonIndex l))) eqn:F.
  - apply filter_filter_id.
  - congruence.
Qed.

(** The value a check leaves is left alone by the same check. *)
Lemma settled_idem d checks k c v :
  forallb (fun kc => satisfies (snd kc) (get d (fst kc))) checks = true ->
  In (k, c) checks ->
  settled d k c (settled d k c v) = settled d k c v.
Proof.
  intros Hd Hin.
  destruct c; try (apply settled_keeps;
                   apply (settled_satisfies d checks); [assumption .. | discriminate]).
  rewrite forallb_forall in Hd. specialize (Hd _ Hin). simpl in Hd.
  destruct v as [| | b | n | s | l | o];
    try (unfold settled at 2; cbn [satisfies]; now apply settled_keeps).
  rewrite !settled_seasons. now rewrite keptSeasons_idem.
Qed.

Lemma settled_defined d checks k c v :
  forallb (fun kc => satisfies (snd kc) (get d (fst kc))) checks = true ->
  In (k, c) checks ->
  settled d k c v <> Undefined.
Proof.
  intros Hd Hin.
  destruct c; try (apply (satisfies_defined _ _
                     (settled_satisfies d checks _ _ v Hd Hin ltac:(discriminate)))).
  rewrite forallb_forall in Hd. specialize (Hd _ Hin). simpl in Hd.
  destruct v as [| | b | n | s | l | o];
    try (unfold settled; cbn [satisfies]; now apply (satisfies_defined CSeasonList)).
  rewrite settled_seasons. discriminate.
Qed.

Section FixedPoint.
Variables (d : object) (lp : string).

(** A table of checks leaves alone an object every field of which is
    already what its check would leave. *)
Lemma run_fixpoint (checks : list (string * Constraint)) :
  forall st,
    (forall kc, In kc checks ->
       settled d (fst kc) (snd kc) (get (config st) (fst kc))
       = get (config st) (fst kc)
       /\ hasOwn (config st) (fst kc) = true) ->
    config (run d lp checks st) = config st.
Proof.
  induction checks as [| [k c] checks IH]; intros st H; [reflexivity |].
  change (run d lp ((k, c) :: checks) st)
    with (run d lp checks (keyStep k (judge d lp k c) st)).
  assert (E : config (keyStep k (judge d lp k c) st) = config st).
  { destruct (H (k, c) (or_introl eq_refl)) as [Hs Ho]. cbn [fst snd] in Hs, Ho.
    unfold keyStep. cbn [config].
    pose proof (judge_newValue d lp k c (get (config st) k)) as J.
    destruct (newValue (judge d lp k c (get (config st) k))) as [v' |];
      [| reflexivity].
    apply set_get_id; [congruence | exact Ho]. }
  rewrite IH; [exact E |].
  intros kc Hin. rewrite E. apply H. now right.
Qed.

(** A table of checks keeps the keys of an object that has every key of
    the table. *)
Lemma run_keys (checks : list (string * Constraint)) :
  forall st,
    (forall kc, In kc checks -> hasOwn (config st) (fst kc) = true) ->
    keys (config (run d lp checks st)) = keys (config st).
Proof.
  induction checks as [| [k c] checks IH]; intros st H; [reflexivity |].
  change (run d lp ((k, c) :: checks) st)
    with (run d lp checks (keyStep k (judge d lp k c) st)).
  assert (E : keys (config (keyStep k (judge d lp k c) st)) = keys (config st)).
  { unfold keyStep. cbn [config].
    destruct (newValue (judge d lp k c (get (config st) k))); [| reflexivity].
    apply keys_set_own. apply (H (k, c)). now left. }
  rewrite IH; [exact E |].
  intros kc Hin. apply hasOwn_In. rewrite E. apply hasOwn_In. apply H. now right.
Qed.

End FixedPoint.

(** Every field of a validated main object meets its constraint. *)
Lemma main_validated (cfg : object) (lp : string) :
  forallb (fun kc => satisfies (snd kc)
                       (get (config (validateMainConfig cfg lp)) (fst kc)))
          mainChecks = true.
Proof.
  destruct (main_spec cfg lp) as [_ Hc]. cbv zeta in Hc.
  apply forallb_forall. intros [k c] Hin. cbn [fst snd].
  rewrite Hc, (find_In _ mainChecks_NoDup _ _ Hin). cbn [snd].
  apply (settled_satisfies _ mainChecks); auto using main_defaults_valid.
  now apply (main_scalar k).
Qed.

Lemma not_violated cfg checks :
  forallb (fun kc => satisfies (snd kc) (get cfg (fst kc))) checks = true ->
  filter (violated cfg) checks = [].
Proof.
  induction checks as [| kc checks IH]; simpl; [reflexivity |].
  intros H. apply andb_true_iff in H. destruct H as [H1 H2].
  unfold violated at 1. rewrite H1. simpl. now apply IH.
Qed.

(** A validated object is what the same validator leaves it as, field by
    field, and owns every checked key. *)
Lemma validated_fixed d checks cfg cfg' :
  forallb (fun kc => satisfies (snd kc) (get d (fst kc))) checks = true ->
  NoDup (map fst checks) ->
  (forall k, get cfg' k
             = match find (fun kc => String.eqb (fst kc) k) checks with
               | Some kc => settled d k (snd kc) (get cfg k)
               | None => get cfg k
               end) ->
  forall kc, In kc checks ->
    settled d (fst kc) (snd kc) (get cfg' (fst kc)) = get cfg' (fst kc)
    /\ hasOwn cfg' (fst kc) = true.
Proof.
  intros Hd Hnd Hc [k c] Hin. cbn [fst snd].
  rewrite Hc, (find_In _ Hnd _ _ Hin). cbn [snd]. split.
  - now apply (settled_idem d checks).
  - apply get_hasOwn. rewrite Hc, (find_In _ Hnd _ _ Hin). cbn [snd].
    now apply (settled_defined d checks).
Qed.

(** X1.  Whatever object [validateMainConfig] is given, every field it
    checks meets its constraint afterwards (a boolean; a boolean or an
    integer from 1 to 100; an integer from 1 to 999; a finite number that
    is not negative), and a property that is not checked is left as it
    was. *)
Theorem validateMainConfig_establishes_constraints (cfg : object) (lp : string) :
  let st := validateMainConfig cfg lp in
  forallb (fun kc => satisfies (snd kc) (get (config st) (fst kc))) mainChecks
  = true
  /\ forall k, includes (map fst mainChecks) k = false ->
               get (config st) k = get cfg k.
Proof.
  intros st. split; [apply main_validated |].
  intros k Hk. destruct (main_spec cfg lp) as [_ Hc]. fold st in Hc.
  rewrite Hc, find_absent; [reflexivity |]. now apply includes_false.
Qed.

(** X2.  [validateMainConfig] is idempotent: given the object a first
    call left, a second call returns no reset key and leaves the object,
    its property order included, as it is. *)
Theorem validateMainConfig_idempotent (cfg : object) (lp lp' : string) :
  let st := validateMainConfig cfg lp in
  let st' := validateMainConfig (config st) lp' in
  config st' = config st /\ Validation.resetKeys st' = [].
Proof.
  intros st st'. split.
  - unfold st'. rewrite validateMainConfig_run, run_fixpoint; [reflexivity |].
    cbn [start config].
    destruct (main_spec cfg lp) as [_ Hc]. fold st in Hc.
    apply (validated_fixed _ _ cfg);
      auto using main_defaults_valid, mainChecks_NoDup.
  - destruct (main_spec (config st) lp') as [Hr _]. fold st' in Hr.
    rewrite Hr, not_violated; [reflexivity | apply main_validated].
Qed.

End ValidatorInvariants.

Section WeatherInvariants.
Import Js Validation Descriptor Checks CheckFacts ValidatorFacts.

Lemma forallb_false_exists {A} (p : A -> bool) (l : list A) :
  forallb p l = false -> exists x, In x l /\ p x = false.
Proof.
  induction l as [| a l IH]; simpl; [discriminate |].
  destruct (p a) eqn:E; simpl; intros H.
  - destruct (IH H) as [x [Hx Px]]. exists x. tauto.
  - exists a. tauto.
Qed.

(** A list that excludes every index covers the seven seasons. *)
Lemma seasonsLeft_nil_covers (l : list value) :
  seasonsLeft l = [] -> coversAllSeasons l.
Proof.
  intros H i Hi.
  assert (Hin : In i [0; 1; 2; 3; 4; 5; 6]) by (simpl; lia).
  destruct (notExcluded l i) eqn:E.
  - assert (Hl : In i (seasonsLeft l)) by (apply filter_In; tauto).
    rewrite H in Hl. destruct Hl.
  - apply forallb_false_exists in E. destruct E as [v [Hv E]].
    exists v. split; [exact Hv |]. now apply negb_false_iff.
Qed.

(** The list the validator keeps leaves a season available. *)
Lemma keptSeasons_leave_one (l : list value) : seasonsLeft (keptSeasons l) <> [].
Proof.
  unfold keptSeasons.
  destruct (seasonsArrayLength <=? Z.of_nat (List.length (filter validSeasonIndex l)))
    eqn:E.
  - intros H.
    assert (Hin : In 6 (seasonsLeft (filter notStorm (filter validSeasonIndex l)))).
    { apply filter_In. split; [simpl; tauto |].
      apply forallb_forall. intros v Hv. apply filter_In in Hv. tauto. }
    rewrite H in Hin. destruct Hin.
  - intros H. apply seasonsLeft_nil_covers, covers_length in H.
    apply Z.leb_gt in E. unfold seasonsArrayLength in E. lia.
Qed.

Lemma weather_scalars_validated (cfg : object) (lp : string) :
  forallb (scalarOnly (config (validateWeatherConfig cfg lp))) weatherChecks
  = true.
Proof.
  destruct (weather_spec cfg lp) as [_ Hc]. cbv zeta in Hc.
  apply forallb_forall. intros [k c] Hin. unfold scalarOnly. cbn [fst snd].
  destruct c; try reflexivity;
    rewrite Hc, (find_In _ weatherChecks_NoDup _ _ Hin); cbn [snd];
    apply (settled_satisfies _ weatherChecks);
    auto using weather_defaults_valid; discriminate.
Qed.

Lemma weather_seasons_validated (cfg : object) (lp : string) :
  exists l, get (config (validateWeatherConfig cfg lp)) "exclude_seasons"
            = Arr (keptSeasons l).
Proof.
  destruct (weather_spec cfg lp) as [_ Hc]. cbv zeta in Hc.
  rewrite Hc. cbn [find fst snd String.eqb Ascii.eqb Bool.eqb weatherChecks].
  destruct (get cfg "exclude_seasons") as [| | b | n | s | l | o];
    try (exists []; reflexivity).
  exists l. apply settled_seasons.
Qed.

Lemma filter_violated_scalar cfg checks :
  forallb (scalarOnly cfg) checks = true ->
  filter (violated cfg) checks
  = filter (fun kc => match snd kc with
                      | CSeasonList => violated cfg kc
                      | _ => false
                      end) checks.
Proof.
  induction checks as [| [k c] checks IH]; simpl; [reflexivity |].
  intros H. apply andb_true_iff in H. destruct H as [H1 H2].
  rewrite (IH H2). unfold scalarOnly in H1. cbn [fst snd] in H1.
  destruct c; try (unfold violated; cbn [fst snd]; rewrite H1; reflexivity).
  reflexivity.
Qed.

(** Entries the callback of [filter] accepts are integers from 0 to 6. *)
Lemma accepted_are_season_indices (l : list value) :
  forallb validSeasonIndex l = true -> Forall isSeasonIndex l.
Proof.
  intros H. apply Forall_forall. intros v Hv.
  apply validSeasonIndex_spec. rewrite forallb_forall in H. now apply H.
Qed.

(** X3.  Whatever object [validateWeatherConfig] is given, afterwards the
    three switches are booleans, [fixed_season_index] is an integer from
    1 to 7, [random_system_mode] is 0 or 1, the seven weights are finite
    and not negative, and [exclude_seasons] is an array of integers from
    0 to 6 that leaves at least one of the seven seasons available. *)
Theorem validateWeatherConfig_establishes_constraints
        (cfg : object) (lp : string) :
  let st := validateWeatherConfig cfg lp in
  forallb (scalarOnly (config st)) weatherChecks = true
  /\ exists kept,
       get (config st) "exclude_seasons" = Arr kept
       /\ Forall isSeasonIndex kept
       /\ seasonsLeft kept <> [].
Proof.
  intros st. split; [apply weather_scalars_validated |].
  destruct (weather_seasons_validated cfg lp) as [l Hl]. fold st in Hl.
  exists (keptSeasons l).
  split; [exact Hl |].
  split; [apply accepted_are_season_indices, keptSeasons_valid |
          apply keptSeasons_leave_one].
Qed.

(** X4.  A second call of [validateWeatherConfig] on the object a first
    call left changes nothing in the object.  It returns no reset key,
    except that [exclude_seasons] is returned again, at every call, when
    the list kept holds seven or more entries (duplicates of indices other
    than 6): the length test does not look at which indices remain. *)
Theorem validateWeatherConfig_second_run (cfg : object) (lp lp' : string) :
  let st := validateWeatherConfig cfg lp in
  let st' := validateWeatherConfig (config st) lp' in
  config st' = config st
  /\ exists kept,
       get (config st) "exclude_seasons" = Arr kept
       /\ Validation.resetKeys st'
          = if seasonsArrayLength <=? Z.of_nat (List.length kept)
            then ["exclude_seasons"] else [].
Proof.
  intros st st'. split.
  - destruct (validateWeatherConfig_run (config st) lp') as [Ec _].
    cbv zeta in Ec. fold st' in Ec.
    rewrite Ec, run_fixpoint; [reflexivity |].
    cbn [start config].
    destruct (weather_spec cfg lp) as [_ Hc]. fold st in Hc.
    apply (validated_fixed _ _ cfg);
      auto using weather_defaults_valid, weatherChecks_NoDup.
  - destruct (weather_seasons_validated cfg lp) as [l Hl]. fold st in Hl.
    exists (keptSeasons l). split; [exact Hl |].
    destruct (weather_spec (config st) lp') as [Hr _]. fold st' in Hr.
    rewrite Hr, filter_violated_scalar by apply weather_scalars_validated.
    unfold weatherChecks. cbn [filter snd]. unfold violated. cbn [fst snd].
    rewrite Hl. cbn [satisfies]. rewrite keptSeasons_valid. cbn [andb].
    rewrite Z.ltb_antisym, negb_involutive.
    now destruct (seasonsArrayLength <=? _).
Qed.

End WeatherInvariants.

(** ** What the loader returns, whatever the file holds *)

Section LoaderInvariants.
Import Js Validation Descriptor Checks CheckFacts ValidatorFacts Loader.

Lemma merge_fold_keys (defaultKeys : list string) (v : value)
      (debugMsg : string -> Log) (ks : list string) :
  forall acc : object * Log,
    (forall x, includes defaultKeys x = true -> hasOwn (fst acc) x = true) ->
    keys (fst (fold_left
                 (fun (acc : object * Log) key =>
                    if includes defaultKeys key && hasOwnProperty v key
                    then (set (fst acc) key (get (ownProps v) key), snd acc)
                    else (fst acc, snd acc +++ debugMsg key))
                 ks acc))
    = keys (fst acc).
Proof.
  induction ks as [| x ks IH]; intros acc Hacc; [reflexivity |].
  cbn [fold_left].
  set (acc1 := if includes defaultKeys x && hasOwnProperty v x
               then (set (fst acc) x (get (ownProps v) x), snd acc)
               else (fst acc, snd acc +++ debugMsg x)).
  assert (Hk : keys (fst acc1) = keys (fst acc)).
  { unfold acc1.
    destruct (includes defaultKeys x) eqn:D; cbn [andb fst]; [| reflexivity].
    destruct (hasOwnProperty v x); cbn [fst]; [| reflexivity].
    apply keys_set_own. now apply Hacc. }
  rewrite IH, Hk; [reflexivity |].
  intros y Hy. apply hasOwn_In. rewrite Hk. apply hasOwn_In. now apply Hacc.
Qed.

Lemma mergeKnownKeys_keys (defaultKeys : list string) (v : value)
      (debugMsg : string -> Log) (merged : object) :
  (forall x, includes defaultKeys x = true -> hasOwn merged x = true) ->
  keys (fst (mergeKnownKeys defaultKeys v debugMsg merged)) = keys merged.
Proof.
  intros H. unfold mergeKnownKeys.
  now rewrite merge_fold_keys.
Qed.

Lemma hasOwn_keys (o : object) (k : string) :
  includes (keys o) k = true -> hasOwn o k = true.
Proof. intros H. now apply hasOwn_In, includes_In. Qed.

(** The merged object has the keys of the defaults, whatever was parsed. *)
Lemma mergeWithDefaults_keys (configFilename logPrefix : string)
      (debugEnabled : bool) (defaults : object) (v : value) :
  keys (fst (fst (mergeWithDefaults configFilename logPrefix debugEnabled
                                    defaults v)))
  = keys defaults.
Proof.
  unfold mergeWithDefaults, Json.clone.
  destruct (truthy v); cbn [fst]; [| reflexivity].
  apply mergeKnownKeys_keys, hasOwn_keys.
Qed.

Lemma checked_keys_own (checks : list (string * Constraint)) (o d : object) :
  keys o = keys d ->
  forallb (fun kc => hasOwn d (fst kc)) checks = true ->
  forall kc, In kc checks -> hasOwn o (fst kc) = true.
Proof.
  intros Hk Hd kc Hin. rewrite forallb_forall in Hd.
  apply hasOwn_In. rewrite Hk. apply hasOwn_In. now apply Hd.
Qed.

Lemma validateMainConfig_keys (cfg : object) (lp : string) :
  keys cfg = keys defaultMainConfigValues ->
  keys (config (validateMainConfig cfg lp)) = keys defaultMainConfigValues.
Proof.
  intros Hk. rewrite validateMainConfig_run, run_keys; [exact Hk |].
  cbn [start config]. now apply (checked_keys_own _ _ defaultMainConfigValues).
Qed.

Lemma validateWeatherConfig_keys (cfg : object) (lp : string) :
  keys cfg = keys defaultWeatherConfigValues ->
  keys (config (validateWeatherConfig cfg lp)) = keys defaultWeatherConfigValues.
Proof.
  intros Hk. destruct (validateWeatherConfig_run cfg lp) as [Ec _].
  cbv zeta in Ec. rewrite Ec, run_keys; [exact Hk |].
  cbn [start config]. now apply (checked_keys_own _ _ defaultWeatherConfigValues).
Qed.

(** An object whose fields meet the constraints of the main table has a
    typed reading, within the ranges. *)
Lemma mainSettings_of_valid (o : object) :
  forallb (fun kc => satisfies (snd kc) (get o (fst kc))) mainChecks = true ->
  exists s, Typed.mainSettings o = Some s /\ Typed.inRanges s = true.
Proof.
  intros H. unfold mainChecks in H. cbn [forallb fst snd] in H.
  repeat match type of H with
         | (_ && _) = true =>
             let H1 := fresh "F" in
             apply andb_true_iff in H; destruct H as [H1 H]
         end.
  unfold Typed.mainSettings.
  repeat match goal with
         | F : satisfies CBoolean (get o ?k) = true |- _ =>
             destruct (get o k) as [| | ? | ? | ? | ? | ?];
             try discriminate F; clear F
         end.
  destruct (get o "disablePMC_ChatResponse") as [| | ? | ? | ? | ? | ?];
    try discriminate;
    destruct (get o "stacksize_lega") as [| | ? | ? | ? | ? | ?];
    try discriminate;
    destruct (get o "leaveItemAtLocationModifier") as [| | ? | ? | ? | ? | ?];
    try discriminate;
    destruct (get o "placeBeaconModifier") as [| | ? | ? | ? | ? | ?];
    try discriminate;
    (eexists; split; [reflexivity |]);
    unfold Typed.inRanges, Typed.nonNegative; cbn [Typed.percentOrSwitch
      disablePMC_ChatResponse stacksize_lega leaveItemAtLocationModifier
      placeBeaconModifier];
    cbn [satisfies isBoolean Number_isInteger Number_isFinite toNum orb] in *;
    repeat match goal with F : _ = true |- _ => rewrite F; clear F end;
    reflexivity.
Qed.

Variable deserialize : string -> string -> Exc value.
Variable rebuild : string -> object -> string -> Log * option string.
Variable writeFileSync : string -> Exc unit.
Variables (configFilename logPrefix : string) (debugEnabled : bool).
Variables (readFileSync : Exc string) (template : string).
Variable allowWriteBack : bool.

(** The object returned has the keys of the defaults when the validator
    keeps them. *)
Lemma loader_keys (defaults : object) (validate : object -> string -> VState) :
  (forall cfg lp, keys cfg = keys defaults ->
                  keys (config (validate cfg lp)) = keys defaults) ->
  keys (returned (loadAndValidateConfigFile deserialize rebuild writeFileSync
                    configFilename logPrefix debugEnabled readFileSync template
                    defaults validate allowWriteBack))
  = keys defaults.
Proof.
  intros Hv. unfold loadAndValidateConfigFile.
  destruct (readAndParse _ _ _ _ _) as [l | v l]; cbn [returned];
    [reflexivity |].
  apply Hv, mergeWithDefaults_keys.
Qed.

(** The object returned is the defaults or a validated object. *)
Lemma loader_returned (defaults : object) (validate : object -> string -> VState) :
  let r := loadAndValidateConfigFile deserialize rebuild writeFileSync
             configFilename logPrefix debugEnabled readFileSync template
             defaults validate allowWriteBack in
  returned r = defaults
  \/ exists cfg, returned r = config (validate cfg logPrefix).
Proof.
  cbv zeta. unfold loadAndValidateConfigFile.
  destruct (readAndParse _ _ _ _ _) as [l | v l]; cbn [returned].
  - now left.
  - right. eexists. reflexivity.
Qed.

(** X5.  Whatever the file holds and whatever the host's parser, file
    system and rewriter do, [loadAndValidateConfigFile] with the main
    defaults and [validateMainConfig] returns an object that has exactly
    the keys of the defaults, in their order, every one of them meeting
    its constraint; so the object has the type the consumers read it at,
    with the numeric settings in their ranges. *)
Theorem loader_returns_valid_main_settings :
  let r := loadAndValidateConfigFile deserialize rebuild writeFileSync
             configFilename logPrefix debugEnabled readFileSync template
             defaultMainConfigValues validateMainConfig allowWriteBack in
  keys (returned r) = keys defaultMainConfigValues
  /\ forallb (fun kc => satisfies (snd kc) (get (returned r) (fst kc)))
             mainChecks = true
  /\ exists s, Typed.mainSettings (returned r) = Some s
               /\ Typed.inRanges s = true.
Proof.
  intros r.
  assert (Hvalid : forallb (fun kc => satisfies (snd kc)
                                        (get (returned r) (fst kc)))
                           mainChecks = true).
  { destruct (loader_returned defaultMainConfigValues validateMainConfig)
      as [E | [cfg E]]; fold r in E; rewrite E.
    - apply main_defaults_valid.
    - apply main_validated. }
  split; [apply loader_keys, validateMainConfig_keys |].
  split; [exact Hvalid | now apply mainSettings_of_valid].
Qed.

(** X6.  In the same way [loadAndValidateConfigFile] with the weather
    defaults and [validateWeatherConfig] always returns an object with
    exactly the keys of the weather defaults, whose scalar fields meet
    their constraints and whose [exclude_seasons] is a list of indices
    from 0 to 6 that leaves a season available. *)
Theorem loader_returns_valid_weather_settings :
  let r := loadAndValidateConfigFile deserialize rebuild writeFileSync
             configFilename logPrefix debugEnabled readFileSync template
             defaultWeatherConfigValues validateWeatherConfig allowWriteBack in
  keys (returned r) = keys defaultWeatherConfigValues
  /\ forallb (scalarOnly (returned r)) weatherChecks = true
  /\ exists kept,
       get (returned r) "exclude_seasons" = Arr kept
       /\ Forall isSeasonIndex kept
       /\ seasonsLeft kept <> [].
Proof.
  intros r.
  split; [apply loader_keys, validateWeatherConfig_keys |].
  destruct (loader_returned defaultWeatherConfigValues validateWeatherConfig)
    as [E | [cfg E]]; fold r in E; rewrite E.
  - split; [reflexivity |]. exists [].
    split; [reflexivity | split; [constructor | discriminate]].
  - split; [apply weather_scalars_validated |].
    destruct (weather_seasons_validated cfg logPrefix) as [l Hl].
    exists (keptSeasons l).
    split; [exact Hl |].
    split; [apply accepted_are_season_indices, keptSeasons_valid |
            apply keptSeasons_leave_one].
Qed.

End LoaderInvariants.

(** ** When the file is rewritten *)

Section WriteBackFacts.
Import Js Validation Loader.

Lemma writeBack_written
      (rebuild : string -> object -> string -> Log * option string)
      (writeFileSync : string -> Exc unit)
      (configFilename logPrefix : string) (debugEnabled allow needs : bool)
      (template : string) (merged : object) (text : string) :
  fst (writeBack rebuild writeFileSync configFilename logPrefix debugEnabled
                 allow needs template merged) = Some text ->
  allow = true /\ needs = true
  /\ snd (rebuild template merged logPrefix) = Some text
  /\ text <> "" /\ writeFileSync text = Return tt.
Proof.
  unfold writeBack.
  destruct (allow && needs) eqn:E.
  - apply andb_true_iff in E. destruct E as [-> ->].
    destruct (rebuild template merged logPrefix) as [lr [updated |]];
      cbn [snd]; [| discriminate].
    destruct (String.eqb_spec updated "") as [-> | Hne]; [discriminate |].
    destruct (writeFileSync updated) as [[] |] eqn:W; cbn [fst];
      [| discriminate].
    intros H. injection H as <-. tauto.
  - destruct (allow && negb needs && debugEnabled); discriminate.
Qed.

Lemma missingKeys_nonempty (defaultKeys : list string) (v : value) :
  negb (Nat.eqb (List.length (missingKeys defaultKeys v)) 0) = true
  <-> exists k, In k defaultKeys /\ hasOwnProperty v k = false.
Proof.
  unfold missingKeys.
  set (missing := filter _ defaultKeys).
  assert (Hm : forall k, In k missing
                         <-> In k defaultKeys /\ hasOwnProperty v k = false).
  { intros k. unfold missing. rewrite filter_In. now rewrite negb_true_iff. }
  split.
  - intros H. destruct missing as [| k rest]; [discriminate |].
    exists k. apply Hm. now left.
  - intros [k Hk]. apply Hm in Hk.
    destruct missing; [destruct Hk | reflexivity].
Qed.

(** The value the merge gives a key of the defaults, for a parsed
    object. *)
Lemma merge_value (configFilename logPrefix : string) (debugEnabled : bool)
      (defaults o : object) (k : string) :
  In k (keys defaults) ->
  get (fst (fst (mergeWithDefaults configFilename logPrefix debugEnabled
                                   defaults (Obj o)))) k
  = if hasOwn o k then get o k else get defaults k.
Proof.
  intros Hk. unfold mergeWithDefaults. cbn [truthy fst snd].
  rewrite mergeKnownKeys_fold, merge_get.
  - apply includes_In in Hk. rewrite Hk, andb_true_r. cbn [fst].
    unfold Json.clone.
    destruct (hasOwn o k) eqn:E.
    + apply hasOwn_In, includes_In in E. now rewrite E.
    + destruct (includes (keys o) k) eqn:I; [| reflexivity].
      apply includes_In, hasOwn_In in I. congruence.
  - intros x Hx. now apply hasOwn_In.
Qed.

Variable deserialize : string -> string -> Exc value.
Variable rebuild : string -> object -> string -> Log * option string.
Variable writeFileSync : string -> Exc unit.
Variables (configFilename logPrefix : string) (debugEnabled : bool).
Variables (readFileSync : Exc string) (template : string).
Variable defaults : object.
Variable validate : object -> string -> VState.
Variable allowWriteBack : bool.

Let r : LoadResult :=
  loadAndValidateConfigFile deserialize rebuild writeFileSync configFilename
    logPrefix debugEnabled readFileSync template defaults validate
    allowWriteBack.

Lemma loader_written (text : string) :
  written r = Some text ->
  allowWriteBack = true /\ fileNeedsUpdate r = true
  /\ snd (rebuild template (returned r) logPrefix) = Some text
  /\ text <> "" /\ writeFileSync text = Return tt.
Proof.
  unfold r, loadAndValidateConfigFile.
  destruct (readAndParse _ _ _ _ _) as [l | v l];
    cbn [written fileNeedsUpdate returned]; [discriminate |].
  apply writeBack_written.
Qed.

Lemma loader_needs_update (loaded : value) (l : Log) :
  readAndParse deserialize configFilename logPrefix debugEnabled readFileSync
  = Loaded loaded l ->
  fileNeedsUpdate r
  = (if truthy loaded
     then negb (Nat.eqb (List.length (missingKeys (keys defaults) loaded)) 0)
     else true)
    || negb (Nat.eqb (List.length (Loader.resetKeys r)) 0).
Proof.
  intros E. unfold r, loadAndValidateConfigFile. rewrite E.
  cbn [fileNeedsUpdate Loader.resetKeys]. f_equal.
  unfold mergeWithDefaults. now destruct (truthy loaded).
Qed.

(** X7.  [loadAndValidateConfigFile] writes the file only when writing
    back is allowed and an update is needed, and then writes exactly the
    non-empty text the rewriter returned for the object it returns, the
    write having succeeded.  An update is needed exactly when the file
    was parsed and the parsed value is falsy, or lacks a key of the
    defaults, or the validator reset a key; a file that could not be read
    or parsed is never rewritten. *)
Theorem loader_writes_only_when_allowed_and_needed :
  (forall text, written r = Some text ->
     allowWriteBack = true /\ fileNeedsUpdate r = true
     /\ snd (rebuild template (returned r) logPrefix) = Some text
     /\ text <> "" /\ writeFileSync text = Return tt)
  /\ (forall l,
        readAndParse deserialize configFilename logPrefix debugEnabled
                     readFileSync = EarlyDefaults l ->
        fileNeedsUpdate r = false /\ written r = None)
  /\ (forall loaded l,
        readAndParse deserialize configFilename logPrefix debugEnabled
                     readFileSync = Loaded loaded l ->
        (fileNeedsUpdate r = true
         <-> truthy loaded = false
             \/ (exists k, In k (keys defaults)
                           /\ hasOwnProperty loaded k = false)
             \/ Loader.resetKeys r <> [])).
Proof.
  split; [exact loader_written | split].
  - intros l E. unfold r, loadAndValidateConfigFile. rewrite E. now split.
  - intros loaded l E. rewrite (loader_needs_update _ _ E).
    rewrite orb_true_iff.
    assert (Hreset : negb (Nat.eqb (List.length (Loader.resetKeys r)) 0) = true
                     <-> Loader.resetKeys r <> []).
    { destruct (Loader.resetKeys r); simpl; split; congruence. }
    rewrite Hreset.
    destruct (truthy loaded).
    + rewrite missingKeys_nonempty. split.
      * intros [H | H]; tauto.
      * intros [H | [H | H]]; [discriminate | tauto | tauto].
    + split; tauto.
Qed.

End WriteBackFacts.

Section MainLoaderFacts.
Import Js Validation Descriptor Checks ValidatorFacts Loader MainLoader.

Lemma ensureFileExists_cases (file : File) (template : string) (throws : bool) :
  fst (ensureFileExists file template throws) = file
  \/ (file = None /\ fst (ensureFileExists file template throws) = Some template).
Proof. destruct file, throws; simpl; auto. Qed.

Variable deserialize : string -> string -> Exc value.
Variable configFilename : string.

(** The preliminary read allows the write-back only on finding the
    boolean [true] in the parsed file. *)
Lemma preliminaryRead_allows (file : File) :
  allowWriteBack (fst (preliminaryRead deserialize configFilename file)) = true ->
  exists raw o,
    file = Some raw
    /\ Sanitizer.processText raw <> ""
    /\ deserialize (Sanitizer.processText raw) configFilename = Return (Obj o)
    /\ get o "allow_autoupdate_configs" = Bool true.
Proof.
  unfold preliminaryRead.
  change (defaultFlag "allow_autoupdate_configs") with false.
  change (defaultFlag "enableDebugLogs") with false.
  destruct file as [raw |]; [| discriminate].
  cbn [MainLoader.readFileSync bind].
  rewrite stripJsonComments_text. cbn [bind].
  rewrite fixTrailingCommas_text. cbn [bind truthy].
  fold (Sanitizer.processText raw).
  destruct (String.eqb_spec (Sanitizer.processText raw) "") as [E | Hne];
    cbn [negb]; [discriminate |].
  destruct (deserialize (Sanitizer.processText raw) configFilename)
    as [v | e] eqn:D; cbn [bind]; [| discriminate].
  destruct v as [| | b | n | s | l | o]; cbn [flagOf bind fst allowWriteBack];
    try discriminate.
  destruct (get o "allow_autoupdate_configs") as [| | [|] | n | s | l | o']
    eqn:G; cbn [orKeep]; try discriminate.
  intros _. exists raw, o. repeat split; assumption.
Qed.

Variable rebuild : string -> object -> string -> Log * option string.
Variable writeFileSync : string -> Exc unit.
Variables (createMainThrows createWeatherThrows : bool).
Variable modName : string.

(** X8.  [loadMainConfig] leaves the weather file as it is, or creates it
    from its template when it is missing.  The main file it leaves as it
    is, creates from the template when missing, or rewrites; and it
    rewrites only a file whose own text, sanitized and parsed, holds
    [allow_autoupdate_configs: true], in which case the settings returned
    have [allow_autoupdate_configs] true as well.  A file that does not
    ask for it is never rewritten, whatever else it holds. *)
Theorem loadMainConfig_rewrites_only_on_request (before : Disk) :
  let out := loadMainConfig deserialize rebuild writeFileSync createMainThrows
               createWeatherThrows configFilename modName before in
  (weatherFile (disk out) = weatherFile before
   \/ (weatherFile before = None
       /\ weatherFile (disk out) = Some Headers.DEFAULT_WEATHER_CONFIG_JSONC))
  /\ (written (settings out) = None ->
      mainFile (disk out) = mainFile before
      \/ (mainFile before = None
          /\ mainFile (disk out) = Some Headers.DEFAULT_MAIN_CONFIG_JSONC))
  /\ (forall text, written (settings out) = Some text ->
      mainFile (disk out) = Some text
      /\ (exists raw o,
             (mainFile before = Some raw
              \/ (mainFile before = None
                  /\ raw = Headers.DEFAULT_MAIN_CONFIG_JSONC))
             /\ deserialize (Sanitizer.processText raw) configFilename
                = Return (Obj o)
             /\ get o "allow_autoupdate_configs" = Bool true)
      /\ get (returned (settings out)) "allow_autoupdate_configs" = Bool true).
Proof.
  intros out. unfold out, loadMainConfig. cbn [disk settings weatherFile mainFile].
  set (main1 := fst (ensureFileExists (mainFile before) _ createMainThrows)).
  set (pre := preliminaryRead deserialize configFilename main1).
  set (lp := "[" ++ modName ++ "]").
  set (r := loadAndValidateConfigFile _ _ _ _ _ _ _ _ _ _ _).
  split; [apply ensureFileExists_cases | split].
  - intros ->. apply ensureFileExists_cases.
  - intros text W. rewrite W. split; [reflexivity |].
    destruct (loader_written _ _ _ _ _ _ _ _ _ _ _ _ W) as [Hallow _].
    destruct (preliminaryRead_allows _ Hallow) as [raw [o [Hf [Hne [Hd Hg]]]]].
    split.
    + exists raw, o. split; [| tauto].
      destruct (ensureFileExists_cases (mainFile before)
                  Headers.DEFAULT_MAIN_CONFIG_JSONC createMainThrows)
        as [E | [E1 E2]]; fold main1 in E || fold main1 in E2.
      * left. congruence.
      * right. split; [exact E1 | congruence].
    + assert (Hr : returned r
                   = config (validateMainConfig
                               (fst (fst (mergeWithDefaults configFilename lp
                                            (debugEnabled (fst pre))
                                            defaultMainConfigValues (Obj o))))
                               lp)).
      { unfold r, loadAndValidateConfigFile. rewrite Hf.
        cbn [MainLoader.readFileSync]. rewrite readAndParse_read. cbv zeta.
        destruct (String.eqb_spec (Text.trim (Sanitizer.processText raw)) "")
          as [Eb | _].
        - exfalso. unfold r, loadAndValidateConfigFile in W. rewrite Hf in W.
          cbn [MainLoader.readFileSync] in W.
          rewrite readAndParse_read in W. cbv zeta in W.
          rewrite Eb in W. cbn [String.eqb written] in W. discriminate.
        - rewrite Hd. reflexivity. }
      rewrite Hr.
      destruct (main_spec (fst (fst (mergeWithDefaults configFilename lp
                                       (debugEnabled (fst pre))
                                       defaultMainConfigValues (Obj o)))) lp)
        as [_ Hc].
      cbv zeta in Hc. rewrite Hc.
      cbn [find mainChecks fst snd String.eqb Ascii.eqb Bool.eqb].
      rewrite merge_value by (simpl; tauto).
      assert (Ho : hasOwn o "allow_autoupdate_configs" = true)
        by (apply get_hasOwn; rewrite Hg; discriminate).
      rewrite Ho, Hg. reflexivity.
Qed.

End MainLoaderFacts.

(** ** Numbers *)

Section NumberFacts.
Import Js.

Lemma isInteger_ofZ (z : Z) : isIntegerNumber (ofZ z) = true.
Proof. unfold ofZ, isIntegerNumber, isIntegerQ. simpl. now rewrite Z.mod_1_r. Qed.

Lemma Qle_bool_inject (a b : Z) : Qle_bool (inject_Z a) (inject_Z b) = (a <=? b).
Proof. unfold Qle_bool. simpl. now rewrite !Z.mul_1_r. Qed.

Lemma Qeq_bool_inject (a b : Z) : Qeq_bool (inject_Z a) (inject_Z b) = (a =? b).
Proof. unfold Qeq_bool. simpl. now rewrite !Z.mul_1_r. Qed.

Lemma ltb_ofZ (a b : Z) : ltb (ofZ a) (ofZ b) = (a <? b).
Proof. unfold ltb, ofZ. rewrite Qle_bool_inject. symmetry. apply Z.ltb_antisym. Qed.

Lemma eqb_ofZ (a b : Z) : eqb (ofZ a) (ofZ b) = (a =? b).
Proof. apply Qeq_bool_inject. Qed.

Lemma inRange_ofZ (lo hi z : Z) :
  Descriptor.inRange lo hi (ofZ z) = (lo <=? z) && (z <=? hi).
Proof.
  unfold Descriptor.inRange, gtb. rewrite !ltb_ofZ, !Z.ltb_antisym.
  now rewrite !negb_involutive.
Qed.

Lemma inRange_finite (lo hi : Z) (q : Q) :
  Descriptor.inRange lo hi (Finite q) = true
  <-> (inject_Z lo <= q)%Q /\ (q <= inject_Z hi)%Q.
Proof.
  unfold Descriptor.inRange, gtb, ltb, ofZ.
  rewrite andb_true_iff, !negb_involutive, !Qle_bool_iff. tauto.
Qed.

(** [Math.floor] keeps a number between two integers between them. *)
Lemma floor_inRange (lo hi : Z) (q : Q) :
  Descriptor.inRange lo hi (Finite q) = true ->
  lo <= Qfloor q <= hi.
Proof.
  intros H. apply inRange_finite in H. destruct H as [Hlo Hhi].
  apply Qfloor_resp_le in Hlo, Hhi. now rewrite Qfloor_Z in Hlo, Hhi.
Qed.

(** [Math.floor] of an integer is that integer. *)
Lemma floor_integer (q : Q) :
  isIntegerQ q = true -> Qeq_bool (inject_Z (Qfloor q)) q = true.
Proof.
  unfold isIntegerQ. intros H. apply Z.eqb_eq in H.
  apply Qeq_bool_iff. unfold Qeq, Qfloor. destruct q as [n d]. simpl in *.
  rewrite Z.mul_1_r. rewrite Z.mul_comm. symmetry.
  apply Z_div_exact_full_2; [lia | exact H].
Qed.

(** The Number value for a rational is a number. *)
Lemma toDouble_cases (q : Q) :
  (exists d, toDouble q = Finite d) \/ (exists s, toDouble q = Infinity s).
Proof.
  unfold toDouble. cbv zeta.
  destruct (Qnum (Qred q)) as [| n | n]; [left; now eexists | |];
    unfold nearestDouble; cbv zeta;
    destruct (1024 <=? _); try (right; now eexists);
    destruct (scaledBy _ _ _) as [n' d'];
    destruct (_ && _); try (right; now eexists); left; now eexists.
Qed.

Lemma toDouble_comp (q q' : Q) : (q == q')%Q -> toDouble q = toDouble q'.
Proof. intros E. unfold toDouble. now rewrite (Qred_complete _ _ E). Qed.

Lemma toDouble_zero (q : Q) : (q == 0)%Q -> toDouble q = ofZ 0.
Proof. intros E. now rewrite (toDouble_comp _ _ E). Qed.

Lemma Qred_inject (z : Z) : Qred (inject_Z z) = inject_Z z.
Proof.
  unfold Qred, inject_Z.
  destruct (Z.ggcd z 1) as [g [a b]] eqn:G.
  pose proof (Z.ggcd_correct_divisors z 1) as D.
  pose proof (Z.ggcd_gcd z 1) as GG.
  rewrite G in D, GG. simpl in D, GG. destruct D as [D1 D2].
  rewrite Z.gcd_1_r in GG. subst g.
  rewrite !Z.mul_1_l in D1, D2. subst a b. reflexivity.
Qed.

Lemma nearestEven_multiple (m : Z) (d : positive) :
  nearestEven (m * Zpos d) d = m.
Proof.
  unfold nearestEven. rewrite Z.div_mul, Z.mod_mul by discriminate.
  cbv zeta. simpl. reflexivity.
Qed.

Lemma nearestEven_one (m : Z) : nearestEven m 1 = m.
Proof.
  pose proof (nearestEven_multiple m 1) as H. now rewrite Z.mul_1_r in H.
Qed.

(** A positive integer of at most 53 bits is a double. *)
Lemma nearestDouble_integer (negative : bool) (n : positive) :
  Zpos n <= 2 ^ 53 ->
  nearestDouble negative n 1
  = ofZ (if negative then Zneg n else Zpos n).
Proof.
  intros Hn. unfold nearestDouble.
  assert (He : binaryExponent n 1 = Z.log2 (Zpos n)).
  { unfold binaryExponent. change (Z.log2 1) with 0. rewrite Z.sub_0_r.
    cbv zeta. unfold scaledBy.
    pose proof (Z.log2_nonneg (Zpos n)) as H0.
    destruct (Z.leb_spec 0 (Z.log2 (Zpos n))); [| lia].
    pose proof (Z.log2_spec (Zpos n) ltac:(lia)) as [Hlo _].
    assert (Hp : 0 < 2 ^ Z.log2 (Zpos n)) by (apply Z.pow_pos_nonneg; lia).
    rewrite Pos2Z.inj_mul, Z2Pos.id by lia. rewrite Z.mul_1_l.
    destruct (Z.ltb_spec (Zpos n) (2 ^ Z.log2 (Zpos n))); [lia | reflexivity]. }
  rewrite He. cbv zeta.
  set (e := Z.log2 (Zpos n)).
  assert (He0 : 0 <= e) by apply Z.log2_nonneg.
  assert (He53 : e <= 53).
  { unfold e. pose proof (Z.log2_le_mono _ _ Hn) as H.
    rewrite Z.log2_pow2 in H by lia. exact H. }
  destruct (Z.leb_spec 1024 e); [lia |].
  rewrite Z.max_l by lia.
  destruct (Z.eq_dec e 53) as [E53 | Hlt].
  - assert (En : Zpos n = 2 ^ 53).
    { pose proof (Z.log2_spec (Zpos n) ltac:(lia)) as [Hlo _].
      fold e in Hlo. rewrite E53 in Hlo. lia. }
    rewrite E53. injection En as ->. destruct negative; vm_compute; reflexivity.
  - assert (Hk : 0 <= 52 - e) by lia.
    unfold scaledBy.
    destruct (Z.leb_spec 0 (e - 52)) as [Hq | Hq].
    + assert (E52 : e = 52) by lia. rewrite E52.
      change (52 - 52) with 0. change (2 ^ 0) with 1.
      change (Z.to_pos 1) with 1%positive.
      rewrite Pos.mul_1_r.
      rewrite nearestEven_one.
      change ((0 =? 971) && (Zpos n =? 2 ^ 53)) with false. cbv iota.
      rewrite Z.mul_1_r, Qred_inject. unfold ofZ.
      destruct negative; reflexivity.
    + replace (- (e - 52)) with (52 - e) by lia.
      rewrite nearestEven_one.
      destruct (e - 52 =? 971) eqn:E971; [apply Z.eqb_eq in E971; lia |].
      cbn [andb].
      assert (Hp : 0 < 2 ^ (52 - e)) by (apply Z.pow_pos_nonneg; lia).
      unfold ofZ. f_equal.
      destruct negative.
      * rewrite <- (Qred_inject (Zneg n)). apply Qred_complete.
        unfold Qeq, inject_Z. cbn [Qnum Qden].
        rewrite Z2Pos.id by lia. lia.
      * rewrite <- (Qred_inject (Zpos n)). apply Qred_complete.
        unfold Qeq, inject_Z. cbn [Qnum Qden].
        rewrite Z2Pos.id by lia. lia.
Qed.

(** The integers up to [2 ^ 53] in size are doubles. *)
Lemma toDouble_integer (z : Z) :
  Z.abs z <= 2 ^ 53 -> toDouble (inject_Z z) = ofZ z.
Proof.
  intros Hz. unfold toDouble. cbv zeta. rewrite Qred_inject.
  unfold inject_Z at 1. cbn [Qnum Qden].
  destruct z as [| n | n]; [reflexivity | |].
  - apply (nearestDouble_integer false). simpl in Hz. exact Hz.
  - apply (nearestDouble_integer true). simpl in Hz. exact Hz.
Qed.

(** The rounding at work: 0.7 and 0.1 + 0.2 as doubles, a product that
    is not a double, ties going to the even significand, the subnormal
    grid, and the overflow. *)
Lemma toDouble_examples :
  toDouble (7 # 10) = Finite (3152519739159347 # Z.to_pos (2 ^ 52))
  /\ mul (ofZ 45) (toDouble (7 # 10))
     = Finite (8866461766385663 # Z.to_pos (2 ^ 48))
  /\ add (toDouble (1 # 10)) (toDouble (2 # 10))
     = Finite (1351079888211149 # Z.to_pos (2 ^ 52))
  /\ toDouble (inject_Z (2 ^ 53 + 1)) = ofZ (2 ^ 53)
  /\ toDouble (inject_Z (2 ^ 53 + 3)) = ofZ (2 ^ 53 + 4)
  /\ toDouble (1 # Z.to_pos (2 ^ 1075)) = ofZ 0
  /\ toDouble (3 # Z.to_pos (2 ^ 1075)) = Finite (1 # Z.to_pos (2 ^ 1073))
  /\ mul (Finite (3 # 4)) (Finite (1 # Z.to_pos (2 ^ 1074)))
     = Finite (1 # Z.to_pos (2 ^ 1074))
  /\ toDouble (inject_Z (2 ^ 1024 - 2 ^ 971)) = ofZ (2 ^ 1024 - 2 ^ 971)
  /\ toDouble (inject_Z (2 ^ 1024 - 2 ^ 970 - 1)) = ofZ (2 ^ 1024 - 2 ^ 971)
  /\ toDouble (inject_Z (2 ^ 1024 - 2 ^ 970)) = Infinity false
  /\ mul (ofZ 30) (toDouble (inject_Z (10 ^ 308))) = Infinity false
  /\ mul (ofZ (-30)) (toDouble (inject_Z (10 ^ 308))) = Infinity true.
Proof. repeat split; vm_compute; reflexivity. Qed.

Lemma ltb_finite (x y : Q) : ltb (Finite x) (Finite y) = true <-> (x < y)%Q.
Proof.
  unfold ltb. rewrite negb_true_iff. split.
  - intros H. apply Qnot_le_lt. intros Hle. apply Qle_bool_iff in Hle. congruence.
  - intros H. destruct (Qle_bool y x) eqn:E; [| reflexivity].
    apply Qle_bool_iff in E. exfalso. now apply (Qlt_not_le _ _ H).
Qed.

Lemma ltb_finite_false (x y : Q) :
  ltb (Finite x) (Finite y) = false <-> (y <= x)%Q.
Proof.
  unfold ltb. rewrite negb_false_iff. apply Qle_bool_iff.
Qed.

End NumberFacts.

(** ** The other methods of the core module *)

Section CoreTweaksFacts.
Import Js CoreTweaks.

Lemma lookup_update_same (items : ItemTable) (id : string) (item : TemplateItem) :
  lookup items id <> None -> lookup (update items id item) id = Some item.
Proof.
  induction items as [| [k old] items IH]; simpl; [congruence |].
  destruct (String.eqb k id) eqn:E; simpl; rewrite E; auto.
Qed.

Lemma lookup_update_other (items : ItemTable) (id id' : string)
      (item : TemplateItem) :
  id <> id' -> lookup (update items id item) id' = lookup items id'.
Proof.
  intros Hne. induction items as [| [k old] items IH]; simpl; [reflexivity |].
  destruct (String.eqb_spec k id) as [-> | Hk]; simpl.
  - destruct (String.eqb_spec id id'); [contradiction | reflexivity].
  - now rewrite IH.
Qed.

Lemma keys_update (items : ItemTable) (id : string) (item : TemplateItem) :
  map fst (update items id item) = map fst items.
Proof.
  induction items as [| [k old] items IH]; simpl; [reflexivity |].
  destruct (String.eqb k id); simpl; congruence.
Qed.

Lemma update_same (items : ItemTable) (id : string) (item : TemplateItem) :
  lookup items id = Some item -> update items id item = items.
Proof.
  induction items as [| [k old] items IH]; simpl; [reflexivity |].
  destruct (String.eqb k id); intros H.
  - now injection H as ->.
  - now rewrite IH.
Qed.

Lemma update_update (items : ItemTable) (id : string) (a b : TemplateItem) :
  update (update items id a) id b = update items id b.
Proof.
  induction items as [| [k old] items IH]; simpl; [reflexivity |].
  destruct (String.eqb k id) eqn:E; simpl; rewrite E; congruence.
Qed.

(** The value [applyItemStackSize] clamps to, for the limits of the Lega
    medal. *)
Lemma legaStack_cases (configured : number) :
  let final := finalStackSize configured LEGA_DEFAULT_STACK LEGA_MIN_STACK
                              LEGA_MAX_STACK in
  (isNaN configured = true /\ final = NaN)
  \/ (ltb configured (ofZ 1) = true /\ final = ofZ 50)
  \/ (gtb configured (ofZ 999) = true /\ final = ofZ 999)
  \/ (exists q, configured = Finite q
                /\ Descriptor.inRange 1 999 configured = true
                /\ final = ofZ (Qfloor q)).
Proof.
  cbv zeta. unfold finalStackSize, LEGA_DEFAULT_STACK, LEGA_MIN_STACK,
    LEGA_MAX_STACK.
  destruct configured as [| [|] | q].
  - left. split; reflexivity.
  - right. left. split; reflexivity.
  - right. right. left. split; reflexivity.
  - destruct (ltb (Finite q) (ofZ 1)) eqn:L.
    + right. left. split; reflexivity.
    + destruct (gtb (Finite q) (ofZ 999)) eqn:G.
      * right. right. left. split; reflexivity.
      * right. right. right. exists q. unfold Descriptor.inRange.
        rewrite L, G. repeat split.
Qed.

(** X9.  The stack size [applyItemStackSize] writes for the Lega medal:
    whatever number is configured, short of NaN, it is an integer from 1
    to 999; it is the configured value when that is such an integer; a
    value below 1 gives the default 50, not 1, and a value above 999
    gives 999.  The call changes no other template and nothing of the
    medal but its [StackMaxSize], and does nothing when the template or
    its [_props] is missing. *)
Theorem stack_size_written_is_clamped (items : ItemTable) (configured : number) :
  let final := finalStackSize configured LEGA_DEFAULT_STACK LEGA_MIN_STACK
                              LEGA_MAX_STACK in
  let out := applyItemStackSize items LEGA_MEDAL_ID configured
               LEGA_DEFAULT_STACK LEGA_MIN_STACK LEGA_MAX_STACK in
  (isNaN configured = false ->
   isIntegerNumber final = true /\ Descriptor.inRange 1 999 final = true)
  /\ (isIntegerNumber configured = true ->
      Descriptor.inRange 1 999 configured = true ->
      eqb final configured = true)
  /\ (ltb configured (ofZ 1) = true -> final = ofZ 50)
  /\ (gtb configured (ofZ 999) = true -> final = ofZ 999)
  /\ map fst (fst out) = map fst items
  /\ (forall id, id <> LEGA_MEDAL_ID -> lookup (fst out) id = lookup items id)
  /\ (forall props,
        lookup items LEGA_MEDAL_ID = Some (mkItem (Some props)) ->
        exists n,
          lookup (fst out) LEGA_MEDAL_ID
          = Some (mkItem (Some (mkProps (Some n) (Grids props))))
          /\ (n = final \/ eqb n final = true))
  /\ (snd out = PropsMissing -> fst out = items).
Proof.
  intros final out.
  pose proof (legaStack_cases configured) as Hcases. cbv zeta in Hcases.
  fold final in Hcases.
  split; [| split; [| split; [| split; [| split; [| split; [| split]]]]]].
  - intros Hnan.
    destruct Hcases as [[H _] | [[_ ->] | [[_ ->] | [q [-> [Hr ->]]]]]];
      [congruence | split; reflexivity | split; reflexivity |].
    split; [apply isInteger_ofZ |].
    rewrite inRange_ofZ. apply floor_inRange in Hr.
    apply andb_true_iff. split; apply Z.leb_le; lia.
  - intros Hint Hr.
    destruct Hcases as [[H _] | [[H _] | [[H _] | [q [-> [_ ->]]]]]].
    + destruct configured; discriminate.
    + unfold Descriptor.inRange in Hr. now rewrite H in Hr.
    + unfold Descriptor.inRange in Hr. rewrite H in Hr.
      now rewrite andb_false_r in Hr.
    + now apply floor_integer.
  - intros L.
    destruct Hcases as [[H _] | [[_ E] | [[H _] | [q [-> [Hr _]]]]]];
      [destruct configured; discriminate | exact E | |].
    + unfold final, finalStackSize, LEGA_MIN_STACK. now rewrite L.
    + unfold Descriptor.inRange in Hr. now rewrite L in Hr.
  - intros G.
    destruct Hcases as [[H _] | [[H E] | [[_ E] | [q [-> [Hr _]]]]]];
      [destruct configured; discriminate | | exact E |].
    + exfalso. destruct configured as [| [|] | q]; try discriminate.
      unfold gtb, ofZ in *. apply ltb_finite in H. apply ltb_finite in G.
      assert (H0 : (inject_Z 1 <= inject_Z 999)%Q) by (rewrite <- Zle_Qle; lia).
      apply (Qlt_irrefl q). eapply Qlt_le_trans; [exact H |].
      eapply Qle_trans; [exact H0 |]. now apply Qlt_le_weak.
    + unfold Descriptor.inRange in Hr. rewrite G in Hr.
      now rewrite andb_false_r in Hr.
  - unfold out, applyItemStackSize.
    destruct (lookup items LEGA_MEDAL_ID) as [[[props |]] |]; try reflexivity.
    destruct (differs _ _); cbn [fst]; [apply keys_update | reflexivity].
  - intros id Hne. unfold out, applyItemStackSize.
    destruct (lookup items LEGA_MEDAL_ID) as [[[props |]] |]; try reflexivity.
    destruct (differs _ _); cbn [fst]; [| reflexivity].
    apply lookup_update_other. congruence.
  - intros props Hl. unfold out, applyItemStackSize. rewrite Hl.
    fold final.
    destruct (differs (StackMaxSize props) final) eqn:D; cbn [fst].
    + exists final. split; [| now left].
      apply lookup_update_same. congruence.
    + unfold differs in D. destruct props as [[n |] grids]; [| discriminate].
      exists n. split; [exact Hl |]. right. now apply negb_false_iff.
  - unfold out, applyItemStackSize.
    destruct (lookup items LEGA_MEDAL_ID) as [[[props |]] |]; try reflexivity.
    destruct (differs _ _); cbn [snd]; [discriminate | reflexivity].
Qed.

End CoreTweaksFacts.

Section ContainerFacts.
Import Js CoreTweaks.

Lemma filterArray_pushed (c : TemplateItem) (array : list string) (id : string) :
  filterArray c = Some array ->
  filterArray (pushed c id) = Some (array ++ [id])%list.
Proof.
  unfold filterArray, pushed.
  destruct c as [[props |]]; cbn [_props]; [| discriminate].
  destruct (Grids props) as [[| [[gp |]] grids] |]; cbn [gridProps];
    try discriminate.
  destruct (filters gp) as [[| [entry] entries] |]; try discriminate.
  cbn [Filter]. intros ->. reflexivity.
Qed.

(** The push leaves the stack size, the other grids and the other
    filters as they were. *)
Lemma rest_pushed (c : TemplateItem) (id : string) :
  stackOf (pushed c id) = stackOf c
  /\ otherGrids (pushed c id) = otherGrids c
  /\ otherFilters (pushed c id) = otherFilters c.
Proof.
  unfold pushed, stackOf, otherGrids, otherFilters.
  destruct c as [[props |]]; cbn [_props]; [| repeat split].
  destruct (Grids props) as [[| [[gp |]] grids] |] eqn:G;
    cbn [gridProps _props]; rewrite ?G; try (repeat split; reflexivity).
  destruct (filters gp) as [[| [[array |]] entries] |] eqn:F;
    cbn [Filter _props StackMaxSize Grids gridProps filters option_map tl];
    rewrite ?G; cbn [gridProps]; rewrite ?F; repeat split; reflexivity.
Qed.

Lemma includes_app_r (l : list string) (k : string) :
  includes (l ++ [k]) k = true.
Proof. apply includes_In, in_or_app. right. now left. Qed.

(** X10.  [allowItemInContainer] changes nothing unless both templates
    exist and the container has a filter array; then the item id is in
    that array afterwards, appended at the end when it was not there and
    never added twice, the array's other entries, the container's stack
    size, its other grids and filters and every other template being left
    as they were.  A second call changes nothing. *)
Theorem allowItemInContainer_adds_once
        (items : ItemTable) (containerId itemIdToAdd : string) :
  let out := allowItemInContainer items containerId itemIdToAdd in
  map fst (fst out) = map fst items
  /\ (forall id, id <> containerId -> lookup (fst out) id = lookup items id)
  /\ (forall c array,
        lookup items containerId = Some c ->
        lookup items itemIdToAdd <> None ->
        filterArray c = Some array ->
        exists c',
          lookup (fst out) containerId = Some c'
          /\ filterArray c'
             = Some (if includes array itemIdToAdd then array
                     else (array ++ [itemIdToAdd])%list)
          /\ (NoDup array ->
              NoDup (if includes array itemIdToAdd then array
                     else (array ++ [itemIdToAdd])%list))
          /\ stackOf c' = stackOf c
          /\ otherGrids c' = otherGrids c
          /\ otherFilters c' = otherFilters c)
  /\ (snd out <> NowAllowed -> fst out = items)
  /\ (snd out = NowAllowed \/ snd out = AlreadyAllowed <->
      exists c, lookup items containerId = Some c
                /\ lookup items itemIdToAdd <> None
                /\ filterArray c <> None)
  /\ fst (allowItemInContainer (fst out) containerId itemIdToAdd) = fst out.
Proof.
  intros out. unfold out, allowItemInContainer.
  destruct (lookup items containerId) as [c |] eqn:Lc.
  2:{ cbn [fst snd]. rewrite Lc.
      split; [reflexivity | split; [reflexivity | split; [| split; [| split]]]].
      - intros c0 array H. discriminate.
      - reflexivity.
      - split; [intros [H | H]; discriminate | intros [c [H _]]; discriminate].
      - reflexivity. }
  destruct (lookup items itemIdToAdd) as [i |] eqn:Li.
  2:{ cbn [fst snd]. rewrite Lc, Li.
      split; [reflexivity | split; [reflexivity | split; [| split; [| split]]]].
      - intros c0 array _ H. congruence.
      - reflexivity.
      - split; [intros [H | H]; discriminate | intros [c0 [_ [H _]]]; congruence].
      - reflexivity. }
  destruct (filterArray c) as [array |] eqn:Fa.
  2:{ cbn [fst snd]. rewrite Lc, Li, Fa.
      split; [reflexivity | split; [reflexivity | split; [| split; [| split]]]].
      - intros c0 array H _ H'. congruence.
      - reflexivity.
      - split; [intros [H | H]; discriminate |].
        intros [c0 [H [_ H']]]. congruence.
      - reflexivity. }
  destruct (includes array itemIdToAdd) eqn:Inc; cbn [negb fst snd].
  - rewrite Lc, Li, Fa, Inc. cbn [negb fst].
    split; [reflexivity | split; [reflexivity | split; [| split; [| split]]]].
    + intros c0 array0 H _ H'. exists c.
      assert (c0 = c) by congruence. subst c0.
      assert (array0 = array) by congruence. subst array0.
      rewrite Inc. repeat split; try assumption; tauto.
    + reflexivity.
    + split; [| tauto]. intros _. exists c. repeat split; congruence.
    + reflexivity.
  - assert (Lc' : lookup (update items containerId (pushed c itemIdToAdd))
                         containerId = Some (pushed c itemIdToAdd)).
    { apply lookup_update_same. congruence. }
    assert (Li' : lookup (update items containerId (pushed c itemIdToAdd))
                         itemIdToAdd <> None).
    { destruct (String.eqb_spec containerId itemIdToAdd) as [<- | Hne].
      - congruence.
      - rewrite lookup_update_other by assumption. congruence. }
    split; [apply keys_update |].
    split; [intros id Hne; apply lookup_update_other; congruence |].
    split; [| split; [| split]].
    + intros c0 array0 H _ H'.
      assert (c0 = c) by congruence. subst c0.
      assert (array0 = array) by congruence. subst array0.
      exists (pushed c itemIdToAdd). rewrite Inc.
      split; [exact Lc' | split; [now apply filterArray_pushed |]].
      split; [| apply rest_pushed].
      intros Hnd. apply NoDup_app; [exact Hnd | repeat constructor; tauto |].
      intros x Hx [<- | []]. apply includes_false in Inc. contradiction.
    + congruence.
    + split; [| tauto]. intros _. exists c. repeat split; congruence.
    + rewrite Lc'.
      destruct (lookup (update items containerId (pushed c itemIdToAdd))
                       itemIdToAdd) eqn:L2; [| congruence].
      rewrite (filterArray_pushed _ _ _ Fa), includes_app_r. reflexivity.
Qed.

End ContainerFacts.

Section PmcChatFacts.
Import Js CoreTweaks.

Lemma setChance_result (current target : number) :
  (fst (setChance current target) = target /\ snd (setChance current target) = true
   /\ eqb current target = false)
  \/ (fst (setChance current target) = current
      /\ snd (setChance current target) = false /\ eqb current target = true).
Proof.
  unfold setChance. destruct (eqb current target); cbn; tauto.
Qed.

(** What [applyPmcChatSettings] does, in terms of its own target. *)
Lemma pmc_chat_by_target
      (config : IAdditionalSettingsConfig)
      (server : option PmcChatResponse) :
  let out := applyPmcChatSettings config server in
  let target := targetPercent (disablePMC_ChatResponse config) in
  (disablePMC_ChatResponse config = IsBoolean false -> out = (server, false))
  /\ (forall k v,
        disablePMC_ChatResponse config <> IsBoolean false ->
        server = Some (mkPmcChat (Some (mkChat (Some k)))
                                 (Some (mkChat (Some v)))) ->
        exists k' v',
          fst out = Some (mkPmcChat (Some (mkChat (Some k')))
                                    (Some (mkChat (Some v'))))
          /\ atTarget k' target /\ atTarget v' target
          /\ (snd out = false -> fst out = server))
  /\ ((forall k v, server <> Some (mkPmcChat (Some (mkChat (Some k)))
                                             (Some (mkChat (Some v))))) ->
      out = (server, false))
  /\ (Typed.percentOrSwitch (disablePMC_ChatResponse config) = true ->
      isIntegerNumber target = true /\ Descriptor.inRange 0 100 target = true)
  /\ fst (applyPmcChatSettings config (fst out)) = fst out.
Proof.
  intros out target. unfold out, target, applyPmcChatSettings.
  split; [intros ->; reflexivity |].
  split; [| split; [| split]].
  - intros k v Hs ->.
    destruct (disablePMC_ChatResponse config) as [[|] | n];
      [| congruence |]; cbn [fst snd];
      (eexists; eexists; split; [reflexivity |]);
      match goal with
      | |- context [setChance k ?t] =>
          destruct (setChance_result k t) as [[-> [-> Ek]] | [-> [-> Ek]]];
          destruct (setChance_result v t) as [[-> [-> Ev]] | [-> [-> Ev]]]
      end; unfold atTarget; cbn [orb]; repeat split; try tauto; discriminate.
  - intros H.
    destruct (disablePMC_ChatResponse config) as [[|] | n]; try reflexivity;
      destruct server as [[[[[k |]] |] [[[v |]] |]] |]; try reflexivity;
      exfalso; apply (H k v); reflexivity.
  - destruct (disablePMC_ChatResponse config) as [[|] | n];
      cbn [Typed.percentOrSwitch targetPercent]; try (intros _; split; reflexivity).
    intros H. apply andb_true_iff in H. destruct H as [Hi Hr]. split; [exact Hi |].
    unfold Descriptor.inRange in *. apply andb_true_iff in Hr.
    destruct Hr as [Hlo Hhi]. rewrite Hhi, andb_true_r.
    apply negb_true_iff. apply negb_true_iff in Hlo.
    destruct n as [| [|] | q]; try reflexivity; try discriminate.
    apply ltb_finite_false. apply ltb_finite_false in Hlo.
    eapply Qle_trans; [| exact Hlo]. unfold ofZ. 
    rewrite <- Zle_Qle. lia.
  - destruct (disablePMC_ChatResponse config) as [[|] | n] eqn:D;
      try reflexivity;
      destruct server as [[[[[k |]] |] [[[v |]] |]] |]; cbn [fst];
      try reflexivity;
      match goal with
      | |- context [setChance k ?t] =>
          destruct (setChance_result k t) as [[-> [_ Ek]] | [-> [_ Ek]]];
          destruct (setChance_result v t) as [[-> [_ Ev]] | [-> [_ Ev]]]
      end;
      repeat match goal with
             | |- context [setChance ?a ?t] =>
                 let H := fresh in
                 destruct (setChance_result a t) as [[-> [_ H]] | [-> [_ H]]]
             end; try reflexivity; congruence.
Qed.

(** The target of the code is the chance the setting asks for. *)
Lemma chanceAsked_target (setting : BooleanOrNumber) (target : number) :
  chanceAsked setting target ->
  setting <> IsBoolean false /\ targetPercent setting = target.
Proof.
  intros [[-> ->] | ->]; split; try discriminate; reflexivity.
Qed.

(** X11.  [applyPmcChatSettings] does nothing when the setting is [false]
    or when the host configuration lacks [killer], [victim] or one of
    their [responseChancePercent]; otherwise both chances end at the
    chance asked for, 0 for [true] and the number itself for a number
    (a chance that already equals it is left as it is), and for settings
    within their ranges that chance is an integer from 0 to 100.  A
    second call leaves the configuration as the first left it. *)
Theorem applyPmcChatSettings_sets_both_chances
        (config : IAdditionalSettingsConfig)
        (server : option PmcChatResponse) :
  let out := applyPmcChatSettings config server in
  (disablePMC_ChatResponse config = IsBoolean false -> out = (server, false))
  /\ (forall k v target,
        chanceAsked (disablePMC_ChatResponse config) target ->
        server = Some (mkPmcChat (Some (mkChat (Some k)))
                                 (Some (mkChat (Some v)))) ->
        exists k' v',
          fst out = Some (mkPmcChat (Some (mkChat (Some k')))
                                    (Some (mkChat (Some v'))))
          /\ atTarget k' target /\ atTarget v' target
          /\ (snd out = false -> fst out = server))
  /\ (forall k v,
        disablePMC_ChatResponse config = IsBoolean true ->
        server = Some (mkPmcChat (Some (mkChat (Some k)))
                                 (Some (mkChat (Some v)))) ->
        exists k' v',
          fst out = Some (mkPmcChat (Some (mkChat (Some k')))
                                    (Some (mkChat (Some v'))))
          /\ eqb k' (ofZ 0) = true /\ eqb v' (ofZ 0) = true)
  /\ ((forall k v, server <> Some (mkPmcChat (Some (mkChat (Some k)))
                                             (Some (mkChat (Some v))))) ->
      out = (server, false))
  /\ (forall target,
        chanceAsked (disablePMC_ChatResponse config) target ->
        Typed.percentOrSwitch (disablePMC_ChatResponse config) = true ->
        isIntegerNumber target = true /\ Descriptor.inRange 0 100 target = true)
  /\ fst (applyPmcChatSettings config (fst out)) = fst out.
Proof.
  intros out.
  destruct (pmc_chat_by_target config server) as [H1 [H2 [H3 [H4 H5]]]].
  cbv zeta in H1, H2, H3, H4, H5. fold out in H1, H2, H3, H5.
  split; [exact H1 |].
  split; [| split; [| split; [exact H3 | split; [| exact H5]]]].
  - intros k v target Ha Hs.
    destruct (chanceAsked_target _ _ Ha) as [Hne <-]. exact (H2 k v Hne Hs).
  - intros k v Ht Hs.
    destruct (H2 k v ltac:(rewrite Ht; discriminate) Hs)
      as [k' [v' [E [Hk [Hv _]]]]].
    rewrite Ht in Hk, Hv. cbn [targetPercent] in Hk, Hv.
    exists k', v'. split; [exact E |].
    split; [destruct Hk as [-> | Hk] | destruct Hv as [-> | Hv]];
      try assumption; reflexivity.
  - intros target Ha Hp.
    destruct (chanceAsked_target _ _ Ha) as [_ <-]. now apply H4.
Qed.

End PmcChatFacts.

Section HideoutFacts.
Import CoreTweaks.

Let present {A : Type} (r : option A) : list A :=
  match r with Some x => [x] | None => [] end.

Lemma requirementStep_spec (r : option StageRequirement) :
  present (fst (requirementStep r)) = map withoutFir (present r)
  /\ Nat.b2n (snd (requirementStep r))
     = List.length (filter foundInRaid (present r))
  /\ requirementStep (fst (requirementStep r)) = (fst (requirementStep r), false).
Proof.
  destruct r as [[t [[|] |]] |]; repeat split.
Qed.

Lemma requirements_spec (reqs : list (option StageRequirement)) :
  let stepped := map requirementStep reqs in
  flat_map present (map fst stepped) = map withoutFir (flat_map present reqs)
  /\ List.length (filter snd stepped)
     = List.length (filter foundInRaid (flat_map present reqs))
  /\ map requirementStep (map fst stepped)
     = map (fun r => (r, false)) (map fst stepped).
Proof.
  cbv zeta. induction reqs as [| r reqs [IH1 [IH2 IH3]]]; [repeat split |].
  destruct (requirementStep_spec r) as [H1 [H2 H3]].
  cbn [map flat_map filter].
  rewrite map_app, filter_app, length_app, IH1, <- IH2, H1, <- H2, IH3, H3.
  repeat split.
  destruct (snd (requirementStep r)); reflexivity.
Qed.

Lemma list_sum_cons (a : nat) (l : list nat) :
  list_sum (a :: l) = (a + list_sum l)%nat.
Proof. reflexivity. Qed.

Lemma filter_snd_false {A : Type} (l : list A) :
  filter snd (map (fun r => (r, false)) l) = [].
Proof. induction l; simpl; auto. Qed.

Lemma stageStep_spec (stage : option Stage) :
  requirementsOfStage (fst (stageStep stage))
  = map withoutFir (requirementsOfStage stage)
  /\ snd (stageStep stage)
     = List.length (filter foundInRaid (requirementsOfStage stage))
  /\ stageStep (fst (stageStep stage)) = (fst (stageStep stage), O).
Proof.
  destruct stage as [[[reqs |]] |]; try (repeat split; fail).
  destruct (requirements_spec reqs) as [H1 [H2 H3]]. cbv zeta in H1, H2, H3.
  unfold stageStep, requirementsOfStage. cbn [fst snd].
  fold (@present StageRequirement).
  rewrite H1, H2, H3, map_map. cbn [fst].
  rewrite map_id, filter_snd_false. repeat split.
Qed.

Lemma stages_spec (stageList : list (string * option Stage)) :
  let stepped := map (fun s => (fst s, stageStep (snd s))) stageList in
  let after := map (fun s => (fst s, fst (snd s))) stepped in
  flat_map (fun s => requirementsOfStage (snd s)) after
  = map withoutFir (flat_map (fun s => requirementsOfStage (snd s)) stageList)
  /\ list_sum (map (fun s => snd (snd s)) stepped)
     = List.length (filter foundInRaid
                      (flat_map (fun s => requirementsOfStage (snd s)) stageList))
  /\ map (fun s => (fst s, fst (snd s)))
         (map (fun s => (fst s, stageStep (snd s))) after) = after
  /\ list_sum (map (fun s => snd (snd s))
                   (map (fun s => (fst s, stageStep (snd s))) after)) = O.
Proof.
  cbv zeta.
  induction stageList as [| [id stage] l [IH1 [IH2 [IH3 IH4]]]];
    [repeat split |].
  destruct (stageStep_spec stage) as [H1 [H2 H3]].
  cbn [map flat_map fst snd].
  rewrite !list_sum_cons, map_app, filter_app, length_app, IH1, IH2, IH3, IH4,
    H1, H2, H3.
  repeat split.
Qed.

Lemma areaStep_spec (areaData : option HideoutArea) :
  requirementsOfArea (fst (areaStep areaData))
  = map withoutFir (requirementsOfArea areaData)
  /\ snd (areaStep areaData)
     = List.length (filter foundInRaid (requirementsOfArea areaData))
  /\ areaStep (fst (areaStep areaData)) = (fst (areaStep areaData), O).
Proof.
  destruct areaData as [[[stageList |]] |]; try (repeat split; fail).
  destruct (stages_spec stageList) as [H1 [H2 [H3 H4]]].
  cbv zeta in H1, H2, H3, H4.
  unfold areaStep, requirementsOfArea. cbn [fst snd].
  rewrite H1, H2, H3, H4. repeat split.
Qed.

Lemma areas_spec (hideoutAreas : AreaTable) :
  let stepped := map (fun a => (fst a, areaStep (snd a))) hideoutAreas in
  let after := map (fun a => (fst a, fst (snd a))) stepped in
  requirementsOf after = map withoutFir (requirementsOf hideoutAreas)
  /\ list_sum (map (fun a => snd (snd a)) stepped)
     = List.length (filter foundInRaid (requirementsOf hideoutAreas))
  /\ map (fun a => (fst a, fst (snd a)))
         (map (fun a => (fst a, areaStep (snd a))) after) = after
  /\ list_sum (map (fun a => snd (snd a))
                   (map (fun a => (fst a, areaStep (snd a))) after)) = O
  /\ map fst after = map fst hideoutAreas.
Proof.
  cbv zeta. unfold requirementsOf.
  induction hideoutAreas as [| [id area] l [IH1 [IH2 [IH3 [IH4 IH5]]]]];
    [repeat split |].
  destruct (areaStep_spec area) as [H1 [H2 H3]].
  cbn [map flat_map fst snd].
  rewrite !list_sum_cons, map_app, filter_app, length_app, IH1, IH2, IH3, IH4,
    IH5, H1, H2, H3.
  repeat split.
Qed.

Lemma withoutFir_clear (l : list StageRequirement) :
  forallb (fun r => negb (foundInRaid r)) (map withoutFir l) = true.
Proof.
  induction l as [| [t [[|] |]] l IH]; simpl; auto.
Qed.

(** X12.  With [removeFirForHideout] off, [applyHideoutSettings] changes
    nothing.  With it on, every requirement the loops reach is left with
    its [isSpawnedInSession], when it has one, at [false] (so none asks
    for found-in-raid items any more), a requirement without the property
    does not get it, and nothing else changes; the count reported is the
    number of requirements whose flag was [true]; the area ids are kept;
    and a second call changes nothing and counts nothing. *)
Theorem applyHideoutSettings_removes_every_fir_flag
        (config : IAdditionalSettingsConfig) (hideoutAreas : AreaTable) :
  let out := applyHideoutSettings config hideoutAreas in
  (removeFirForHideout config = false -> out = (hideoutAreas, O))
  /\ (removeFirForHideout config = true ->
      requirementsOf (fst out) = map withoutFir (requirementsOf hideoutAreas)
      /\ forallb (fun r => negb (foundInRaid r)) (requirementsOf (fst out))
         = true
      /\ snd out
         = List.length (filter foundInRaid (requirementsOf hideoutAreas))
      /\ map fst (fst out) = map fst hideoutAreas
      /\ applyHideoutSettings config (fst out) = (fst out, O)).
Proof.
  intros out. unfold out, applyHideoutSettings.
  split; [intros ->; reflexivity |]. intros ->. cbn [negb fst snd].
  destruct (areas_spec hideoutAreas) as [H1 [H2 [H3 [H4 H5]]]].
  cbv zeta in H1, H2, H3, H4, H5.
  rewrite H1, H2, H3, H4, H5.
  repeat split. apply withoutFir_clear.
Qed.

End HideoutFacts.

Section SeasonalFacts.
Import CoreTweaks.

Let present {A : Type} (r : option A) : list A :=
  match r with Some x => [x] | None => [] end.

Lemma eventStep_spec (e : option SeasonalEvent) :
  forallb (fun x => negb (isEnabled x)) (present (fst (eventStep e))) = true
  /\ Nat.b2n (snd (eventStep e)) = List.length (filter isEnabled (present e))
  /\ eventStep (fst (eventStep e)) = (fst (eventStep e), false)
  /\ List.length (present (fst (eventStep e))) = List.length (present e).
Proof. destruct e as [[[[|] |]] |]; repeat split. Qed.

Lemma events_spec (entries : list (option SeasonalEvent)) :
  let stepped := map eventStep entries in
  forallb (fun x => negb (isEnabled x)) (flat_map present (map fst stepped))
  = true
  /\ List.length (filter snd stepped)
     = List.length (filter isEnabled (flat_map present entries))
  /\ map eventStep (map fst stepped) = map (fun e => (e, false)) (map fst stepped)
  /\ List.length (flat_map present (map fst stepped))
     = List.length (flat_map present entries).
Proof.
  cbv zeta. induction entries as [| e l [IH1 [IH2 [IH3 IH4]]]]; [repeat split |].
  destruct (eventStep_spec e) as [H1 [H2 [H3 H4]]].
  cbn [map flat_map filter].
  rewrite forallb_app, filter_app, !length_app, IH1, <- IH2, H1, <- H2, IH3,
    H3, IH4, H4.
  repeat split. destruct (snd (eventStep e)); reflexivity.
Qed.

(** X13.  With [disableSeasonEvents] off, or without a seasonal event
    configuration, [applySeasonalEventSettings] changes nothing.
    Otherwise the detection flag is not [true] afterwards, no listed event
    is left enabled, the number of events is kept, the counts returned are
    those of the flags that were [true], and a second call changes
    nothing. *)
Theorem applySeasonalEventSettings_disables_everything
        (config : IAdditionalSettingsConfig)
        (server : option SeasonalEventConfig) :
  let out := applySeasonalEventSettings config server in
  (disableSeasonEvents config = false -> out = (server, (false, O)))
  /\ (disableSeasonEvents config = true ->
      forall cfg, server = Some cfg ->
        exists cfg',
          fst out = Some cfg'
          /\ enableSeasonalEventDetection cfg' <> Some true
          /\ (enableSeasonalEventDetection cfg <> Some true ->
              enableSeasonalEventDetection cfg'
              = enableSeasonalEventDetection cfg)
          /\ forallb (fun x => negb (isEnabled x)) (eventsOf (fst out)) = true
          /\ List.length (eventsOf (fst out)) = List.length (eventsOf server)
          /\ snd (snd out) = List.length (filter isEnabled (eventsOf server))
          /\ (fst (snd out) = true
              <-> enableSeasonalEventDetection cfg = Some true)
          /\ applySeasonalEventSettings config (fst out)
             = (fst out, (false, O)))
  /\ (server = None -> fst out = None).
Proof.
  intros out. unfold out, applySeasonalEventSettings.
  split; [intros ->; reflexivity |].
  split; [| intros ->; now destruct (disableSeasonEvents config)].
  intros -> [detection [entries |]] ->; cbn [negb].
  - destruct (events_spec entries) as [H1 [H2 [H3 H4]]].
    cbv zeta in H1, H2, H3, H4.
    eexists. split; [reflexivity |]. cbn [fst snd enableSeasonalEventDetection
      events eventsOf].
    fold (@present SeasonalEvent).
    rewrite H1, H2, H3, H4, map_map. cbn [fst].
    rewrite map_id, filter_snd_false.
    destruct detection as [[|] |]; cbn;
      repeat split; try congruence; try discriminate.
  - eexists. split; [reflexivity |].
    cbn [fst snd enableSeasonalEventDetection events eventsOf].
    destruct detection as [[|] |]; cbn;
      repeat split; try congruence; try discriminate.
Qed.

End SeasonalFacts.

(** ** What the item and quest consumers change *)

Section ConsumerPostconditions.
Import Host.

Lemma Forall2_map_step {A B : Type} (R : A -> A -> Prop) (step : A -> A * B)
      (l : list A) :
  (forall a, R a (fst (step a))) -> Forall2 R l (map fst (map step l)).
Proof.
  intros H. induction l as [| a l IH]; simpl; constructor; auto.
Qed.

Lemma Forall2_flat_map {A B C : Type} (R : C -> C -> Prop)
      (f : A -> list C) (g : B -> list C) (l : list A) (l' : list B) :
  Forall2 (fun a b => Forall2 R (f a) (g b)) l l' ->
  Forall2 R (flat_map f l) (flat_map g l').
Proof.
  induction 1; simpl; [constructor |]. now apply Forall2_app.
Qed.

Lemma Forall2_refl {A : Type} (R : A -> A -> Prop) (l : list A) :
  (forall a, R a a) -> Forall2 R l l.
Proof. intros H. induction l; constructor; auto. Qed.

(** The loop body in closed form. *)
Lemma lootabilityStep_eq (config : IAdditionalSettingsConfig)
      (entry : string * TemplateItem) :
  CoreModule.lootabilityStep config entry
  = if lootTarget config entry
    then ((fst entry,
           mkItem (_name (snd entry)) (_parent (snd entry))
                  (Some (mkProps (Some false) (Some []) (weightOf (snd entry))))),
          (Nat.b2n (String.eqb (_parent (snd entry))
                               CoreModule.ARMBAND_PARENT_ID),
           Nat.b2n (String.eqb (_parent (snd entry))
                               CoreModule.MELEE_PARENT_ID)))
    else (entry, (0, 0)%nat).
Proof.
  destruct entry as [itemId [name parent [[unl side w] |]]]; [| reflexivity].
  unfold lootTarget, isUnlootable, weightOf, CoreModule.lootabilityStep,
    CoreModule.makeLootable.
  cbn [fst snd _props _parent _name Unlootable UnlootableFromSide Weight].
  destruct (String.eqb_spec parent "") as [Ep | Ep];
    destruct (String.eqb_spec parent CoreModule.ARMBAND_PARENT_ID) as [Ea | Ea];
    destruct (String.eqb_spec parent CoreModule.MELEE_PARENT_ID) as [Em | Em];
    try (exfalso; subst; discriminate);
    destruct (Js.includes CoreModule.LOOTABILITY_BLACKLIST itemId),
      unl as [[|] |], (LootArmbands config), (LootMelee config);
    reflexivity.
Qed.

Lemma lootabilityStep_spec (config : IAdditionalSettingsConfig)
      (entry : string * TemplateItem) :
  let step := CoreModule.lootabilityStep config entry in
  lootChange config entry (fst step)
  /\ (fst (snd step) + snd (snd step))%nat = Nat.b2n (lootTarget config entry)
  /\ lootTarget config (fst step) = false.
Proof.
  cbv zeta. rewrite lootabilityStep_eq. unfold lootChange.
  destruct (lootTarget config entry) eqn:T; cbn [fst snd].
  - split; [repeat split |]. split; [| reflexivity].
    unfold lootTarget in T. apply andb_true_iff in T. destruct T as [_ T].
    apply orb_true_iff in T.
    destruct T as [T | T]; apply andb_true_iff in T; destruct T as [_ T];
      apply String.eqb_eq in T; rewrite T; reflexivity.
  - repeat split. exact T.
Qed.

Lemma length_filter_b2n {A : Type} (p : A -> bool) (l : list A) :
  List.length (filter p l) = list_sum (map (fun a => Nat.b2n (p a)) l).
Proof.
  induction l as [| a l IH]; simpl; [reflexivity |].
  destruct (p a); simpl; now rewrite IH.
Qed.

Lemma list_sum_pair {A : Type} (f g : A -> nat) (l : list A) :
  (list_sum (map f l) + list_sum (map g l))%nat
  = list_sum (map (fun a => (f a + g a)%nat) l).
Proof.
  induction l as [| a l IH]; simpl; [reflexivity |]. rewrite <- IH. lia.
Qed.

Lemma filter_none {A : Type} (p : A -> bool) (l : list A) :
  (forall a, In a l -> p a = false) -> filter p l = [].
Proof.
  induction l as [| a l IH]; simpl; intros H; [reflexivity |].
  rewrite (H a (or_introl eq_refl)). apply IH. auto.
Qed.

(** X14.  [applyLootabilitySettings] changes exactly its targets: the
    unlootable armbands and melee weapons whose kind is switched on and
    whose id is not blacklisted.  A target keeps its id, name, parent and
    weight and is left lootable with an empty side list; every other
    template, a blacklisted one in particular, is left as it is; the two
    counters add up to the number of targets; and no target is left. *)
Theorem applyLootabilitySettings_changes_exactly_its_targets
        (config : IAdditionalSettingsConfig) (items : ItemTable) :
  let out := CoreModule.applyLootabilitySettings config items in
  Forall2 (lootChange config) items (fst out)
  /\ (fst (snd out) + snd (snd out))%nat
     = List.length (filter (lootTarget config) items)
  /\ (forall entry,
        In entry items ->
        Js.includes CoreModule.LOOTABILITY_BLACKLIST (fst entry) = true ->
        In entry (fst out))
  /\ filter (lootTarget config) (fst out) = [].
Proof.
  intros out. unfold out, CoreModule.applyLootabilitySettings. cbn [fst snd].
  split; [| split; [| split]].
  - apply Forall2_map_step. intros a. apply lootabilityStep_spec.
  - rewrite !map_map, list_sum_pair, length_filter_b2n. f_equal.
    apply map_ext. intros a. apply lootabilityStep_spec.
  - intros entry Hin Hb. rewrite map_map. apply in_map_iff. exists entry.
    split; [| exact Hin].
    destruct (lootabilityStep_spec config entry) as [H _]. cbv zeta in H.
    unfold lootChange, lootTarget in H. rewrite Hb in H.
    rewrite andb_false_r in H. exact H.
  - apply filter_none. intros a Ha. rewrite map_map in Ha.
    apply in_map_iff in Ha. destruct Ha as [entry [<- _]].
    apply lootabilityStep_spec.
Qed.

(** The loop body in closed form. *)
Lemma weightStep_eq (config : IAdditionalSettingsConfig)
      (entry : string * TemplateItem) :
  fst (AmmoModule.weightStep config entry)
  = (if weightTarget config entry
     then (fst entry,
           mkItem (_name (snd entry)) (_parent (snd entry))
                  (Some (mkProps (match _props (snd entry) with
                                  | Some props => Unlootable props
                                  | None => None
                                  end)
                                 (sidesOf (snd entry)) (Some (Js.ofZ 0)))))
     else entry)
  /\ AmmoModule.modified (snd (AmmoModule.weightStep config entry))
     = weightTarget config entry.
Proof.
  destruct entry as [itemId [name parent [[unl side [w |]] |]]];
    try (split; reflexivity).
  unfold weightTarget, sidesOf, weightOf, AmmoModule.weightStep,
    AmmoModule.weightless.
  cbn [fst snd _props _parent _name Unlootable UnlootableFromSide Weight].
  destruct (String.eqb_spec parent "") as [Ep | Ep];
    destruct (String.eqb_spec parent AmmoModule.AMMO_PARENT_ID) as [Ea | Ea];
    destruct (String.eqb_spec parent AmmoModule.AMMOBOX_PARENT_ID) as [Eb | Eb];
    destruct (String.eqb_spec parent AmmoModule.GRENADE_PARENT_ID) as [Eg | Eg];
    try (exfalso; subst; discriminate);
    destruct (Js.eqb w (Js.ofZ 0)), (weightless_ammo config),
      (weightless_ammoboxes config), (weightless_grenades config);
    split; reflexivity.
Qed.

Lemma weightStep_spec (config : IAdditionalSettingsConfig)
      (entry : string * TemplateItem) :
  let step := AmmoModule.weightStep config entry in
  weightChange config entry (fst step)
  /\ AmmoModule.modified (snd step) = weightTarget config entry
  /\ weightTarget config (fst step) = false.
Proof.
  cbv zeta. destruct (weightStep_eq config entry) as [-> ->].
  unfold weightChange.
  destruct (weightTarget config entry) eqn:T; cbn [fst snd];
    [| repeat split; exact T].
  split; [| split; reflexivity]. repeat split.
  unfold isUnlootable. destruct entry as [itemId [name parent [props |]]];
    reflexivity.
Qed.

(** X15.  [applyAmmoWeightChanges] changes exactly its targets: the
    templates with a numeric weight other than zero whose parent is a
    kind (ammunition, ammunition box, grenade) that is switched on.  A
    target keeps everything but its weight, which becomes 0; every other
    template is left as it is; the count returned is the number of
    targets; no target is left; and without an item table nothing
    changes. *)
Theorem applyAmmoWeightChanges_changes_exactly_its_targets
        (config : IAdditionalSettingsConfig) (databaseServer : Tables) :
  let out := AmmoModule.applyAmmoWeightChanges config databaseServer in
  Forall2 (weightChange config) (itemsOf databaseServer) (itemsOf (fst out))
  /\ snd out = List.length (filter (weightTarget config) (itemsOf databaseServer))
  /\ filter (weightTarget config) (itemsOf (fst out)) = []
  /\ conditionsOf (fst out) = conditionsOf databaseServer
  /\ (itemsOf databaseServer = [] -> itemsOf (fst out) = []).
Proof.
  intros out. unfold out, AmmoModule.applyAmmoWeightChanges, itemsOf,
    conditionsOf.
  destruct databaseServer as [[[[items |] quests] |]]; cbn [templates fst snd];
    try (repeat split; constructor).
  split; [| split; [| split; [| split]]].
  - apply Forall2_map_step. intros a. apply weightStep_spec.
  - rewrite !length_filter_b2n, map_map. f_equal. apply map_ext.
    intros a. f_equal. apply weightStep_spec.
  - apply filter_none. intros a Ha. rewrite map_map in Ha.
    apply in_map_iff in Ha. destruct Ha as [entry [<- _]].
    apply weightStep_spec.
  - reflexivity.
  - intros ->. reflexivity.
Qed.

End ConsumerPostconditions.

Section PlantTimeFacts.
Import Js Host PlantTimeModule.

(** Equal numbers compare alike. *)
Lemma ltb_eqb_l (a b c : number) : eqb a b = true -> ltb a c = ltb b c.
Proof.
  destruct a as [| s | x], b as [| t | y]; simpl; try discriminate.
  - intros E. apply eqb_prop in E. now subst.
  - intros E. apply Qeq_bool_iff in E. destruct c as [| [|] | z]; try reflexivity.
    simpl. now rewrite E.
Qed.

Lemma max_one_not_below (n : number) : ltb (max one n) one = false.
Proof.
  unfold max. destruct (isNaN one || isNaN n) eqn:N; [reflexivity |].
  destruct (ltb one n) eqn:L; [| reflexivity].
  destruct n as [| [|] | q]; try reflexivity; try discriminate.
  unfold one, ofZ in *. apply ltb_finite in L. apply ltb_finite_false.
  now apply Qlt_le_weak.
Qed.

Lemma scaled_not_below (t m : number) : ltb (scaled t m) one = false.
Proof. apply max_one_not_below. Qed.

Lemma max_one_ofZ (z : Z) : max one (ofZ z) = ofZ (Z.max 1 z).
Proof.
  unfold max. change (isNaN one || isNaN (ofZ z)) with false. cbv iota.
  unfold one. rewrite ltb_ofZ.
  destruct (Z.ltb_spec 1 z).
  - now rewrite Z.max_r by lia.
  - now rewrite Z.max_l by lia.
Qed.

(** [scaled] rounds the product to the nearest integer, halves up, and
    raises it to 1. *)
Lemma scaled_nearest (t m : number) : nearestAtLeastOne (mul t m) (scaled t m).
Proof.
  unfold scaled. destruct (mul t m) as [| [|] | p]; try reflexivity.
  cbn [nearestAtLeastOne round]. exists (Qfloor (p + (1 # 2))).
  split; [| split; [| apply max_one_ofZ]].
  - apply Qplus_le_l with (z := 1 # 2).
    setoid_replace (inject_Z (Qfloor (p + (1 # 2))) - (1 # 2) + (1 # 2))%Q
      with (inject_Z (Qfloor (p + (1 # 2)))) by ring.
    apply Qfloor_le.
  - apply Qplus_lt_l with (z := 1 # 2).
    setoid_replace (inject_Z (Qfloor (p + (1 # 2))) + (1 # 2) + (1 # 2))%Q
      with (inject_Z (Qfloor (p + (1 # 2)) + 1)).
    + apply Qlt_floor.
    + rewrite inject_Z_plus. unfold inject_Z, Qplus, Qeq. simpl. lia.
Qed.

(** With finite operands the scaled time is an integer, at least 1, or
    plus infinity when the product is beyond the doubles. *)
Lemma scaled_finite (x y : Q) :
  isIntegerNumber (scaled (Finite x) (Finite y)) = true
  \/ (scaled (Finite x) (Finite y) = Infinity false
      /\ mul (Finite x) (Finite y) = Infinity false).
Proof.
  unfold scaled. cbn [mul].
  destruct (toDouble_cases (x * y)) as [[d ->] | [[|] ->]].
  - left. cbn [round]. rewrite max_one_ofZ. apply isInteger_ofZ.
  - left. reflexivity.
  - right. split; reflexivity.
Qed.

Lemma scaled_by_zero (x : Q) : scaled (Finite x) (ofZ 0) = one.
Proof.
  unfold scaled, ofZ. cbn [mul].
  rewrite (toDouble_zero (x * inject_Z 0)) by (unfold inject_Z; ring).
  reflexivity.
Qed.

Lemma conditionStep_spec (config : IAdditionalSettingsConfig)
      (condition : QuestCondition) :
  timeChange config condition
    (fst (conditionStep (leaveItemAtLocationModifier config)
                        (placeBeaconModifier config) condition)).
Proof.
  destruct condition as [ty [[| s | x] |]]; try (split; reflexivity).
  unfold timeChange, modifierFor, conditionStep.
  cbn [plantTime conditionType isFiniteNumber negb].
  destruct (String.eqb ty "LeaveItemAtLocation").
  - destruct (eqb (leaveItemAtLocationModifier config) one);
      cbn [negb andb fst]; [split; reflexivity |].
    pose proof (scaled_nearest (Finite x) (leaveItemAtLocationModifier config))
      as Hn.
    set (new := scaled _ _) in *.
    destruct (eqb new (Finite x)) eqn:E; cbn [negb fst conditionType plantTime].
    + split; [reflexivity |]. exists (Finite x), new. split; [reflexivity |].
      split; [exact Hn |]. split; [right; now split |].
      rewrite <- (ltb_eqb_l _ _ _ E). apply scaled_not_below.
    + split; [reflexivity |]. exists new, new. split; [reflexivity |].
      split; [exact Hn |]. split; [now left | apply scaled_not_below].
  - destruct (String.eqb ty "PlaceBeacon"); [| split; reflexivity].
    destruct (eqb (placeBeaconModifier config) one);
      cbn [negb andb fst]; [split; reflexivity |].
    pose proof (scaled_nearest (Finite x) (placeBeaconModifier config)) as Hn.
    set (new := scaled _ _) in *.
    destruct (eqb new (Finite x)) eqn:E; cbn [negb fst conditionType plantTime].
    + split; [reflexivity |]. exists (Finite x), new. split; [reflexivity |].
      split; [exact Hn |]. split; [right; now split |].
      rewrite <- (ltb_eqb_l _ _ _ E). apply scaled_not_below.
    + split; [reflexivity |]. exists new, new. split; [reflexivity |].
      split; [exact Hn |]. split; [now left | apply scaled_not_below].
Qed.

Lemma timeChange_refl (config : IAdditionalSettingsConfig)
      (condition : QuestCondition) :
  eqb (leaveItemAtLocationModifier config) one = true ->
  eqb (placeBeaconModifier config) one = true ->
  timeChange config condition condition.
Proof.
  intros Hl Hb. split; [reflexivity |].
  destruct (plantTime condition) as [[| s | x] |]; try reflexivity;
    try (destruct (modifierFor config condition); reflexivity).
  unfold modifierFor.
  destruct (String.eqb _ "LeaveItemAtLocation"); [now rewrite Hl |].
  destruct (String.eqb _ "PlaceBeacon"); [now rewrite Hb | reflexivity].
Qed.

Lemma timeChange_same (config : IAdditionalSettingsConfig)
      (l : list QuestCondition) :
  (forall c, In c l -> timeChange config c c) ->
  Forall2 (timeChange config) l l.
Proof.
  induction l as [| c l IH]; intros H; constructor.
  - apply H. now left.
  - apply IH. intros c' Hc. apply H. now right.
Qed.

Lemma questStep_spec (config : IAdditionalSettingsConfig)
      (entry : string * Quest) :
  Forall2 (timeChange config) (conditionsOfQuest entry)
          (conditionsOfQuest
             (questStep (leaveItemAtLocationModifier config)
                        (placeBeaconModifier config) entry)).
Proof.
  destruct entry as [id [name [[[l |]] |]]]; try constructor.
  unfold questStep, conditionsOfQuest. cbn [conditions snd].
  induction l as [| c l IH]; constructor; [apply conditionStep_spec | exact IH].
Qed.

(** X16.  [applyPlantTimeChanges] leaves the item table alone and changes
    a quest condition only when it is a [LeaveItemAtLocation] or
    [PlaceBeacon] condition with a finite [plantTime] and the multiplier
    of its kind is not 1.  The time written is then the product of the
    time and the multiplier, as the double it is, rounded to the nearest
    integer (halves up) and raised to 1: it is never below 1; for a
    finite multiplier it is an integer, or plus infinity when the product
    is beyond the doubles; and it is 1 for every time when the multiplier
    is 0.  So 45 at the multiplier 0.7 gives 31, the double product being
    just below 31.5, and 30 at the multiplier 1e308 gives infinity.
    Conditions of other kinds, and times that are missing or not finite,
    are left as they are. *)
Theorem applyPlantTimeChanges_keeps_times_at_least_one
        (config : IAdditionalSettingsConfig) (databaseServer : Tables) :
  let after := applyPlantTimeChanges config databaseServer in
  Forall2 (timeChange config) (conditionsOf databaseServer) (conditionsOf after)
  /\ itemsOf after = itemsOf databaseServer
  /\ (forall x y,
        isIntegerNumber (scaled (Finite x) (Finite y)) = true
        \/ (scaled (Finite x) (Finite y) = Infinity false
            /\ mul (Finite x) (Finite y) = Infinity false))
  /\ (forall x, scaled (Finite x) (ofZ 0) = one)
  /\ (forall t m, ltb (scaled t m) one = false)
  /\ scaled (ofZ 45) (toDouble (7 # 10)) = ofZ 31
  /\ scaled (ofZ 30) (toDouble (inject_Z (10 ^ 308))) = Infinity false.
Proof.
  intros after.
  split; [| split; [| split; [| split; [| split; [| split]]]]].
  - unfold after, applyPlantTimeChanges.
    destruct (eqb (leaveItemAtLocationModifier config) one
              && eqb (placeBeaconModifier config) one) eqn:E.
    + apply andb_true_iff in E. destruct E as [El Eb].
      apply timeChange_same. intros c _. now apply timeChange_refl.
    + unfold conditionsOf.
      destruct databaseServer as [[[items [quests |]] |]];
        cbn [templates]; try constructor.
      apply Forall2_flat_map.
      induction quests as [| q quests IH]; constructor;
        [apply questStep_spec | exact IH].
  - unfold after, applyPlantTimeChanges, itemsOf.
    destruct (eqb _ one && eqb _ one); [reflexivity |].
    destruct databaseServer as [[[items [quests |]] |]]; reflexivity.
  - apply scaled_finite.
  - apply scaled_by_zero.
  - apply scaled_not_below.
  - vm_compute. reflexivity.
  - vm_compute. reflexivity.
Qed.

End PlantTimeFacts.

(** ** The weather module's season selection *)

Section WeatherFacts.
Import Js WeatherModule.

Lemma all_indices (i : Z) : In i ALL_SEASON_INDICES <-> 0 <= i <= 6.
Proof. unfold ALL_SEASON_INDICES. simpl. lia. Qed.

(** [getAvailableSeasonIndices] in closed form: the two inner tests can
    never succeed, six seasons being left by the fallback. *)
Lemma getAvailable_closed (c : IWeatherModuleConfig) :
  getAvailableSeasonIndices (Some c)
  = let available := filter (fun i => negb (has (exclude_seasons c) i))
                            ALL_SEASON_INDICES in
    if isEmpty available then [0; 1; 2; 3; 4; 5] else available.
Proof.
  unfold getAvailableSeasonIndices. cbv zeta.
  destruct (filter _ ALL_SEASON_INDICES); reflexivity.
Qed.

Lemma available_incl (mc : option IWeatherModuleConfig) (i : Z) :
  In i (getAvailableSeasonIndices mc) -> 0 <= i <= 6.
Proof.
  destruct mc as [c |]; [| simpl; lia].
  rewrite getAvailable_closed. cbv zeta.
  destruct (filter _ ALL_SEASON_INDICES) as [| a l] eqn:F; cbn [isEmpty].
  - simpl. lia.
  - intros H. rewrite <- F in H. apply filter_In in H.
    now apply all_indices.
Qed.

Lemma available_nonempty (mc : option IWeatherModuleConfig) :
  getAvailableSeasonIndices mc <> [].
Proof.
  destruct mc as [c |]; [| discriminate].
  rewrite getAvailable_closed. cbv zeta.
  destruct (filter _ ALL_SEASON_INDICES); discriminate.
Qed.

Lemma available_NoDup (mc : option IWeatherModuleConfig) :
  NoDup (getAvailableSeasonIndices mc).
Proof.
  destruct mc as [c |]; [| repeat constructor; simpl; tauto].
  rewrite getAvailable_closed. cbv zeta.
  destruct (filter _ ALL_SEASON_INDICES) as [| a l] eqn:F; cbn [isEmpty].
  - repeat constructor; simpl; lia.
  - rewrite <- F. apply NoDup_filter.
    unfold ALL_SEASON_INDICES. repeat constructor; simpl; lia.
Qed.

(** X17.  [getAvailableSeasonIndices] never returns an empty list; what
    it returns holds indices from 0 to 6 only, none of them twice.  When
    the configuration leaves a season available, the list is exactly the
    indices that are not excluded, in rising order; when all seven are
    excluded it is 0 to 5, Storm being withheld; without a configuration
    it is Summer alone. *)
Theorem getAvailableSeasonIndices_never_empty
        (moduleConfig : option IWeatherModuleConfig) :
  let available := getAvailableSeasonIndices moduleConfig in
  available <> []
  /\ (forall i, In i available -> 0 <= i <= 6)
  /\ NoDup available
  /\ (forall c, moduleConfig = Some c ->
        let left := filter (fun i => negb (has (exclude_seasons c) i))
                           ALL_SEASON_INDICES in
        (left <> [] -> available = left)
        /\ (left = [] -> available = [0; 1; 2; 3; 4; 5])
        /\ (forall i, In i left <-> 0 <= i <= 6 /\ has (exclude_seasons c) i = false))
  /\ (moduleConfig = None -> available = [0]).
Proof.
  intros available.
  split; [apply available_nonempty |].
  split; [apply available_incl |].
  split; [apply available_NoDup |].
  split; [| intros ->; reflexivity].
  intros c -> left. unfold available. rewrite getAvailable_closed. cbv zeta.
  fold left.
  split; [| split].
  - destruct left; [congruence | reflexivity].
  - intros ->. reflexivity.
  - intros i. unfold left. rewrite filter_In, all_indices, negb_true_iff.
    tauto.
Qed.

Lemma poolIncludes_In (pool : list Z) (i : Z) :
  In i pool -> poolIncludes pool (ofZ i) = true.
Proof.
  intros H. apply existsb_exists. exists i. split; [exact H |].
  unfold sameValueZero. now rewrite eqb_ofZ, Z.eqb_refl.
Qed.

Lemma poolIncludes_incl (pool pool' : list Z) (n : number) :
  incl pool pool' -> poolIncludes pool n = true -> poolIncludes pool' n = true.
Proof.
  intros Hi H. apply existsb_exists in H. destruct H as [i [Hin E]].
  apply existsb_exists. exists i. split; [now apply Hi | exact E].
Qed.

Lemma available_in_all (mc : option IWeatherModuleConfig) :
  incl (getAvailableSeasonIndices mc) ALL_SEASON_INDICES.
Proof. intros i Hi. apply all_indices. now apply (available_incl mc). Qed.

Lemma hd_available (mc : option IWeatherModuleConfig) :
  exists i, hd_error (getAvailableSeasonIndices mc) = Some i
            /\ In i (getAvailableSeasonIndices mc).
Proof.
  pose proof (available_nonempty mc) as H.
  destruct (getAvailableSeasonIndices mc) as [| i l]; [congruence |].
  exists i. split; [reflexivity | now left].
Qed.

(** The final validation of [determineAndSetSeason]: what is returned is
    in the pool of the method, or is the first available index. *)
Lemma final_validation (available pool : list Z) (chosen : Selection) :
  let final :=
    match selectedIndex chosen with
    | Some index =>
        if poolIncludes pool index then chosen
        else mkSelection (option_map ofZ (hd_error available))
                         (selectionMethod chosen ++ " - Final Fallback")
    | None =>
        mkSelection (option_map ofZ (hd_error available))
                    (selectionMethod chosen ++ " - Final Fallback")
    end in
  (exists n, selectedIndex final = Some n /\ poolIncludes pool n = true
             /\ final = chosen)
  \/ (selectedIndex final = option_map ofZ (hd_error available)
      /\ selectionMethod final = selectionMethod chosen ++ " - Final Fallback").
Proof.
  cbv zeta. destruct (selectedIndex chosen) as [index |] eqn:S.
  - destruct (poolIncludes pool index) eqn:P.
    + left. exists index. repeat split; assumption.
    + right. split; reflexivity.
  - right. split; reflexivity.
Qed.


Lemma poolIncludes_eqb (pool : list Z) (n : number) :
  poolIncludes pool n = true ->
  exists i, In i pool /\ eqb (ofZ i) n = true.
Proof.
  intros H. apply existsb_exists in H. destruct H as [i [Hin E]].
  exists i. split; [exact Hin |].
  unfold sameValueZero in E. apply orb_true_iff in E.
  destruct E as [E | E]; [exact E | discriminate].
Qed.

Lemma poolIncludes_ofZ (pool : list Z) (j : Z) :
  poolIncludes pool (ofZ j) = true -> In j pool.
Proof.
  intros H. apply poolIncludes_eqb in H. destruct H as [i [Hin E]].
  rewrite eqb_ofZ in E. apply Z.eqb_eq in E. now subst.
Qed.

Lemma eqb_sym (a b : number) : eqb a b = eqb b a.
Proof.
  destruct a as [| s | x], b as [| t | y]; simpl; try reflexivity.
  - now destruct s, t.
  - apply Qeq_bool_comm.
Qed.

(** X18.  Given SPT's weather configuration and the module's,
    [determineAndSetSeason] always selects one of the seven seasons,
    whatever the configuration and whatever number the random source
    returns, and stores the selection in [overrideSeason].  With
    [use_fixed_season] and a [fixed_season_index] from 1 to 7 the
    season selected is that index minus one, excluded or not.  Without
    one of the two configurations nothing is selected and nothing is
    written. *)
Theorem determineAndSetSeason_sets_a_valid_season
        (base : WeatherConfig) (c : IWeatherModuleConfig) (random : number) :
  let out := determineAndSetSeason (Some base) (Some c) random in
  (exists i n,
      0 <= i <= 6
      /\ selectedIndex (snd out) = Some n
      /\ eqb n (ofZ i) = true
      /\ fst out = Some (mkBase (Some n)))
  /\ (use_fixed_season c = true ->
      forall k, 1 <= k <= 7 -> fixed_season_index c = ofZ k ->
      selectedIndex (snd out) = Some (ofZ (k - 1))
      /\ selectionMethod (snd out) = "Fixed")
  /\ (forall mc, determineAndSetSeason None mc random
                 = (None, mkSelection None "Error - Config Missing"))
  /\ determineAndSetSeason (Some base) None random
     = (Some base, mkSelection None "Error - Config Missing").
Proof.
  intros out.
  split; [| split; [| split; [intros [mc |]; reflexivity | reflexivity]]].
  - unfold out, determineAndSetSeason.
    set (available := getAvailableSeasonIndices (Some c)).
    destruct (hd_available (Some c)) as [h [Hh Hin]]. fold available in Hh, Hin.
    assert (Hne : isEmpty available = false)
      by (destruct available; [destruct Hin | reflexivity]).
    rewrite Hne.
    set (chosen := if use_fixed_season c then _ else _).
    set (pool := if contains (selectionMethod chosen) "All"
                    || contains (selectionMethod chosen) "Fixed"
                 then ALL_SEASON_INDICES else available).
    assert (Hpool : incl pool ALL_SEASON_INDICES).
    { unfold pool. destruct (_ || _); [apply incl_refl |].
      apply available_in_all. }
    pose proof (final_validation available pool chosen) as V.
    cbv zeta in V.
    set (final := match selectedIndex chosen with Some _ => _ | None => _ end)
      in *.
    clearbody final. cbn [fst snd].
    destruct V as [[n [S [P _]]] | [S _]].
    + apply poolIncludes_eqb in P. destruct P as [i [Hi E]].
      exists i, n. split; [apply all_indices; now apply Hpool |].
      split; [exact S | split; [now rewrite eqb_sym |]].
      now rewrite S.
    + rewrite Hh in S. cbn [option_map] in S.
      exists h, (ofZ h). split; [now apply (available_incl (Some c)) |].
      split; [exact S | split; [now rewrite eqb_ofZ, Z.eqb_refl |]].
      now rewrite S.
  - intros Hf k Hk Hi. unfold out, determineAndSetSeason.
    destruct (hd_available (Some c)) as [h [Hh Hin]].
    destruct (getAvailableSeasonIndices (Some c)) as [| a l];
      [destruct Hin |].
    cbn [isEmpty]. rewrite Hf, Hi.
    assert (Et : add (ofZ k) (ofZ (-1)) = ofZ (k - 1)).
    { assert (Hcases : k = 1 \/ k = 2 \/ k = 3 \/ k = 4 \/ k = 5 \/ k = 6
                       \/ k = 7) by lia.
      destruct Hcases as [-> | [-> | [-> | [-> | [-> | [-> | ->]]]]]];
        vm_compute; reflexivity. }
    rewrite Et.
    assert (Eg : geb (ofZ (k - 1)) (ofZ 0) = true).
    { unfold geb, gtb. rewrite ltb_ofZ, eqb_ofZ.
      destruct (Z.ltb_spec 0 (k - 1)); [reflexivity |].
      cbn [orb]. apply Z.eqb_eq. lia. }
    assert (El : ltb (ofZ (k - 1)) (ofZ (Z.of_nat (List.length seasonsArray)))
                 = true).
    { rewrite ltb_ofZ. apply Z.ltb_lt. simpl. lia. }
    rewrite Eg, El. cbn [andb selectionMethod selectedIndex].
    change (contains "Fixed" "All" || contains "Fixed" "Fixed") with true.
    cbv iota.
    rewrite poolIncludes_In by (apply all_indices; lia).
    split; reflexivity.
Qed.

(** X19.  Outside the fixed mode, in the weighted mode and in the random
    mode that respects exclusions ([random_system_mode] other than 0),
    the season [determineAndSetSeason] selects is always one of the
    available indices, whatever the random source returns; so an excluded
    season is never selected as long as the exclusion list leaves one
    available. *)
Theorem determineAndSetSeason_respects_exclusions
        (base : WeatherConfig) (c : IWeatherModuleConfig) (random : number) :
  use_fixed_season c = false ->
  use_weight_system c = true \/ eqb (random_system_mode c) (ofZ 0) = false ->
  let out := determineAndSetSeason (Some base) (Some c) random in
  exists i,
    selectedIndex (snd out) = Some (ofZ i)
    /\ In i (getAvailableSeasonIndices (Some c))
    /\ (filter (fun i => negb (has (exclude_seasons c) i)) ALL_SEASON_INDICES
        <> [] ->
        has (exclude_seasons c) i = false).
Proof.
  intros Hf Hmode out.
  assert (Hsel : exists i, selectedIndex (snd out) = Some (ofZ i)
                           /\ In i (getAvailableSeasonIndices (Some c))).
  { unfold out, determineAndSetSeason.
    set (available := getAvailableSeasonIndices (Some c)).
    destruct (hd_available (Some c)) as [h [Hh Hin]]. fold available in Hh, Hin.
    assert (Hne : isEmpty available = false)
      by (destruct available; [destruct Hin | reflexivity]).
    rewrite Hne, Hf.
    set (chosen := if use_weight_system c then _ else _).
    assert (Hc : (exists o, selectedIndex chosen = option_map ofZ o)
                 /\ contains (selectionMethod chosen) "All"
                    || contains (selectionMethod chosen) "Fixed" = false).
    { unfold chosen. destruct (use_weight_system c).
      - split; [eexists; reflexivity | reflexivity].
      - destruct Hmode as [Hm | Hm]; [discriminate |]. rewrite Hm.
        split; [eexists; reflexivity | reflexivity]. }
    destruct Hc as [[o Ho] Hp]. rewrite Hp.
    pose proof (final_validation available available chosen) as V.
    cbv zeta in V.
    set (final := match selectedIndex chosen with Some _ => _ | None => _ end)
      in *.
    clearbody final. cbn [fst snd].
    destruct V as [[n [S [P E]]] | [S _]].
    - subst final. rewrite Ho in S. destruct o as [j |]; [| discriminate].
      cbn [option_map] in S. injection S as <-.
      exists j. rewrite Ho. split; [reflexivity | now apply poolIncludes_ofZ].
    - exists h. rewrite Hh in S. split; [exact S | exact Hin]. }
  destruct Hsel as [i [S Hin]]. exists i.
  split; [exact S | split; [exact Hin |]].
  intros Hleft. rewrite getAvailable_closed in Hin. cbv zeta in Hin.
  destruct (filter _ ALL_SEASON_INDICES) as [| a l] eqn:F; [congruence |].
  cbn [isEmpty] in Hin. rewrite <- F in Hin. apply filter_In in Hin.
  now apply negb_true_iff.
Qed.

(** With Summer to Spring excluded and the weighted mode on, the season
    selected is one of the three left. *)
Lemma determineAndSetSeason_respects_exclusions_witness :
  exists i,
    selectedIndex
      (snd (determineAndSetSeason (Some (mkBase None))
                                  (Some lateSeasonsFavoured) (ofZ 0)))
    = Some (ofZ i)
    /\ In i [4; 5; 6].
Proof.
  pose proof (determineAndSetSeason_respects_exclusions
                (mkBase None) lateSeasonsFavoured (ofZ 0)
                eq_refl (or_introl eq_refl)) as H.
  cbv zeta in H. destruct H as [i [S [Hin _]]].
  exists i. split; [exact S | exact Hin].
Defined.

End WeatherFacts.

Section WeightedFacts.
Import Js WeatherModule.

(** The weights are looked up under the display names of
    [seasonsArray]; the configuration has no property called
    [Late Autumn] or [Early Spring], so the seasons 4 and 5 have no
    weight, whatever [LateAutumn] and [EarlySpring] hold. *)
Lemma weightOfSeason_cases (c : IWeatherModuleConfig) (i : Z) :
  (i = 0 /\ weightOfSeason c i = Num (Summer c))
  \/ (i = 1 /\ weightOfSeason c i = Num (Autumn c))
  \/ (i = 2 /\ weightOfSeason c i = Num (Winter c))
  \/ (i = 3 /\ weightOfSeason c i = Num (Spring c))
  \/ (i = 6 /\ weightOfSeason c i = Num (Storm c))
  \/ (~ In i [0; 1; 2; 3; 6] /\ weightOfSeason c i = Undefined).
Proof.
  unfold weightOfSeason, seasonName.
  destruct (Z.ltb_spec i 0) as [Hneg | Hpos];
    [repeat right; split; [simpl; lia | reflexivity] |].
  destruct (Z.to_nat i) as [| [| [| [| [| [| [| n]]]]]]] eqn:E;
    cbn [nth_error seasonsArray].
  - left. split; [lia | reflexivity].
  - right. left. split; [lia | reflexivity].
  - right. right. left. split; [lia | reflexivity].
  - right. right. right. left. split; [lia | reflexivity].
  - repeat right. split; [simpl; lia | reflexivity].
  - repeat right. split; [simpl; lia | reflexivity].
  - right. right. right. right. left. split; [lia | reflexivity].
  - repeat right. split; [simpl; lia | now destruct n].
Qed.

Lemma weightOfSeason_late (c : IWeatherModuleConfig) (la es : number) (i : Z) :
  weightOfSeason (withLateWeights c la es) i = weightOfSeason c i.
Proof.
  destruct (weightOfSeason_cases c i)
    as [[H E] | [[H E] | [[H E] | [[H E] | [[H E] | [H E]]]]]];
    destruct (weightOfSeason_cases (withLateWeights c la es) i)
      as [[H' E'] | [[H' E'] | [[H' E'] | [[H' E'] | [[H' E'] | [H' E']]]]]];
    rewrite E, E'; try reflexivity; exfalso; simpl in *; lia.
Qed.

Lemma collectWeights_ext (c c' : IWeatherModuleConfig) (l : list Z) :
  (forall i, weightOfSeason c' i = weightOfSeason c i) ->
  forall ws t, collectWeights c' l ws t = collectWeights c l ws t.
Proof.
  intros H. induction l as [| i l IH]; intros ws t; [reflexivity |].
  cbn [collectWeights]. rewrite H.
  destruct (weightOfSeason c i); try apply IH.
  destruct (_ && _); apply IH.
Qed.

Lemma collectWeights_spec (c : IWeatherModuleConfig) (l : list Z) :
  forall ws t,
    collectWeights c l ws t
    = ((ws ++ positiveWeights c l)%list, sumFrom t (positiveWeights c l)).
Proof.
  induction l as [| i l IH]; intros ws t.
  - cbn. now rewrite app_nil_r.
  - cbn [collectWeights positiveWeights]. unfold positiveWeight.
    destruct (weightOfSeason c i) as [| | b | w | s | a | o]; try apply IH.
    destruct (isFiniteNumber w && gtb w (ofZ 0)); [| apply IH].
    rewrite IH, <- app_assoc. reflexivity.
Qed.

Lemma positiveWeights_In (c : IWeatherModuleConfig) (l : list Z) (i : Z)
      (w : number) :
  In (i, w) (positiveWeights c l) ->
  In i l /\ positiveWeight c i = Some w.
Proof.
  induction l as [| j l IH]; [intros [] |].
  cbn [positiveWeights].
  destruct (positiveWeight c j) as [v |] eqn:P.
  - intros [E | H].
    + injection E as <- <-. split; [now left | exact P].
    + destruct (IH H). split; [now right | assumption].
  - intros H. destruct (IH H). split; [now right | assumption].
Qed.

Lemma positiveWeight_season (c : IWeatherModuleConfig) (i : Z) (w : number) :
  positiveWeight c i = Some w ->
  In i [0; 1; 2; 3; 6] /\ isFiniteNumber w = true /\ gtb w (ofZ 0) = true.
Proof.
  unfold positiveWeight.
  destruct (weightOfSeason_cases c i)
    as [[Hi E] | [[Hi E] | [[Hi E] | [[Hi E] | [[Hi E] | [Hi E]]]]]];
    rewrite E; try discriminate;
    match goal with
    | |- context [isFiniteNumber ?x && _] =>
        destruct (isFiniteNumber x) eqn:F; [| discriminate];
        destruct (gtb x (ofZ 0)) eqn:G; [| discriminate]
    end;
    intros H; injection H as <-; subst i; simpl; tauto.
Qed.

(** The second loop returns an entry once the running total passes the
    threshold. *)
Lemma pick_hits (ws : list (Z * number)) (threshold : number) :
  ws <> [] ->
  forall start,
    ltb threshold (sumFrom start ws) = true ->
    exists i, pick ws threshold start = Some i /\ In i (map fst ws).
Proof.
  unfold sumFrom. induction ws as [| [i w] ws IH]; intros Hne start H1;
    [congruence |].
  cbn [pick fold_left snd] in *.
  destruct (ltb threshold (add start w)) eqn:L.
  - exists i. split; [reflexivity | now left].
  - destruct ws as [| iw ws'].
    + cbn [fold_left] in H1. congruence.
    + destruct (IH ltac:(discriminate) _ H1) as [j [Hp Hin]]. exists j.
      split; [exact Hp | now right].
Qed.

Lemma positive_not_leb (t : number) :
  ltb (ofZ 0) t = true -> leb t (ofZ 0) = false.
Proof.
  destruct t as [| [|] | q]; try discriminate; [reflexivity |].
  intros H. unfold ofZ in *. apply ltb_finite in H.
  change (inject_Z 0) with 0%Q in *.
  unfold leb. apply orb_false_iff. split.
  - apply ltb_finite_false. now apply Qlt_le_weak.
  - cbn [eqb]. destruct (Qeq_bool q 0) eqn:E; [| reflexivity].
    apply Qeq_bool_iff in E. rewrite E in H. now apply Qlt_irrefl in H.
Qed.

(** In the weighted mode with a positive total, a draw that stays below
    the total selects a season that has a weight. *)
Lemma weighted_selects (c : IWeatherModuleConfig) (random : number) :
  let available := getAvailableSeasonIndices (Some c) in
  ltb (ofZ 0) (totalWeight c) = true ->
  ltb (mul random (totalWeight c)) (totalWeight c) = true ->
  exists i w,
    getWeightedRandomSeasonIndex (Some c) available random = Some i
    /\ In i available /\ positiveWeight c i = Some w.
Proof.
  intros available Ht Hdraw.
  unfold getWeightedRandomSeasonIndex. fold available.
  unfold totalWeight in Ht, Hdraw. fold available in Ht, Hdraw.
  rewrite collectWeights_spec in *. cbn [fst snd app] in *.
  set (ws := positiveWeights c available) in *.
  rewrite (positive_not_leb _ Ht).
  assert (Hne : ws <> []).
  { intros E. rewrite E in Ht. cbn in Ht. discriminate. }
  destruct (pick_hits ws (mul random (sumFrom (ofZ 0) ws)) Hne (ofZ 0) Hdraw)
    as [i [Hp Hin]].
  rewrite Hp. apply in_map_iff in Hin. destruct Hin as [[i' w] [E Hin]].
  cbn in E. subst i'. apply positiveWeights_In in Hin.
  exists i, w. tauto.
Qed.

Lemma available_late (c : IWeatherModuleConfig) (la es : number) :
  getAvailableSeasonIndices (Some (withLateWeights c la es))
  = getAvailableSeasonIndices (Some c).
Proof. reflexivity. Qed.

Lemma weighted_late (c : IWeatherModuleConfig) (la es : number)
      (available : list Z) (random : number) :
  getWeightedRandomSeasonIndex (Some (withLateWeights c la es)) available random
  = getWeightedRandomSeasonIndex (Some c) available random.
Proof.
  unfold getWeightedRandomSeasonIndex.
  rewrite (collectWeights_ext c); [reflexivity |].
  apply weightOfSeason_late.
Qed.

(** X20.  The weighted mode looks the weights up under the display names
    [Late Autumn] and [Early Spring], which are no properties of the
    configuration: what [determineAndSetSeason] does is independent of the
    [LateAutumn] and [EarlySpring] weights, and the two seasons are never
    selected by their weight.  Whenever the available seasons among
    Summer, Autumn, Winter, Spring and Storm have a positive total weight
    and the draw, the random number times the total as a double, is below
    the total, the weighted mode selects one of these five; so with
    Summer to Spring excluded and a weight of 1000 on each of the two late
    seasons against 5 on Storm it selects Storm.  When the product rounds
    up to the total no entry is hit and the first available season is
    returned, which can be a late one: with the four seasons excluded, the
    smallest double as the weight of Storm and the random number 0.75 the
    season selected is Late Autumn. *)
Theorem weighted_mode_never_weighs_the_late_seasons
        (base : WeatherConfig) (c : IWeatherModuleConfig) (random : number) :
  (forall la es,
      determineAndSetSeason (Some base) (Some (withLateWeights c la es)) random
      = determineAndSetSeason (Some base) (Some c) random)
  /\ (use_fixed_season c = false -> use_weight_system c = true ->
      ltb (ofZ 0) (totalWeight c) = true ->
      ltb (mul random (totalWeight c)) (totalWeight c) = true ->
      exists i,
        selects (snd (determineAndSetSeason (Some base) (Some c) random)) i
        /\ In i [0; 1; 2; 3; 6]
        /\ In i (getAvailableSeasonIndices (Some c)))
  /\ (ltb (mul random (ofZ 5)) (ofZ 5) = true ->
      selects (snd (determineAndSetSeason (Some base) (Some lateSeasonsFavoured)
                                          random)) 6)
  /\ (mul (Finite (3 # 4)) (totalWeight stormBarelyWeighted)
      = totalWeight stormBarelyWeighted
      /\ selects (snd (determineAndSetSeason (Some base)
                         (Some stormBarelyWeighted) (Finite (3 # 4)))) 4).
Proof.
  assert (Hweighted :
            forall c', use_fixed_season c' = false ->
                       use_weight_system c' = true ->
                       ltb (ofZ 0) (totalWeight c') = true ->
                       ltb (mul random (totalWeight c')) (totalWeight c') = true ->
                       exists i,
                         selects (snd (determineAndSetSeason (Some base) (Some c')
                                         random)) i
                         /\ In i [0; 1; 2; 3; 6]
                         /\ In i (getAvailableSeasonIndices (Some c'))).
  { intros c' Hf Hw Ht Hr.
    destruct (weighted_selects c' random Ht Hr) as [i [w [Hs [Hin Hp]]]].
    exists i. split; [| split; [now apply positiveWeight_season in Hp | exact Hin]].
    unfold selects, determineAndSetSeason.
    set (available := getAvailableSeasonIndices (Some c')) in *.
    assert (Hne : isEmpty available = false)
      by (destruct available; [destruct Hin | reflexivity]).
    rewrite Hne, Hf, Hw, Hs. cbn [option_map selectedIndex selectionMethod].
    change (contains "Weighted Random" "All"
            || contains "Weighted Random" "Fixed") with false.
    cbv iota. rewrite (poolIncludes_In _ _ Hin). reflexivity. }
  split; [| split; [apply Hweighted | split]].
  - intros la es. unfold determineAndSetSeason.
    rewrite available_late, weighted_late. reflexivity.
  - intros Hr.
    assert (Et : totalWeight lateSeasonsFavoured = ofZ 5)
      by (vm_compute; reflexivity).
    destruct (Hweighted lateSeasonsFavoured eq_refl eq_refl)
      as [i [Hs [H5 Hav]]];
      [rewrite Et; reflexivity | rewrite Et; exact Hr |].
    assert (Ei : i = 6).
    { change (getAvailableSeasonIndices (Some lateSeasonsFavoured))
        with [4; 5; 6] in Hav.
      simpl in H5, Hav. lia. }
    now subst i.
  - split; vm_compute; reflexivity.
Qed.

End WeightedFacts.

(** ** From the weather file to the season selection *)

Section WeatherComposition.
Import Js Validation Descriptor Checks CheckFacts ValidatorFacts Loader.
Import WeatherModule.

Lemma valid_indices_are_numbers (l : list value) :
  forallb validSeasonIndex l = true ->
  exists ns, TypedWeather.numbers l = Some ns /\ l = map Num ns.
Proof.
  induction l as [| v l IH]; [now exists [] |].
  cbn [forallb]. intros H. apply andb_true_iff in H. destruct H as [Hv Hl].
  destruct (IH Hl) as [ns [E1 E2]].
  destruct v as [| | b | n | s | a | o]; try discriminate.
  exists (n :: ns). cbn [TypedWeather.numbers map]. rewrite E1. now subst.
Qed.

Lemma has_notExcluded (ns : list number) (i : Z) :
  negb (has ns i) = notExcluded (map Num ns) i.
Proof.
  unfold has, notExcluded.
  induction ns as [| n ns IH]; [reflexivity |].
  cbn [existsb forallb map]. rewrite negb_orb, IH. f_equal.
  unfold sameValueZero, int. cbn [strictEq].
  change (isNaN (ofZ i)) with false. now rewrite andb_false_r, orb_false_r.
Qed.

Lemma available_seasonsLeft (ns : list number) :
  filter (fun i => negb (has ns i)) ALL_SEASON_INDICES
  = seasonsLeft (map Num ns).
Proof.
  unfold seasonsLeft, ALL_SEASON_INDICES. apply filter_ext.
  intros i. apply has_notExcluded.
Qed.

(** An object whose fields meet the constraints of the weather table has
    a typed reading. *)
Lemma weatherSettings_of_valid (o : object) (kept : list value) :
  forallb (scalarOnly o) weatherChecks = true ->
  get o "exclude_seasons" = Arr kept ->
  forallb validSeasonIndex kept = true ->
  exists c, TypedWeather.weatherSettings o = Some c
            /\ map Num (exclude_seasons c) = kept
            /\ (Descriptor.inRange 1 7 (fixed_season_index c) = true
                /\ isIntegerNumber (fixed_season_index c) = true).
Proof.
  intros H Hk Hv. unfold weatherChecks in H.
  cbn [forallb fst snd] in H. unfold scalarOnly in H. cbn [fst snd] in H.
  repeat match type of H with
         | (_ && _) = true =>
             let H1 := fresh "F" in
             apply andb_true_iff in H; destruct H as [H1 H]
         end.
  destruct (valid_indices_are_numbers kept Hv) as [ns [En Ek]].
  unfold TypedWeather.weatherSettings. rewrite Hk.
  cbn [TypedWeather.numberArray]. rewrite En.
  repeat match goal with
         | F : satisfies CBoolean (get o ?k) = true |- _ =>
             destruct (get o k) as [| | ? | ? | ? | ? | ?];
             try discriminate F; clear F
         end.
  repeat match goal with
         | F : satisfies _ (get o ?k) = true |- _ =>
             destruct (get o k) as [| | ? | ? | ? | ? | ?];
             try discriminate F
         end.
  eexists. split; [reflexivity |]. cbn [exclude_seasons fixed_season_index].
  split; [now symmetry |].
  cbn [satisfies Number_isInteger toNum] in *.
  repeat match goal with
         | F : (_ && _) = true |- _ =>
             apply andb_true_iff in F; destruct F
         end.
  split; assumption.
Qed.

Variable deserialize : string -> string -> Exc value.
Variable rebuild : string -> object -> string -> Log * option string.
Variable writeFileSync : string -> Exc unit.
Variables (configFilename logPrefix : string) (debugEnabled : bool).
Variables (readFileSync : Exc string) (template : string).
Variable allowWriteBack : bool.

(** X21.  Whatever the weather file holds, the object the loader returns
    reads as an [IWeatherModuleConfig] whose exclusion list leaves a
    season available: [getAvailableSeasonIndices] returns exactly the
    indices that are not excluded, and its override for a list that
    excludes everything never applies to a loaded configuration.  The
    fixed season index is an integer from 1 to 7. *)
Theorem loaded_weather_settings_leave_a_season :
  let r := loadAndValidateConfigFile deserialize rebuild writeFileSync
             configFilename logPrefix debugEnabled readFileSync template
             defaultWeatherConfigValues validateWeatherConfig allowWriteBack in
  exists c,
    TypedWeather.weatherSettings (returned r) = Some c
    /\ get (returned r) "exclude_seasons" = Arr (map Num (exclude_seasons c))
    /\ getAvailableSeasonIndices (Some c)
       = filter (fun i => negb (has (exclude_seasons c) i)) ALL_SEASON_INDICES
    /\ getAvailableSeasonIndices (Some c)
       = seasonsLeft (map Num (exclude_seasons c))
    /\ (Descriptor.inRange 1 7 (fixed_season_index c) = true
        /\ isIntegerNumber (fixed_season_index c) = true).
Proof.
  intros r.
  assert (H : forallb (scalarOnly (returned r)) weatherChecks = true
              /\ exists kept,
                   get (returned r) "exclude_seasons" = Arr kept
                   /\ forallb validSeasonIndex kept = true
                   /\ seasonsLeft kept <> []).
  { destruct (loader_returned deserialize rebuild writeFileSync configFilename
                logPrefix debugEnabled readFileSync template allowWriteBack
                defaultWeatherConfigValues validateWeatherConfig)
      as [E | [cfg E]]; fold r in E; rewrite E.
    - split; [reflexivity |]. exists []. repeat split. discriminate.
    - split; [apply weather_scalars_validated |].
      destruct (weather_seasons_validated cfg logPrefix) as [l Hl].
      exists (keptSeasons l).
      split; [exact Hl |
              split; [apply keptSeasons_valid | apply keptSeasons_leave_one]]. }
  destruct H as [Hs [kept [Hk [Hv Hleft]]]].
  destruct (weatherSettings_of_valid _ _ Hs Hk Hv) as [c [Hc [Ek Hr]]].
  exists c. split; [exact Hc |].
  split; [now rewrite Ek |].
  assert (Ha : getAvailableSeasonIndices (Some c)
               = filter (fun i => negb (has (exclude_seasons c) i))
                        ALL_SEASON_INDICES).
  { rewrite getAvailable_closed. cbv zeta.
    rewrite available_seasonsLeft, Ek.
    destruct (seasonsLeft kept); [congruence | reflexivity]. }
  split; [exact Ha |].
  split; [now rewrite Ha, available_seasonsLeft | exact Hr].
Qed.

End WeatherComposition.

(** ** The weapon module *)

Section WeaponFacts.
Import WeaponModule.

Variables (MAGAZINE MOUNT : string).

Lemma entryOf_settled (table : list (string * Z)) (itemId : string)
      (target : SizeValue) :
  entryOf table itemId = Some target -> differs (Some target) target = false.
Proof.
  unfold entryOf. destruct (find _ table) as [e |].
  - intros H. injection H as <-. cbn [differs].
    now rewrite eqb_ofZ, Z.eqb_refl.
  - destruct (Js.includes objectPrototype itemId); [| discriminate].
    intros H. injection H as <-. cbn [differs]. now rewrite String.eqb_refl.
Qed.

Lemma shrink_twice (isKind : bool) (table : list (string * Z)) (itemId : string)
      (current : option SizeValue) :
  shrink isKind table itemId (fst (shrink isKind table itemId current))
  = (fst (shrink isKind table itemId current), false).
Proof.
  unfold shrink. destruct isKind; [| reflexivity].
  destruct (entryOf table itemId) as [target |] eqn:E; [| reflexivity].
  destruct (differs current target) eqn:D; cbn [fst].
  - now rewrite (entryOf_settled _ _ _ E).
  - now rewrite D.
Qed.

Lemma entryOf_absent (table : list (string * Z)) (itemId : string) :
  Js.includes (map fst table) itemId = false ->
  Js.includes objectPrototype itemId = false ->
  entryOf table itemId = None.
Proof.
  intros Ht Hp. unfold entryOf. rewrite Hp.
  destruct (find _ table) as [e |] eqn:F; [| reflexivity].
  apply find_some in F. destruct F as [Hin E]. apply String.eqb_eq in E.
  apply includes_false in Ht. exfalso. apply Ht. subst itemId.
  now apply in_map.
Qed.

Lemma entryOf_listed (table : list (string * Z)) (itemId : string) (size : Z) :
  NoDup (map fst table) -> In (itemId, size) table ->
  entryOf table itemId = Some (Size (Js.ofZ size)).
Proof.
  unfold entryOf. induction table as [| [k v] table IH]; [intros _ [] |].
  cbn [map fst find]. intros Hnd [E | Hin].
  - injection E as -> ->. now rewrite String.eqb_refl.
  - inversion Hnd as [| ? ? Hk Hnd']; subst.
    destruct (String.eqb_spec k itemId) as [-> | Hne].
    + exfalso. apply Hk. apply in_map_iff. now exists (itemId, size).
    + now apply IH.
Qed.

Lemma shrink_listed (table : list (string * Z)) (itemId : string) (size : Z)
      (current : option SizeValue) :
  NoDup (map fst table) -> In (itemId, size) table ->
  differs (fst (shrink true table itemId current)) (Size (Js.ofZ size)) = false.
Proof.
  intros Hnd Hin. unfold shrink. rewrite (entryOf_listed _ _ _ Hnd Hin).
  destruct (differs current (Size (Js.ofZ size))) eqn:D; cbn [fst];
    [| exact D].
  cbn [differs]. now rewrite eqb_ofZ, Z.eqb_refl.
Qed.

Lemma includes_app (l l' : list string) (k : string) :
  Js.includes (l ++ l') k = Js.includes l k || Js.includes l' k.
Proof. unfold Js.includes. apply existsb_app. Qed.

Lemma entryOf_inherited (table : list (string * Z)) (member : string) :
  Js.includes (map fst table) member = false ->
  In member objectPrototype ->
  entryOf table member = Some (Inherited member).
Proof.
  intros Ht Hp. unfold entryOf.
  destruct (find _ table) as [e |] eqn:F.
  - apply find_some in F. destruct F as [Hin E]. apply String.eqb_eq in E.
    apply includes_false in Ht. exfalso. apply Ht. subst member.
    now apply in_map.
  - apply includes_In in Hp. now rewrite Hp.
Qed.

Lemma prototype_not_listed (member : string) :
  In member objectPrototype ->
  Js.includes (map fst MAGAZINE_IDS_TO_SHRINK) member = false
  /\ Js.includes (map fst MOUNT_IDS_TO_SHRINK) member = false.
Proof.
  unfold objectPrototype. cbn [In]. intros H.
  repeat (destruct H as [<- | H]; [split; reflexivity |]). destruct H.
Qed.

Lemma shrink_inherited (table : list (string * Z)) (member : string)
      (current : option SizeValue) :
  entryOf table member = Some (Inherited member) ->
  fst (shrink true table member current) = Some (Inherited member).
Proof.
  intros E. unfold shrink. rewrite E.
  destruct (differs current (Inherited member)) eqn:D; cbn [fst];
    [reflexivity |].
  destruct current as [[n | a] |]; try discriminate.
  cbn [differs] in D. apply negb_false_iff, String.eqb_eq in D. now subst.
Qed.

Lemma shrinkStep_spec (entry : string * TemplateItem) :
  shrinkChange MAGAZINE MOUNT entry (fst (shrinkStep MAGAZINE MOUNT entry))
  /\ shrinkStep MAGAZINE MOUNT (fst (shrinkStep MAGAZINE MOUNT entry))
     = (fst (shrinkStep MAGAZINE MOUNT entry), O).
Proof.
  destruct entry as [itemId [name parent [[down up] |]]].
  2:{ split; [| reflexivity]. unfold shrinkChange. cbn.
      repeat split; try reflexivity; intros; discriminate. }
  unfold shrinkStep. cbn [_props _parent _name ExtraSizeDown ExtraSizeUp].
  destruct (String.eqb_spec parent "") as [Ep | Ep].
  - split.
    + unfold shrinkChange. cbn [fst snd _props _parent _name].
      repeat split; try reflexivity; try discriminate;
        intros; congruence.
    + cbn [fst _props _parent]. subst parent. reflexivity.
  - cbn [fst snd]. split.
    + unfold shrinkChange. cbn [fst snd _props _parent _name].
      split; [reflexivity | split; [reflexivity | split; [reflexivity |]]].
      split; [| split; [discriminate | split; [| split; [| split]]]].
      * intros H. rewrite !includes_app in H.
        apply orb_false_iff in H. destruct H as [Hm H].
        apply orb_false_iff in H. destruct H as [Ho Hp].
        unfold shrink.
        rewrite (entryOf_absent _ _ Hm Hp), (entryOf_absent _ _ Ho Hp).
        now destruct (String.eqb parent MAGAZINE), (String.eqb parent MOUNT).
      * intros size props Hin -> _ _. rewrite String.eqb_refl.
        eexists. split; [reflexivity |]. cbn [ExtraSizeDown].
        apply shrink_listed; [| exact Hin].
        unfold MAGAZINE_IDS_TO_SHRINK. apply ValidatorFacts.nodupb_NoDup. reflexivity.
      * intros size props Hin -> _ _. rewrite String.eqb_refl.
        eexists. split; [reflexivity |]. cbn [ExtraSizeUp].
        apply shrink_listed; [| exact Hin].
        unfold MOUNT_IDS_TO_SHRINK. apply ValidatorFacts.nodupb_NoDup. reflexivity.
      * intros props Hin -> _ _. rewrite String.eqb_refl.
        eexists. split; [reflexivity |]. cbn [ExtraSizeDown].
        apply shrink_inherited, entryOf_inherited; [| exact Hin].
        now apply prototype_not_listed.
      * intros props Hin -> _ _. rewrite String.eqb_refl.
        eexists. split; [reflexivity |]. cbn [ExtraSizeUp].
        apply shrink_inherited, entryOf_inherited; [| exact Hin].
        now apply prototype_not_listed.
    + cbn [_props _parent _name ExtraSizeDown ExtraSizeUp].
      destruct (String.eqb_spec parent "") as [| _]; [contradiction |].
      rewrite !shrink_twice. reflexivity.
Qed.

Lemma shrinkSteps_twice (items : ItemTable) :
  let after := map fst (map (shrinkStep MAGAZINE MOUNT) items) in
  map fst (map (shrinkStep MAGAZINE MOUNT) after) = after
  /\ list_sum (map snd (map (shrinkStep MAGAZINE MOUNT) after)) = O.
Proof.
  cbv zeta. induction items as [| e items [IH1 IH2]]; [split; reflexivity |].
  cbn [map]. destruct (shrinkStep_spec e) as [_ H].
  rewrite H. cbn [fst snd]. rewrite list_sum_cons, IH1, IH2. split; reflexivity.
Qed.

(** X22.  [applyInventoryShrink] keeps the id, the name and the parent of
    every template, leaves alone every template without properties and
    every template whose id is in neither of its two tables and names no
    member of [Object.prototype], and leaves a listed magazine or mount
    of the right parent with the listed [ExtraSizeDown] or [ExtraSizeUp].
    The tables are plain objects, so an id such as [constructor] is found
    in them too: a magazine or mount with such an id gets the inherited
    member written as its size.  A second call changes nothing and counts
    nothing.  [applyWeaponChanges] does nothing with [weapon_inv_shrink]
    off. *)
Theorem applyInventoryShrink_changes_only_listed_items
        (config : IAdditionalSettingsConfig) (items : ItemTable) :
  let out := applyInventoryShrink MAGAZINE MOUNT (Some items) in
  (exists after,
      fst out = Some after
      /\ Forall2 (shrinkChange MAGAZINE MOUNT) items after)
  /\ applyInventoryShrink MAGAZINE MOUNT (fst out) = (fst out, O)
  /\ applyInventoryShrink MAGAZINE MOUNT None = (None, O)
  /\ (weapon_inv_shrink config = false ->
      applyWeaponChanges MAGAZINE MOUNT config (Some items) = Some items)
  /\ (forall name down up,
        MAGAZINE <> "" -> MOUNT <> MAGAZINE ->
        applyInventoryShrink MAGAZINE MOUNT
          (Some [("constructor",
                  mkItem name MAGAZINE (Some (mkProps (Some (Size down)) up)))])
        = (Some [("constructor",
                  mkItem name MAGAZINE
                         (Some (mkProps (Some (Inherited "constructor")) up)))],
           1%nat)).
Proof.
  intros out. unfold out, applyInventoryShrink. cbn [fst].
  split; [| split; [| split; [reflexivity | split]]].
  - eexists. split; [reflexivity |].
    apply Forall2_map_step. intros a. apply shrinkStep_spec.
  - destruct (shrinkSteps_twice items) as [H1 H2]. cbv zeta in H1, H2.
    now rewrite H1, H2.
  - intros H. unfold applyWeaponChanges. now rewrite H.
  - intros name down up Hm Hne. cbn [map shrinkStep _props _parent _name].
    destruct (String.eqb_spec MAGAZINE "") as [E | _]; [contradiction |].
    rewrite String.eqb_refl.
    destruct (String.eqb_spec MAGAZINE MOUNT) as [E | _]; [congruence |].
    reflexivity.
Qed.

End WeaponFacts.

(** ** The legacy loader *)

Section LegacyFacts.
Import Js Descriptor LegacyLoader.

Lemma spread_fold (props : object) :
  forall merged k,
    NoDup (keys props) ->
    get (fold_left (fun m kv => set m (fst kv) (snd kv)) props merged) k
    = if hasOwn props k then get props k else get merged k.
Proof.
  induction props as [| [k0 v0] props IH]; intros merged k Hnd;
    [reflexivity |].
  cbn [fold_left fst snd keys map] in *.
  inversion Hnd as [| ? ? Hk0 Hnd']; subst.
  rewrite (IH _ _ Hnd'). cbn [hasOwn get].
  destruct (String.eqb_spec k0 k) as [-> | Hne]; cbn [orb].
  - destruct (hasOwn props k) eqn:H.
    + exfalso. apply Hk0. now apply hasOwn_In.
    + apply get_set_same.
  - destruct (hasOwn props k); [reflexivity |]. now apply get_set_other.
Qed.

Lemma legacy_pmc_valid (merged : object) :
  satisfies CBooleanOrPercent
    (get (fst (Legacy.validatePmcChat merged)) "disablePMC_ChatResponse") = true.
Proof.
  unfold Legacy.validatePmcChat.
  destruct (get merged "disablePMC_ChatResponse")
    as [| | b | n | s | l | o] eqn:G; cbn [fst];
    rewrite ?get_set_same, ?G; try reflexivity.
  destruct (isNaN n || ltb n (ofZ 1) || gtb n (ofZ 100)) eqn:E; cbn [fst];
    rewrite get_set_same; [reflexivity |].
  apply orb_false_iff in E. destruct E as [E Hhi].
  apply orb_false_iff in E. destruct E as [Hnan Hlo].
  destruct n as [| [|] | q]; try discriminate.
  cbn [floor satisfies isBoolean orb Number_isInteger toNum].
  rewrite isInteger_ofZ, inRange_ofZ. cbn [andb].
  assert (Hr : inRange 1 100 (Finite q) = true)
    by (unfold inRange; now rewrite Hlo, Hhi).
  apply floor_inRange in Hr. apply andb_true_iff. split; apply Z.leb_le; lia.
Qed.

Lemma legacy_pmc_other (merged : object) (k : string) :
  k <> "disablePMC_ChatResponse" ->
  get (fst (Legacy.validatePmcChat merged)) k = get merged k.
Proof.
  intros Hk. unfold Legacy.validatePmcChat.
  destruct (get merged "disablePMC_ChatResponse") as [| | b | n | s | l | o];
    cbn [fst]; try reflexivity; try (apply get_set_other; congruence).
  destruct (_ || _); cbn [fst]; apply get_set_other; congruence.
Qed.

Lemma legacy_stack_valid (merged : object) :
  exists n, get (validateStackSize merged) "stacksize_lega" = Num n
            /\ isNaN n = false.
Proof.
  unfold validateStackSize.
  destruct (get merged "stacksize_lega") as [| | b | n | s | l | o] eqn:G;
    rewrite ?get_set_same; try (eexists; split; reflexivity).
  destruct (isNaN n) eqn:N.
  - rewrite get_set_same. eexists; split; reflexivity.
  - exists n. split; assumption.
Qed.

Lemma legacy_stack_other (merged : object) (k : string) :
  k <> "stacksize_lega" -> get (validateStackSize merged) k = get merged k.
Proof.
  intros Hk. unfold validateStackSize.
  destruct (get merged "stacksize_lega") as [| | b | n | s | l | o];
    try (apply get_set_other; congruence).
  destruct (isNaN n); [apply get_set_other; congruence | reflexivity].
Qed.

Variable deserialize : string -> string -> Exc value.
Variable configPath : string.

(** X23.  The legacy loader [loadOrCreateConfig] validates two fields
    only.  Whatever the file holds, the object returned has a
    [disablePMC_ChatResponse] that is a boolean or an integer from 1 to
    100 (a number in that range is floored) and a [stacksize_lega] that
    is a number other than NaN, with no range check; every other property
    of a parsed object, known or unknown, is taken over as it is; and when
    the file is missing, cannot be read or does not parse, the defaults
    are returned.  An existing file is never written, a missing one is
    created with the default text, and that text loads as the defaults. *)
Theorem legacy_loader_validates_two_fields
        (file : Loader.File) (writeThrows : bool) (readThrows : option Error) :
  let out := loadOrCreateConfig deserialize configPath file writeThrows
                                readThrows in
  let cfg := fst (fst out) in
  satisfies CBooleanOrPercent (get cfg "disablePMC_ChatResponse") = true
  /\ (exists n, get cfg "stacksize_lega" = Num n /\ isNaN n = false)
  /\ (snd out <> LoadedFile -> cfg = Legacy.defaultConfigValues)
  /\ (forall content o,
        file = Some content -> readThrows = None ->
        deserialize (Legacy.stripJsonComments content) configPath
        = Return (Obj o) ->
        NoDup (keys o) ->
        snd out = LoadedFile
        /\ forall k, k <> "disablePMC_ChatResponse" -> k <> "stacksize_lega" ->
                     get cfg k = if hasOwn o k then get o k
                                 else get Legacy.defaultConfigValues k)
  /\ (snd (fst out) = file
      \/ (file = None /\ snd (fst out) = Some defaultConfigJsonc))
  /\ fst (fst (loadOrCreateConfig Json.deserialize configPath
                 (Some defaultConfigJsonc) writeThrows None))
     = Legacy.defaultConfigValues.
Proof.
  intros out cfg.
  assert (Hcases :
            (snd out <> LoadedFile /\ cfg = Legacy.defaultConfigValues)
            \/ (exists content v,
                   file = Some content /\ readThrows = None
                   /\ deserialize (Legacy.stripJsonComments content) configPath
                      = Return v
                   /\ snd out = LoadedFile
                   /\ cfg = validateStackSize
                              (fst (Legacy.validatePmcChat
                                      (spread Legacy.defaultConfigValues v))))).
  { unfold cfg, out, loadOrCreateConfig.
    destruct file as [content |].
    - destruct readThrows as [e |]; cbn [bind].
      + left. split; [discriminate | reflexivity].
      + destruct (deserialize _ configPath) as [v | e] eqn:D; cbn [bind].
        * right. exists content, v. repeat split. exact D.
        * left. split; [discriminate | reflexivity].
    - left. destruct writeThrows; split; try discriminate; reflexivity. }
  split; [| split; [| split; [| split; [| split]]]].
  - destruct Hcases as [[_ ->] | [content [v [_ [_ [_ [_ ->]]]]]]];
      [reflexivity |].
    rewrite legacy_stack_other by discriminate. apply legacy_pmc_valid.
  - destruct Hcases as [[_ ->] | [content [v [_ [_ [_ [_ ->]]]]]]].
    + eexists. split; reflexivity.
    + apply legacy_stack_valid.
  - intros H. destruct Hcases as [[_ E] | [content [v [_ [_ [_ [E _]]]]]]];
      [exact E | contradiction].
  - intros content o Hf Hr Hd Hnd.
    destruct Hcases as [[H _] | [content' [v [Hf' [_ [Hd' [Hl E]]]]]]].
    + exfalso. apply H. unfold out, loadOrCreateConfig.
      rewrite Hf, Hr. cbn [bind]. rewrite Hd. reflexivity.
    + split; [exact Hl |]. intros k Hk1 Hk2. rewrite E.
      rewrite legacy_stack_other, legacy_pmc_other by assumption.
      assert (content' = content) by congruence. subst content'.
      assert (v = Obj o) by congruence. subst v.
      unfold spread. cbn [Loader.ownProps]. now apply spread_fold.
  - unfold out, loadOrCreateConfig. destruct file as [content |].
    + left. destruct readThrows; cbn [bind]; [reflexivity |].
      destruct (deserialize _ configPath); reflexivity.
    + destruct writeThrows; [now left | right; tauto].
  - vm_compute. reflexivity.
Qed.

End LegacyFacts.

(** ** The flags of the preliminary read *)

Section FlagFacts.
Import Js Text Loader Validation Descriptor Checks MainLoader.

Lemma isCloser_not_space (c : ascii) : isCloser c = true -> isSpace c = false.
Proof.
  unfold isCloser, isSpace. intros H. apply orb_true_iff in H.
  destruct H as [H | H]; apply N.eqb_eq in H; rewrite H; reflexivity.
Qed.

Lemma dropping_ends_on_closer (s : string) :
  closerAfterSpace s = true ->
  exists c r, dropTrailingCommas true s = String c r /\ isSpace c = false.
Proof.
  induction s as [| c r IH]; [discriminate |].
  cbn [closerAfterSpace dropTrailingCommas].
  destruct (isSpace c) eqn:S; cbn [andb negb].
  - exact IH.
  - intros H. exists c, (dropTrailingCommas false r).
    split; [reflexivity | exact S].
Qed.

Lemma fixText_head (c : ascii) (r : string) :
  isSpace c = false ->
  exists d t, Sanitizer.fixText (String c r) = String d t /\ isSpace d = false.
Proof.
  intros S. unfold Sanitizer.fixText. cbn [dropTrailingCommas andb negb].
  destruct (isComma c && closerAfterSpace r) eqn:E.
  - apply andb_true_iff in E. now apply dropping_ends_on_closer.
  - exists c, (dropTrailingCommas false r). split; [reflexivity | exact S].
Qed.

Lemma fixText_trim_blank (u : string) :
  Sanitizer.fixText (trim u) = EmptyString
  \/ trim (Sanitizer.fixText (trim u)) <> EmptyString.
Proof.
  unfold trim at 1 3.
  destruct (trimStart_head u) as [-> | [c [r [-> S]]]]; [now left |].
  destruct (trimEnd_head c r S) as [t ->].
  destruct (fixText_head c t S) as [d [t' [-> S']]].
  right. unfold trim. cbn [trimStart]. rewrite S'.
  destruct (trimEnd_head d t' S') as [t'' ->]. discriminate.
Qed.

(** The sanitized text is empty or holds more than white space. *)
Lemma processText_blank (raw : string) :
  Sanitizer.processText raw = EmptyString
  \/ trim (Sanitizer.processText raw) <> EmptyString.
Proof. apply fixText_trim_blank. Qed.

(** A key that the parsed value does not own keeps the value it had. *)
Lemma merge_foreign (defaultKeys : list string) (loadedConfig : value)
      (debugMsg : string -> Log) (k : string) (ks : list string) :
  ~ In k ks ->
  forall acc,
    get (fst (fold_left
                (fun (acc : object * Log) key =>
                   if includes defaultKeys key && hasOwnProperty loadedConfig key
                   then (set (fst acc) key (get (ownProps loadedConfig) key),
                         snd acc)
                   else (fst acc, snd acc +++ debugMsg key))
                ks acc)) k
    = get (fst acc) k.
Proof.
  induction ks as [| x ks IH]; intros Hk acc; [reflexivity |].
  cbn [fold_left]. rewrite IH by (intros H; apply Hk; now right).
  destruct (includes defaultKeys x && hasOwnProperty loadedConfig x);
    [| reflexivity].
  cbn [fst]. apply get_set_other. intros ->. apply Hk. now left.
Qed.

Lemma indexKey_head (i : nat) (c : ascii) (r : string) :
  indexKey i = String c r -> (48 <=? N_of_ascii c)%N && (N_of_ascii c <=? 57)%N = true.
Proof.
  unfold indexKey. destruct (Nat.to_uint i); cbn [NilEmpty.string_of_uint];
    intros H; try discriminate; injection H as <- _; reflexivity.
Qed.

Lemma indexed_keys (k : string) (l : list value) :
  forall i, In k (keys (indexedFrom i l)) -> exists j, k = indexKey j.
Proof.
  induction l as [| v l IH]; intros i; [intros [] |].
  cbn [indexedFrom keys map fst]. intros [<- | H]; [now exists i |].
  now apply (IH (S i)).
Qed.

Lemma flag_not_index (k : string) (l : list value) (i : nat) :
  k = "allow_autoupdate_configs" \/ k = "enableDebugLogs" ->
  ~ In k (keys (indexedFrom i l)).
Proof.
  intros Hk H. apply indexed_keys in H. destruct H as [j E].
  destruct Hk as [-> | ->]; symmetry in E; apply indexKey_head in E;
    discriminate.
Qed.

Lemma validated_flag (cfg : object) (lp k : string) :
  k = "allow_autoupdate_configs" \/ k = "enableDebugLogs" ->
  get (config (validateMainConfig cfg lp)) k = Bool (orKeep false (get cfg k)).
Proof.
  intros Hk. destruct (ValidatorFacts.main_spec cfg lp) as [_ Hc].
  cbv zeta in Hc. rewrite Hc.
  destruct Hk as [-> | ->];
    cbn [find mainChecks fst snd String.eqb Ascii.eqb Bool.eqb];
    unfold settled;
    match goal with
    | |- context [get cfg ?k] =>
        destruct (get cfg k) as [| | ? | ? | ? | ? | ?]; reflexivity
    end.
Qed.

Lemma merged_flag (configFilename lp : string) (dbg : bool) (v : value)
      (k : string) :
  k = "allow_autoupdate_configs" \/ k = "enableDebugLogs" ->
  orKeep false (get (fst (fst (mergeWithDefaults configFilename lp dbg
                                 defaultMainConfigValues v))) k)
  = match v with Obj o => orKeep false (get o k) | _ => false end.
Proof.
  intros Hk.
  assert (Hd : get defaultMainConfigValues k = Bool false)
    by (destruct Hk as [-> | ->]; reflexivity).
  assert (Hin : In k (keys defaultMainConfigValues))
    by (destruct Hk as [-> | ->]; simpl; tauto).
  destruct v as [| | b | n | s | l | o].
  7:{ rewrite merge_value by exact Hin.
      destruct (hasOwn o k) eqn:E; [reflexivity |].
      rewrite Hd. destruct (get o k) eqn:G; try reflexivity.
      exfalso. assert (hasOwn o k = true)
        by (apply get_hasOwn; rewrite G; discriminate). congruence. }
  all: unfold mergeWithDefaults;
    match goal with |- context [truthy ?x] => destruct (truthy x) end;
    cbn [fst snd]; unfold Json.clone; try (now rewrite Hd);
    unfold mergeKnownKeys; rewrite merge_foreign; cbn [fst];
    try (now rewrite Hd); cbn [ownProps keys map];
    try (intros []); now apply flag_not_index.
Qed.

Variable deserialize : string -> string -> Exc value.
Variable rebuild : string -> object -> string -> Log * option string.
Variable writeFileSync : string -> Exc unit.
Variables (configFilename lp template : string) (dbg allow : bool).

(** The object the loader returns for the main file carries the flags
    the preliminary read of the same file finds. *)
Lemma returned_flags (file : File) :
  let pre := preliminaryRead deserialize configFilename file in
  let r := loadAndValidateConfigFile deserialize rebuild writeFileSync
             configFilename lp dbg (MainLoader.readFileSync file) template
             defaultMainConfigValues validateMainConfig allow in
  get (returned r) "allow_autoupdate_configs" = Bool (allowWriteBack (fst pre))
  /\ get (returned r) "enableDebugLogs" = Bool (debugEnabled (fst pre)).
Proof.
  cbv zeta. unfold preliminaryRead, loadAndValidateConfigFile.
  change (defaultFlag "allow_autoupdate_configs") with false.
  change (defaultFlag "enableDebugLogs") with false.
  destruct file as [raw |].
  2:{ split; reflexivity. }
  cbn [MainLoader.readFileSync bind].
  rewrite readAndParse_read. cbv zeta.
  rewrite stripJsonComments_text. cbn [bind].
  rewrite fixTrailingCommas_text. cbn [bind truthy].
  fold (Sanitizer.processText raw).
  destruct (processText_blank raw) as [E | Hne].
  - rewrite E. split; reflexivity.
  - destruct (String.eqb_spec (trim (Sanitizer.processText raw)) "")
      as [E | _]; [contradiction |].
    destruct (String.eqb_spec (Sanitizer.processText raw) "") as [E | _].
    { exfalso. apply Hne. now rewrite E. }
    cbn [negb].
    destruct (deserialize (Sanitizer.processText raw) configFilename)
      as [v | e]; cbn [bind]; [| split; reflexivity].
    cbn [returned]. rewrite !validated_flag by tauto.
    rewrite !merged_flag by tauto.
    destruct v as [| | b | n | s | l | o]; cbn [flagOf bind fst snd];
      split; reflexivity.
Qed.

End FlagFacts.

Section StartupFacts.
Import Js Text Loader Validation Descriptor Checks MainLoader.

Variable deserialize : string -> string -> Exc value.
Variable rebuild : string -> object -> string -> Log * option string.
Variable writeFileSync : string -> Exc unit.
Variables (createMainThrows createWeatherThrows : bool).
Variables (configFilename weatherFilename modName : string).

(** X24.  [loadMainConfig] decides its two flags from a preliminary,
    unvalidated parse of the main file and then loads the file with them.
    The settings it returns always carry those same flags: whatever the
    file holds and whatever the host's parser returns or throws,
    [allow_autoupdate_configs] and [enableDebugLogs] of the returned
    object are the booleans the load itself ran with. *)
Theorem loadMainConfig_returns_the_flags_it_used (before : Disk) :
  let out := loadMainConfig deserialize rebuild writeFileSync createMainThrows
               createWeatherThrows configFilename modName before in
  get (returned (settings out)) "allow_autoupdate_configs"
  = Bool (allowWriteBack (flags out))
  /\ get (returned (settings out)) "enableDebugLogs"
     = Bool (debugEnabled (flags out)).
Proof.
  intros out. unfold out, loadMainConfig. cbn [settings flags].
  apply returned_flags.
Qed.

(** X25.  At start-up ([preSptLoad]) the weather module is started
    exactly when the main settings have [use_weather_module] on and its
    constructor does not throw.  When it is started, its file is left as
    [loadMainConfig] left it unless the loader rewrites it, and it is
    rewritten only when the main file itself, sanitized and parsed, holds
    [allow_autoupdate_configs: true]. *)
Theorem weather_file_follows_the_main_flags
        (resolveThrows : bool) (before : Disk) :
  let p := Mod.preSptLoad deserialize rebuild writeFileSync createMainThrows
             createWeatherThrows configFilename weatherFilename modName
             resolveThrows before in
  let main := returned (settings (fst p)) in
  (snd p = None
   <-> get main "use_weather_module" = Bool false \/ resolveThrows = true)
  /\ (forall r file,
        snd p = Some (r, file) ->
        (written r = None -> file = weatherFile (disk (fst p)))
        /\ (forall text,
              written r = Some text ->
              file = Some text
              /\ get main "allow_autoupdate_configs" = Bool true
              /\ exists raw o,
                  (mainFile before = Some raw
                   \/ (mainFile before = None
                       /\ raw = Headers.DEFAULT_MAIN_CONFIG_JSONC))
                  /\ deserialize (Sanitizer.processText raw) configFilename
                     = Return (Obj o)
                  /\ get o "allow_autoupdate_configs" = Bool true)).
Proof.
  intros p main.
  set (out := loadMainConfig deserialize rebuild writeFileSync createMainThrows
                createWeatherThrows configFilename modName before).
  assert (Hp : p = (out, Mod.initializeWeatherModule deserialize rebuild
                           writeFileSync weatherFilename resolveThrows
                           (returned (settings out))
                           (weatherFile (disk out)))) by reflexivity.
  assert (Hm : main = returned (settings out)) by reflexivity.
  clearbody p main. subst p main. cbn [fst snd].
  assert (Hflags :
            get (returned (settings out)) "allow_autoupdate_configs"
            = Bool (allowWriteBack (flags out))).
  { unfold out, loadMainConfig. cbn [settings flags]. apply returned_flags. }
  assert (Huse : exists b, get (returned (settings out)) "use_weather_module"
                           = Bool b).
  { unfold out, loadMainConfig. cbn [settings].
    set (r := loadAndValidateConfigFile _ _ _ _ _ _ _ _ _ _ _).
    assert (Hvalid : forallb (fun kc => satisfies (snd kc)
                                          (get (returned r) (fst kc)))
                             mainChecks = true).
    { destruct (loader_returned deserialize rebuild writeFileSync
                  configFilename ("[" ++ modName ++ "]")
                  (debugEnabled (fst (preliminaryRead deserialize configFilename
                     (fst (ensureFileExists (mainFile before)
                             Headers.DEFAULT_MAIN_CONFIG_JSONC
                             createMainThrows)))))
                  (MainLoader.readFileSync
                     (fst (ensureFileExists (mainFile before)
                             Headers.DEFAULT_MAIN_CONFIG_JSONC
                             createMainThrows)))
                  Headers.DEFAULT_MAIN_CONFIG_JSONC
                  (allowWriteBack (fst (preliminaryRead deserialize
                     configFilename
                     (fst (ensureFileExists (mainFile before)
                             Headers.DEFAULT_MAIN_CONFIG_JSONC
                             createMainThrows)))))
                  defaultMainConfigValues validateMainConfig)
        as [E | [cfg E]]; cbv zeta in E; fold r in E; rewrite E.
      - apply ValidatorFacts.main_defaults_valid.
      - apply main_validated. }
    rewrite forallb_forall in Hvalid.
    specialize (Hvalid ("use_weather_module", CBoolean)).
    cbn [fst snd] in Hvalid.
    destruct (get (returned r) "use_weather_module") as [| | b | | | |];
      try (discriminate Hvalid; simpl; tauto); [now exists b | ..];
      exfalso; (assert (F : false = true) by (apply Hvalid; simpl; tauto));
      discriminate F. }
  destruct Huse as [b Hb].
  unfold Mod.initializeWeatherModule. rewrite Hb, Hflags. cbn [truthy].
  split.
  - destruct b; cbn [negb]; [destruct resolveThrows |]; split;
      try (intros _; auto; reflexivity); try discriminate;
      intros [H | H]; discriminate.
  - intros r file H.
    destruct b; cbn [negb] in H; [| discriminate].
    destruct resolveThrows; [discriminate |].
    injection H as Hr Hf. unfold loadWeatherConfig in *.
    set (w := loadAndValidateConfigFile _ _ _ _ _ _ _ _ _ _ _) in *.
    cbv zeta in Hr, Hf. subst r. split.
    + intros W. rewrite W in Hf. now symmetry.
    + intros text W. rewrite W in Hf. split; [now symmetry |].
      destruct (loader_written _ _ _ _ _ _ _ _ _ _ _ _ W) as [Hallow _].
      split; [f_equal; exact Hallow |].
      unfold out, loadMainConfig in Hallow. cbn [flags fst] in Hallow.
      destruct (preliminaryRead_allows _ _ _ Hallow)
        as [raw [o [Hfile [_ [Hd Hg]]]]].
      exists raw, o. split; [| tauto].
      destruct (ensureFileExists_cases (mainFile before)
                  Headers.DEFAULT_MAIN_CONFIG_JSONC createMainThrows)
        as [E | [E1 E2]].
      * left. congruence.
      * right. split; [exact E1 | congruence].
Qed.

End StartupFacts.

(** ** The sanitizer only deletes *)

Section DeletionFacts.
Import Js Text Sanitizer.

Lemma string_pair_ind (P : string -> Prop) :
  P EmptyString ->
  (forall c, P (String c EmptyString)) ->
  (forall c d r, P r -> P (String d r) -> P (String c (String d r))) ->
  forall s, P s.
Proof.
  intros H0 H1 H2 s.
  assert (H : P s /\ forall c, P (String c s)).
  { induction s as [| d r [IH1 IH2]].
    - split; [exact H0 | exact H1].
    - split; [apply IH2 |]. intros c. apply H2; [exact IH1 | apply IH2]. }
  apply H.
Qed.

Lemma Deletes_refl (p : ascii -> bool) (s : string) : Deletes p s s.
Proof. induction s; constructor; assumption. Qed.

Lemma Deletes_mono (p q : ascii -> bool) (s t : string) :
  (forall c, p c = true -> q c = true) -> Deletes p s t -> Deletes q s t.
Proof.
  intros Hpq H. induction H; [constructor | now constructor |].
  apply deletes_drop; [now apply Hpq | assumption].
Qed.

Lemma Deletes_trans (p : ascii -> bool) (s t u : string) :
  Deletes p s t -> Deletes p t u -> Deletes p s u.
Proof.
  intros H. revert u. induction H as [| c s t H IH | c s t Hc H IH]; intros u Hu.
  - exact Hu.
  - inversion Hu; subst.
    + apply deletes_keep. now apply IH.
    + apply deletes_drop; [assumption | now apply IH].
  - apply deletes_drop; [assumption | now apply IH].
Qed.

Lemma Deletes_length (p : ascii -> bool) (s t : string) :
  Deletes p s t -> (String.length t <= String.length s)%nat.
Proof. intros H. induction H; simpl; lia. Qed.

Lemma removeBlockComments_deletes (s : string) :
  forall inC, Deletes anything s (removeBlockComments' inC s).
Proof.
  induction s as [| c | c d r IH1 IH2] using string_pair_ind; intros inC.
  - constructor.
  - destruct inC; [apply deletes_drop; [reflexivity | constructor] |].
    apply Deletes_refl.
  - destruct inC.
    + change (removeBlockComments' true (String c (String d r)))
        with (if isStar c && isSlash d then removeBlockComments' false r
              else removeBlockComments' true (String d r)).
      destruct (isStar c && isSlash d).
      * apply deletes_drop; [reflexivity |].
        apply deletes_drop; [reflexivity | apply IH1].
      * apply deletes_drop; [reflexivity | apply IH2].
    + change (removeBlockComments' false (String c (String d r)))
        with (if isSlash c && isStar d
              then if hasBlockEnd r then removeBlockComments' true r
                   else String c (String d r)
              else String c (removeBlockComments' false (String d r))).
      destruct (isSlash c && isStar d).
      * destruct (hasBlockEnd r); [| apply Deletes_refl].
        apply deletes_drop; [reflexivity |].
        apply deletes_drop; [reflexivity | apply IH1].
      * apply deletes_keep, IH2.
Qed.

Lemma slash_withinLine (c : ascii) : isSlash c = true -> withinLine c = true.
Proof.
  unfold isSlash, withinLine, isLineTerminator. intros H.
  apply N.eqb_eq in H. now rewrite H.
Qed.

Lemma removeLineComments_deletes (s : string) :
  forall prev skipping,
    Deletes withinLine s (removeLineComments' prev skipping s).
Proof.
  induction s as [| c | c d r IH1 IH2] using string_pair_ind;
    intros prev skipping.
  - constructor.
  - destruct skipping; [| apply Deletes_refl].
    cbn [removeLineComments']. destruct (isLineTerminator c) eqn:L.
    + apply Deletes_refl.
    + apply deletes_drop; [unfold withinLine; now rewrite L | constructor].
  - destruct skipping.
    + change (removeLineComments' prev true (String c (String d r)))
        with (if isLineTerminator c
              then String c (removeLineComments' (Some c) false (String d r))
              else removeLineComments' (Some c) true (String d r)).
      destruct (isLineTerminator c) eqn:L.
      * apply deletes_keep, IH2.
      * apply deletes_drop; [unfold withinLine; now rewrite L | apply IH2].
    + change (removeLineComments' prev false (String c (String d r)))
        with (if isSlash c && isSlash d
                 && negb (match prev with
                          | Some p => isGuard p
                          | None => false
                          end)
              then removeLineComments' (Some d) true r
              else String c (removeLineComments' (Some c) false (String d r))).
      destruct (isSlash c && isSlash d && _) eqn:E.
      * apply andb_true_iff in E. destruct E as [E _].
        apply andb_true_iff in E. destruct E as [Ec Ed].
        apply deletes_drop; [now apply slash_withinLine |].
        apply deletes_drop; [now apply slash_withinLine | apply IH1].
      * apply deletes_keep, IH2.
Qed.

Lemma trimStart_deletes (s : string) : Deletes isSpace s (trimStart s).
Proof.
  induction s as [| c r IH]; [constructor |].
  cbn [trimStart]. destruct (isSpace c) eqn:S.
  - now apply deletes_drop.
  - apply Deletes_refl.
Qed.

Lemma trimEnd_deletes (s : string) : Deletes isSpace s (trimEnd s).
Proof.
  induction s as [| c r IH]; [constructor |].
  cbn [trimEnd]. destruct (trimEnd r) as [| d t].
  - destruct (isSpace c) eqn:S.
    + now apply deletes_drop.
    + now apply deletes_keep.
  - now apply deletes_keep.
Qed.

Lemma trim_deletes (s : string) : Deletes isSpace s (trim s).
Proof.
  unfold trim. eapply Deletes_trans; [apply trimStart_deletes |].
  apply trimEnd_deletes.
Qed.

Lemma dropTrailingCommas_deletes (s : string) :
  forall dropping, Deletes commaOrSpace s (dropTrailingCommas dropping s).
Proof.
  induction s as [| c r IH]; intros dropping; [constructor |].
  cbn [dropTrailingCommas].
  destruct (dropping && isSpace c) eqn:E1.
  - apply andb_true_iff in E1. destruct E1 as [_ S].
    apply deletes_drop; [unfold commaOrSpace; now rewrite S, orb_true_r |].
    apply IH.
  - destruct (negb dropping && isComma c && closerAfterSpace r) eqn:E2.
    + apply andb_true_iff in E2. destruct E2 as [E2 _].
      apply andb_true_iff in E2. destruct E2 as [_ C].
      apply deletes_drop; [unfold commaOrSpace; now rewrite C |]. apply IH.
    + apply deletes_keep, IH.
Qed.

Lemma stripText_deletes (s : string) : Deletes anything s (stripText s).
Proof.
  unfold stripText.
  eapply Deletes_trans; [apply removeBlockComments_deletes |].
  eapply Deletes_trans;
    [apply (Deletes_mono withinLine); [reflexivity |];
     apply removeLineComments_deletes |].
  apply (Deletes_mono isSpace); [reflexivity | apply trim_deletes].
Qed.

(** X26.  The sanitizer only deletes.  On every text [stripJsonComments]
    and [fixTrailingCommas] return, and what they return is the input
    with code units taken out: nothing is added, changed or moved.
    [fixTrailingCommas] takes out commas and white space only, and the
    line-comment pass of [stripJsonComments] never takes out a line
    break; so the sanitized text is never longer than the file. *)
Theorem sanitizer_only_deletes (s : string) :
  (exists stripped fixed,
      stripJsonComments (Str s) = Return stripped
      /\ fixTrailingCommas (Str stripped) = Return (Str fixed)
      /\ fixed = processText s
      /\ Deletes anything s stripped
      /\ Deletes commaOrSpace stripped fixed)
  /\ Deletes commaOrSpace s (fixText s)
  /\ Deletes withinLine s (removeLineComments s)
  /\ Deletes anything s (processText s)
  /\ (String.length (processText s) <= String.length s)%nat.
Proof.
  assert (H : Deletes anything s (processText s)).
  { unfold processText, fixText.
    eapply Deletes_trans; [apply stripText_deletes |].
    apply (Deletes_mono commaOrSpace); [reflexivity |].
    apply dropTrailingCommas_deletes. }
  split; [| split; [| split; [| split]]].
  - exists (stripText s), (fixText (stripText s)).
    split; [reflexivity | split; [reflexivity | split; [reflexivity |]]].
    split; [apply stripText_deletes | apply dropTrailingCommas_deletes].
  - apply dropTrailingCommas_deletes.
  - apply removeLineComments_deletes.
  - exact H.
  - exact (Deletes_length _ _ _ H).
Qed.

End DeletionFacts.

(** ** The weather routes *)

Section RouteFacts.
Import Js WeatherModule WeatherRoutes.

Lemma selection_any_base (b b' : WeatherConfig)
      (mc : option IWeatherModuleConfig) (random : number) :
  snd (determineAndSetSeason (Some b) mc random)
  = snd (determineAndSetSeason (Some b') mc random).
Proof.
  unfold determineAndSetSeason. destruct mc as [c |]; [| reflexivity].
  destruct (isEmpty _); reflexivity.
Qed.

Lemma base_after (b : WeatherConfig) (mc : option IWeatherModuleConfig)
      (random : number) :
  exists b', fst (determineAndSetSeason (Some b) mc random) = Some b'
             /\ (mc <> None ->
                 b' = mkBase (selectedIndex
                                (snd (determineAndSetSeason (Some b) mc random)))).
Proof.
  unfold determineAndSetSeason. destruct mc as [c |].
  - destruct (isEmpty _); cbn [fst snd]; eexists; split; reflexivity.
  - exists b. split; [reflexivity | congruence].
Qed.

Lemma served_later (mc : option IWeatherModuleConfig) (base : WeatherConfig)
      (requests : list (Request * number)) :
  forall b,
    let out := serve true mc requests (mkState true (Some b)) in
    hasInitialSptWeatherBeenSet (fst out) = true
    /\ Forall2 (laterRequest mc base) requests (snd out).
Proof.
  induction requests as [| [request random] rest IH]; intros b.
  - split; [reflexivity | constructor].
  - cbn [serve]. destruct request.
    + unfold handle, clientWeatherAction.
      cbn [fst snd hasInitialSptWeatherBeenSet].
      destruct (IH b) as [H1 H2]. split; [exact H1 |].
      constructor; [reflexivity | exact H2].
    + unfold handle, fikaRaidCreateAction.
      cbn [fst snd hasInitialSptWeatherBeenSet baseWeatherConfig negb].
      destruct (base_after b mc random) as [b' [E _]]. rewrite E.
      destruct (IH b') as [H1 H2]. split; [exact H1 |].
      constructor; [| exact H2].
      unfold laterRequest. cbn [fst snd].
      now rewrite (selection_any_base b base).
Qed.

Lemma served_plain (mc : option IWeatherModuleConfig) (base : WeatherConfig)
      (flag : bool) (requests : list (Request * number)) :
  forall b,
    let out := serve false mc requests (mkState flag (Some b)) in
    hasInitialSptWeatherBeenSet (fst out) = flag
    /\ Forall2 (plainRequest mc base) requests (snd out).
Proof.
  induction requests as [| [request random] rest IH]; intros b.
  - split; [reflexivity | constructor].
  - cbn [serve]. destruct request.
    + unfold handle, clientWeatherAction.
      cbn [fst snd hasInitialSptWeatherBeenSet baseWeatherConfig].
      destruct (base_after b mc random) as [b' [E _]]. rewrite E.
      destruct (IH b') as [H1 H2]. split; [exact H1 |].
      constructor; [| exact H2].
      unfold plainRequest. cbn [fst snd].
      now rewrite (selection_any_base b base).
    + unfold handle. cbn [fst snd].
      destruct (IH b) as [H1 H2]. split; [exact H1 |].
      constructor; [reflexivity | exact H2].
Qed.

(** X27.  With FIKA detected, of all the requests the routes serve only
    the very first one can determine the season through
    [/client/weather]: the first request of either kind draws the season
    and sets [hasInitialSptWeatherBeenSet], which is never cleared;
    from then on a [/client/weather] request determines nothing and a
    [/fika/raid/create] request draws the season again.  Without FIKA the
    flag is never touched, every [/client/weather] request draws the
    season, and the raid route is not there.  The season drawn depends on
    the module configuration and the random number only. *)
Theorem fika_lets_only_the_first_request_set_the_initial_season
        (mc : option IWeatherModuleConfig) (base : WeatherConfig)
        (first : Request * number) (rest : list (Request * number)) :
  let out := serve true mc (first :: rest) (mkState false (Some base)) in
  hasInitialSptWeatherBeenSet (fst out) = true
  /\ hd_error (snd out)
     = Some (Some (snd (determineAndSetSeason (Some base) mc (snd first)),
                   match fst first with
                   | ClientWeather => "Initial SPT Request (FIKA Active)"
                   | FikaRaidCreate => "FIKA Initial Trigger (Pre-SPT)"
                   end))
  /\ Forall2 (laterRequest mc base) rest (tl (snd out))
  /\ (forall flag requests,
        let plain := serve false mc requests (mkState flag (Some base)) in
        hasInitialSptWeatherBeenSet (fst plain) = flag
        /\ Forall2 (plainRequest mc base) requests (snd plain)).
Proof.
  intros out. unfold out. cbn [serve hd_error tl snd fst].
  destruct (base_after base mc (snd first)) as [b' [E _]].
  assert (H : fst (handle true mc first (mkState false (Some base)))
              = mkState true (Some b')
              /\ snd (handle true mc first (mkState false (Some base)))
                 = Some (snd (determineAndSetSeason (Some base) mc (snd first)),
                         match fst first with
                         | ClientWeather => "Initial SPT Request (FIKA Active)"
                         | FikaRaidCreate => "FIKA Initial Trigger (Pre-SPT)"
                         end)).
  { unfold handle. destruct (fst first);
      unfold clientWeatherAction, fikaRaidCreateAction;
      cbn [fst snd hasInitialSptWeatherBeenSet baseWeatherConfig negb];
      rewrite E; split; reflexivity. }
  destruct H as [H1 H2]. rewrite H1, H2.
  destruct (served_later mc base rest b') as [F1 F2].
  split; [exact F1 | split; [reflexivity | split; [exact F2 |]]].
  intros flag requests. apply served_plain.
Qed.

Lemma lastSelection_from (logged : list Logged) :
  forall start,
    fold_left (fun last entry =>
                 match entry with
                 | Some (selection, _) => Some selection
                 | None => last
                 end)
              logged start
    = match lastSelection logged with
      | Some selection => Some selection
      | None => start
      end.
Proof.
  unfold lastSelection.
  induction logged as [| entry logged IH]; intros start; [reflexivity |].
  cbn [fold_left]. rewrite IH. symmetry. rewrite IH.
  match goal with
  | |- context [fold_left ?f logged None] =>
      destruct (fold_left f logged None); [reflexivity |]
  end.
  destruct entry as [[selection context] |]; reflexivity.
Qed.

Lemma lastSelection_cons (entry : Logged) (logged : list Logged) :
  lastSelection (entry :: logged)
  = match lastSelection logged with
    | Some selection => Some selection
    | None => option_map fst entry
    end.
Proof.
  unfold lastSelection at 1. cbn [fold_left]. rewrite lastSelection_from.
  destruct (lastSelection logged); [reflexivity |].
  destruct entry as [[selection context] |]; reflexivity.
Qed.

(** X28.  Whatever requests are served, with or without FIKA, the
    [overrideSeason] SPT is left with is the season of the last request
    that determined one, and the configuration is untouched when no
    request did. *)
Theorem override_season_is_the_last_selection
        (isFikaDetected : bool) (c : IWeatherModuleConfig)
        (requests : list (Request * number)) (flag : bool)
        (base : WeatherConfig) :
  let out := serve isFikaDetected (Some c) requests (mkState flag (Some base)) in
  baseWeatherConfig (fst out)
  = Some (match lastSelection (snd out) with
          | Some selection => mkBase (selectedIndex selection)
          | None => base
          end).
Proof.
  cbv zeta. revert flag base.
  induction requests as [| [request random] rest IH]; intros flag base;
    [reflexivity |].
  cbn [serve fst snd]. rewrite lastSelection_cons.
  destruct (base_after base (Some c) random) as [b' [E Hb]].
  specialize (Hb ltac:(discriminate)).
  assert (H : (handle isFikaDetected (Some c) (request, random)
                      (mkState flag (Some base))
               = (mkState flag (Some base), None))
              \/ exists flag' context,
                  handle isFikaDetected (Some c) (request, random)
                         (mkState flag (Some base))
                  = (mkState flag' (Some b'),
                     Some (snd (determineAndSetSeason (Some base) (Some c)
                                                      random), context))).
  { unfold handle. cbn [fst snd].
    destruct request, isFikaDetected, flag;
      unfold clientWeatherAction, fikaRaidCreateAction;
      cbn [fst snd hasInitialSptWeatherBeenSet baseWeatherConfig negb];
      rewrite ?E; try (left; reflexivity);
      right; eexists; eexists; reflexivity. }
  destruct H as [-> | [flag' [context ->]]]; cbn [fst snd option_map].
  - rewrite IH. destruct (lastSelection _); reflexivity.
  - rewrite IH. destruct (lastSelection _); [reflexivity |].
    now rewrite Hb.
Qed.

End RouteFacts.

(** ** The unweighted draw *)

Section RandomFacts.
Import Js WeatherModule.

Lemma Qfloor_between (q : Q) (k : Z) :
  (inject_Z k <= q)%Q -> (q < inject_Z (k + 1))%Q -> Qfloor q = k.
Proof.
  intros Hlo Hhi.
  assert (H1 : k <= Qfloor q).
  { rewrite <- (Qfloor_Z k). now apply Qfloor_resp_le. }
  assert (H2 : Qfloor q < k + 1).
  { rewrite Zlt_Qlt. eapply Qle_lt_trans; [apply Qfloor_le | exact Hhi]. }
  lia.
Qed.

Lemma at_ofZ (array : list Z) (k : Z) :
  0 <= k -> at_ array (ofZ k) = nth_error array (Z.to_nat k).
Proof.
  intros Hk. unfold at_, ofZ. rewrite Qfloor_Z.
  change (isIntegerQ (inject_Z k)) with (isIntegerNumber (ofZ k)).
  rewrite isInteger_ofZ. apply Z.leb_le in Hk. now rewrite Hk.
Qed.

(** [getRandomSeasonIndexFromList] returns the entry at the position the
    product, a double, falls into. *)
Lemma random_position (indices : list Z) (random : number) (p : Q) (k : Z) :
  indices <> [] -> 0 <= k ->
  mul random (ofZ (Z.of_nat (List.length indices))) = Finite p ->
  (inject_Z k <= p)%Q -> (p < inject_Z (k + 1))%Q ->
  getRandomSeasonIndexFromList indices random
  = nth_error indices (Z.to_nat k).
Proof.
  intros Hne Hk Hp Hlo Hhi. unfold getRandomSeasonIndexFromList.
  destruct indices as [| i l] eqn:E; [congruence |]. rewrite <- E in *.
  assert (He : isEmpty indices = false) by (now rewrite E).
  rewrite He, Hp. cbn [floor].
  rewrite (Qfloor_between p k Hlo Hhi). now apply at_ofZ.
Qed.

(** X29.  With the fixed and the weighted mode off, [determineAndSetSeason]
    draws by position: when the product of the random number and the
    length of the pool, as the double it is, lies between [k] and [k + 1],
    the season at position [k] of the pool is selected, and the final
    validation never replaces it.  The pool is all seven seasons when
    [random_system_mode] is 0, excluded ones included, and the available
    seasons otherwise.  The position follows the double product, not the
    exact one: the random number 5146971002709138 / 2 ^ 53 times 7 is
    below 4, the double product is 4, and position 4 is selected. *)
Theorem auto_random_draws_by_position
        (base : WeatherConfig) (c : IWeatherModuleConfig) (random : number)
        (p : Q) (k : Z) :
  use_fixed_season c = false ->
  use_weight_system c = false ->
  let all := eqb (random_system_mode c) (ofZ 0) in
  let pool := if all then ALL_SEASON_INDICES
              else getAvailableSeasonIndices (Some c) in
  mul random (ofZ (Z.of_nat (List.length pool))) = Finite p ->
  0 <= k < Z.of_nat (List.length pool) ->
  (inject_Z k <= p)%Q ->
  (p < inject_Z (k + 1))%Q ->
  let out := determineAndSetSeason (Some base) (Some c) random in
  selectedIndex (snd out) = option_map ofZ (nth_error pool (Z.to_nat k))
  /\ nth_error pool (Z.to_nat k) <> None
  /\ selectionMethod (snd out)
     = (if all then "Auto Random (All)" else "Auto Random (Available)")
  /\ fst out = Some (mkBase (selectedIndex (snd out))).
Proof.
  intros Hf Hw all pool Hp Hk Hlo Hhi out.
  assert (Hne : pool <> []).
  { intros E. rewrite E in Hk. simpl in Hk. lia. }
  assert (Hnth : exists i, nth_error pool (Z.to_nat k) = Some i /\ In i pool).
  { destruct (nth_error pool (Z.to_nat k)) as [i |] eqn:E.
    - exists i. split; [reflexivity |]. now apply nth_error_In in E.
    - apply nth_error_None in E. lia. }
  destruct Hnth as [i [Hi Hin]].
  pose proof (random_position pool random p k Hne (proj1 Hk) Hp Hlo Hhi)
    as Hdraw.
  rewrite Hi in Hdraw.
  assert (Hout : out = (Some (mkBase (Some (ofZ i))),
                        mkSelection (Some (ofZ i))
                          (if all then "Auto Random (All)"
                           else "Auto Random (Available)"))).
  { unfold out, determineAndSetSeason.
    set (available := getAvailableSeasonIndices (Some c)) in *.
    assert (He : isEmpty available = false).
    { pose proof (available_nonempty (Some c)) as H. fold available in H.
      destruct available; [congruence | reflexivity]. }
    rewrite He, Hf, Hw. fold all. unfold pool in Hdraw, Hin.
    destruct all.
    - rewrite Hdraw. cbn [option_map selectionMethod selectedIndex].
      change (contains "Auto Random (All)" "All"
              || contains "Auto Random (All)" "Fixed") with true.
      cbv iota. rewrite (poolIncludes_In _ _ Hin). reflexivity.
    - rewrite Hdraw. cbn [option_map selectionMethod selectedIndex].
      change (contains "Auto Random (Available)" "All"
              || contains "Auto Random (Available)" "Fixed") with false.
      cbv iota. rewrite (poolIncludes_In _ _ Hin). reflexivity. }
  rewrite Hout, Hi. cbn [fst snd selectedIndex selectionMethod option_map].
  split; [reflexivity | split; [discriminate | split; reflexivity]].
Qed.

End RandomFacts.

(** The random number 5146971002709138 / 2 ^ 53 times 7 is below 4 and
    the double product is 4: the season at position 4 is selected. *)
Lemma auto_random_draws_by_position_witness :
  ((5146971002709138 # Z.to_pos (2 ^ 53)) * 7 < 4)%Q
  /\ WeatherModule.selectedIndex
       (snd (WeatherModule.determineAndSetSeason
               (Some (WeatherModule.mkBase None)) (Some summerExcluded)
               (Js.Finite (5146971002709138 # Z.to_pos (2 ^ 53)))))
     = Some (Js.ofZ 4).
Proof.
  assert (H0 : Js.mul (Js.Finite (5146971002709138 # Z.to_pos (2 ^ 53)))
                      (Js.ofZ 7)
               = Js.Finite 4) by (vm_compute; reflexivity).
  assert (H1 : 0 <= 4 < 7) by lia.
  assert (H2 : (inject_Z 4 <= 4)%Q) by (unfold Qle; simpl; lia).
  assert (H3 : (4 < inject_Z (4 + 1))%Q) by (unfold Qlt; simpl; lia).
  destruct (auto_random_draws_by_position
              (WeatherModule.mkBase None) summerExcluded
              (Js.Finite (5146971002709138 # Z.to_pos (2 ^ 53))) 4 4
              eq_refl eq_refl H0 H1 H2 H3) as [S _].
  split; [vm_compute; reflexivity | exact S].
Defined.
